(* ===== verification/_CoqProject ===== *)
-Q . S2P
Prelude.v
Abi.v
Ring.v
PipeDefs.v
PipeCopy.v
PipeFifo.v
PipeSide.v
PipeRead.v
PipeWrite.v
PipeWait.v
PipeApi.v
PipeStream.v
PipeTrace.v
PipeLife.v
PipeTheorems.v
Udp.v
Process.v
Server.v
Client.v
ProcessSpecs.v
ServerSpecs.v
ServerEvents.v
ServerRuns.v
Handshake.v
ClientSpecs.v
UdpTheorems.v
Session.v
Handlers.v
HandlerSpecs.v
HandlerTheorems.v
KDefs.v
KEvent.v
KMemory.v
KIoctl.v
KFile.v
KRules.v
KKeeps.v
KState.v
KSpecs.v
KMemSpecs.v
KOffer.v
KReceive.v
KMap.v
KRuns.v
KTheorems.v
KMapTheorems.v
Stack.v
StackTheorems.v
