(* ===== verification/Prelude.v ===== *)
(** * Verification of xen_shm

    xen_shm shares memory between two virtual machines of one Xen host. A kernel
    module (xen_shm.c, with the user's interface in xen_shm.h) grants pages of one
    domain, the offerer, to another one, the receiver, and connects the two by an
    event channel. A user library (xen_shm_pipe.c, xen_shm_pipe.h) makes a
    unidirectional pipe of the shared pages: a ring buffer with one index and one
    word of flags for each end. A server and a client library (server_lib.c,
    client_lib.c) set two pipes up, one for each direction, by messages over UDP
    (xen_shm_udp_proto.h), and hand them to a handler (handler_lib.c), which the
    server runs in a thread for each client.

    ** How the program is modelled

    The code is written in a state monad with faults ([M] in Prelude.v): an access
    out of bounds, misaligned, through a null pointer or to a freed object is a
    [Fault], so that a theorem [wp m Q s] says that [m] run from [s] ends, without
    a fault, in a state and with a result that satisfy [Q]; [safe m Q s] says the
    same of the runs that end within the fuel. Machine integers are Z with their
    wrap-around ([u8], [u16], [u32], [u64], [s32]). Loops have fuel; the bounds
    are given with the rules [wp_while] and [wp_loop], which ask for a measure that
    decreases and starts below the fuel, so that no theorem in [wp] is met by
    running out of fuel.

    Code outside the repository is a parameter. For the library ([PipeEnv] in
    PipeDefs.v) it is the module's answer to each call, and the other end, which
    may change the shared area before every access of this end: the two ends
    interleave at each access. For the module ([KernelEnv] in KDefs.v) it is the
    answer of the kernel and the hypervisor to each call, the other domain's
    changes of the header page before every access, and what happens while a
    process sleeps. For a process that uses the libraries ([UdpEnv] in Process.v) it
    is the answer of each system call, allocation and read of the variable [stop],
    and one [PipeEnv] for each pipe; the address an allocation gives is the
    environment's, so that it may give an address again once it was freed, and an
    access to an address that holds nothing alive is a [UseAfterFree]. Every call is
    kept in the state, with its time or its answer ([calls] and [trace], [ktrace],
    [utrace]), and the theorems speak of these traces. What is assumed of
    this code is a named hypothesis of the theorem that needs it, for instance that
    the other end makes only steps of a writer ([writer_step]), that a closed side
    stays closed ([closing_is_final]), that the other domain leaves the mutex of the
    header page alone ([mutex_untouched]), that a thread told to stop ends
    ([stops_when_told]) or that an answer has one entry per page ([answers_sized]).

    ** The files

    - Prelude.v: integers and flags, the monad, its rules, tactics, generic lemmas.
    - Abi.v: xen_shm.h, the limits, commands, flags, arguments and errno values.
    - Ring.v: lists of bytes read and written around the end of a buffer.

    The pipe library (xen_shm_pipe.c):
    - PipeDefs.v: private and shared structures, the accesses, the flags, signals;
      the queue a ring holds and the legal steps of each end.
    - PipeCopy.v: [__xen_shm_pipe_read_avail] and [__xen_shm_pipe_write_avail] over
      addresses, with their byte loops and 64-bit loops.
    - PipeWait.v: [__xen_shm_pipe_wait_reader] and [__xen_shm_pipe_wait_writer] and
      their specifications.
    - PipeApi.v: the functions of xen_shm_pipe.h.
    - PipeFifo.v, PipeSide.v: the queue as the two ends step; the interface [Side]
      between the copies and what each end may do.
    - PipeRead.v, PipeWrite.v, PipeStream.v: the specifications of the copies, and
      of the transfers built on them, once for total and once for partial
      correctness through the interface [Triple].
    - PipeTrace.v, PipeLife.v: what other ends that leave the ring alone imply;
      opening, closing, errors, signals.
    - PipeTheorems.v: the properties, with concrete ends that meet the hypotheses.

    The handshake, the server and the client:
    - Udp.v: the packed messages of xen_shm_udp_proto.h over buffers of bytes, and
      messages as a type with an encoder and a decoder.
    - Process.v: the heap of list elements, the pipes of a process, system calls;
      ProcessSpecs.v: rules for its accesses, what lives and what was freed, linked
      lists in the heap.
    - Server.v: every function of server_lib.c; [event] is what the event loop finds.
      ServerSpecs.v: a well-formed server ([server_ok]) and the walks of its lists;
      ServerEvents.v: one message; ServerRuns.v: runs of messages as a refinement of
      an abstract server made of two lists, and stopping.
    - Client.v, ClientSpecs.v: client_lib.c with the chain of clean-up labels.
    - Handshake.v: what the messages decode to when the module accepts.
    - UdpTheorems.v: the properties, with concrete systems; Session.v: a client and
      a server together.

    The handlers (handler_lib.c):
    - Handlers.v: the ping loops and the two transfers, each on its own buffer.
    - HandlerSpecs.v: what they move, once for total and once for partial
      correctness; HandlerTheorems.v: the properties.

    The module (xen_shm.c):
    - KDefs.v: instances, header page, globals, calls and accesses.
    - KEvent.v, KMemory.v, KIoctl.v, KFile.v: the code's sections "Event Channel",
      "User mapped memory helpers" with "Memory management" and "mmu_notifier
      operations", "IOCTLs helpers" with the dispatch, and "file operations" with
      "Module Level", one definition per function and one per loop body.
    - KRules.v, KKeeps.v, KState.v: rules for the accesses; relations that whole
      operations keep, by a database of hints ([keeps]).
    - KSpecs.v, KMemSpecs.v, KOffer.v, KReceive.v, KMap.v: what the operations do.
    - KRuns.v: the entry points of the module as a step relation.
    - KTheorems.v, KMapTheorems.v: the properties, with concrete environments.

    The library above the module:
    - Stack.v: the calls of the library as commands of the module ([ioctl_of]), and
      the library's environment answered by a history of the module ([stacked]);
      StackTheorems.v: the properties, with a module below a pipe.

    ** What the theorems show

    Pipes. A transfer delivers a stretch of one stream of bytes, in order, nothing
    lost, repeated or overwritten, for every interleaving with the other end, every
    alignment and every position of the indices (C1 to C4, C7); every access is in
    bounds and aligned; waiting ends when the other end progresses or the memory is
    closed and answers what it found (C5, C6); opening, end of file, closing, after
    which nothing may be done with the pipe, and the signal that ends a copy when the
    other end sleeps (C8 to C10, C12). PipeTheorems.v also has the calls in a
    wrong state, [wrong_state_refused], and two departures from the documentation,
    [write_to_closed_reader] and [interrupted_reader_stays_waiting].

    Handlers. What the ping server sends back is what it received (C13); a receiver
    takes the end of the stream for full transfers until it is told to stop (C14).

    Module. The states an instance goes through over any run, from its opening (C15);
    every outcome
    of becoming an offerer or a receiver and of mapping, with what is undone on each
    failure (C16, C23, C24); releasing (C17, C28); waiting and
    signalling (C18 to C20; [event_handler_signals] and [wrong_state_commands] of
    KTheorems.v); unmapping against a reference and the reach of an
    invalidation (C25, C26); the delayed free queue, which stays empty (C27); the
    size of allocations (C29); loading the module (C30).

    The library above the module. A signal that comes before its receiver sleeps ends
    that sleep, with -EPIPE only of a closed memory (C21); a memory one side has closed
    ends every transfer (C22).

    Server and client. Every message keeps the server well-formed or frees the newest
    connection, and runs refine an abstract server (C31, C32); what an accepted
    CLIENT_HELLO and CLIENT_GRANT do (C33, C34); stopping frees
    every connection, tells the threads to stop and joins them (C35); the client ends
    with two live pipes or none (C36) and the messages it sends decode to what its
    module answered (C37); the two sides fit, each pipe connected by the grant of the
    other side (C11); three
    consequences of the way connections are freed (C38 to C40).

    Several of these establish defects of the code: C14, the second part of C20, the
    last sentence of C24, C26 to C29, C38 to C40, and [same_instant_undefined] of
    HandlerSpecs.v.

    ** Bounds and fuel

    The wait loops of the library have the caller's fuel, one unit a round; with a
    reader or writer that progresses one unit more than the time it starts to do so
    is enough, and with a closed memory one more than the 10000 rounds between two
    checks. The copies have one more than the bytes asked for, since each round
    copies at least one. The loops of the module have 257, more than a page count of
    8 bits allows, or 129 for the data pages. The walks of the server's lists need
    one more than their length. A handler's [rounds] are one more than the time at
    which it is told to stop, since each turn asks.

    ** What is not modelled

    - The memory model: accesses are interleaved, in the order of the source.
    - Calls to the kernel, the hypervisor and the C library, which are answered by
      the environment; printing; the kernel's locking, of which the module has none.
    - [xen_shm_minor_number] is the constant 0 it is in the code.
    - The event library: [run_server] is given the events its loop delivers. The
      registration of the handler of SIGINT, which stops the loop.
    - The threads of a process: the state they share with the server is their pipes
      and [stop], and a handler is run on a process of its own. Joining one records
      the value of its [stop] and blocks ([NoFuel]) unless the environment answers
      that the thread has ended.
    - The values that are printed; the test programs, the scripts and the report. *)
From stdpp Require Export base numbers list.
From Stdlib Require Export ZArith Lia.
Open Scope Z_scope.

(** ** C integers and flag words *)

Declare Scope c_scope.
Delimit Scope c_scope with c.

Definition wrap (w z : Z) : Z := z mod 2 ^ w.
Definition u8 : Z → Z := wrap 8.
Definition u16 : Z → Z := wrap 16.
Definition u32 : Z → Z := wrap 32.
Definition u64 : Z → Z := wrap 64.

(** Conversion to a signed integer of [w] bits (two's complement). *)
Definition signed (w z : Z) : Z :=
  let r := wrap w z in if decide (r < 2 ^ (w - 1)) then r else r - 2 ^ w.
Definition s32 : Z → Z := signed 32.

(** [x & m] used as a condition, [x |= m] and [x &= ~m] on a 32-bit word. *)
Definition has (x m : Z) : bool := negb (Z.land x m =? 0).
Definition set_bits (x m : Z) : Z := Z.lor x m.
Definition clr_bits (x m : Z) : Z := Z.land x (u32 (Z.lnot m)).

(** ** Outcomes, and a state monad with faults and exhausted fuel *)

Inductive fault :=
| OutOfBounds   (* an access outside the object the pointer points into *)
| Misaligned    (* a 64-bit access at an address that is not 8-aligned *)
| NullDeref     (* an access through a null or unmapped pointer *)
| UseAfterFree  (* an access to an object that was freed *)
| Exited        (* the process ended itself *)
| Undefined.    (* what the C language leaves undefined *)

#[export] Instance fault_eq_dec : EqDecision fault.
Proof. solve_decision. Defined.

Inductive outcome (St A : Type) :=
| Done (a : A) (s : St)
| Fault (f : fault)
| NoFuel.
Arguments Done {St A} a s.
Arguments Fault {St A} f.
Arguments NoFuel {St A}.

Definition M (St A : Type) : Type := St → outcome St A.

Section Monad.
Context {St : Type}.

Definition ret {A} (a : A) : M St A := λ s, Done a s.
Definition bind {A B} (m : M St A) (k : A → M St B) : M St B := λ s,
  match m s with
  | Done a s' => k a s'
  | Fault f => Fault f
  | NoFuel => NoFuel
  end.
Definition get : M St St := λ s, Done s s.
Definition modify (f : St → St) : M St unit := λ s, Done tt (f s).
Definition throw {A} (f : fault) : M St A := λ _, Fault f.
Definition when (b : bool) (m : M St unit) : M St unit := if b then m else ret tt.

(** [while (c x) x = body x], with at most [fuel] evaluations of [c]. *)
Fixpoint while {X} (fuel : nat) (c : X → bool) (body : X → M St X) (x : X) : M St X :=
  match fuel with
  | O => λ _, NoFuel
  | S n => if c x then bind (body x) (while n c body) else ret x
  end.

(** A loop whose body may [continue], [break] or [return]. *)
Inductive flow (X R : Type) :=
| Continue (x : X)
| Break (x : X)
| Return (r : R).

Fixpoint loop {X R} (fuel : nat) (body : X → M St (flow X R)) (x : X) : M St (X + R) :=
  match fuel with
  | O => λ _, NoFuel
  | S n => bind (body x) (λ f,
      match f with
      | Continue _ _ x' => loop n body x'
      | Break _ _ x' => ret (inl x')
      | Return _ _ r => ret (inr r)
      end)
  end.

(** Total correctness: [m] started in [s] ends in a result [Q] accepts. *)
Definition wp {A} (m : M St A) (Q : A → St → Prop) (s : St) : Prop :=
  match m s with
  | Done a s' => Q a s'
  | _ => False
  end.

(** Partial correctness: [m] started in [s] does not fault, and [Q] accepts its
    result if its fuel is enough. *)
Definition safe {A} (m : M St A) (Q : A → St → Prop) (s : St) : Prop :=
  match m s with
  | Done a s' => Q a s'
  | Fault _ => False
  | NoFuel => True
  end.
End Monad.

Arguments Continue {X R} x.
Arguments Break {X R} x.
Arguments Return {X R} r.

Notation "'let*' x := m 'in' k" := (bind m (λ x, k))
  (at level 10, x pattern, m at level 200, k at level 200,
   format "'[v' 'let*'  x  :=  m  'in' '/' k ']'") : c_scope.
Notation "m ;; k" := (bind m (λ _, k))
  (at level 100, right associativity, format "'[v' m ;; '/' k ']'") : c_scope.
Open Scope c_scope.

(** ** Rules for total correctness *)

Section Rules.
Context {St : Type}.

Lemma wp_ret {A} (a : A) Q (s : St) : Q a s → wp (ret a) Q s.
Proof. exact id. Qed.

Lemma wp_bind {A B} (m : M St A) (k : A → M St B) Q s :
  wp m (λ a s', wp (k a) Q s') s → wp (bind m k) Q s.
Proof. unfold wp, bind. by destruct (m s). Qed.

Lemma wp_mono {A} (m : M St A) (Q Q' : A → St → Prop) s :
  wp m Q s → (∀ a s', Q a s' → Q' a s') → wp m Q' s.
Proof. unfold wp. destruct (m s); naive_solver. Qed.

Lemma wp_get Q (s : St) : Q s s → wp get Q s.
Proof. exact id. Qed.

Lemma wp_modify f Q (s : St) : Q tt (f s) → wp (modify f) Q s.
Proof. exact id. Qed.

Lemma wp_when b (m : M St unit) Q s :
  (b = true → wp m Q s) → (b = false → Q tt s) → wp (when b m) Q s.
Proof. destruct b; intros H1 H2; [by apply H1 | by apply H2]. Qed.

Lemma wp_if {A} (b : bool) (m1 m2 : M St A) Q s :
  (b = true → wp m1 Q s) → (b = false → wp m2 Q s) → wp (if b then m1 else m2) Q s.
Proof. destruct b; auto. Qed.

Lemma wp_done {A} (m : M St A) Q s :
  wp m Q s → ∃ a s', m s = Done a s' ∧ Q a s'.
Proof. unfold wp. destruct (m s) as [a s'| |]; [eauto | done | done]. Qed.

(** A sequence that ends went through its first part, and both parts' results
    are the sequence's. *)
Lemma bind_done {A B} (m : M St A) (k : A → M St B) s b s' :
  bind m k s = Done b s' → ∃ a s1, m s = Done a s1 ∧ k a s1 = Done b s'.
Proof. unfold bind. destruct (m s) as [a s1| |]; naive_solver. Qed.

Lemma wp_and {A} (m : M St A) (Q Q' : A → St → Prop) s :
  wp m Q s → (∀ a s', m s = Done a s' → Q' a s') → wp m (λ a s', Q a s' ∧ Q' a s') s.
Proof. unfold wp. destruct (m s); naive_solver. Qed.

(** A [while] whose body keeps [I] and decreases [meas] ends, and ends with
    the condition false. *)
Lemma wp_while {X} (I : X → St → Prop) (meas : X → Z) (c : X → bool)
    (body : X → M St X) (Q : X → St → Prop) fuel x s :
  (∀ x s, I x s → c x = true →
    wp (body x) (λ x' s', I x' s' ∧ 0 ≤ meas x' < meas x) s) →
  (∀ x s, I x s → c x = false → Q x s) →
  I x s → 0 ≤ meas x < Z.of_nat fuel →
  wp (while fuel c body x) Q s.
Proof.
  intros Hbody HQ. revert x s.
  induction fuel as [|n IH]; intros x s HI Hf; [lia|]. simpl.
  apply wp_if; intros Hc.
  - apply wp_bind. eapply wp_mono; [by apply Hbody|].
    intros x' s' [HI' Hm]. apply IH; [done | lia].
  - apply wp_ret. by apply HQ.
Qed.

(** The same for [loop]: the body keeps [I] and decreases [meas], or leaves. *)
Lemma wp_loop {X R} (I : X → St → Prop) (meas : X → St → Z) (body : X → M St (flow X R))
    (Q : X + R → St → Prop) fuel x s :
  (∀ x s, I x s → wp (body x) (λ f s',
    match f with
    | Continue x' => I x' s' ∧ 0 ≤ meas x' s' < meas x s
    | Break x' => Q (inl x') s'
    | Return r => Q (inr r) s'
    end) s) →
  I x s → 0 ≤ meas x s < Z.of_nat fuel →
  wp (loop fuel body x) Q s.
Proof.
  intros Hbody. revert x s.
  induction fuel as [|n IH]; intros x s HI Hf; [lia|]. simpl.
  apply wp_bind. eapply wp_mono; [by apply Hbody|].
  intros [x'|x'|r] s' H; [|by apply wp_ret | by apply wp_ret].
  destruct H as [HI' Hm]. apply IH; [done | lia].
Qed.

(** *** Rules for partial correctness *)

Lemma safe_wp {A} (m : M St A) Q s : wp m Q s → safe m Q s.
Proof. unfold wp, safe. by destruct (m s). Qed.

Lemma safe_ret {A} (a : A) Q (s : St) : Q a s → safe (ret a) Q s.
Proof. exact id. Qed.

Lemma safe_bind {A B} (m : M St A) (k : A → M St B) Q s :
  safe m (λ a s', safe (k a) Q s') s → safe (bind m k) Q s.
Proof. unfold safe, bind. by destruct (m s). Qed.

Lemma safe_mono {A} (m : M St A) (Q Q' : A → St → Prop) s :
  safe m Q s → (∀ a s', Q a s' → Q' a s') → safe m Q' s.
Proof. unfold safe. destruct (m s); naive_solver. Qed.

Lemma safe_loop {X R} (I : X → St → Prop) (body : X → M St (flow X R))
    (Q : X + R → St → Prop) fuel x s :
  (∀ x s, I x s → safe (body x) (λ f s',
    match f with
    | Continue x' => I x' s'
    | Break x' => Q (inl x') s'
    | Return r => Q (inr r) s'
    end) s) →
  I x s → safe (loop fuel body x) Q s.
Proof.
  intros Hbody. revert x s. induction fuel as [|n IH]; intros x s HI; [done|]. simpl.
  apply safe_bind. eapply safe_mono; [by apply Hbody|].
  intros [x'|x'|r] s' H; [by apply IH | by apply safe_ret | by apply safe_ret].
Qed.

(** A safe computation that ends has its post-condition. *)
Lemma safe_done {A} (m : M St A) Q s a s' : safe m Q s → m s = Done a s' → Q a s'.
Proof. unfold safe. by intros H E; rewrite E in H. Qed.

(** A loop whose body always continues never ends. *)
Lemma loop_never_ends {X R} (I : X → St → Prop) (body : X → M St (flow X R)) n x s :
  (∀ x s, I x s → wp (body x) (λ f s', ∃ x', f = Continue x' ∧ I x' s') s) →
  I x s → loop n body x s = NoFuel.
Proof.
  intros Hbody. revert x s. induction n as [|n IH]; intros x s HI; [done|].
  destruct (wp_done _ _ _ (Hbody x s HI)) as (f & s' & E & x' & -> & HI').
  simpl. unfold bind. rewrite E. by apply IH.
Qed.

(** More fuel never changes the result of a loop that ended. *)
Lemma loop_fuel_mono {X R} (body : X → M St (flow X R)) n k x s a s' :
  loop n body x s = Done a s' → loop (n + k) body x s = Done a s'.
Proof.
  revert x s. induction n as [|n IH]; intros x s; simpl; [done|].
  unfold bind. destruct (body x s) as [[x'|x'|r] s1| |]; auto.
Qed.
End Rules.

(** The two notions of correctness behind one interface: a specification proved
    against it holds of the results and, where the parts terminate, of the runs. *)
Class Triple (St : Type) := {
  triple : ∀ {A}, M St A → (A → St → Prop) → St → Prop;
  triple_wp A (m : M St A) Q s : wp m Q s → triple m Q s;
  triple_bind A B (m : M St A) (k : A → M St B) Q s :
    triple m (λ a s', triple (k a) Q s') s → triple (bind m k) Q s;
  triple_mono A (m : M St A) (Q Q' : A → St → Prop) s :
    triple m Q s → (∀ a s', Q a s' → Q' a s') → triple m Q' s;
  triple_loop X R (I : X → St → Prop) (meas : X → St → Z) (body : X → M St (flow X R))
      (Q : X + R → St → Prop) fuel x s :
    (∀ x s, I x s → triple (body x) (λ f s',
      match f with
      | Continue x' => I x' s' ∧ 0 ≤ meas x' s' < meas x s
      | Break x' => Q (inl x') s'
      | Return r => Q (inr r) s'
      end) s) →
    I x s → 0 ≤ meas x s < Z.of_nat fuel → triple (loop fuel body x) Q s;
}.

Program Definition total {St} : Triple St := {| triple := @wp St |}.
Next Obligation. done. Qed.
Next Obligation. intros ? ? ? ? ? ? ?. apply wp_bind. Qed.
Next Obligation. intros ? ? ? ? ? ?. apply wp_mono. Qed.
Next Obligation. intros ? ? ? ? ? ? ? ? ? ?. by apply wp_loop. Qed.

Program Definition partial {St} : Triple St := {| triple := @safe St |}.
Next Obligation. intros ? ? ? ? ?. apply safe_wp. Qed.
Next Obligation. intros ? ? ? ? ? ? ?. apply safe_bind. Qed.
Next Obligation. intros ? ? ? ? ? ?. apply safe_mono. Qed.
Next Obligation.
  intros St X R I meas body Q fuel x s Hbody HI _. apply (safe_loop I _ _ _ _ _); [|done].
  intros x' s' HI'. eapply safe_mono; [by apply Hbody|]. intros [x2|x2|r] s2 Hf; [by destruct Hf | exact Hf ..].
Qed.

(** ** Generic tactics *)

(** Turns boolean tests in the hypotheses into propositions. *)
Ltac bool_hyps :=
  repeat match goal with
  | H : negb _ = true |- _ => apply negb_true_iff in H
  | H : negb _ = false |- _ => apply negb_false_iff in H
  | H : (_ && _) = true |- _ => apply andb_true_iff in H as [? ?]
  | H : (_ || _) = false |- _ => apply orb_false_iff in H as [? ?]
  | H : (_ =? _) = true |- _ => apply Z.eqb_eq in H
  | H : (_ =? _) = false |- _ => apply Z.eqb_neq in H
  | H : (_ <? _) = true |- _ => apply Z.ltb_lt in H
  | H : (_ <? _) = false |- _ => apply Z.ltb_ge in H
  | H : (_ <=? _) = true |- _ => apply Z.leb_le in H
  | H : (_ <=? _) = false |- _ => apply Z.leb_gt in H
  end.

(** One step of a [wp] goal through the monad's own constructors. *)
Ltac wp_step :=
  match goal with
  | |- wp (bind _ _) _ _ => apply wp_bind
  | |- wp (ret _) _ _ => apply wp_ret
  | |- wp get _ _ => apply wp_get
  | |- wp (modify _) _ _ => apply wp_modify
  | |- wp (when _ _) _ _ => apply wp_when; intros
  | |- wp (if _ then _ else _) _ _ => apply wp_if; intros
  end.
Ltac wp_steps := repeat (wp_step; cbv beta).

(** Goes past the first part of a sequence known to have ended. *)
Ltac past_bind H :=
  let H' := fresh in
  pose proof (bind_done _ _ _ _ _ H) as (? & ? & _ & H'); clear H; rename H' into H; cbv beta zeta in H.

(** Builds the update of field [f] from [eta], which rebuilds a record from its
    fields. *)
Ltac field_setter eta f :=
  intros v d;
  let t := eval cbv beta delta [eta] in (eta d) in
  match t with context C [f d] => let t' := context C [v] in exact t' end.

(** ** Bits *)

Lemma wrap_small w z : 0 ≤ z < 2 ^ w → wrap w z = z.
Proof. apply Z.mod_small. Qed.

Lemma wrap_range w z : 0 ≤ w → 0 ≤ wrap w z < 2 ^ w.
Proof. intros. apply Z.mod_pos_bound. by apply Z.pow_pos_nonneg. Qed.

(** The low three bits, and the address rounded down to a multiple of 8. *)
Lemma land_7 x : Z.land x 7 = x mod 8.
Proof. exact (Z.land_ones x 3 ltac:(lia)). Qed.

Lemma has_7 x : has x 7 = negb (x mod 8 =? 0).
Proof. unfold has. by rewrite land_7. Qed.

Lemma land_lnot_7 x : 0 ≤ x < 2 ^ 64 → Z.land x (u64 (Z.lnot 7)) = x - x mod 8.
Proof.
  intros Hx. unfold u64, wrap. rewrite <-(Z.land_ones _ 64) by lia.
  rewrite (Z.land_comm (Z.lnot 7)), Z.land_assoc, Z.land_ones by lia.
  rewrite Z.mod_small by done. rewrite <-Z.ldiff_land.
  change 7 with (Z.ones 3). rewrite Z.ldiff_ones_r by lia.
  rewrite Z.shiftl_mul_pow2, Z.shiftr_div_pow2 by lia. change (2 ^ 3) with 8.
  pose proof (Z_div_mod_eq_full x 8). lia.
Qed.

Lemma eqb_iff a b c d : (a = b ↔ c = d) → (a =? b) = (c =? d).
Proof. intros. apply eq_bool_prop_intro. by rewrite !Is_true_true, !Z.eqb_eq. Qed.

(** Linear arithmetic with constant divisors and moduli. *)
Ltac zmod := Z.div_mod_to_equations; lia.

(** ** Relations between the states before and after, kept by whole operations *)

Section Keeps.
Context {St : Type} (R : St → St → Prop).

Definition keeps {A} (m : M St A) : Prop := ∀ s a s', m s = Done a s' → R s s'.

Hypothesis R_refl : ∀ s, R s s.
Hypothesis R_trans : ∀ s1 s2 s3, R s1 s2 → R s2 s3 → R s1 s3.

Lemma keeps_ret {A} (a : A) : keeps (ret a).
Proof. by intros s ? ? [= <- <-]. Qed.
Lemma keeps_throw {A} f : keeps (throw f : M St A).
Proof. by intros s ? ?. Qed.
Lemma keeps_bind {A B} (m : M St A) (f : A → M St B) :
  keeps m → (∀ a, keeps (f a)) → keeps (bind m f).
Proof.
  intros Hm Hf s b s' (a & s1 & E1 & E2)%bind_done. eapply R_trans; [by eapply Hm | by eapply Hf].
Qed.
Lemma keeps_if {A} (b : bool) (m1 m2 : M St A) : keeps m1 → keeps m2 → keeps (if b then m1 else m2).
Proof. by destruct b. Qed.
Lemma keeps_when b (m : M St unit) : keeps m → keeps (when b m).
Proof. intros. apply keeps_if; [done | apply keeps_ret]. Qed.
Lemma keeps_while {X} fuel c (body : X → M St X) x : (∀ x, keeps (body x)) → keeps (while fuel c body x).
Proof.
  intros Hb. revert x. induction fuel as [|n IH]; intros x; [done|]. simpl.
  apply keeps_if; [by apply keeps_bind | apply keeps_ret].
Qed.
Lemma keeps_loop {X Y} fuel (body : X → M St (flow X Y)) x : (∀ x, keeps (body x)) → keeps (loop fuel body x).
Proof.
  intros Hb. revert x. induction fuel as [|n IH]; intros x; [done|]. simpl.
  apply keeps_bind; [done|]. intros []; [done | apply keeps_ret..].
Qed.
End Keeps.

Create HintDb keeps.
