(* ===== verification/Abi.v ===== *)
(** The interface of the module (xen_shm.h), shared by the module and the pipe
    library: limits, commands, flags, argument structures, errno values. *)
From S2P Require Import Prelude.

(** ** Limits *)

Definition XEN_SHM_ALLOC_ALIGNED_PAGES : Z := 128.
Definition XEN_SHM_MAJOR_NUMBER : Z := 0.
Definition XEN_SHM_MAGIC_NUMBER : Z := 83.
Definition XEN_SHM_MAX_SHARED_PAGES : Z := XEN_SHM_ALLOC_ALIGNED_PAGES - 1.

(** ** Commands *)

(** The commands of the module, and any other command, of which the module looks
    at the type and the direction. *)
Inductive ioctl_command :=
| XEN_SHM_IOCTL_INIT_OFFERER
| XEN_SHM_IOCTL_INIT_RECEIVER
| XEN_SHM_IOCTL_WAIT
| XEN_SHM_IOCTL_AWAIT
| XEN_SHM_IOCTL_SSIG
| XEN_SHM_IOCTL_GET_DOMID
| OtherCommand (type : Z) (reads writes : bool).

Definition ioc_type (c : ioctl_command) : Z :=
  match c with OtherCommand t _ _ => t | _ => XEN_SHM_MAGIC_NUMBER end.
(** [_IOC_DIR(cmd) & _IOC_READ] and [_IOC_DIR(cmd) & _IOC_WRITE]. *)
Definition ioc_reads (c : ioctl_command) : bool :=
  match c with
  | XEN_SHM_IOCTL_INIT_OFFERER | XEN_SHM_IOCTL_AWAIT | XEN_SHM_IOCTL_GET_DOMID => true
  | XEN_SHM_IOCTL_INIT_RECEIVER | XEN_SHM_IOCTL_WAIT | XEN_SHM_IOCTL_SSIG => false
  | OtherCommand _ r _ => r
  end.
Definition ioc_writes (c : ioctl_command) : bool :=
  match c with
  | XEN_SHM_IOCTL_INIT_OFFERER | XEN_SHM_IOCTL_AWAIT | XEN_SHM_IOCTL_INIT_RECEIVER => true
  | XEN_SHM_IOCTL_GET_DOMID | XEN_SHM_IOCTL_WAIT | XEN_SHM_IOCTL_SSIG => false
  | OtherCommand _ _ w => w
  end.

Definition XEN_SHM_IOCTL_AWAIT_USER : Z := 0x01.
Definition XEN_SHM_IOCTL_AWAIT_INIT : Z := 0x02.
Definition XEN_SHM_IOCTL_AWAIT_MUTEX : Z := 0x04.
Definition XEN_SHM_IOCTL_AWAIT_LATENT_USER : Z := 0x08.

(** ** Argument structures *)

Record ioctlarg_offerer := IoctlargOfferer {
  off_pages_count : Z;
  off_dist_domid : Z;
  off_grant : Z;
  off_local_domid : Z;
}.

Record ioctlarg_receiver := IoctlargReceiver {
  rcv_pages_count : Z;
  rcv_dist_domid : Z;
  rcv_grant : Z;
}.

(** [struct xen_shm_ioctlarg_await] *)
Record ioctlarg_await := IoctlargAwait {
  request_flags : Z;
  timeout_ms : Z;
  remaining_ms : Z;
}.

(** ** errno values *)

Definition EINTR : Z := 4.
Definition EIO : Z := 5.
Definition EAGAIN : Z := 11.
Definition ENOMEM : Z := 12.
Definition EFAULT : Z := 14.
Definition ENODEV : Z := 19.
Definition EINVAL : Z := 22.
Definition ENOTTY : Z := 25.
Definition EFBIG : Z := 27.
Definition EPIPE : Z := 32.
Definition EDEADLK : Z := 35.
Definition ENOSYS : Z := 38.
Definition ENODATA : Z := 61.
Definition ETIME : Z := 62.
Definition EMEDIUMTYPE : Z := 124.
Definition ERESTARTSYS : Z := 512.
