(* ===== verification/Ring.v ===== *)
(** Byte arrays read and written by address, and the ring they hold: the part
    of the array from a read index to a write index, wrapping at the end. *)
From S2P Require Import Prelude.

(** The [k] bytes at offset [i], and the array with [l] written at offset [i]. *)
Definition peek (buf : list Z) (i k : Z) : list Z :=
  take (Z.to_nat k) (drop (Z.to_nat i) buf).
Definition poke (buf : list Z) (i : Z) (l : list Z) : list Z :=
  take (Z.to_nat i) buf ++ l ++ drop (Z.to_nat i + length l) buf.

Definition len (buf : list Z) : Z := Z.of_nat (length buf).

(** [count] bytes from index [start], indices taken modulo the array's size. *)
Definition slice (buf : list Z) (start count : Z) : list Z :=
  (λ k : nat, buf !!! Z.to_nat ((start + Z.of_nat k) mod len buf)) <$> seq 0 (Z.to_nat count).

(** How many bytes a ring of [size] slots holds between its two indices. *)
Definition used (size rd wr : Z) : Z := (wr - rd) mod size.

(** ** Lengths and lookups *)

Lemma length_slice buf s c : length (slice buf s c) = Z.to_nat c.
Proof. unfold slice. by rewrite length_fmap, length_seq. Qed.

Lemma lookup_slice buf s c (k : nat) :
  slice buf s c !! k =
    if decide (Z.of_nat k < c) then Some (buf !!! Z.to_nat ((s + Z.of_nat k) mod len buf))
    else None.
Proof.
  unfold slice. rewrite list_lookup_fmap. case_decide.
  - rewrite lookup_seq_lt by lia. done.
  - rewrite lookup_seq_ge by lia. done.
Qed.

Lemma len_poke buf i l : 0 ≤ i → i + len l ≤ len buf → len (poke buf i l) = len buf.
Proof.
  unfold len, poke. intros. rewrite !length_app, length_take, length_drop. lia.
Qed.

Lemma len_peek buf i k : 0 ≤ i → 0 ≤ k → i + k ≤ len buf → len (peek buf i k) = k.
Proof. unfold len, peek. intros. rewrite length_take, length_drop. lia. Qed.

Lemma lookup_poke buf i l (j : nat) :
  0 ≤ i → i + len l ≤ len buf →
  poke buf i l !! j =
    if decide (i ≤ Z.of_nat j < i + len l) then l !! (j - Z.to_nat i)%nat else buf !! j.
Proof.
  unfold len, poke. intros Hi Hl. case_decide as Hj.
  - rewrite lookup_app_r; rewrite length_take; [|lia].
    rewrite lookup_app_l by lia. f_equal. lia.
  - destruct (decide (Z.of_nat j < i)).
    + rewrite lookup_app_l by (rewrite length_take; lia). by rewrite lookup_take_lt by lia.
    + rewrite lookup_app_r; rewrite length_take; [|lia].
      rewrite lookup_app_r by lia. rewrite lookup_drop. f_equal. lia.
Qed.

Lemma slice_nil buf s c : c ≤ 0 → slice buf s c = [].
Proof. intros. apply length_zero_iff_nil. rewrite length_slice. lia. Qed.

Lemma slice_app buf s a b :
  0 ≤ a → 0 ≤ b → slice buf s (a + b) = slice buf s a ++ slice buf (s + a) b.
Proof.
  intros. apply list_eq. intros k. rewrite lookup_slice.
  destruct (decide (Z.of_nat k < a)).
  - rewrite lookup_app_l by (rewrite length_slice; lia).
    rewrite lookup_slice, !decide_True by lia. done.
  - rewrite lookup_app_r; rewrite length_slice; [|lia]. rewrite lookup_slice.
    case_decide; [rewrite decide_True by lia | by rewrite decide_False by lia].
    do 4 f_equal. lia.
Qed.

Lemma take_slice buf s a c : 0 ≤ a ≤ c → take (Z.to_nat a) (slice buf s c) = slice buf s a.
Proof.
  intros. replace c with (a + (c - a)) by lia. rewrite slice_app by lia.
  apply take_app_length'. by rewrite length_slice.
Qed.

Lemma drop_slice buf s a c : 0 ≤ a ≤ c → drop (Z.to_nat a) (slice buf s c) = slice buf (s + a) (c - a).
Proof.
  intros. replace c with (a + (c - a)) at 1 by lia. rewrite slice_app by lia.
  apply drop_app_length'. by rewrite length_slice.
Qed.

Lemma slice_mod buf s c : slice buf (s mod len buf) c = slice buf s c.
Proof.
  apply list_eq. intros k. rewrite !lookup_slice. case_decide; [|done].
  by rewrite Zplus_mod_idemp_l.
Qed.

(** A run that does not wrap is a plain subarray. *)
Lemma slice_peek buf i k : 0 ≤ i → 0 ≤ k → i + k ≤ len buf → slice buf i k = peek buf i k.
Proof.
  intros. apply list_eq. intros j. rewrite lookup_slice. unfold peek. case_decide.
  - rewrite lookup_take_lt, lookup_drop by lia. rewrite Z.mod_small by lia.
    rewrite list_lookup_total_alt.
    replace (Z.to_nat (i + Z.of_nat j)) with (Z.to_nat i + j)%nat by lia.
    unfold len in *. destruct (lookup_lt_is_Some_2 buf (Z.to_nat i + j)) as [x Hx]; [lia|].
    by rewrite Hx.
  - symmetry. apply lookup_ge_None_2. rewrite length_take. lia.
Qed.

(** Equal arrays on the indices of a run give equal runs. *)
Lemma slice_ext buf buf' s c :
  length buf = length buf' →
  (∀ k, 0 ≤ k < c → buf !! Z.to_nat ((s + k) mod len buf) = buf' !! Z.to_nat ((s + k) mod len buf)) →
  slice buf s c = slice buf' s c.
Proof.
  intros Hl H. apply list_eq. intros k. rewrite !lookup_slice. case_decide; [|done].
  f_equal. unfold len in *. rewrite <-Hl. rewrite !list_lookup_total_alt. by rewrite H by lia.
Qed.

(** Writing outside a run leaves it unchanged. *)
Lemma slice_poke_ne buf i l s c :
  0 ≤ i → i + len l ≤ len buf →
  (∀ k, 0 ≤ k < c → ¬ (i ≤ (s + k) mod len buf < i + len l)) →
  slice (poke buf i l) s c = slice buf s c.
Proof.
  intros Hi Hl H. symmetry. apply slice_ext.
  - apply Nat2Z.inj. symmetry. by apply len_poke.
  - intros k Hk. specialize (H k Hk). rewrite lookup_poke by done.
    destruct (decide (len buf = 0)) as [E|E].
    { rewrite decide_False; [done|]. unfold len in *. lia. }
    rewrite decide_False; [done|]. rewrite Z2Nat.id; [done|].
    apply Z.mod_pos_bound. unfold len in *. lia.
Qed.

(** Writing a run and reading it back. *)
Lemma slice_poke_eq buf i l :
  0 ≤ i → i + len l ≤ len buf → slice (poke buf i l) i (len l) = l.
Proof.
  intros. rewrite slice_peek; rewrite ?len_poke by done; [| unfold len in *; lia ..].
  unfold peek, poke. rewrite drop_app_length'; [|rewrite length_take; unfold len in *; lia].
  rewrite take_app_length'; [done|]. unfold len. lia.
Qed.

(** ** Indices *)

Lemma used_range size rd wr : 0 < size → 0 ≤ used size rd wr < size.
Proof. intros. by apply Z.mod_pos_bound. Qed.

(** The amount held, for two indices in range. *)
Lemma used_cases size rd wr :
  0 ≤ rd < size → 0 ≤ wr < size →
  used size rd wr = if decide (rd ≤ wr) then wr - rd else wr - rd + size.
Proof.
  intros. unfold used. case_decide.
  - apply Z.mod_small. lia.
  - rewrite <-(Z.mod_small (wr - rd + size) size) by lia.
    by rewrite <-(Z_mod_plus_full (wr - rd) 1 size), Z.mul_1_l.
Qed.

Lemma used_zero size rd wr :
  0 ≤ rd < size → 0 ≤ wr < size → used size rd wr = 0 ↔ rd = wr.
Proof. intros. rewrite used_cases by done. case_decide; lia. Qed.

(** The index after advancing by [k] without stepping past the end once. *)
Definition advance (size i k : Z) : Z := if decide (i + k = size) then 0 else i + k.

Lemma advance_mod size i k : 0 ≤ i → 0 ≤ k → i + k ≤ size → 0 < size → advance size i k = (i + k) mod size.
Proof.
  intros. unfold advance. case_decide as E.
  - by rewrite E, Z_mod_same_full.
  - by rewrite Z.mod_small by lia.
Qed.

Lemma advance_range size i k : 0 ≤ i → 0 ≤ k → i + k ≤ size → 0 < size → 0 ≤ advance size i k < size.
Proof. intros. unfold advance. case_decide; lia. Qed.

Lemma used_pop size rd wr k :
  0 ≤ rd < size → 0 ≤ wr < size → 0 ≤ k ≤ used size rd wr → rd + k ≤ size →
  used size (advance size rd k) wr = used size rd wr - k.
Proof.
  intros Hr Hw Hk Hs. pose proof (advance_range size rd k).
  rewrite used_cases in Hk by done. rewrite !used_cases by lia.
  unfold advance in *. repeat case_decide; lia.
Qed.

Lemma used_push size rd wr k :
  0 ≤ rd < size → 0 ≤ wr < size → 0 ≤ k < size - used size rd wr → wr + k ≤ size →
  used size rd (advance size wr k) = used size rd wr + k.
Proof.
  intros Hr Hw Hk Hs. pose proof (advance_range size wr k).
  rewrite used_cases in Hk by done. rewrite !used_cases by lia.
  unfold advance in *. repeat case_decide; lia.
Qed.

(** ** Writing in pieces *)

Lemma poke_nil buf i : 0 ≤ i → poke buf i [] = buf.
Proof. intros. unfold poke. simpl. rewrite Nat.add_0_r. apply take_drop. Qed.

Lemma poke_app buf i l1 l2 :
  0 ≤ i → i + len l1 + len l2 ≤ len buf →
  poke (poke buf i l1) (i + len l1) l2 = poke buf i (l1 ++ l2).
Proof.
  unfold len, poke. intros. rewrite (app_assoc (take _ buf)).
  assert (length (take (Z.to_nat i) buf ++ l1) = (Z.to_nat i + length l1)%nat) as E.
  { rewrite length_app, length_take. lia. }
  rewrite take_app_length' by (rewrite E; lia).
  rewrite drop_app_ge by (rewrite E; lia). rewrite E, drop_drop, !app_assoc. do 2 f_equal.
  rewrite length_app. lia.
Qed.

Lemma len_app l1 l2 : len (l1 ++ l2) = len l1 + len l2.
Proof. unfold len. rewrite length_app. lia. Qed.

Lemma len_slice buf s c : 0 ≤ c → len (slice buf s c) = c.
Proof. unfold len. rewrite length_slice. lia. Qed.

Lemma len_nonneg l : 0 ≤ len l.
Proof. unfold len. lia. Qed.

(** The run available without wrapping, between two distinct indices. *)
Lemma used_run size rd wr :
  0 ≤ rd < size → 0 ≤ wr < size → rd ≠ wr →
  let run := if rd <=? wr then wr - rd else size - rd in
  0 < run ≤ used size rd wr ∧ rd + run ≤ size.
Proof.
  intros Hr Hw Hne run. subst run. rewrite used_cases by done.
  case_decide as H; [rewrite (proj2 (Z.leb_le _ _) H) | rewrite (proj2 (Z.leb_gt _ _)) by lia]; lia.
Qed.

(** The slot before an index, and the room left for a writer that must not
    reach it. *)
Definition prev (size i : Z) : Z := if i =? 0 then size - 1 else i - 1.

Lemma prev_range size i : 0 ≤ i < size → 0 ≤ prev size i < size.
Proof. unfold prev. intros. destruct (Z.eqb_spec i 0); lia. Qed.

Lemma used_prev size rd wr :
  0 ≤ rd < size → 0 ≤ wr < size → used size wr (prev size rd) = size - 1 - used size rd wr.
Proof.
  intros Hr Hw. pose proof (prev_range size rd Hr).
  rewrite !used_cases by done. unfold prev in *.
  destruct (Z.eqb_spec rd 0); repeat case_decide; lia.
Qed.

Lemma peek_app buf i a b :
  0 ≤ i → 0 ≤ a → 0 ≤ b → i + a + b ≤ len buf → peek buf i (a + b) = peek buf i a ++ peek buf (i + a) b.
Proof. intros. rewrite <-!slice_peek by lia. apply slice_app; lia. Qed.

Lemma peek_nil buf i : peek buf i 0 = [].
Proof. done. Qed.

(** ** Reading what was written *)

Lemma peek_poke buf i l : 0 ≤ i → i + len l ≤ len buf → peek (poke buf i l) i (len l) = l.
Proof.
  intros. pose proof (len_nonneg l). rewrite <-slice_peek by (rewrite ?len_poke; lia).
  rewrite slice_poke_eq by lia. done.
Qed.

Lemma peek_poke_ne buf i l j k :
  0 ≤ i → i + len l ≤ len buf → 0 ≤ j → 0 ≤ k → j + k ≤ len buf → j + k ≤ i ∨ i + len l ≤ j →
  peek (poke buf i l) j k = peek buf j k.
Proof.
  intros Hi Hl Hj Hk Hjk Hd. rewrite <-!slice_peek by (rewrite ?len_poke; lia).
  apply slice_poke_ne; [done..|]. intros q Hq. rewrite Z.mod_small by lia. lia.
Qed.
