(* ===== verification/PipeDefs.v ===== *)
(** The state of one end of a pipe (xen_shm_pipe.c and xen_shm_pipe.h): the
    private structure, the shared area, the caller's buffer, and the accesses the
    code makes to them. Every access to the shared area is preceded by whatever
    the other end did since the previous one. *)
From S2P Require Import Prelude Abi Ring.

(** ** Constants *)

Definition XEN_SHM_PIPE_PAGE_SIZE : Z := 4096.
Definition XEN_SHM_PIPE_FAST_CHECK_INTERVAL : Z := 128.
Definition XEN_SHM_PIPE_WAIT_CHECK_PER_ROUND : Z := 4.
Definition XEN_SHM_PIPE_WAIT_LOOP_LIMIT : Z := 10000.
Definition XEN_SHM_PIPE_WAIT_LOOP_ACTIVE_MAX : Z := 10000.

Definition XSHMP_OPENED : Z := 0x1.
Definition XSHMP_CLOSED : Z := 0x2.
Definition XSHMP_WAITING : Z := 0x4.
Definition XSHMP_SLEEPING : Z := 0x8.
Definition XSHMP_ACTIVE : Z := 0x10.

(** [sizeof(struct xen_shm_pipe_shared)]: four 32-bit words, then the buffer. *)
Definition sizeof_shared : Z := 16.

(** ** Data *)

Inductive xen_shm_pipe_mod := xen_shm_pipe_mod_write | xen_shm_pipe_mod_read.
Inductive xen_shm_pipe_conv := xen_shm_pipe_conv_writer_offers | xen_shm_pipe_conv_reader_offers.

#[export] Instance pipe_mod_eq_dec : EqDecision xen_shm_pipe_mod.
Proof. solve_decision. Defined.
#[export] Instance pipe_conv_eq_dec : EqDecision xen_shm_pipe_conv.
Proof. solve_decision. Defined.

(** [struct xen_shm_pipe_shared] *)
Record pipe_shared := PipeShared {
  writer_flags : Z;
  reader_flags : Z;
  write : Z;
  read : Z;
  buffer : list Z;
}.

(** [struct xen_shm_pipe_stats] *)
Record pipe_stats := PipeStats {
  ioctl_count_await : Z;
  ioctl_count_epipe_prone : Z;
  ioctl_count_ssig : Z;
  read_count : Z;
  write_count : Z;
  waiting : Z;
}.

(** [struct xen_shm_pipe_priv]; [shared] is an address, 0 for NULL. *)
Record pipe_priv := PipePriv {
  fd : Z;
  pmod : xen_shm_pipe_mod;
  conv : xen_shm_pipe_conv;
  shared : Z;
  buffer_size : Z;
  wait_check_interval : Z;
  await_op : ioctlarg_await;
  saw_epipe : bool;
  stats : pipe_stats;
}.

(** The system calls and library calls the code makes. *)
Inductive syscall :=
| SysMalloc
| SysFree
| SysOpen
| SysClose (fd : Z)
| SysMmap (length fd : Z)
| SysMunmap (addr length : Z)
| SysGetDomid (fd : Z)
| SysInitOfferer (fd pages_count dist_domid : Z)
| SysInitReceiver (fd pages_count dist_domid grant : Z)
| SysAwait (fd : Z) (arg : ioctlarg_await)
| SysSsig (fd : Z).

(** What a call answers: its return value, the errno of a failed call, and
    what it writes through its argument. *)
Record sysanswer := SysAnswer {
  ans_ret : Z;
  ans_errno : Z;
  ans_out1 : Z;
  ans_out2 : Z;
}.

Inductive actor := Self | Peer.

(** The world one end runs in. [usr] is the caller's memory from address
    [usr_base]; [trace] lists the changes to the shared area, most recent first,
    and [calls] the system calls with the time of each, most recent first; each change
    and each call is one tick of [clock]. *)
Record world := World {
  sh : pipe_shared;
  priv : pipe_priv;
  live : bool;
  usr_base : Z;
  usr : list Z;
  errno : Z;
  clock : nat;
  calls : list (nat * syscall);
  trace : list (actor * pipe_shared * pipe_shared);
}.

(** Code outside this program: the other end's effect on the shared area before
    the [t]-th access, and the answer to the call made at time [t]. *)
Class PipeEnv := {
  peer : nat → pipe_shared → pipe_shared;
  answer : nat → syscall → sysanswer;
}.

(** ** Field updates *)

Definition set_writer_flags v s := PipeShared v (reader_flags s) (write s) (read s) (buffer s).
Definition set_reader_flags v s := PipeShared (writer_flags s) v (write s) (read s) (buffer s).
Definition set_write v s := PipeShared (writer_flags s) (reader_flags s) v (read s) (buffer s).
Definition set_read v s := PipeShared (writer_flags s) (reader_flags s) (write s) v (buffer s).
Definition set_buffer v s := PipeShared (writer_flags s) (reader_flags s) (write s) (read s) v.

Definition set_stats v p := PipePriv (fd p) (pmod p) (conv p) (shared p) (buffer_size p)
  (wait_check_interval p) (await_op p) (saw_epipe p) v.
Definition set_saw_epipe v p := PipePriv (fd p) (pmod p) (conv p) (shared p) (buffer_size p)
  (wait_check_interval p) (await_op p) v (stats p).
Definition set_await_op v p := PipePriv (fd p) (pmod p) (conv p) (shared p) (buffer_size p)
  (wait_check_interval p) v (saw_epipe p) (stats p).
Definition set_shared v p := PipePriv (fd p) (pmod p) (conv p) v (buffer_size p)
  (wait_check_interval p) (await_op p) (saw_epipe p) (stats p).
Definition set_sizes bs wci p := PipePriv (fd p) (pmod p) (conv p) (shared p) bs
  wci (await_op p) (saw_epipe p) (stats p).

Definition with_sh a s w := World s (priv w) (live w) (usr_base w) (usr w) (errno w) (S (clock w))
  (calls w) ((a, sh w, s) :: trace w).
Definition with_priv p w := World (sh w) p (live w) (usr_base w) (usr w) (errno w) (clock w)
  (calls w) (trace w).
Definition with_live b w := World (sh w) (priv w) b (usr_base w) (usr w) (errno w) (clock w)
  (calls w) (trace w).
Definition with_usr u w := World (sh w) (priv w) (live w) (usr_base w) u (errno w) (clock w)
  (calls w) (trace w).
Definition with_errno e w := World (sh w) (priv w) (live w) (usr_base w) (usr w) e (clock w)
  (calls w) (trace w).
Definition with_call c w := World (sh w) (priv w) (live w) (usr_base w) (usr w) (errno w)
  (S (clock w)) ((clock w, c) :: calls w) (trace w).

(** ** Accesses *)

Section Accesses.
Context `{!PipeEnv}.

(** The other end runs. *)
Definition interfere : M world unit := λ w, Done tt (with_sh Peer (peer (clock w) (sh w)) w).

Definition load {A} (field : pipe_shared → A) : M world A :=
  interfere ;; λ w, Done (field (sh w)) w.
Definition store (f : pipe_shared → pipe_shared) : M world unit :=
  interfere ;; λ w, Done tt (with_sh Self (f (sh w)) w).

(** The [k] bytes at address [a] of the shared buffer, read or written at once. *)
Definition in_buffer (k a : Z) (w : world) : bool :=
  let i := a - (shared (priv w) + sizeof_shared) in
  (0 <=? i) && (i + k <=? len (buffer (sh w))).
Definition load_shared (k a : Z) : M world (list Z) :=
  interfere ;; λ w,
    if negb (a mod k =? 0) then Fault Misaligned
    else if in_buffer k a w
    then Done (peek (buffer (sh w)) (a - (shared (priv w) + sizeof_shared)) k) w
    else Fault OutOfBounds.
Definition store_shared (k a : Z) (v : list Z) : M world unit :=
  interfere ;; λ w,
    if negb (a mod k =? 0) then Fault Misaligned
    else if in_buffer k a w
    then Done tt (with_sh Self
      (set_buffer (poke (buffer (sh w)) (a - (shared (priv w) + sizeof_shared)) v) (sh w)) w)
    else Fault OutOfBounds.

(** The same on the caller's buffer, which only this end accesses. *)
Definition in_usr (k a : Z) (w : world) : bool :=
  (0 <=? a - usr_base w) && (a - usr_base w + k <=? len (usr w)).
Definition load_user (k a : Z) : M world (list Z) := λ w,
  if negb (a mod k =? 0) then Fault Misaligned
  else if in_usr k a w then Done (peek (usr w) (a - usr_base w) k) w
  else Fault OutOfBounds.
Definition store_user (k a : Z) (v : list Z) : M world unit := λ w,
  if negb (a mod k =? 0) then Fault Misaligned
  else if in_usr k a w then Done tt (with_usr (poke (usr w) (a - usr_base w) v) w)
  else Fault OutOfBounds.

(** The private structure, which must not have been freed. *)
Definition get_priv : M world pipe_priv := λ w,
  if live w then Done (priv w) w else Fault UseAfterFree.
Definition put_priv (f : pipe_priv → pipe_priv) : M world unit := λ w,
  if live w then Done tt (with_priv (f (priv w)) w) else Fault UseAfterFree.

Definition set_errno (e : Z) : M world unit := modify (with_errno e).
Definition get_errno : M world Z := λ w, Done (errno w) w.

(** A system call; a failing one sets errno. *)
Definition sys (c : syscall) : M world sysanswer :=
  interfere ;; λ w,
    let r := answer (clock w) c in
    let w' := with_call c w in
    Done r (if ans_ret r <? 0 then with_errno (ans_errno r) w' else w').

(** [*flags |= m] and [*flags &= ~m]: a load and a store. *)
Definition flags_or (field : pipe_shared → Z) (set : Z → pipe_shared → pipe_shared) (m : Z) :
    M world unit :=
  let* f := load field in store (set (set_bits f m)).
Definition flags_clear (field : pipe_shared → Z) (set : Z → pipe_shared → pipe_shared) (m : Z) :
    M world unit :=
  let* f := load field in store (set (clr_bits f m)).

Definition reader_flags_or := flags_or reader_flags set_reader_flags.
Definition reader_flags_clear := flags_clear reader_flags set_reader_flags.
Definition writer_flags_or := flags_or writer_flags set_writer_flags.
Definition writer_flags_clear := flags_clear writer_flags set_writer_flags.
End Accesses.

(** ** Helpers of the program *)

Definition __xen_shm_pipe_is_offerer (p : pipe_priv) : bool :=
  (bool_decide (pmod p = xen_shm_pipe_mod_read) &&
   bool_decide (conv p = xen_shm_pipe_conv_reader_offers))
  || (bool_decide (pmod p = xen_shm_pipe_mod_write) &&
      bool_decide (conv p = xen_shm_pipe_conv_writer_offers)).

(** The flag word a pipe end owns ([my_flags]) or the other end's. *)
Inductive flag_word := WriterFlags | ReaderFlags.
Definition __xen_shm_pipe_get_flags (p : pipe_priv) (my_flags : bool) : flag_word :=
  match pmod p with
  | xen_shm_pipe_mod_write => if my_flags then WriterFlags else ReaderFlags
  | xen_shm_pipe_mod_read => if my_flags then ReaderFlags else WriterFlags
  end.
Definition flags_of (fw : flag_word) : pipe_shared → Z :=
  match fw with WriterFlags => writer_flags | ReaderFlags => reader_flags end.
Definition set_flags_of (fw : flag_word) : Z → pipe_shared → pipe_shared :=
  match fw with WriterFlags => set_writer_flags | ReaderFlags => set_reader_flags end.

Definition stat_ssig (s : pipe_stats) := PipeStats (ioctl_count_await s) (ioctl_count_epipe_prone s)
  (u64 (ioctl_count_ssig s + 1)) (read_count s) (write_count s) (waiting s).
Definition stat_await (s : pipe_stats) := PipeStats (u64 (ioctl_count_await s + 1))
  (ioctl_count_epipe_prone s) (ioctl_count_ssig s) (read_count s) (write_count s) (waiting s).
Definition stat_prone (s : pipe_stats) := PipeStats (ioctl_count_await s)
  (u64 (ioctl_count_epipe_prone s + 1)) (ioctl_count_ssig s) (read_count s) (write_count s) (waiting s).
Definition stat_read (s : pipe_stats) := PipeStats (ioctl_count_await s) (ioctl_count_epipe_prone s)
  (ioctl_count_ssig s) (u64 (read_count s + 1)) (write_count s) (waiting s).
Definition stat_write (s : pipe_stats) := PipeStats (ioctl_count_await s) (ioctl_count_epipe_prone s)
  (ioctl_count_ssig s) (read_count s) (u64 (write_count s + 1)) (waiting s).

Section Signals.
Context `{!PipeEnv}.

Definition bump (f : pipe_stats → pipe_stats) : M world unit :=
  put_priv (λ p, set_stats (f (stats p)) p).

Definition __xen_shm_pipe_send_signal : M world Z :=
  bump stat_ssig ;;
  let* p := get_priv in
  let* a := sys (SysSsig (fd p)) in
  ret (ans_ret a).

(** The call passes [&p->await_op]: the kernel writes [remaining_ms] back. *)
Definition __xen_shm_pipe_wait_signal : M world Z :=
  bump stat_await ;;
  let* p := get_priv in
  let* a := sys (SysAwait (fd p) (await_op p)) in
  when (ans_ret a =? 0) (put_priv (λ p, set_await_op
    (IoctlargAwait (request_flags (await_op p)) (timeout_ms (await_op p)) (ans_out1 a)) p)) ;;
  ret (ans_ret a).

(** [remaining_ms] is not set by the caller: [garbage] is what the stack held. *)
Definition __xen_shm_pipe_prone_for_epipe (garbage : Z) : M world Z :=
  bump stat_prone ;;
  let* p := get_priv in
  let* a := sys (SysAwait (fd p) (IoctlargAwait XEN_SHM_IOCTL_AWAIT_INIT 1 garbage)) in
  let* e := get_errno in
  ret (if (ans_ret a <? 0) && (e =? EPIPE) then -1 else 0).
End Signals.

(** ** What the two ends may do to the shared area *)

(** The indices are in range of a buffer of [size] bytes. *)
Definition ring_wf (size : Z) (s : pipe_shared) : Prop :=
  len (buffer s) = size ∧ 0 ≤ read s < size ∧ 0 ≤ write s < size.

(** The bytes written and not yet read, oldest first. *)
Definition held (s : pipe_shared) : Z := used (len (buffer s)) (read s) (write s).
Definition content (s : pipe_shared) : list Z := slice (buffer s) (read s) (held s).

(** A step of the reader takes bytes from the front of the queue and leaves the
    rest of the writer's data alone; a step of the writer appends to the queue. *)
Definition reader_step (size : Z) (s s' : pipe_shared) : Prop :=
  ring_wf size s' ∧ write s' = write s ∧ buffer s' = buffer s ∧
  ∃ k, 0 ≤ k ≤ held s ∧ content s' = drop (Z.to_nat k) (content s).
Definition writer_step (size : Z) (s s' : pipe_shared) : Prop :=
  ring_wf size s' ∧ read s' = read s ∧ content s `prefix_of` content s'.

(** What the other end appended, or consumed, over a trace. *)
Fixpoint appended (tr : list (actor * pipe_shared * pipe_shared)) : list Z :=
  match tr with
  | (Peer, s, s') :: tr => appended tr ++ drop (length (content s)) (content s')
  | _ :: tr => appended tr
  | [] => []
  end.
Fixpoint consumed (tr : list (actor * pipe_shared * pipe_shared)) : list Z :=
  match tr with
  | (Peer, s, s') :: tr => consumed tr ++ take (length (content s) - length (content s')) (content s)
  | _ :: tr => consumed tr
  | [] => []
  end.

(** Every change this end made satisfies [R]. *)
Definition own_steps (R : pipe_shared → pipe_shared → Prop)
    (tr : list (actor * pipe_shared * pipe_shared)) : Prop :=
  Forall (λ '(a, s, s'), a = Self → R s s') tr.

(** ** The clock never goes back *)

Definition ticks {A} (m : M world A) : Prop :=
  ∀ w a w', m w = Done a w' → (clock w ≤ clock w')%nat.

Create HintDb ticks.

Lemma ticks_ret {A} (a : A) : ticks (ret a).
Proof. by intros w ? ? [= <- <-]. Qed.

Lemma ticks_bind {A B} (m : M world A) (k : A → M world B) :
  ticks m → (∀ a, ticks (k a)) → ticks (bind m k).
Proof.
  intros Hm Hk w b w'. unfold bind. destruct (m w) as [a w1| |] eqn:E; [|done|done].
  intros E'. etrans; [by eapply Hm | by eapply Hk].
Qed.

Lemma ticks_if {A} (b : bool) (m1 m2 : M world A) : ticks m1 → ticks m2 → ticks (if b then m1 else m2).
Proof. by destruct b. Qed.

Lemma ticks_when b (m : M world unit) : ticks m → ticks (when b m).
Proof. intros. apply ticks_if; [done | apply ticks_ret]. Qed.

#[export] Hint Resolve ticks_ret ticks_if ticks_when : ticks.
#[export] Hint Extern 2 (ticks (bind _ _)) => apply ticks_bind; [|intros ?] : ticks.

Section Ticks.
Context `{!PipeEnv}.

Lemma ticks_local {A} (m : M world A) :
  (∀ w a w', m w = Done a w' → clock w' = clock w) → ticks m.
Proof. intros Hm w a w' E. by rewrite (Hm _ _ _ E). Qed.

Lemma ticks_interfere : ticks interfere.
Proof. intros w ? ? [= <- <-]. simpl. lia. Qed.
Lemma ticks_load {A} (f : pipe_shared → A) : ticks (load f).
Proof. apply ticks_bind; [apply ticks_interfere|]. by intros _ w ? ? [= <- <-]. Qed.
Lemma ticks_store f : ticks (store f).
Proof. apply ticks_bind; [apply ticks_interfere|]. intros _ w ? ? [= <- <-]. simpl. lia. Qed.
Lemma ticks_get_priv : ticks get_priv.
Proof. apply ticks_local. intros w ? ?. unfold get_priv. case_match; [by intros [= <- <-] | done]. Qed.
Lemma ticks_put_priv f : ticks (put_priv f).
Proof. apply ticks_local. intros w ? ?. unfold put_priv. case_match; [by intros [= <- <-] | done]. Qed.
Lemma ticks_set_errno e : ticks (set_errno e).
Proof. apply ticks_local. by intros w ? ? [= <- <-]. Qed.
Lemma ticks_get_errno : ticks get_errno.
Proof. apply ticks_local. by intros w ? ? [= <- <-]. Qed.
Lemma ticks_sys c : ticks (sys c).
Proof.
  apply ticks_bind; [apply ticks_interfere|]. intros _ w ? ? [= <- <-].
  case_match; simpl; lia.
Qed.
End Ticks.

#[export] Hint Resolve ticks_load ticks_store ticks_get_priv ticks_put_priv ticks_set_errno
  ticks_get_errno ticks_sys : ticks.
#[export] Hint Extern 1 (ticks (bump _)) => unfold bump : ticks.
#[export] Hint Extern 1 (ticks (reader_flags_or _)) => unfold reader_flags_or, flags_or : ticks.
#[export] Hint Extern 1 (ticks (reader_flags_clear _)) => unfold reader_flags_clear, flags_clear : ticks.
#[export] Hint Extern 1 (ticks (writer_flags_or _)) => unfold writer_flags_or, flags_or : ticks.
#[export] Hint Extern 1 (ticks (writer_flags_clear _)) => unfold writer_flags_clear, flags_clear : ticks.

Lemma ticks_send_signal `{!PipeEnv} : ticks __xen_shm_pipe_send_signal.
Proof. unfold __xen_shm_pipe_send_signal. auto 10 with ticks. Qed.
Lemma ticks_wait_signal `{!PipeEnv} : ticks __xen_shm_pipe_wait_signal.
Proof. unfold __xen_shm_pipe_wait_signal. auto 10 with ticks. Qed.
Lemma ticks_prone `{!PipeEnv} g : ticks (__xen_shm_pipe_prone_for_epipe g).
Proof. unfold __xen_shm_pipe_prone_for_epipe. auto 10 with ticks. Qed.
#[export] Hint Resolve ticks_send_signal ticks_wait_signal ticks_prone : ticks.

(** A result reached by a computation that ticks comes no earlier. *)
Lemma wp_ticks {A} (m : M world A) Q w :
  ticks m → wp m Q w → wp m (λ a w', Q a w' ∧ (clock w ≤ clock w')%nat) w.
Proof.
  intros Ht H. apply wp_done in H as (a & w' & E & HQ). unfold wp. rewrite E.
  split; [done | by eapply Ht].
Qed.
