(* ===== verification/PipeCopy.v ===== *)
(** The copies between the caller's buffer and the ring:
    [__xen_shm_pipe_read_avail] and [__xen_shm_pipe_write_avail] of
    xen_shm_pipe.c, with their byte and 64-bit loops over addresses, and the
    steps they share. *)
From S2P Require Import Prelude Abi Ring PipeDefs.

(** The locals both routines carry around their main loop. [ring_pos] is
    [read_pos] (or [write_pos]), [ring_end] is [write_pos] (or
    [read_pos_reduced]). *)
Record cursor := Cursor {
  current_buf : Z;
  ring_pos : Z;
  ring_end : Z;
  gran_max_buf : Z;
  is_aligned : bool;
}.

(** The out-of-bound pointer given by the ring, then the least of the three
    bounds and whether it is the one that calls for a check on the other end. *)
Definition circ_max_buf (shared_max : Z) (c : cursor) : Z :=
  if ring_pos c <=? ring_end c then current_buf c + (ring_end c - ring_pos c)
  else current_buf c + (shared_max - ring_pos c).
Definition min_max_buf (circ_max usr_max gran_max : Z) : Z * bool :=
  let min_max := if usr_max <? circ_max then usr_max else circ_max in
  if gran_max <? min_max then (gran_max, true) else (min_max, false).

Definition differ (target : Z) (x : Z * Z) : bool := negb (x.1 =? target).
Definition unaligned (x : Z * Z) : bool := has x.1 7.

Section Copy.
Context `{!PipeEnv}.

(** Copy [k] bytes and advance both pointers. *)
Definition copy_in (k : Z) (x : Z * Z) : M world (Z * Z) :=
  let* v := load_shared k x.2 in
  store_user k x.1 v ;;
  ret (x.1 + k, x.2 + k).
Definition copy_out (k : Z) (x : Z * Z) : M world (Z * Z) :=
  let* v := load_user k x.1 in
  store_shared k x.2 v ;;
  ret (x.1 + k, x.2 + k).

(** "Actually read" and "Actually write": 64-bit words when both pointers are
    congruent modulo 8 and more than 24 bytes are to be copied, bytes
    otherwise. Returns the pointers and the new [is_aligned]. *)
Definition copy_run (copy : Z → Z * Z → M world (Z * Z)) (fuel : nat)
    (aligned gran_check : bool) (min_max current pos : Z) : M world (Z * Z * bool) :=
  if (aligned || (Z.land current 7 =? Z.land pos 7)) && (24 <? min_max - current) then
    let* x := (if aligned then ret (current, pos)
               else while fuel unaligned (copy 1) (current, pos)) in
    let min_max_buf64 := Z.land min_max (u64 (Z.lnot 7)) in
    let* x := while fuel (differ min_max_buf64) (copy 8) x in
    if negb gran_check && negb (x.1 =? min_max) then
      let* x := while fuel (differ min_max) (copy 1) x in
      ret (x, false)
    else ret (x, true)
  else
    let* x := while fuel (differ min_max) (copy 1) (current, pos) in
    ret (x, false).

Definition more (usr_max : Z) (c : cursor) : bool :=
  negb (ring_pos c =? ring_end c) && negb (current_buf c =? usr_max).

(** "Check boundary values": has the other end gone to sleep? *)
Definition gran_step (flags : pipe_shared → Z) (check : bool) (current gran_max : Z) : M world Z :=
  if check || (current =? gran_max) then
    let* f := load flags in
    when (has f XSHMP_SLEEPING) (let* _ := __xen_shm_pipe_send_signal in ret tt) ;;
    let* p := get_priv in
    ret (gran_max + wait_check_interval p)
  else ret gran_max.

Definition first_gran (flags : pipe_shared → Z) (user_buf : Z) : M world Z :=
  let* f := load flags in
  let* p := get_priv in
  ret (user_buf + if has f XSHMP_SLEEPING then XEN_SHM_PIPE_FAST_CHECK_INTERVAL
                  else wait_check_interval p).

(** The last look at the other end, after the loop. *)
Definition wake_other (flags : pipe_shared → Z) : M world unit :=
  let* f := load flags in
  when (has f XSHMP_SLEEPING) (let* _ := __xen_shm_pipe_send_signal in ret tt).

Definition read_avail_body (fuel : nat) (s_buffer shared_max usr_max : Z) (c : cursor) :
    M world cursor :=
  let (min_max, gran_check) :=
    min_max_buf (circ_max_buf shared_max c) usr_max (gran_max_buf c) in
  let* y := copy_run copy_in fuel (is_aligned c) gran_check min_max (current_buf c) (ring_pos c) in
  let current := y.1.1 in
  let* gran_max := gran_step writer_flags gran_check current (gran_max_buf c) in
  let read_pos := if y.1.2 =? shared_max then s_buffer else y.1.2 in
  let* w := load write in
  store (set_read (u32 (read_pos - s_buffer))) ;;
  ret (Cursor current read_pos (s_buffer + w) gran_max y.2).

Definition __xen_shm_pipe_read_avail (buf nbytes : Z) : M world Z :=
  let* p := get_priv in
  let s_buffer := shared p + sizeof_shared in
  let shared_max := s_buffer + buffer_size p in
  let* r := load read in
  let* w := load write in
  let usr_max := buf + nbytes in
  let* gran_max := first_gran writer_flags buf in
  let fuel := S (Z.to_nat nbytes) in
  let* c := while fuel (more usr_max) (read_avail_body fuel s_buffer shared_max usr_max)
              (Cursor buf (s_buffer + r) (s_buffer + w) gran_max false) in
  wake_other writer_flags ;;
  ret (current_buf c - buf).

(** [read_pos_reduced]: the slot before the read index. *)
Definition load_read_reduced (s_buffer shared_max : Z) : M world Z :=
  let* r := load read in
  ret (if s_buffer + r =? s_buffer then shared_max - 1 else s_buffer + r - 1).

Definition write_avail_body (fuel : nat) (s_buffer shared_max usr_max : Z) (c : cursor) :
    M world cursor :=
  let (min_max, gran_check) :=
    min_max_buf (circ_max_buf shared_max c) usr_max (gran_max_buf c) in
  let* y := copy_run copy_out fuel (is_aligned c) gran_check min_max (current_buf c) (ring_pos c) in
  let current := y.1.1 in
  let* gran_max := gran_step reader_flags gran_check current (gran_max_buf c) in
  let write_pos := if y.1.2 =? shared_max then s_buffer else y.1.2 in
  let* reduced := load_read_reduced s_buffer shared_max in
  store (set_write (u32 (write_pos - s_buffer))) ;;
  ret (Cursor current write_pos reduced gran_max y.2).

Definition __xen_shm_pipe_write_avail (buf nbytes : Z) : M world Z :=
  let* p := get_priv in
  let s_buffer := shared p + sizeof_shared in
  let shared_max := s_buffer + buffer_size p in
  let* reduced := load_read_reduced s_buffer shared_max in
  let* w := load write in
  let usr_max := buf + nbytes in
  let* gran_max := first_gran reader_flags buf in
  let fuel := S (Z.to_nat nbytes) in
  let* c := while fuel (more usr_max) (write_avail_body fuel s_buffer shared_max usr_max)
              (Cursor buf (s_buffer + w) reduced gran_max false) in
  wake_other reader_flags ;;
  ret (current_buf c - buf).
End Copy.

(** ** The copy itself *)

(** What one [copy k] step does to an invariant indexed by the bytes copied so
    far is enough to know what the three loops of a run do together. *)
Section CopyRun.
Context (copy : Z → Z * Z → M world (Z * Z)) (Inv : Z → world → Prop).
Context (cur0 pos0 bound : Z).
Hypothesis copy_step : ∀ k o w,
  k = 1 ∨ k = 8 → Inv o w → 0 ≤ o → o + k ≤ bound →
  (cur0 + o) mod k = 0 → (pos0 + o) mod k = 0 →
  wp (copy k (cur0 + o, pos0 + o)) (λ x w', x = (cur0 + (o + k), pos0 + (o + k)) ∧ Inv (o + k) w') w.

Lemma wp_copy_while k c fuel o m w :
  k = 1 ∨ k = 8 → Inv o w → 0 ≤ o → 0 ≤ m < Z.of_nat fuel → o + m ≤ bound →
  m mod k = 0 → (cur0 + o) mod k = 0 → (pos0 + o) mod k = 0 →
  (∀ j, 0 ≤ j ≤ m → c (cur0 + (o + j), pos0 + (o + j)) = negb (j =? m)) →
  wp (while fuel c (copy k) (cur0 + o, pos0 + o))
     (λ x w', x = (cur0 + (o + m), pos0 + (o + m)) ∧ Inv (o + m) w') w.
Proof.
  intros Hk HI Ho Hm Hb Hmk Hck Hpk Hc.
  apply (wp_while (λ x w, ∃ j, x = (cur0 + (o + j), pos0 + (o + j)) ∧
      0 ≤ j ≤ m ∧ j mod k = 0 ∧ Inv (o + j) w) (λ x, cur0 + (o + m) - x.1)).
  - intros x s (j & -> & Hj & Hjk & HIj) Hcj. rewrite Hc in Hcj by done. bool_hyps.
    assert (j + k ≤ m) by (destruct Hk; subst k; zmod).
    eapply wp_mono; [apply copy_step; [done | done | lia | lia | ..]|].
    1, 2: destruct Hk; subst k; zmod.
    intros x' s' [-> HI']. simpl. split; [|lia].
    exists (j + k). rewrite !Z.add_assoc in *. split_and!; [done | lia | lia | | done].
    destruct Hk; subst k; zmod.
  - intros x s (j & -> & Hj & _ & HIj) Hcj. rewrite Hc in Hcj by done. bool_hyps. by subst j.
  - exists 0. rewrite Z.add_0_r. split_and!; [done | lia | lia | | done].
    destruct Hk; by subst k.
  - simpl. lia.
Qed.

Lemma wp_copy_bytes fuel o w :
  Inv o w → 0 ≤ o ≤ bound → bound - o < Z.of_nat fuel →
  wp (while fuel (differ (cur0 + bound)) (copy 1) (cur0 + o, pos0 + o))
     (λ x w', x = (cur0 + bound, pos0 + bound) ∧ Inv bound w') w.
Proof.
  intros HI Ho Hf. pose proof (wp_copy_while 1 (differ (cur0 + bound)) fuel o (bound - o) w) as H.
  replace (o + (bound - o)) with bound in H by lia.
  apply H; [by left | done | lia.. | | | |]. 1, 2, 3: apply Z.mod_1_r.
  intros j Hj. unfold differ. simpl. f_equal. apply eqb_iff. lia.
Qed.

(** A run copies at least one byte, all of them unless the run ends on a check
    of the other end, and never past the bound; when it says "aligned", both
    pointers are. *)
Definition run_post (gran_check : bool) (y : Z * Z * bool) (w : world) : Prop :=
  ∃ o, 0 < o ≤ bound ∧ y.1 = (cur0 + o, pos0 + o) ∧ Inv o w ∧
       (gran_check = false → o = bound) ∧
       (y.2 = true → (cur0 + o) mod 8 = 0 ∧ (pos0 + o) mod 8 = 0).

(** The 64-bit loop and the tail, from aligned pointers. *)
Lemma wp_copy_words fuel gran_check o w :
  Inv o w → 0 ≤ o < 8 → 24 < bound → bound < Z.of_nat fuel → 0 ≤ cur0 → cur0 + bound < 2 ^ 64 →
  (cur0 + o) mod 8 = 0 → (pos0 + o) mod 8 = 0 →
  wp (let* x := while fuel (differ (Z.land (cur0 + bound) (u64 (Z.lnot 7)))) (copy 8) (cur0 + o, pos0 + o) in
      if negb gran_check && negb (x.1 =? cur0 + bound) then
        let* x := while fuel (differ (cur0 + bound)) (copy 1) x in ret (x, false)
      else ret (x, true)) (run_post gran_check) w.
Proof.
  intros HI Ho Hb Hf Hc0 Hc64 Hc Hp. rewrite land_lnot_7 by lia.
  set (m := cur0 + bound - (cur0 + bound) mod 8 - (cur0 + o)).
  assert (bound - 8 < o + m ≤ bound ∧ m mod 8 = 0) as [Hm Hm8] by (subst m; zmod).
  apply wp_bind. eapply wp_mono.
  { apply (wp_copy_while 8 _ fuel o m); [by right | done | lia.. |].
    intros j Hj. unfold differ. simpl. f_equal. apply eqb_iff. lia. }
  intros x w1 [-> HI1]. simpl. apply wp_if; intros E.
  - bool_hyps. subst. apply wp_bind. eapply wp_mono; [apply wp_copy_bytes; [done | lia..]|].
    intros x w2 [-> HI2]. apply wp_ret. exists bound. by split_and!; [lia | lia | | | |].
  - apply wp_ret. exists (o + m). split_and!; [lia | lia | done | done | |].
    + intros ->. simpl in E. bool_hyps. lia.
    + intros _. split; zmod.
Qed.

Lemma wp_copy_run fuel aligned gran_check w :
  Inv 0 w → 0 < bound → bound < Z.of_nat fuel → 0 ≤ cur0 → cur0 + bound < 2 ^ 64 →
  (aligned = true → cur0 mod 8 = 0 ∧ pos0 mod 8 = 0) →
  wp (copy_run copy fuel aligned gran_check (cur0 + bound) cur0 pos0) (run_post gran_check) w.
Proof.
  intros HI Hb Hf Hc0 Hc64 Hal.
  pose proof (Z.add_0_r cur0) as Ec. pose proof (Z.add_0_r pos0) as Ep.
  unfold copy_run. rewrite !land_7. apply wp_if; intros E.
  - bool_hyps. apply wp_bind. destruct aligned.
    + apply wp_ret. destruct Hal as [? ?]; [done|].
      rewrite <-Ec at 2. rewrite <-Ep at 1.
      apply wp_copy_words; rewrite ?Ec, ?Ep; auto; lia.
    + simpl in *. bool_hyps. set (m := - cur0 mod 8).
      assert (0 ≤ m < 8) by (subst m; zmod).
      rewrite <-Ec at 1. rewrite <-Ep at 1. eapply wp_mono.
      { apply (wp_copy_while 1 _ fuel 0 m); [by left | done | lia.. | | | |].
        1, 2, 3: apply Z.mod_1_r.
        intros j Hj. unfold unaligned. simpl. rewrite has_7. f_equal.
        apply eqb_iff. subst m. zmod. }
      intros x w1 [-> HI1]. rewrite Z.add_0_l in *.
      apply wp_copy_words; [done | lia.. | |]; subst m; zmod.
  - apply wp_bind. rewrite <-Ec at 2. rewrite <-Ep at 1.
    eapply wp_mono; [apply wp_copy_bytes; [done | lia..]|].
    intros x w2 [-> HI2]. apply wp_ret. exists bound. by split_and!; [lia | lia | | | |].
Qed.
End CopyRun.
