(* ===== verification/PipeFifo.v ===== *)
(** The queue the two ends of a pipe share: what a step of the reader and a step
    of the writer do to its content, and that any interleaving of the two is a
    first-in first-out queue. *)
From S2P Require Import Prelude Abi Ring PipeDefs.

(** A run of both ends from [s] to [s'] in which the writer appended [sent] and
    the reader took [received]. *)
Inductive pipe_run (size : Z) (s : pipe_shared) : list Z → list Z → pipe_shared → Prop :=
| run_start : pipe_run size s [] [] s
| run_writer sent received s1 s2 l :
    pipe_run size s sent received s1 →
    writer_step size s1 s2 → content s2 = content s1 ++ l →
    pipe_run size s (sent ++ l) received s2
| run_reader sent received s1 s2 l :
    pipe_run size s sent received s1 →
    reader_step size s1 s2 → content s1 = l ++ content s2 →
    pipe_run size s sent (received ++ l) s2.

(** ** Content *)

Lemma held_range size s : ring_wf size s → 0 ≤ held s < size.
Proof. intros (<- & ? & ?). apply used_range. lia. Qed.

Lemma length_content s : length (content s) = Z.to_nat (held s).
Proof. apply length_slice. Qed.

Lemma ring_wf_pos size s : ring_wf size s → 0 < size.
Proof. intros (_ & ? & _). lia. Qed.

(** [k] bytes of the content from offset [o] are the bytes at index [read + o]. *)
Lemma content_slice s o k :
  0 ≤ o → 0 ≤ k → o + k ≤ held s →
  slice (buffer s) (read s + o) k = take (Z.to_nat k) (drop (Z.to_nat o) (content s)).
Proof.
  intros. unfold content. rewrite drop_slice by lia. by rewrite take_slice by lia.
Qed.

(** ** Steps of the writer *)

Lemma writer_step_refl size s : ring_wf size s → writer_step size s s.
Proof. by split. Qed.

Lemma writer_step_trans size s1 s2 s3 :
  writer_step size s1 s2 → writer_step size s2 s3 → writer_step size s1 s3.
Proof.
  intros (? & Hr1 & Hc1) (? & Hr2 & Hc2). split_and!; [done | congruence | by etrans].
Qed.

Lemma writer_step_held size s s' : ring_wf size s → writer_step size s s' → held s ≤ held s'.
Proof.
  intros Hwf (Hwf' & _ & Hc%prefix_length). rewrite !length_content in Hc.
  apply held_range in Hwf, Hwf'. lia.
Qed.

(** The reader's unread bytes stay where they are. *)
Lemma writer_step_slice size s s' o k :
  ring_wf size s → writer_step size s s' → 0 ≤ o → 0 ≤ k → o + k ≤ held s →
  slice (buffer s') (read s + o) k = slice (buffer s) (read s + o) k.
Proof.
  intros Hwf Hst Ho Hk Hok. pose proof (writer_step_held _ _ _ Hwf Hst) as Hh.
  destruct Hst as (Hwf' & Hr & [l Hl]).
  rewrite <-Hr at 1. rewrite !content_slice by lia. rewrite Hl.
  rewrite drop_app_le by (rewrite length_content; lia).
  apply take_app_le. rewrite length_drop, length_content. lia.
Qed.

(** Bytes stored past the write index, in free slots, are not yet content. *)
Lemma store_free size s o l :
  ring_wf size s → 0 ≤ o → write s + o + len l ≤ size → o + len l < size - held s →
  let s' := set_buffer (poke (buffer s) (write s + o) l) s in
  ring_wf size s' ∧ content s' = content s.
Proof.
  intros Hwf Ho Hle Hfree s'. pose proof (held_range _ _ Hwf) as Hh.
  destruct Hwf as (Hlen & Hr & Hw).
  assert (len (buffer s') = size) as Hlen' by (simpl; rewrite len_poke; lia).
  split; [done|]. unfold content, held. rewrite Hlen'. simpl.
  unfold held in *. rewrite Hlen in *.
  apply slice_poke_ne; [lia | lia |]. intros k Hk Hin. rewrite Hlen in Hin.
  rewrite used_cases in * by lia.
  assert ((read s + k) mod size = read s + k ∨ (read s + k) mod size = read s + k - size)
    as [E|E].
  { destruct (decide (read s + k < size)); [left; apply Z.mod_small; lia|right].
    rewrite <-(Z.mod_small (read s + k - size) size) by lia.
    by rewrite <-(Z_mod_plus_full (read s + k - size) 1 size), Z.mul_1_l, Z.sub_add. }
  all: rewrite E in Hin; case_decide; lia.
Qed.

Lemma store_free_step size s o l :
  ring_wf size s → 0 ≤ o → write s + o + len l ≤ size → o + len l < size - held s →
  writer_step size s (set_buffer (poke (buffer s) (write s + o) l) s).
Proof.
  intros. destruct (store_free size s o l) as [? Hc]; [done..|].
  split_and!; [done | done | by rewrite Hc].
Qed.

(** Publishing [k] stored bytes appends them. *)
Lemma publish size s k :
  ring_wf size s → 0 ≤ k < size - held s → write s + k ≤ size →
  let s' := set_write (advance size (write s) k) s in
  ring_wf size s' ∧ content s' = content s ++ slice (buffer s) (write s) k.
Proof.
  intros Hwf Hk Hle s'. pose proof (held_range _ _ Hwf) as Hh.
  destruct Hwf as (Hlen & Hr & Hw). pose proof (advance_range size (write s) k) as Ha.
  split; [split_and!; simpl; lia|].
  unfold content, held in *. simpl. rewrite Hlen in *.
  rewrite used_push by lia. rewrite slice_app by lia. f_equal.
  rewrite <-(slice_mod _ (write s)), <-(slice_mod _ (read s + used _ _ _)), Hlen.
  unfold used. rewrite Zplus_mod_idemp_r. do 2 f_equal. lia.
Qed.

Lemma publish_step size s k :
  ring_wf size s → 0 ≤ k < size - held s → write s + k ≤ size →
  writer_step size s (set_write (advance size (write s) k) s).
Proof.
  intros. destruct (publish size s k) as [? Hc]; [done..|].
  split_and!; [done | done | rewrite Hc; by apply prefix_app_r].
Qed.

(** ** Steps of the reader *)

Lemma reader_step_refl size s : ring_wf size s → reader_step size s s.
Proof.
  intros Hwf. pose proof (held_range _ _ Hwf). split_and!; [done..|]. exists 0. split; [lia | done].
Qed.

Lemma reader_step_held size s s' :
  ring_wf size s → reader_step size s s' → held s' ≤ held s.
Proof.
  intros Hwf (Hwf' & _ & _ & k & Hk & Hc). apply (f_equal length) in Hc.
  rewrite length_drop, !length_content in Hc. apply held_range in Hwf, Hwf'. lia.
Qed.

Lemma reader_step_trans size s1 s2 s3 :
  ring_wf size s1 → reader_step size s1 s2 → reader_step size s2 s3 → reader_step size s1 s3.
Proof.
  intros Hwf (? & Hw1 & Hb1 & k1 & Hk1 & Hc1) (? & Hw2 & Hb2 & k2 & Hk2 & Hc2).
  split_and!; [done | congruence | congruence |]. exists (k1 + k2).
  pose proof (f_equal length Hc1) as Hl. rewrite length_drop, !length_content in Hl.
  split; [lia|]. rewrite Hc2, Hc1, drop_drop. f_equal. lia.
Qed.

(** Advancing the read index by [k] takes the [k] oldest bytes. *)
Lemma pop size s k :
  ring_wf size s → 0 ≤ k ≤ held s → read s + k ≤ size →
  let s' := set_read (advance size (read s) k) s in
  ring_wf size s' ∧ content s' = drop (Z.to_nat k) (content s).
Proof.
  intros Hwf Hk Hle s'. destruct Hwf as (Hlen & Hr & Hw).
  pose proof (advance_range size (read s) k) as Ha.
  split; [split_and!; simpl; lia|].
  unfold content, held in *. simpl. rewrite Hlen in *.
  rewrite used_pop by lia. rewrite drop_slice by lia.
  rewrite <-(slice_mod _ (read s + k)), <-slice_mod, Hlen, advance_mod by lia.
  by rewrite Z.mod_mod by lia.
Qed.

Lemma pop_step size s k :
  ring_wf size s → 0 ≤ k ≤ held s → read s + k ≤ size →
  reader_step size s (set_read (advance size (read s) k) s).
Proof.
  intros. destruct (pop size s k) as [? Hc]; [done..|].
  split_and!; [done | done | done |]. by exists k.
Qed.

(** ** Traces *)

Lemma writer_step_appended size s s' :
  writer_step size s s' → content s' = content s ++ drop (length (content s)) (content s').
Proof. intros (_ & _ & [l ->]). by rewrite drop_app_length. Qed.

Lemma reader_step_consumed size s s' :
  ring_wf size s → reader_step size s s' →
  content s = take (length (content s) - length (content s')) (content s) ++ content s'.
Proof.
  intros Hwf (_ & _ & _ & k & Hk & Hc). rewrite Hc, length_drop, length_content.
  replace (Z.to_nat (held s) - (Z.to_nat (held s) - Z.to_nat k))%nat with (Z.to_nat k) by lia.
  by rewrite take_drop.
Qed.

(** ** The queue as a whole *)

Lemma pipe_run_fifo size s sent received s' :
  pipe_run size s sent received s' → content s ++ sent = received ++ content s'.
Proof.
  induction 1 as [|sent rec s1 s2 l _ IH _ Hc|sent rec s1 s2 l _ IH _ Hc].
  - by rewrite app_nil_r.
  - by rewrite app_assoc, IH, Hc, app_assoc.
  - by rewrite IH, Hc, app_assoc.
Qed.
