(* ===== verification/PipeSide.v ===== *)
(** What one end of a pipe relies on from the other and guarantees to it, as an
    interface: the routines the two ends share are specified once against it,
    and each end provides its instance. *)
From S2P Require Import Prelude Abi Ring PipeDefs PipeCopy PipeFifo.

Abbreviation steps := (list (actor * pipe_shared * pipe_shared)).

(** Two shared areas that differ at most in their flag words. *)
Definition same_ring (s s' : pipe_shared) : Prop :=
  read s' = read s ∧ write s' = write s ∧ buffer s' = buffer s.

(** [rely]: what a step of the other end may do. [guar]: what a step of this end
    may do. [link s tr s']: how the content of [s] and of [s'] are related when
    [tr] is what happened in between and this end moved no index. *)
Class Side (size : Z) := {
  rely : pipe_shared → pipe_shared → Prop;
  guar : pipe_shared → pipe_shared → Prop;
  link : pipe_shared → steps → pipe_shared → Prop;
  rely_wf s s' : rely s s' → ring_wf size s';
  rely_trans s1 s2 s3 : ring_wf size s1 → rely s1 s2 → rely s2 s3 → rely s1 s3;
  rely_flags s s' : ring_wf size s → same_ring s s' → rely s s';
  guar_flags s s' : ring_wf size s → same_ring s s' → guar s s';
  link_nil s : link s [] s;
  link_peer s s' : ring_wf size s → rely s s' → link s [(Peer, s, s')] s';
  link_self s s' : same_ring s s' → link s [(Self, s, s')] s';
  link_app s1 s2 s3 tr1 tr2 : link s1 tr1 s2 → link s2 tr2 s3 → link s1 (tr2 ++ tr1) s3;
}.

(** The private data the copies depend on. *)
Definition geom (w : world) : Z * Z * Z * Z * bool * xen_shm_pipe_mod :=
  (shared (priv w), buffer_size (priv w), wait_check_interval (priv w), usr_base w, live w,
   pmod (priv w)).

(** The private data of a mapped pipe, and a caller's buffer in its memory. *)
Definition mapped (size : Z) (w : world) : Prop :=
  live w = true ∧ buffer_size (priv w) = size ∧ size mod 8 = 0 ∧ 1 < size ≤ 2 ^ 32 ∧
  0 < wait_check_interval (priv w) ∧ 0 ≤ shared (priv w).
Definition user_range (buf nbytes : Z) (w : world) : Prop :=
  0 ≤ usr_base w ≤ buf ∧ 0 ≤ nbytes ∧ buf + nbytes ≤ usr_base w + len (usr w) ∧
  buf + nbytes < 2 ^ 64.

Definition ring_base (w : world) : Z := shared (priv w) + sizeof_shared.

Lemma same_ring_refl s : same_ring s s.
Proof. done. Qed.

Lemma same_ring_content s s' : same_ring s s' → content s' = content s.
Proof. intros (Hr & Hw & Hb). unfold content, held. by rewrite Hr, Hw, Hb. Qed.

Lemma same_ring_wf size s s' : same_ring s s' → ring_wf size s → ring_wf size s'.
Proof. intros (Hr & Hw & Hb). unfold ring_wf. by rewrite Hr, Hw, Hb. Qed.

Lemma own_steps_peer (R : pipe_shared → pipe_shared → Prop) s s' : own_steps R [(Peer, s, s')].
Proof. by constructor. Qed.

Lemma own_steps_self (R : pipe_shared → pipe_shared → Prop) s s' :
  R s s' → own_steps R [(Self, s, s')].
Proof. intros. by constructor. Qed.

Section Evolution.
Context `{!PipeEnv} (size : Z) `{!Side size}.

(** The other end, and this end through its flags only, made the world go from
    [w] to [w']. *)
Definition evolves (w w' : world) : Prop :=
  geom w' = geom w ∧ ring_wf size (sh w') ∧ rely (sh w) (sh w') ∧
  ∃ tr, trace w' = tr ++ trace w ∧ link (sh w) tr (sh w') ∧ own_steps guar tr.
(** The same, the caller's buffer untouched. *)
Definition quiet (w w' : world) : Prop := evolves w w' ∧ usr w' = usr w.

Lemma quiet_refl w : ring_wf size (sh w) → quiet w w.
Proof.
  intros. split; [|done]. split_and!; [done | done | by apply rely_flags |].
  exists []. split_and!; [done | apply link_nil | constructor].
Qed.

Lemma evolves_trans w1 w2 w3 :
  ring_wf size (sh w1) → evolves w1 w2 → evolves w2 w3 → evolves w1 w3.
Proof.
  intros Hwf (Hg1 & _ & Hr1 & tr1 & Ht1 & Hl1 & Ho1) (Hg2 & Hwf3 & Hr2 & tr2 & Ht2 & Hl2 & Ho2).
  split_and!; [congruence | done | by eapply rely_trans |].
  exists (tr2 ++ tr1). split_and!.
  - by rewrite Ht2, Ht1, app_assoc.
  - by eapply link_app.
  - by apply Forall_app.
Qed.

Lemma quiet_trans w1 w2 w3 :
  ring_wf size (sh w1) → quiet w1 w2 → quiet w2 w3 → quiet w1 w3.
Proof.
  intros ? [? ?] [? ?]. split; [by eapply evolves_trans | congruence].
Qed.

Lemma quiet_wf w w' : quiet w w' → ring_wf size (sh w').
Proof. by intros [(_ & ? & _) _]. Qed.

Lemma quiet_geom w w' : quiet w w' → geom w' = geom w.
Proof. by intros [(? & _) _]. Qed.

(** Changes of the world outside the shared area and the caller's buffer. *)
Lemma quiet_local w w' :
  ring_wf size (sh w) → sh w' = sh w → trace w' = trace w → geom w' = geom w → usr w' = usr w →
  quiet w w'.
Proof.
  intros Hwf Hs Ht Hg Hu. split; [|done]. rewrite <-Hs in Hwf.
  split_and!; [done | done | rewrite <-Hs; by apply rely_flags |].
  exists []. rewrite Hs. split_and!; [done | apply link_nil | constructor].
Qed.

Hypothesis peer_relies : ∀ t s, ring_wf size s → rely s (peer t s).

Lemma wp_interfere Q w :
  ring_wf size (sh w) → (∀ w', quiet w w' → Q tt w') → wp interfere Q w.
Proof.
  intros Hwf HQ. apply HQ. pose proof (peer_relies (clock w) _ Hwf) as Hr.
  split; [|done]. split_and!; [done | by eapply rely_wf | done |].
  exists [(Peer, sh w, peer (clock w) (sh w))].
  split_and!; [done | by apply link_peer | ]. apply own_steps_peer.
Qed.

Lemma wp_load {A} (f : pipe_shared → A) Q w :
  ring_wf size (sh w) → (∀ w', quiet w w' → Q (f (sh w')) w') → wp (load f) Q w.
Proof. intros. apply wp_bind, wp_interfere; [done|]. auto. Qed.

Lemma wp_store_flags f Q w :
  ring_wf size (sh w) → (∀ s, same_ring s (f s)) →
  (∀ w', quiet w w' → Q tt w') → wp (store f) Q w.
Proof.
  intros Hwf Hf HQ. apply wp_bind, wp_interfere; [done|]. intros w1 H1.
  apply HQ. eapply quiet_trans; [done | done |].
  pose proof (quiet_wf _ _ H1) as Hwf1. split; [|done].
  specialize (Hf (sh w1)).
  split_and!; [done | by apply (same_ring_wf _ (sh w1)) | by apply rely_flags |].
  exists [(Self, sh w1, f (sh w1))]. split_and!; [done | by apply link_self |].
  by apply own_steps_self, guar_flags.
Qed.

Lemma wp_get_priv Q w : live w = true → Q (priv w) w → wp get_priv Q w.
Proof. unfold wp, get_priv. by intros ->. Qed.

Lemma wp_put_priv f Q w :
  ring_wf size (sh w) → live w = true →
  shared (f (priv w)) = shared (priv w) → buffer_size (f (priv w)) = buffer_size (priv w) →
  wait_check_interval (f (priv w)) = wait_check_interval (priv w) → pmod (f (priv w)) = pmod (priv w) →
  (∀ w', quiet w w' → Q tt w') → wp (put_priv f) Q w.
Proof.
  intros Hwf Hl H1 H2 H3 H4 HQ. unfold wp, put_priv. rewrite Hl. apply HQ.
  apply quiet_local; [done..| |done]. unfold geom. simpl. congruence.
Qed.

Lemma wp_sys c Q w :
  ring_wf size (sh w) → (∀ a w', quiet w w' → Q a w') → wp (sys c) Q w.
Proof.
  intros Hwf HQ. apply wp_bind, wp_interfere; [done|]. intros w1 H1.
  apply HQ. eapply quiet_trans; [done | done |]. pose proof (quiet_wf _ _ H1).
  case_match; by apply quiet_local.
Qed.

(** The answer comes from outside, and a failing call sets errno. *)
Lemma wp_sys_answer c Q w :
  ring_wf size (sh w) →
  (∀ t w', quiet w w' → (ans_ret (answer t c) < 0 → errno w' = ans_errno (answer t c)) →
     priv w' = priv w → Q (answer t c) w') →
  wp (sys c) Q w.
Proof.
  intros Hwf HQ. apply wp_bind. set (w1 := with_sh Peer (peer (clock w) (sh w)) w).
  assert (quiet w w1) as H1 by exact (wp_interfere (λ _ w', quiet w w') w Hwf (λ _ Hq, Hq)).
  pose proof (quiet_wf _ _ H1). apply (HQ (clock w1)); [| |by case_match].
  - eapply quiet_trans; [done | done |]. case_match; by apply quiet_local.
  - intros Hlt. apply Z.ltb_lt in Hlt. subst w1. simpl in *. by rewrite Hlt.
Qed.

Lemma geom_live w w' : geom w' = geom w → live w' = live w.
Proof. by intros [= _ _ _ _ ? _]. Qed.

Lemma wp_send_signal Q w :
  ring_wf size (sh w) → live w = true → (∀ a w', quiet w w' → Q a w') →
  wp __xen_shm_pipe_send_signal Q w.
Proof.
  intros Hwf Hl HQ. apply wp_bind, wp_put_priv; [done..|]. intros w1 H1.
  apply wp_bind, wp_get_priv; [by rewrite (geom_live _ _ (quiet_geom _ _ H1))|].
  apply wp_bind, wp_sys; [by eapply quiet_wf|]. intros a w2 H2. apply wp_ret, HQ.
  by eapply quiet_trans.
Qed.

(** The looks at the other end's flags only wake it. *)
Lemma wp_wake_other flags Q w :
  ring_wf size (sh w) → live w = true → (∀ w', quiet w w' → Q tt w') →
  wp (wake_other flags) Q w.
Proof.
  intros Hwf Hl HQ. apply wp_bind, wp_load; [done|]. intros w1 H1.
  apply wp_when; intros _; [|by apply HQ].
  apply wp_bind, wp_send_signal; [by eapply quiet_wf| |].
  { by rewrite (geom_live _ _ (quiet_geom _ _ H1)). }
  intros a w2 H2. apply wp_ret, HQ. by eapply quiet_trans.
Qed.

Lemma wp_first_gran flags buf Q w :
  ring_wf size (sh w) → live w = true → 0 < wait_check_interval (priv w) →
  (∀ g w', quiet w w' → buf < g → Q g w') → wp (first_gran flags buf) Q w.
Proof.
  intros Hwf Hl Hi HQ. apply wp_bind, wp_load; [done|]. intros w1 H1.
  pose proof (quiet_geom _ _ H1) as Hg. apply wp_bind, wp_get_priv; [by rewrite (geom_live _ _ Hg)|].
  apply wp_ret, HQ; [done|]. injection Hg as _ _ -> _ _ _.
  unfold XEN_SHM_PIPE_FAST_CHECK_INTERVAL. case_match; lia.
Qed.

(** The check leaves the next one ahead of the pointer. *)
Lemma wp_gran_step flags check current gran_max Q w :
  ring_wf size (sh w) → live w = true → 0 < wait_check_interval (priv w) →
  current ≤ gran_max →
  (∀ g w', quiet w w' → current < g → Q g w') →
  wp (gran_step flags check current gran_max) Q w.
Proof.
  intros Hwf Hl Hi Hc HQ. apply wp_if; intros E.
  - apply wp_bind, wp_load; [done|]. intros w1 H1.
    assert (∀ w2, quiet w w2 → wp (let* p := get_priv in ret (gran_max + wait_check_interval p)) Q w2).
    { intros w2 H2. pose proof (quiet_geom _ _ H2) as Hg.
      apply wp_bind, wp_get_priv; [by rewrite (geom_live _ _ Hg)|].
      apply wp_ret, HQ; [done|]. injection Hg as _ _ -> _ _ _. lia. }
    apply wp_bind, wp_when; intros _; [|auto].
    apply wp_bind, wp_send_signal; [by eapply quiet_wf| |].
    { by rewrite (geom_live _ _ (quiet_geom _ _ H1)). }
    intros a w2 H2. apply wp_ret. eauto using quiet_trans.
  - apply wp_ret. apply HQ; [by apply quiet_refl|]. bool_hyps. lia.
Qed.

(** The accesses of the copies, in bounds and aligned. *)
Lemma wp_load_shared k a Q w :
  ring_wf size (sh w) → a mod k = 0 →
  0 ≤ a - (shared (priv w) + sizeof_shared) → a - (shared (priv w) + sizeof_shared) + k ≤ size →
  (∀ w', quiet w w' → Q (peek (buffer (sh w')) (a - (shared (priv w) + sizeof_shared)) k) w') →
  wp (load_shared k a) Q w.
Proof.
  intros Hwf Ha H0 Hk HQ. apply wp_bind, wp_interfere; [done|]. intros w1 H1.
  pose proof (quiet_wf _ _ H1) as (Hlen & _). pose proof (quiet_geom _ _ H1) as Hg.
  specialize (HQ w1 H1). injection Hg as Hs _ _ _ _ _. unfold wp, in_buffer.
  rewrite Ha, Hs, Hlen, (proj2 (Z.leb_le _ _)), (proj2 (Z.leb_le _ _)) by lia. done.
Qed.

Lemma wp_store_shared k a v Q w :
  ring_wf size (sh w) → a mod k = 0 →
  0 ≤ a - (shared (priv w) + sizeof_shared) → a - (shared (priv w) + sizeof_shared) + k ≤ size →
  (∀ w', quiet w w' →
     Q tt (with_sh Self (set_buffer (poke (buffer (sh w')) (a - (shared (priv w) + sizeof_shared)) v) (sh w')) w')) →
  wp (store_shared k a v) Q w.
Proof.
  intros Hwf Ha H0 Hk HQ. apply wp_bind, wp_interfere; [done|]. intros w1 H1.
  pose proof (quiet_wf _ _ H1) as (Hlen & _). pose proof (quiet_geom _ _ H1) as Hg.
  specialize (HQ w1 H1). injection Hg as Hs _ _ _ _ _. unfold wp, in_buffer.
  rewrite Ha, Hs, Hlen, (proj2 (Z.leb_le _ _)), (proj2 (Z.leb_le _ _)) by lia. done.
Qed.
End Evolution.

Lemma wp_load_user `{!PipeEnv} k a Q w :
  a mod k = 0 → 0 ≤ a - usr_base w → a - usr_base w + k ≤ len (usr w) →
  Q (peek (usr w) (a - usr_base w) k) w → wp (load_user k a) Q w.
Proof.
  intros Ha H0 Hk HQ. unfold wp, load_user, in_usr.
  by rewrite Ha, (proj2 (Z.leb_le _ _)), (proj2 (Z.leb_le _ _)) by lia.
Qed.

Lemma wp_store_user `{!PipeEnv} k a v Q w :
  a mod k = 0 → 0 ≤ a - usr_base w → a - usr_base w + k ≤ len (usr w) →
  Q tt (with_usr (poke (usr w) (a - usr_base w) v) w) → wp (store_user k a v) Q w.
Proof.
  intros Ha H0 Hk HQ. unfold wp, store_user, in_usr.
  by rewrite Ha, (proj2 (Z.leb_le _ _)), (proj2 (Z.leb_le _ _)) by lia.
Qed.

(** ** The bounds of one round *)

(** The least bound is ahead of the pointer when all three are. *)
Lemma min_max_spec current circ_max usr_max gran_max :
  current < circ_max → current < usr_max → current < gran_max →
  ∃ bound check, min_max_buf circ_max usr_max gran_max = (current + bound, check) ∧
    0 < bound ∧ bound ≤ circ_max - current ∧ bound ≤ usr_max - current ∧
    bound ≤ gran_max - current.
Proof.
  intros. exists ((min_max_buf circ_max usr_max gran_max).1 - current).
  exists (min_max_buf circ_max usr_max gran_max).2. unfold min_max_buf.
  repeat case_match; bool_hyps; simpl; split_and!; try f_equal; lia.
Qed.

Lemma circ_max_spec size base c i j :
  ring_pos c = base + i → ring_end c = base + j →
  0 ≤ i < size → 0 ≤ j < size → i ≠ j →
  let run := circ_max_buf (base + size) c - current_buf c in
  0 < run ≤ used size i j ∧ i + run ≤ size.
Proof.
  intros Hi Hj Hir Hjr Hne. pose proof (used_run size i j Hir Hjr Hne) as H. simpl in *.
  unfold circ_max_buf. rewrite Hi, Hj.
  destruct (Z.leb_spec i j); [rewrite (proj2 (Z.leb_le _ _)) by lia |
    rewrite (proj2 (Z.leb_gt _ _)) by lia]; lia.
Qed.

(** The index stored after a run that ends at [i + o]. *)
Lemma next_index size base i o :
  0 ≤ i → 0 ≤ o → i + o ≤ size → 0 < size → size ≤ 2 ^ 32 →
  u32 ((if base + i + o =? base + size then base else base + i + o) - base) = advance size i o.
Proof.
  intros. pose proof (advance_range size i o). unfold u32.
  rewrite wrap_small; unfold advance in *; destruct (Z.eqb_spec (base + i + o) (base + size));
    repeat case_decide; lia.
Qed.

(** ** The two instances *)

Lemma appended_app tr1 tr2 : appended (tr2 ++ tr1) = appended tr1 ++ appended tr2.
Proof.
  induction tr2 as [|[[[] s] s'] tr2 IH]; simpl; [by rewrite app_nil_r | done |].
  by rewrite IH, app_assoc.
Qed.

Lemma consumed_app tr1 tr2 : consumed (tr2 ++ tr1) = consumed tr1 ++ consumed tr2.
Proof.
  induction tr2 as [|[[[] s] s'] tr2 IH]; simpl; [by rewrite app_nil_r | done |].
  by rewrite IH, app_assoc.
Qed.

Lemma writer_step_flags size s s' : ring_wf size s → same_ring s s' → writer_step size s s'.
Proof.
  intros Hwf Hs. split_and!; [by eapply same_ring_wf | by destruct Hs as (? & _) |].
  by rewrite (same_ring_content _ _ Hs).
Qed.

Lemma reader_step_flags size s s' : ring_wf size s → same_ring s s' → reader_step size s s'.
Proof.
  intros Hwf Hs. pose proof (held_range _ _ Hwf). pose proof Hs as (? & ? & ?).
  split_and!; [by eapply same_ring_wf | done | done |].
  exists 0. split; [lia|]. by rewrite (same_ring_content _ _ Hs).
Qed.

Section Instances.
Context (size : Z).

(** The reader relies on the writer appending. *)
Program Definition reader_side : Side size := {|
  rely := writer_step size;
  guar := reader_step size;
  link s tr s' := content s' = content s ++ appended tr;
|}.
Next Obligation. by intros s s' (? & _). Qed.
Next Obligation. intros s1 s2 s3 _. apply writer_step_trans. Qed.
Next Obligation. apply writer_step_flags. Qed.
Next Obligation. apply reader_step_flags. Qed.
Next Obligation. intros s. simpl. by rewrite app_nil_r. Qed.
Next Obligation. intros s s' _ H. simpl. by eapply writer_step_appended. Qed.
Next Obligation. intros s s' H. simpl. by rewrite (same_ring_content _ _ H), app_nil_r. Qed.
Next Obligation. intros s1 s2 s3 tr1 tr2 H1 H2. simpl in *. by rewrite H2, H1, appended_app, app_assoc. Qed.

(** The writer relies on the reader taking from the front. *)
Program Definition writer_side : Side size := {|
  rely := reader_step size;
  guar := writer_step size;
  link s tr s' := content s = consumed tr ++ content s';
|}.
Next Obligation. by intros s s' (? & _). Qed.
Next Obligation. intros s1 s2 s3 H. by apply reader_step_trans. Qed.
Next Obligation. apply reader_step_flags. Qed.
Next Obligation. apply writer_step_flags. Qed.
Next Obligation. done. Qed.
Next Obligation. intros s s' Hwf H. simpl. by eapply reader_step_consumed. Qed.
Next Obligation. intros s s' H. simpl. by rewrite (same_ring_content _ _ H). Qed.
Next Obligation. intros s1 s2 s3 tr1 tr2 H1 H2. simpl in *. by rewrite H1, H2, consumed_app, app_assoc. Qed.
End Instances.
