(* ===== verification/PipeRead.v ===== *)
(** [__xen_shm_pipe_read_avail]: what it delivers to the caller, whatever the
    writer does meanwhile. *)
From S2P Require Import Prelude Abi Ring PipeDefs PipeCopy PipeFifo PipeSide.

(** What the caller's buffer, the queue and the result are after a read of [w0]
    into [nbytes] bytes at [buf]: the bytes delivered followed by those still in
    the queue are the bytes that were there followed by those the writer added. *)
Definition read_post (size buf nbytes : Z) (w0 : world) (n : Z) (w : world) : Prop :=
  ∃ data tr,
    n = len data ∧ n ≤ nbytes ∧ Z.min nbytes (held (sh w0)) ≤ n ∧
    usr w = poke (usr w0) (buf - usr_base w0) data ∧
    trace w = tr ++ trace w0 ∧
    data ++ content (sh w) = content (sh w0) ++ appended tr ∧
    own_steps (reader_step size) tr ∧ ring_wf size (sh w) ∧ geom w = geom w0.

Section Reader.
Context `{!PipeEnv} (size : Z).
#[local] Instance side : Side size := reader_side size.
Hypothesis peer_writes : ∀ t s, ring_wf size s → writer_step size s (peer t s).

(** ** One run of copies *)

Definition copied (w1 : world) (off o : Z) (w : world) : Prop :=
  evolves size w1 w ∧
  usr w = poke (usr w1) off (slice (buffer (sh w)) (read (sh w1)) o).

Lemma evolves_slice w w' o k :
  ring_wf size (sh w) → evolves size w w' → 0 ≤ o → 0 ≤ k → o + k ≤ held (sh w) →
  slice (buffer (sh w')) (read (sh w) + o) k = slice (buffer (sh w)) (read (sh w) + o) k.
Proof. intros Hwf (_ & _ & Hr & _). by apply (writer_step_slice size). Qed.

Lemma evolves_read w w' : evolves size w w' → read (sh w') = read (sh w).
Proof. by intros (_ & _ & (_ & ? & _) & _). Qed.

Lemma evolves_held w w' : ring_wf size (sh w) → evolves size w w' → held (sh w) ≤ held (sh w').
Proof. intros Hwf (_ & _ & Hr & _). by apply (writer_step_held size). Qed.

Lemma copied_quiet w1 off o w w' :
  ring_wf size (sh w1) → 0 ≤ o ≤ held (sh w1) →
  copied w1 off o w → quiet size w w' → copied w1 off o w'.
Proof.
  intros Hwf Ho [He Hu] [He' Hu'].
  assert (ring_wf size (sh w)) as Hwfw by apply He.
  split; [by eapply evolves_trans|]. rewrite Hu', Hu. f_equal.
  pose proof (evolves_held _ _ Hwf He).
  rewrite <-(Z.add_0_r (read (sh w1))), <-(evolves_read _ _ He).
  symmetry. apply evolves_slice; [done | done | lia..].
Qed.

Lemma copy_in_step w1 cur0 bound k o w :
  ring_wf size (sh w1) → bound ≤ held (sh w1) → read (sh w1) + bound ≤ size →
  0 ≤ cur0 - usr_base w1 → cur0 - usr_base w1 + bound ≤ len (usr w1) →
  k = 1 ∨ k = 8 → copied w1 (cur0 - usr_base w1) o w → 0 ≤ o → o + k ≤ bound →
  (cur0 + o) mod k = 0 → (ring_base w1 + read (sh w1) + o) mod k = 0 →
  wp (copy_in k (cur0 + o, ring_base w1 + read (sh w1) + o))
     (λ x w', x = (cur0 + (o + k), ring_base w1 + read (sh w1) + (o + k)) ∧
              copied w1 (cur0 - usr_base w1) (o + k) w') w.
Proof.
  intros Hwf Hb Hrb Hc0 Hcb Hk HI Ho Hok Hck Hpk.
  assert (0 < k) by lia. pose proof (proj1 (proj2 Hwf)) as Hr.
  destruct HI as [He Hu]. pose proof He as (Hg & Hwfw & _). injection Hg as Hsh _ _ Hub _ _.
  unfold ring_base in *. apply wp_bind, (wp_load_shared size); simpl; rewrite ?Hsh; [done..| lia | lia |].
  intros w2 Hq. 
  destruct (copied_quiet w1 (cur0 - usr_base w1) o w w2) as [He2 Hu2]; [done | lia | done | done |].
  pose proof (quiet_geom _ _ _ Hq) as Hg2. injection Hg2 as _ _ _ Hub2 _ _.
  assert (len (slice (buffer (sh w2)) (read (sh w1)) o) = o) as Hlo by (apply len_slice; lia).
  assert (len (usr w2) = len (usr w1)) as Hlu by (rewrite Hu2; apply len_poke; lia).
  apply wp_bind, wp_store_user; simpl; rewrite ?Hub2, ?Hub; [done | lia | lia |].
  apply wp_ret. split; [f_equal; lia|]. split; [exact He2|]. simpl.
  rewrite Hu2. replace (cur0 + o - usr_base w1) with (cur0 - usr_base w1 + o) by lia.
  rewrite slice_app by lia. rewrite <-Hlo at 2. destruct He2 as (_ & (Hlen & _) & _).
  rewrite poke_app.
  - rewrite <-slice_peek by lia. do 3 f_equal. lia.
  - lia.
  - rewrite Hlo, len_peek by lia. lia.
Qed.

(** ** One round of the loop *)

(** The world as the loop sees it: [data] has been delivered; [ring_end] is an
    older value of the write index. *)
Definition read_inv (buf nbytes : Z) (w0 : world) (c : cursor) (w : world) : Prop :=
  ∃ data tr wv,
    trace w = tr ++ trace w0 ∧
    data ++ content (sh w) = content (sh w0) ++ appended tr ∧
    own_steps (reader_step size) tr ∧
    geom w = geom w0 ∧ ring_wf size (sh w) ∧
    usr w = poke (usr w0) (buf - usr_base w0) data ∧
    current_buf c = buf + len data ∧ len data ≤ nbytes ∧
    ring_pos c = ring_base w0 + read (sh w) ∧ ring_end c = ring_base w0 + wv ∧
    0 ≤ wv < size ∧ used size (read (sh w)) wv ≤ held (sh w) ∧
    held (sh w0) ≤ len data + used size (read (sh w)) wv ∧
    current_buf c < gran_max_buf c ∧
    (is_aligned c = true → current_buf c mod 8 = 0 ∧ ring_pos c mod 8 = 0).

(** What the end of a round does with the [o] bytes it copied: the caller has
    them and the queue has lost them. *)
Lemma publish_read w1 w o off :
  ring_wf size (sh w1) → 0 ≤ o ≤ held (sh w1) → read (sh w1) + o ≤ size →
  copied w1 off o w →
  let w' := with_sh Self (set_read (advance size (read (sh w1)) o) (sh w)) w in
  ∃ tr, trace w' = tr ++ trace w1 ∧ own_steps (reader_step size) tr ∧
    slice (buffer (sh w)) (read (sh w1)) o ++ content (sh w') = content (sh w1) ++ appended tr ∧
    ring_wf size (sh w') ∧ held (sh w) - o = held (sh w').
Proof.
  intros Hwf Ho Hle [He Hu] w'; subst w'. pose proof He as (Hg & Hwfw & Hr & tr & Ht & Hl & Hown).
  pose proof (evolves_held _ _ Hwf He) as Hh. pose proof (evolves_read _ _ He) as Hrd.
  rewrite <-Hrd in *.
  destruct (pop size (sh w) o) as [Hwf' Hc]; [done | lia | lia |].
  exists ((Self, sh w, set_read (advance size (read (sh w)) o) (sh w)) :: tr). split_and!.
  - simpl. by rewrite Ht.
  - apply Forall_cons. split; [|done]. intros _. apply pop_step; [done | lia | lia].
  - simpl. rewrite Hc. simpl in Hl. rewrite <-Hl.
    rewrite <-(Z.add_0_r (read (sh w))), content_slice by lia. apply take_drop.
  - done.
  - pose proof (f_equal length Hc) as E. rewrite length_drop, !length_content in E.
    apply held_range in Hwf', Hwfw. simpl in *. lia.
Qed.

Lemma read_bounds buf nbytes w0 c w :
  ring_wf size (sh w0) → user_range buf nbytes w0 →
  read_inv buf nbytes w0 c w → more (buf + nbytes) c = true →
  ∃ bound check,
    min_max_buf (circ_max_buf (ring_base w0 + size) c) (buf + nbytes) (gran_max_buf c)
      = (current_buf c + bound, check) ∧
    0 < bound ≤ nbytes ∧ bound ≤ held (sh w) ∧ read (sh w) + bound ≤ size ∧
    buf ≤ current_buf c ∧ current_buf c + bound ≤ buf + nbytes ∧
    current_buf c + bound ≤ gran_max_buf c.
Proof.
  intros Hwf0 (Hub & Hnb & Hlen & H64) HI Hmore.
  destruct HI as (data & tr & wv & _ & _ & _ & _ & Hwf & _ & Hcur & Hdn & Hpos & Hend &
    Hwv & Huse & _ & Hgran & _).
  unfold more in Hmore. bool_hyps. pose proof (len_nonneg data).
  destruct (circ_max_spec size (ring_base w0) c (read (sh w)) wv) as [[Hrun Hrunu] Hrle];
    [done | done | apply Hwf | done | intros <-; congruence |].
  destruct (min_max_spec (current_buf c) (circ_max_buf (ring_base w0 + size) c) (buf + nbytes)
    (gran_max_buf c)) as (bound & check & Hmm & ?); [lia..|].
  exists bound, check. split; [done | lia].
Qed.

(** The end of a round re-establishes the invariant: [w4] is where the write
    index was read, [w5] where the read index is stored. *)
Lemma read_inv_next buf nbytes w0 c w o g w4 w5 al :
  mapped size w0 → ring_wf size (sh w0) → user_range buf nbytes w0 →
  read_inv buf nbytes w0 c w →
  0 < o → current_buf c + o ≤ buf + nbytes → o ≤ held (sh w) → read (sh w) + o ≤ size →
  copied w (current_buf c - usr_base w0) o w4 → quiet size w4 w5 →
  current_buf c + o < g →
  (al = true → (current_buf c + o) mod 8 = 0 ∧ (ring_pos c + o) mod 8 = 0) →
  read_inv buf nbytes w0
    (Cursor (current_buf c + o)
       (if ring_pos c + o =? ring_base w0 + size then ring_base w0 else ring_pos c + o)
       (ring_base w0 + write (sh w4)) g al)
    (with_sh Self (set_read (advance size (read (sh w)) o) (sh w5)) w5).
Proof.
  intros (_ & _ & Hm8 & Hsz & _) Hwf0 (Hub & Hnb & Hlen & H64) HI Ho Hon Hoh Hos Hcp4 H5 Hg Hal.
  destruct HI as (data & tr & wv & Ht & Hfifo & Hown & Hgeom & Hwf & Hu & Hcur & Hdn & Hpos & _ &
    _ & Huse & Hmin & _ & _).
  pose proof (len_nonneg data). pose proof (proj1 (proj2 Hwf)) as Hrd.
  assert (copied w (current_buf c - usr_base w0) o w5) as Hcp5.
  { eapply copied_quiet; [done | lia | done | done]. }
  destruct (publish_read w w5 o (current_buf c - usr_base w0)) as (tr5 & Ht5 & Hown5 & Hf5 & Hwf5 & Hh5);
    [done | lia | lia | done |].
  pose proof (evolves_held _ _ Hwf (proj1 Hcp4)) as Hh4.
  pose proof (evolves_held _ _ (proj1 (proj2 (proj1 Hcp4))) (proj1 H5)) as Hh45.
  pose proof (evolves_read _ _ (proj1 Hcp4)) as Hr4.
  pose proof (proj1 (proj2 (proj1 Hcp4))) as (Hlen4 & _ & Hw4).
  assert (used size (advance size (read (sh w)) o) (write (sh w4)) = held (sh w4) - o) as Hused.
  { unfold held in *. rewrite Hlen4, Hr4 in *. apply used_pop; lia. }
  assert (len (slice (buffer (sh w5)) (read (sh w)) o) = o) as Hlo by (apply len_slice; lia).
  exists (data ++ slice (buffer (sh w5)) (read (sh w)) o), (tr5 ++ tr), (write (sh w4)).
  rewrite len_app, Hlo, <-Hh5. cbn [current_buf ring_pos ring_end gran_max_buf is_aligned].
  split_and!; try done; try lia.
  - by rewrite Ht5, Ht, app_assoc.
  - by rewrite <-app_assoc, Hf5, appended_app, !app_assoc, Hfifo.
  - by apply Forall_app.
  - destruct Hcp5 as [(? & _) _]. by transitivity (geom w5); [|congruence].
  - simpl. rewrite (proj2 Hcp5), Hu, <-poke_app by (rewrite ?Hlo; lia). f_equal. lia.
  - simpl. rewrite Hpos. unfold advance. destruct (Z.eqb_spec (ring_base w0 + read (sh w) + o) (ring_base w0 + size));
      case_decide; lia.
  - simpl. rewrite Hused. lia.
  - simpl. rewrite Hused. lia.
  - intros E. destruct (Hal E) as [? ?]. split; [done|].
    destruct (Z.eqb_spec (ring_pos c + o) (ring_base w0 + size)); [zmod | done].
Qed.

Lemma wp_read_avail_body buf nbytes fuel w0 c w :
  mapped size w0 → ring_wf size (sh w0) → user_range buf nbytes w0 →
  nbytes < Z.of_nat fuel → read_inv buf nbytes w0 c w → more (buf + nbytes) c = true →
  wp (read_avail_body fuel (ring_base w0) (ring_base w0 + size) (buf + nbytes) c)
     (λ c' w', read_inv buf nbytes w0 c' w' ∧ current_buf c < current_buf c') w.
Proof.
  intros Hmap Hwf0 Hrange Hf HI Hmore.
  destruct (read_bounds _ _ _ _ _ Hwf0 Hrange HI Hmore) as (bound & check & Hmm & Hb & Hbh & Hbs &
    Hcb & Hbu & Hbg).
  pose proof HI as (data & _ & _ & _ & _ & _ & Hg & Hwf & Hu & Hcur & _ & Hpos & _ & _ & _ & _ & _ & Hal).
  pose proof Hmap as (Hlive & Hbsz & Hm8 & Hsz & Hwci & Hsh0). pose proof Hrange as (Hub & Hnb & Hlen & H64).
  pose proof (proj1 (proj2 Hwf)) as Hrd. pose proof (len_nonneg data).
  injection Hg as Hgsh Hgbs Hgwci Hgub Hglive _.
  assert (len (usr w) = len (usr w0)) as Hlu by (rewrite Hu; apply len_poke; lia).
  assert (ring_base w = ring_base w0) as Hrb by (unfold ring_base; lia).
  unfold read_avail_body. rewrite Hmm. apply wp_bind. eapply wp_mono.
  { apply (wp_copy_run copy_in (copied w (current_buf c - usr_base w0)) (current_buf c) (ring_pos c) bound).
    - intros k o w1 Hk HI1 Ho Hok Hck Hpk. rewrite Hpos, <-Hrb, <-Hgub in *.
      apply copy_in_step with (bound := bound); first [done | lia].
    - split; [by apply quiet_refl | by rewrite slice_nil, poke_nil by lia].
    - lia.
    - lia.
    - lia.
    - lia.
    - done. }
  intros y w2 (o & Ho & Hy & Hcp & _ & Hal2). rewrite Hy. cbn [fst snd].
  pose proof (proj1 Hcp) as (Hg2 & Hwf2 & _). injection Hg2 as Hs2 _ Hi2 Hub2 Hl2 _.
  apply wp_bind, (wp_gran_step size); [done | done | congruence | congruence | lia |].
  intros g w3 H3 Hg3. apply wp_bind, (wp_load size); [done | by eapply quiet_wf |].
  intros w4 H4. apply wp_bind, wp_bind, (wp_interfere size); [done | by eapply quiet_wf |].
  intros w5 H5. apply wp_ret.
  assert (copied w (current_buf c - usr_base w0) o w4) as Hcp4.
  { do 2 (eapply copied_quiet; [done | lia | | done]). done. }
  pose proof (next_index size (ring_base w0) (read (sh w)) o) as Hidx. rewrite <-Hpos in Hidx.
  rewrite Hidx by lia.
  split; [eapply read_inv_next; first [done | lia] | simpl; lia].
Qed.

(** ** The routine *)

Lemma read_inv_start buf nbytes w0 w2 w3 g :
  ring_wf size (sh w0) → user_range buf nbytes w0 →
  quiet size w0 w2 → quiet size w2 w3 → buf < g →
  read_inv buf nbytes w0
    (Cursor buf (ring_base w0 + read (sh w0)) (ring_base w0 + write (sh w2)) g false) w3.
Proof.
  intros Hwf (Hub & Hnb & _) H2 H3 Hg.
  pose proof (quiet_trans _ _ _ _ Hwf H2 H3) as [(Hgeom & Hwf3 & Hr3 & tr & Ht & Hl & Ho) Hu].
  pose proof (quiet_wf _ _ _ H2) as Hwf2.
  pose proof (evolves_held _ _ Hwf (proj1 H2)) as Hh2.
  pose proof (evolves_held _ _ Hwf2 (proj1 H3)) as Hh3.
  pose proof (evolves_read _ _ (proj1 H3)) as Hrd3. pose proof (evolves_read _ _ (proj1 H2)) as Hrd2.
  assert (used size (read (sh w3)) (write (sh w2)) = held (sh w2)) as Hused.
  { unfold held. destruct Hwf2 as (-> & _). congruence. }
  exists [], tr, (write (sh w2)). rewrite Hused. cbn [current_buf ring_pos ring_end gran_max_buf is_aligned].
  change (len []) with 0. split_and!; try done; try lia.
  - by rewrite poke_nil by lia.
  - apply Hwf2.
  - apply Hwf2.
Qed.

Lemma wp_read_avail buf nbytes w :
  mapped size w → ring_wf size (sh w) → user_range buf nbytes w →
  wp (__xen_shm_pipe_read_avail buf nbytes) (read_post size buf nbytes w) w.
Proof.
  intros Hmap Hwf Hrange. pose proof Hmap as (Hlive & Hbsz & _ & _ & Hwci & _).
  apply wp_bind, wp_get_priv; [done|]. rewrite Hbsz. fold (ring_base w).
  apply wp_bind, (wp_load size); [done..|]. intros w1 H1.
  apply wp_bind, (wp_load size); [done | by eapply quiet_wf|]. intros w2 H2.
  pose proof (quiet_trans _ _ _ _ Hwf H1 H2) as H02.
  pose proof (quiet_geom _ _ _ H02) as Hg2. injection Hg2 as _ _ Hi2 _ Hl2 _.
  apply wp_bind, (wp_first_gran size); [done | by eapply quiet_wf | congruence | congruence |].
  intros g w3 H3 Hg. rewrite (evolves_read _ _ (proj1 H1)). apply wp_bind.
  apply (wp_while (read_inv buf nbytes w) (λ c, buf + nbytes - current_buf c)).
  - intros c s HI Hc. eapply wp_mono; [apply wp_read_avail_body; first [done | lia]|].
    intros c' s' [HI' Hlt]. split; [done|].
    destruct HI' as (data & _ & _ & _ & _ & _ & _ & _ & _ & Hcur & Hdn & _).
    destruct HI as (data0 & _ & _ & _ & _ & _ & _ & _ & _ & Hcur0 & Hdn0 & _). lia.
  - intros c s HI Hc.
    destruct HI as (data & tr & wv & Ht & Hf & Ho & Hgeom & Hwfs & Hu & Hcur & Hdn & Hpos & Hend &
      Hwv & _ & Hmin & _).
    apply wp_bind, (wp_wake_other size); [done | done | |].
    { injection Hgeom as _ _ _ _ Hls _. congruence. }
    intros w4 [(Hg4 & Hwf4 & Hr4 & tr4 & Ht4 & Hl4 & Ho4) Hu4]. apply wp_ret.
    exists data, (tr4 ++ tr). split_and!; try done.
    + lia.
    + lia.
    + unfold more in Hc. apply andb_false_iff in Hc as [Hc|Hc]; bool_hyps; [|lia].
      assert (read (sh s) = wv) as Heq by lia.
      rewrite <-(used_zero size) in Heq; [lia | apply Hwfs | done].
    + congruence.
    + by rewrite Ht4, Ht, app_assoc.
    + simpl in Hl4. by rewrite Hl4, appended_app, !app_assoc, Hf.
    + by apply Forall_app.
    + congruence.
  - apply read_inv_start; done.
  - simpl. destruct Hrange as (_ & ? & _). lia.
Qed.
End Reader.
