(* ===== verification/PipeWrite.v ===== *)
(** [__xen_shm_pipe_write_avail]: what it appends to the queue, whatever the
    reader does meanwhile. *)
From S2P Require Import Prelude Abi Ring PipeDefs PipeCopy PipeFifo PipeSide.

(** What the queue and the result are after a write in [w0] of [nbytes] bytes at
    [buf]: the bytes the reader took followed by those still in the queue are
    those that were there followed by the first [n] bytes of the caller's. *)
Definition write_post (size buf nbytes : Z) (w0 : world) (n : Z) (w : world) : Prop :=
  ∃ tr,
    0 ≤ n ≤ nbytes ∧ Z.min nbytes (size - 1 - held (sh w0)) ≤ n ∧
    usr w = usr w0 ∧ trace w = tr ++ trace w0 ∧
    consumed tr ++ content (sh w) = content (sh w0) ++ peek (usr w0) (buf - usr_base w0) n ∧
    own_steps (writer_step size) tr ∧ ring_wf size (sh w) ∧ geom w = geom w0.

Section Writer.
Context `{!PipeEnv} (size : Z).
#[local] Instance side : Side size := writer_side size.
Hypothesis peer_reads : ∀ t s, ring_wf size s → reader_step size s (peer t s).

(** [o] bytes of the caller's are stored past the write index. *)
Definition stored (w1 : world) (off o : Z) (w : world) : Prop :=
  geom w = geom w1 ∧ ring_wf size (sh w) ∧ usr w = usr w1 ∧
  write (sh w) = write (sh w1) ∧ held (sh w) ≤ held (sh w1) ∧
  slice (buffer (sh w)) (write (sh w1)) o = peek (usr w1) off o ∧
  ∃ tr, trace w = tr ++ trace w1 ∧ content (sh w1) = consumed tr ++ content (sh w) ∧
    own_steps (writer_step size) tr.

(** The world as the loop sees it: [n] bytes are written; [rd] is an older
    value of the read index. *)
Definition write_inv (buf nbytes : Z) (w0 : world) (c : cursor) (w : world) : Prop :=
  ∃ n tr rd,
    trace w = tr ++ trace w0 ∧
    consumed tr ++ content (sh w) = content (sh w0) ++ peek (usr w0) (buf - usr_base w0) n ∧
    own_steps (writer_step size) tr ∧
    geom w = geom w0 ∧ ring_wf size (sh w) ∧ usr w = usr w0 ∧
    current_buf c = buf + n ∧ 0 ≤ n ≤ nbytes ∧
    ring_pos c = ring_base w0 + write (sh w) ∧ ring_end c = ring_base w0 + prev size rd ∧
    0 ≤ rd < size ∧ held (sh w) ≤ used size rd (write (sh w)) ∧
    used size rd (write (sh w)) ≤ held (sh w0) + n ∧
    current_buf c < gran_max_buf c ∧
    (is_aligned c = true → current_buf c mod 8 = 0 ∧ ring_pos c mod 8 = 0).

Lemma stored_start w off : ring_wf size (sh w) → stored w off 0 w.
Proof.
  intros. split_and!; try done. exists []. split_and!; [done | done | constructor].
Qed.

Lemma stored_quiet w1 off o w w' : stored w1 off o w → quiet size w w' → stored w1 off o w'.
Proof.
  intros (Hg & Hwf & Hu & Hw & Hh & Hs & tr & Ht & Hc & Ho)
    [(Hg' & Hwf' & Hr & tr' & Ht' & Hl & Ho') Hu'].
  pose proof (reader_step_held _ _ _ Hwf Hr). destruct Hr as (_ & Hw' & Hb' & _).
  split_and!; [congruence | done | congruence | congruence | lia | by rewrite Hb' |].
  exists (tr' ++ tr). simpl in Hl. split_and!.
  - by rewrite Ht', Ht, app_assoc.
  - by rewrite Hc, Hl, consumed_app, app_assoc.
  - by apply Forall_app.
Qed.

(** Storing [k] more bytes. *)
Lemma stored_store w1 off o k w :
  stored w1 off o w → 0 ≤ off → 0 ≤ o → 0 < k → off + o + k ≤ len (usr w1) →
  write (sh w1) + o + k ≤ size → o + k < size - held (sh w1) →
  stored w1 off (o + k)
    (with_sh Self (set_buffer (poke (buffer (sh w)) (write (sh w1) + o)
      (peek (usr w1) (off + o) k)) (sh w)) w).
Proof.
  intros (Hg & Hwf & Hu & Hw & Hh & Hs & tr & Ht & Hc & Ho) Hoff Hoz Hk Hlen Hle Hfree.
  assert (len (peek (usr w1) (off + o) k) = k) as Hlp by (apply len_peek; lia).
  rewrite <-Hw in *.
  destruct (store_free size (sh w) o (peek (usr w1) (off + o) k)) as [Hwf' Hc'];
    [done | lia | lia | lia |].
  pose proof Hwf as (Hbl & _ & Hwr).
  split_and!; [done | done | done | done | | |].
  - apply (f_equal length) in Hc'. rewrite !length_content in Hc'. simpl in *.
    apply held_range in Hwf, Hwf'. lia.
  - simpl. rewrite <-Hw, slice_app, peek_app by lia. f_equal.
    + rewrite slice_poke_ne by (try lia; intros j Hj; rewrite Hbl, Z.mod_small; lia). done.
    + rewrite <-Hlp at 2. apply slice_poke_eq; lia.
  - exists ((Self, sh w, set_buffer (poke (buffer (sh w)) (write (sh w) + o)
      (peek (usr w1) (off + o) k)) (sh w)) :: tr). split_and!; [simpl; by rewrite Ht | rewrite Hc; f_equal; by symmetry |].
    apply Forall_cons. split; [intros _|done]. apply store_free_step; [done | lia..].
Qed.

Lemma copy_out_step w1 cur0 bound k o w :
  ring_wf size (sh w1) → bound < size - held (sh w1) → write (sh w1) + bound ≤ size →
  0 ≤ cur0 - usr_base w1 → cur0 - usr_base w1 + bound ≤ len (usr w1) →
  k = 1 ∨ k = 8 → stored w1 (cur0 - usr_base w1) o w → 0 ≤ o → o + k ≤ bound →
  (cur0 + o) mod k = 0 → (ring_base w1 + write (sh w1) + o) mod k = 0 →
  wp (copy_out k (cur0 + o, ring_base w1 + write (sh w1) + o))
     (λ x w', x = (cur0 + (o + k), ring_base w1 + write (sh w1) + (o + k)) ∧
              stored w1 (cur0 - usr_base w1) (o + k) w') w.
Proof.
  intros Hwf Hb Hrb Hc0 Hcb Hk HI Ho Hok Hck Hpk.
  assert (0 < k) by lia. pose proof (proj2 (proj2 Hwf)) as Hw.
  pose proof HI as (Hg & Hwfw & Hu & Hww & _). injection Hg as Hsh _ _ Hub _ _.
  unfold ring_base in *. apply wp_bind, wp_load_user; simpl; rewrite ?Hub, ?Hu; [done | lia | lia |].
  apply wp_bind, (wp_store_shared size); simpl; rewrite ?Hsh; [done..| lia | lia |].
  intros w2 Hq. apply wp_ret. split; [f_equal; lia|].
  replace (cur0 + o - usr_base w1) with (cur0 - usr_base w1 + o) by lia.
  replace (_ + _ + _ + o - _) with (write (sh w1) + o) by lia.
  apply stored_store; try lia. by eapply stored_quiet.
Qed.

(** ** One round of the loop *)

Lemma wp_load_read_reduced base Q w :
  ring_wf size (sh w) →
  (∀ w', quiet size w w' → Q (base + prev size (read (sh w'))) w') →
  wp (load_read_reduced base (base + size)) Q w.
Proof.
  intros Hwf HQ. apply wp_bind, (wp_load size); [done..|]. intros w1 H1. apply wp_ret.
  specialize (HQ w1 H1). unfold prev in HQ. pose proof (quiet_wf _ _ _ H1) as (_ & Hr & _).
  destruct (Z.eqb_spec (read (sh w1)) 0); destruct (Z.eqb_spec (base + read (sh w1)) base);
    try lia; by rewrite ?Z.add_sub_assoc in *.
Qed.

Lemma write_bounds buf nbytes w0 c w :
  ring_wf size (sh w0) → user_range buf nbytes w0 →
  write_inv buf nbytes w0 c w → more (buf + nbytes) c = true →
  ∃ bound check,
    min_max_buf (circ_max_buf (ring_base w0 + size) c) (buf + nbytes) (gran_max_buf c)
      = (current_buf c + bound, check) ∧
    0 < bound ≤ nbytes ∧ bound < size - held (sh w) ∧ write (sh w) + bound ≤ size ∧
    buf ≤ current_buf c ∧ current_buf c + bound ≤ buf + nbytes ∧
    current_buf c + bound ≤ gran_max_buf c.
Proof.
  intros Hwf0 (Hub & Hnb & Hlen & H64) HI Hmore.
  destruct HI as (n & tr & rd & _ & _ & _ & _ & Hwf & _ & Hcur & Hdn & Hpos & Hend &
    Hrd & Huse & _ & Hgran & _).
  unfold more in Hmore. bool_hyps. pose proof (prev_range size rd Hrd).
  destruct (circ_max_spec size (ring_base w0) c (write (sh w)) (prev size rd)) as [[Hrun Hrunu] Hrle];
    [done | done | apply Hwf | done | intros E; congruence |].
  rewrite used_prev in Hrunu by (done || apply Hwf).
  destruct (min_max_spec (current_buf c) (circ_max_buf (ring_base w0 + size) c) (buf + nbytes)
    (gran_max_buf c)) as (bound & check & Hmm & ?); [lia..|].
  exists bound, check. split; [done | lia].
Qed.

(** What the end of a round does with the [o] bytes it stored. *)
Lemma publish_write w1 w off o :
  ring_wf size (sh w1) → 0 ≤ o < size - held (sh w1) → write (sh w1) + o ≤ size →
  stored w1 off o w →
  let w' := with_sh Self (set_write (advance size (write (sh w1)) o) (sh w)) w in
  geom w' = geom w1 ∧ usr w' = usr w1 ∧
  (∃ tr, trace w' = tr ++ trace w1 ∧ own_steps (writer_step size) tr ∧
    consumed tr ++ content (sh w') = content (sh w1) ++ peek (usr w1) off o) ∧
  ring_wf size (sh w') ∧ held (sh w') = held (sh w) + o.
Proof.
  intros Hwf Ho Hle (Hg & Hwfw & Hu & Hw & Hh & Hs & tr & Ht & Hc & Hown) w'; subst w'.
  rewrite <-Hw in *. destruct (publish size (sh w) o) as [Hwf' Hc']; [done | lia | lia |].
  split_and!; [done | done | | done |].
  - exists ((Self, sh w, set_write (advance size (write (sh w)) o) (sh w)) :: tr). split_and!.
    + simpl. by rewrite Ht.
    + apply Forall_cons. split; [intros _|done]. apply publish_step; [done | lia | lia].
    + transitivity (consumed tr ++ content (sh w) ++ slice (buffer (sh w)) (write (sh w)) o);
        [by rewrite <-Hc'|]. by rewrite Hs, app_assoc, Hc.
  - apply (f_equal length) in Hc'. rewrite length_app, !length_content, length_slice in Hc'.
    apply held_range in Hwf', Hwfw. simpl in *. lia.
Qed.

Lemma write_inv_next buf nbytes w0 c w o g w4 w5 al :
  mapped size w0 → ring_wf size (sh w0) → user_range buf nbytes w0 →
  write_inv buf nbytes w0 c w →
  0 < o → current_buf c + o ≤ buf + nbytes → o < size - held (sh w) → write (sh w) + o ≤ size →
  stored w (current_buf c - usr_base w0) o w4 → quiet size w4 w5 →
  current_buf c + o < g →
  (al = true → (current_buf c + o) mod 8 = 0 ∧ (ring_pos c + o) mod 8 = 0) →
  write_inv buf nbytes w0
    (Cursor (current_buf c + o)
       (if ring_pos c + o =? ring_base w0 + size then ring_base w0 else ring_pos c + o)
       (ring_base w0 + prev size (read (sh w4))) g al)
    (with_sh Self (set_write (advance size (write (sh w)) o) (sh w5)) w5).
Proof.
  intros (_ & _ & Hm8 & Hsz & _) Hwf0 (Hub & Hnb & Hlen & H64) HI Ho Hon Hoh Hos Hst4 H5 Hg Hal.
  destruct HI as (n & tr & rd & Ht & Hfifo & Hown & Hgeom & Hwf & Hu & Hcur & Hn & Hpos & _ &
    _ & Huse & Hmin & _ & _).
  pose proof (proj2 (proj2 Hwf)) as Hwr. pose proof (held_range _ _ Hwf).
  pose proof (stored_quiet _ _ _ _ _ Hst4 H5) as Hst5.
  destruct (publish_write w w5 (current_buf c - usr_base w0) o) as
    (Hg5 & Hu5 & (tr5 & Ht5 & Hown5 & Hf5) & Hwf5 & Hh5); [done | lia | lia | done |].
  pose proof Hst4 as (_ & Hwf4 & _ & Hww4 & Hh4 & _).
  pose proof (reader_step_held _ _ _ Hwf4 (proj1 (proj2 (proj2 (proj1 H5))))) as Hh45.
  pose proof Hwf4 as (Hlen4 & Hr4 & _).
  assert (used size (read (sh w4)) (advance size (write (sh w)) o) = held (sh w4) + o) as Hused.
  { unfold held in *. rewrite Hlen4, <-Hww4 in *. apply used_push; lia. }
  exists (n + o), (tr5 ++ tr), (read (sh w4)).
  rewrite Hh5. cbn [current_buf ring_pos ring_end gran_max_buf is_aligned].
  split_and!; try done; try lia.
  - by rewrite Ht5, Ht, app_assoc.
  - rewrite peek_app by lia.
    rewrite consumed_app, <-app_assoc, Hf5, !app_assoc, Hfifo, Hu. do 2 f_equal. lia.
  - by apply Forall_app.
  - congruence.
  - congruence.
  - simpl. rewrite Hpos. unfold advance.
    destruct (Z.eqb_spec (ring_base w0 + write (sh w) + o) (ring_base w0 + size)); case_decide; lia.
  - simpl. rewrite Hused. lia.
  - simpl. rewrite Hused. lia.
  - intros E. destruct (Hal E) as [? ?]. split; [done|].
    destruct (Z.eqb_spec (ring_pos c + o) (ring_base w0 + size)); [zmod | done].
Qed.

Lemma wp_write_avail_body buf nbytes fuel w0 c w :
  mapped size w0 → ring_wf size (sh w0) → user_range buf nbytes w0 →
  nbytes < Z.of_nat fuel → write_inv buf nbytes w0 c w → more (buf + nbytes) c = true →
  wp (write_avail_body fuel (ring_base w0) (ring_base w0 + size) (buf + nbytes) c)
     (λ c' w', write_inv buf nbytes w0 c' w' ∧ current_buf c < current_buf c') w.
Proof.
  intros Hmap Hwf0 Hrange Hf HI Hmore.
  destruct (write_bounds _ _ _ _ _ Hwf0 Hrange HI Hmore) as (bound & check & Hmm & Hb & Hbh & Hbs &
    Hcb & Hbu & Hbg).
  pose proof HI as (n & _ & _ & _ & _ & _ & Hg & Hwf & Hu & Hcur & _ & Hpos & _ & _ & _ & _ & _ & Hal).
  pose proof Hmap as (Hlive & Hbsz & Hm8 & Hsz & Hwci & Hsh0). pose proof Hrange as (Hub & Hnb & Hlen & H64).
  pose proof (proj2 (proj2 Hwf)) as Hwr.
  injection Hg as Hgsh Hgbs Hgwci Hgub Hglive _.
  assert (ring_base w = ring_base w0) as Hrb by (unfold ring_base; lia).
  unfold write_avail_body. rewrite Hmm. apply wp_bind. eapply wp_mono.
  { apply (wp_copy_run copy_out (stored w (current_buf c - usr_base w0)) (current_buf c) (ring_pos c) bound).
    - intros k o w1 Hk HI1 Ho Hok Hck Hpk. rewrite Hpos, <-Hrb, <-Hgub, <-?Hu in *.
      apply copy_out_step with (bound := bound); first [done | lia].
    - by apply stored_start.
    - lia.
    - lia.
    - lia.
    - lia.
    - done. }
  intros y w2 (o & Ho & Hy & Hst & _ & Hal2). rewrite Hy. cbn [fst snd].
  pose proof Hst as (Hg2 & Hwf2 & _). injection Hg2 as Hs2 _ Hi2 Hub2 Hl2 _.
  apply wp_bind, (wp_gran_step size); [done | done | congruence | congruence | lia |].
  intros g w3 H3 Hg3. apply wp_bind, wp_load_read_reduced; [by eapply quiet_wf |].
  intros w4 H4. apply wp_bind, wp_bind, (wp_interfere size); [done | by eapply quiet_wf |].
  intros w5 H5. apply wp_ret.
  pose proof (stored_quiet _ _ _ _ _ (stored_quiet _ _ _ _ _ Hst H3) H4) as Hst4.
  pose proof (next_index size (ring_base w0) (write (sh w)) o) as Hidx. rewrite <-Hpos in Hidx.
  rewrite Hidx by lia.
  split; [eapply write_inv_next; first [done | lia] | simpl; lia].
Qed.

(** ** The routine *)

Lemma write_inv_start buf nbytes w0 w1 w3 g :
  ring_wf size (sh w0) → user_range buf nbytes w0 →
  quiet size w0 w1 → quiet size w1 w3 → buf < g →
  write_inv buf nbytes w0
    (Cursor buf (ring_base w0 + write (sh w0)) (ring_base w0 + prev size (read (sh w1))) g false) w3.
Proof.
  intros Hwf (Hub & Hnb & _) H1 H3 Hg.
  pose proof (quiet_trans _ _ _ _ Hwf H1 H3) as [(Hgeom & Hwf3 & Hr3 & tr & Ht & Hl & Ho) Hu].
  pose proof (quiet_wf _ _ _ H1) as Hwf1.
  pose proof (reader_step_held _ _ _ Hwf (proj1 (proj2 (proj2 (proj1 H1))))) as Hh1.
  pose proof (reader_step_held _ _ _ Hwf1 (proj1 (proj2 (proj2 (proj1 H3))))) as Hh3.
  pose proof Hr3 as (_ & Hw3 & _).
  pose proof (proj1 (proj2 (proj2 (proj1 H1)))) as (_ & Hw1 & _).
  assert (used size (read (sh w1)) (write (sh w3)) = held (sh w1)) as Hused.
  { unfold held. rewrite (proj1 Hwf1). congruence. }
  exists 0, tr, (read (sh w1)). rewrite Hused. cbn [current_buf ring_pos ring_end gran_max_buf is_aligned].
  split_and!; try done; try lia.
  - simpl in Hl. by rewrite peek_nil, app_nil_r.
  - apply Hwf1.
  - apply Hwf1.
Qed.

Lemma wp_write_avail buf nbytes w :
  mapped size w → ring_wf size (sh w) → user_range buf nbytes w →
  wp (__xen_shm_pipe_write_avail buf nbytes) (write_post size buf nbytes w) w.
Proof.
  intros Hmap Hwf Hrange. pose proof Hmap as (Hlive & Hbsz & _ & _ & Hwci & _).
  apply wp_bind, wp_get_priv; [done|]. rewrite Hbsz. fold (ring_base w).
  apply wp_bind, wp_load_read_reduced; [done|]. intros w1 H1.
  apply wp_bind, (wp_load size); [done | by eapply quiet_wf|]. intros w2 H2.
  pose proof (quiet_trans _ _ _ _ Hwf H1 H2) as H02.
  pose proof (quiet_geom _ _ _ H02) as Hg2. injection Hg2 as _ _ Hi2 _ Hl2 _.
  apply wp_bind, (wp_first_gran size); [done | by eapply quiet_wf | congruence | congruence |].
  intros g w3 H3 Hg. pose proof (proj1 (proj2 (proj2 (proj1 H02)))) as (_ & Hw2 & _).
  rewrite Hw2. apply wp_bind.
  apply (wp_while (write_inv buf nbytes w) (λ c, buf + nbytes - current_buf c)).
  - intros c s HI Hc. eapply wp_mono; [apply wp_write_avail_body; first [done | lia]|].
    intros c' s' [HI' Hlt]. split; [done|].
    destruct HI' as (n & _ & _ & _ & _ & _ & _ & _ & _ & Hcur & Hdn & _).
    destruct HI as (n0 & _ & _ & _ & _ & _ & _ & _ & _ & Hcur0 & Hdn0 & _). lia.
  - intros c s HI Hc.
    destruct HI as (n & tr & rd & Ht & Hf & Ho & Hgeom & Hwfs & Hu & Hcur & Hn & Hpos & Hend &
      Hrd & _ & Hmin & _).
    apply wp_bind, (wp_wake_other size); [done | done | |].
    { injection Hgeom as _ _ _ _ Hls _. congruence. }
    intros w4 [(Hg4 & Hwf4 & Hr4 & tr4 & Ht4 & Hl4 & Ho4) Hu4]. apply wp_ret.
    replace (current_buf c - buf) with n by lia.
    exists (tr4 ++ tr). split_and!; try done; try lia.
    + unfold more in Hc. apply andb_false_iff in Hc as [Hc|Hc]; bool_hyps; [|lia].
      assert (write (sh s) = prev size rd) as Heq by lia.
      rewrite <-(used_zero size), used_prev in Heq; [lia | done | apply Hwfs | apply Hwfs |].
      by apply prev_range.
    + congruence.
    + by rewrite Ht4, Ht, app_assoc.
    + simpl in Hl4. by rewrite consumed_app, <-app_assoc, <-Hl4.
    + by apply Forall_app.
    + congruence.
  - apply write_inv_start; try done. by eapply quiet_trans; [by eapply quiet_wf| |].
  - simpl. destruct Hrange as (_ & ? & _). lia.
Qed.
End Writer.
