(* ===== verification/PipeWait.v ===== *)
(** Waiting for the other end: [__xen_shm_pipe_wait_reader] and
    [__xen_shm_pipe_wait_writer] of xen_shm_pipe.c. *)
From S2P Require Import Prelude Abi Ring PipeDefs PipeCopy PipeFifo PipeSide.

(** The locals of the two loops. *)
Record wait_locals := WaitLocals {
  loop_count : Z;
  active_count : Z;
  unset_wait : bool;
}.

Definition wait_start : wait_locals :=
  WaitLocals XEN_SHM_PIPE_WAIT_LOOP_LIMIT XEN_SHM_PIPE_WAIT_LOOP_ACTIVE_MAX false.

Section Wait.
Context `{!PipeEnv}.

Abbreviation step := (M world (flow wait_locals Z)).

(** "loop_count==0": the ioctl that tells whether the pipe is broken. *)
Definition check_broken (garbage : Z) (x : wait_locals) (k : wait_locals → step) : step :=
  if loop_count x =? 0 then
    let* r := __xen_shm_pipe_prone_for_epipe garbage in
    if r <? 0 then set_errno EPIPE ;; ret (Return (-1))
    else k (WaitLocals XEN_SHM_PIPE_WAIT_LOOP_LIMIT (active_count x) (unset_wait x))
  else k x.

(** What to do about the other end's flags, [sleep] when it may not run. *)
Definition react (flags : Z) (sleep : wait_locals → step) (x : wait_locals) : step :=
  if has flags XSHMP_SLEEPING then
    let* _ := __xen_shm_pipe_send_signal in ret (Continue x)
  else if has flags XSHMP_WAITING then ret (Continue x)
  else if has flags XSHMP_ACTIVE && negb (active_count x =? 0) then
    ret (Continue (WaitLocals (loop_count x) (u32 (active_count x - 1)) (unset_wait x)))
  else sleep x.

(** The reader's sleep: on EPIPE it looks at the queue once more. *)
Definition reader_sleep (x : wait_locals) : step :=
  reader_flags_or XSHMP_SLEEPING ;;
  let* retval := __xen_shm_pipe_wait_signal in
  reader_flags_clear XSHMP_SLEEPING ;;
  if retval =? -1 then
    let* e := get_errno in
    if e =? EPIPE then put_priv (set_saw_epipe true) ;; ret (Continue x)
    else writer_flags_clear XSHMP_WAITING ;; ret (Return (-1))
  else ret (Continue x).

Definition wait_reader_body (garbage read_p : Z) (x : wait_locals) : step :=
  let* w := load write in
  if negb (read_p =? w) then ret (Break x) else
  let* wflags := load writer_flags in
  let count := u32 (loop_count x - 1) in
  reader_flags_or XSHMP_WAITING ;;
  let* w := load write in
  let x := WaitLocals count (active_count x) true in
  if negb (read_p =? w) then ret (Break x)
  else if has wflags XSHMP_CLOSED then ret (Return 0)
  else check_broken garbage x (λ x,
    let* p := get_priv in
    if saw_epipe p then set_errno EPIPE ;; ret (Return (-1))
    else react wflags reader_sleep x).

Definition __xen_shm_pipe_wait_reader (fuel : nat) (garbage : Z) : M world Z :=
  let* read_p := load read in
  let* r := loop fuel (wait_reader_body garbage read_p) wait_start in
  match r with
  | inl x => when (unset_wait x) (reader_flags_clear XSHMP_WAITING) ;; ret 1
  | inr v => ret v
  end.

(** The writer's sleep: any failure ends the wait. *)
Definition writer_sleep (x : wait_locals) : step :=
  writer_flags_or XSHMP_SLEEPING ;;
  let* retval := __xen_shm_pipe_wait_signal in
  writer_flags_clear XSHMP_SLEEPING ;;
  if retval =? -1 then writer_flags_clear XSHMP_WAITING ;; ret (Return (-1))
  else ret (Continue x).

Definition wait_writer_body (garbage write_p : Z) (x : wait_locals) : step :=
  let* r := load read in
  if negb (write_p =? r) then ret (Break x) else
  let* rflags := load reader_flags in
  let count := u32 (loop_count x - 1) in
  writer_flags_or XSHMP_WAITING ;;
  let* r := load read in
  let x := WaitLocals count (active_count x) true in
  if negb (write_p =? r) then ret (Break x)
  else if has rflags XSHMP_CLOSED then ret (Return (-1))
  else check_broken garbage x (react rflags writer_sleep).

Definition __xen_shm_pipe_wait_writer (fuel : nat) (garbage : Z) : M world Z :=
  let* rflags := load reader_flags in
  if has rflags XSHMP_CLOSED then ret (-1) else
  let* w := load write in
  let* p := get_priv in
  let write_p := if u32 (w + 1) =? buffer_size p then 0 else u32 (w + 1) in
  let* r := loop fuel (wait_writer_body garbage write_p) wait_start in
  match r with
  | inl x => when (unset_wait x) (writer_flags_clear XSHMP_WAITING) ;; ret 1
  | inr v => ret v
  end.
End Wait.

(** The module answers EPIPE to every wait: one side has closed the memory. *)
Definition broken `{!PipeEnv} : Prop :=
  ∀ t fd arg, ans_ret (answer t (SysAwait fd arg)) = -1 ∧ ans_errno (answer t (SysAwait fd arg)) = EPIPE.

(** The module answers 0 or more to every wait, and the reader never closes. *)
Definition responsive `{!PipeEnv} : Prop := ∀ t fd arg, 0 ≤ ans_ret (answer t (SysAwait fd arg)).
Definition reader_stays_open `{!PipeEnv} : Prop :=
  ∀ t s, has (reader_flags (peer t s)) XSHMP_CLOSED = false.

(** The other end never makes [P] false. *)
Definition stable `{!PipeEnv} (P : pipe_shared → Prop) : Prop := ∀ t s, P s → P (peer t s).

(** From [T] on, there is something to read whenever this end looks. *)
Definition filled_from `{!PipeEnv} (size : Z) (T : nat) : Prop :=
  ∀ t s, (T ≤ t)%nat → ring_wf size s → 0 < held (peer t s).

(** A closed writer adds nothing, and stays closed. *)
Definition writer_closed (s : pipe_shared) : Prop := has (writer_flags s) XSHMP_CLOSED = true.
Definition close_is_final `{!PipeEnv} : Prop :=
  ∀ t s, writer_closed s → writer_closed (peer t s) ∧ content (peer t s) = content s.

(** A closed reader stays closed. *)
Definition reader_closed (s : pipe_shared) : Prop := has (reader_flags s) XSHMP_CLOSED = true.
Definition reader_close_is_final `{!PipeEnv} : Prop := stable reader_closed.

(** Why a writer gives up: it saw the reader closed, or the module failed, which is
    EPIPE when it reports the memory closed. *)
Definition gave_up `{!PipeEnv} (w : world) : Prop :=
  (reader_close_is_final → reader_closed (sh w)) ∨ (broken → errno w = EPIPE).

(** ** Steps of the loops *)

Section Steps.
Context `{!PipeEnv} (size : Z) `{!Side size} (own : Z → pipe_shared → pipe_shared).
Hypothesis peer_relies : ∀ t s, ring_wf size s → rely s (peer t s).
Hypothesis own_flags : ∀ v s, same_ring s (own v s).

(** Loads and changes of this end's flags: errno and the private data stay. *)
Definition drifts (w w' : world) : Prop :=
  quiet size w w' ∧ errno w' = errno w ∧ priv w' = priv w ∧
  ∀ P, stable P → (∀ s v, P s → P (own v s)) → P (sh w) → P (sh w').

Lemma drifts_trans w1 w2 w3 :
  ring_wf size (sh w1) → drifts w1 w2 → drifts w2 w3 → drifts w1 w3.
Proof.
  intros Hwf (Hq & He & Hp & HP) (Hq' & He' & Hp' & HP').
  split_and!; [by eapply quiet_trans | congruence | congruence | naive_solver].
Qed.

(** The world once the other end has run. *)
Definition peer_ran (w : world) : world := with_sh Peer (peer (clock w) (sh w)) w.

Lemma wp_load_now {A} (f : pipe_shared → A) Q w : Q (f (sh (peer_ran w))) (peer_ran w) → wp (load f) Q w.
Proof. exact id. Qed.

Lemma drifts_interfere w : ring_wf size (sh w) → drifts w (peer_ran w).
Proof.
  intros Hwf. split_and!; [|done|done|intros P HP _; apply HP].
  exact (wp_interfere size peer_relies (λ _ w', quiet size w w') w Hwf (λ _ Hq, Hq)).
Qed.

Lemma wp_load_drifts {A} (f : pipe_shared → A) Q w :
  ring_wf size (sh w) → (∀ w', drifts w w' → Q (f (sh w')) w') → wp (load f) Q w.
Proof. intros Hwf HQ. by apply HQ, drifts_interfere. Qed.

Lemma wp_store_own v Q w :
  ring_wf size (sh w) → (∀ w', drifts w w' → Q tt w') → wp (store (own v)) Q w.
Proof.
  intros Hwf HQ. pose proof (drifts_interfere w Hwf) as (Hq & _ & _ & HP). apply HQ.
  split_and!; [|done|done|intros P HP1 HP2 H0; by apply HP2, HP1].
  exact (wp_store_flags size peer_relies (own v) (λ _ w', quiet size w w') w Hwf
    (own_flags v) (λ _ Hq, Hq)).
Qed.

Lemma wp_flags_or f m Q w :
  ring_wf size (sh w) → (∀ w', drifts w w' → Q tt w') → wp (flags_or f own m) Q w.
Proof.
  intros Hwf HQ. apply wp_bind, wp_load_drifts; [done|]. intros w1 H1.
  apply wp_store_own; [by eapply quiet_wf, H1|]. intros w2 H2. by eapply HQ, drifts_trans.
Qed.

Lemma wp_flags_clear f m Q w :
  ring_wf size (sh w) → (∀ w', drifts w w' → Q tt w') → wp (flags_clear f own m) Q w.
Proof.
  intros Hwf HQ. apply wp_bind, wp_load_drifts; [done|]. intros w1 H1.
  apply wp_store_own; [by eapply quiet_wf, H1|]. intros w2 H2. by eapply HQ, drifts_trans.
Qed.

Lemma wp_set_errno e Q w :
  ring_wf size (sh w) → (∀ w', quiet size w w' → errno w' = e → Q tt w') → wp (set_errno e) Q w.
Proof. intros Hwf HQ. apply wp_modify, HQ; [by apply quiet_local | done]. Qed.

Lemma live_quiet w w' : live w = true → quiet size w w' → live w' = true.
Proof. intros Hl Hq. by rewrite (geom_live _ _ (quiet_geom _ _ _ Hq)). Qed.

Lemma wp_wait_signal Q w :
  ring_wf size (sh w) → live w = true →
  (∀ r w', quiet size w w' → (broken → r = -1 ∧ errno w' = EPIPE) → (responsive → 0 ≤ r) → Q r w') →
  wp __xen_shm_pipe_wait_signal Q w.
Proof.
  intros Hwf Hl HQ. apply wp_bind, (wp_put_priv size); [done..|]. intros w1 H1.
  apply wp_bind, wp_get_priv; [by eapply live_quiet|].
  apply wp_bind, (wp_sys_answer size); [done | by eapply quiet_wf|]. intros t w2 H2 He _.
  pose proof (quiet_trans _ _ _ _ Hwf H1 H2) as H02.
  set (arg := await_op (priv w1)) in *. set (f := fd (priv w1)) in *.
  apply wp_bind, wp_when.
  - intros Hr. bool_hyps. apply (wp_put_priv size); [by eapply quiet_wf | by eapply live_quiet | done..|].
    intros w3 H3. apply wp_ret, HQ; [by eapply quiet_trans| |intros Hb; apply Hb].
    intros Hb. destruct (Hb t f arg). lia.
  - intros _. apply wp_ret, HQ; [done| |intros Hb; apply Hb]. intros Hb. destruct (Hb t f arg) as [E1 E2].
    split; [done|]. rewrite He; [done | lia].
Qed.

Lemma wp_prone g Q w :
  ring_wf size (sh w) → live w = true →
  (∀ r w', quiet size w w' → r = 0 ∨ r = -1 → (broken → r = -1) → (responsive → r = 0) → Q r w') →
  wp (__xen_shm_pipe_prone_for_epipe g) Q w.
Proof.
  intros Hwf Hl HQ. apply wp_bind, (wp_put_priv size); [done..|]. intros w1 H1.
  apply wp_bind, wp_get_priv; [by eapply live_quiet|].
  apply wp_bind, (wp_sys_answer size); [done | by eapply quiet_wf|]. intros t w2 H2 He _.
  apply wp_bind. unfold wp, get_errno. apply HQ; [by eapply quiet_trans | case_match; auto | |].
  2: { intros Hb. specialize (Hb t (fd (priv w1)) (IoctlargAwait XEN_SHM_IOCTL_AWAIT_INIT 1 g)).
       by rewrite (proj2 (Z.ltb_ge _ _) Hb). }
  intros Hb. destruct (Hb t (fd (priv w1)) (IoctlargAwait XEN_SHM_IOCTL_AWAIT_INIT 1 g)) as [E1 E2].
  rewrite He by lia. by rewrite E1, E2.
Qed.

(** ** The pieces of a round *)

Lemma wp_check_broken g x k Q w :
  ring_wf size (sh w) → live w = true →
  (loop_count x ≠ 0 → wp (k x) Q w) →
  (∀ w', quiet size w w' → ¬ broken →
    wp (k (WaitLocals XEN_SHM_PIPE_WAIT_LOOP_LIMIT (active_count x) (unset_wait x))) Q w') →
  (∀ w', quiet size w w' → errno w' = EPIPE → ¬ responsive → Q (Return (-1)) w') →
  wp (check_broken g x k) Q w.
Proof.
  intros Hwf Hl Hk Hr He. apply wp_if; intros Hc; bool_hyps; [|auto].
  apply wp_bind, wp_prone; [done..|]. intros r w1 H1 Hr01 Hb Hre.
  apply wp_if; intros E; bool_hyps.
  - apply wp_bind, wp_set_errno; [by eapply quiet_wf|]. intros w2 H2 He2. apply wp_ret, He; [|done|].
    + by eapply quiet_trans.
    + intros Hres. specialize (Hre Hres). lia.
  - apply Hr; [done|]. intros Hbr. specialize (Hb Hbr). lia.
Qed.

Lemma wp_react flags sleep x Q w :
  ring_wf size (sh w) → live w = true →
  (∀ x' w', quiet size w w' → loop_count x' = loop_count x → unset_wait x' = unset_wait x →
    Q (Continue x') w') →
  wp (sleep x) Q w → wp (react flags sleep x) Q w.
Proof.
  intros Hwf Hl HQ Hs. pose proof (quiet_refl size w Hwf) as Hq.
  apply wp_if; intros _.
  { apply wp_bind, (wp_send_signal size); [done..|]. intros r w1 H1. apply wp_ret. by apply HQ. }
  apply wp_if; intros _; [apply wp_ret; by apply HQ|].
  apply wp_if; intros _; [apply wp_ret; by apply HQ | done].
Qed.
End Steps.

Lemma held_zero size s : ring_wf size s → held s = 0 ↔ read s = write s.
Proof. intros (Hl & Hr & Hw). unfold held. rewrite Hl. by apply used_zero. Qed.

Lemma content_nil s : held s = 0 → content s = [].
Proof. intros Hh. unfold content. by rewrite Hh, slice_nil. Qed.

Lemma count_down n : 0 < n ≤ XEN_SHM_PIPE_WAIT_LOOP_LIMIT → u32 (n - 1) = n - 1.
Proof. unfold XEN_SHM_PIPE_WAIT_LOOP_LIMIT. intros. apply wrap_small. lia. Qed.

Definition count_ok (x : wait_locals) : Prop := 0 < loop_count x ≤ XEN_SHM_PIPE_WAIT_LOOP_LIMIT.

(** ** The reader's wait *)

Section ReaderWait.
Context `{!PipeEnv} (size : Z).
#[local] Instance reader_wait_side : Side size := reader_side size.
Hypothesis peer_writes : ∀ t s, ring_wf size s → writer_step size s (peer t s).

Lemma peer_relies t s : ring_wf size s → rely s (peer t s).
Proof. exact (peer_writes t s). Qed.
Lemma reader_own v s : same_ring s (set_reader_flags v s).
Proof. done. Qed.
Lemma reader_other v s : same_ring s (set_writer_flags v s).
Proof. done. Qed.

(** What one round of the loop does. *)
Definition reader_round (w : world) (x : wait_locals) (f : flow wait_locals Z) (w' : world) : Prop :=
  quiet size w w' ∧
  match f with
  | Break _ => 0 < held (sh w')
  | Return r =>
      r = 0 ∧ (close_is_final → writer_closed (sh w') ∧ content (sh w') = [])
      ∨ r = -1 ∧ (broken → errno w' = EPIPE)
  | Continue x' =>
      count_ok x' ∧ (∀ T, filled_from size T → (clock w < T)%nat) ∧
      (broken → loop_count x' = loop_count x - 1)
  end.

Lemma wp_reader_sleep x Q w :
  ring_wf size (sh w) → live w = true →
  (∀ w', quiet size w w' → Q (Continue x) w') →
  (∀ w', quiet size w w' → ¬ broken → Q (Return (-1)) w') →
  wp (reader_sleep x) Q w.
Proof.
  intros Hwf Hl HC HR.
  apply wp_bind, (wp_flags_or size _ peer_relies reader_own); [done|]. intros w1 (H1 & _).
  apply wp_bind, (wp_wait_signal size); [done | by eapply quiet_wf | by eapply live_quiet|].
  intros r w2 H2 Hb _. pose proof (quiet_trans _ _ _ _ Hwf H1 H2) as H02.
  apply wp_bind, (wp_flags_clear size _ peer_relies reader_own); [by eapply quiet_wf|].
  intros w3 (H3 & He3 & _). pose proof (quiet_trans _ _ _ _ Hwf H02 H3) as H03.
  apply wp_if; intros E; [|apply wp_ret; by apply HC].
  apply wp_bind. unfold wp at 1, get_errno. apply wp_if; intros E2; bool_hyps.
  - apply wp_bind, (wp_put_priv size); [by eapply quiet_wf | by eapply live_quiet | done..|].
    intros w4 H4. apply wp_ret, HC. by eapply quiet_trans.
  - apply wp_bind, (wp_flags_clear size _ peer_relies reader_other); [by eapply quiet_wf|].
    intros w4 (H4 & _). apply wp_ret, HR; [by eapply quiet_trans|].
    intros Hbr. destruct (Hb Hbr). congruence.
Qed.

(** The queue is still empty at the second look: close, break or react. *)
Lemma wp_reader_empty g x0 wflags w0 w :
  ring_wf size (sh w0) → live w0 = true → quiet size w0 w → count_ok x0 →
  (∀ T, filled_from size T → (clock w0 < T)%nat) →
  (has wflags XSHMP_CLOSED = true → close_is_final → writer_closed (sh w) ∧ content (sh w) = []) →
  let x := WaitLocals (loop_count x0 - 1) (active_count x0) true in
  wp (if has wflags XSHMP_CLOSED then ret (Return 0)
      else check_broken g x (λ x,
        let* p := get_priv in
        if saw_epipe p then set_errno EPIPE ;; ret (Return (-1))
        else react wflags reader_sleep x)) (reader_round w0 x0) w.
Proof.
  intros Hwf Hl H0 Hcnt HT Hcl x. pose proof (quiet_wf _ _ _ H0) as Hwfw.
  assert (live w = true) as Hlw by (by eapply live_quiet).
  apply wp_if; intros Hc; [apply wp_ret; split; [done|]; left; auto|].
  assert (∀ x' w', quiet size w w' → count_ok x' → (broken → loop_count x' = loop_count x0 - 1) →
    wp (let* p := get_priv in
        if saw_epipe p then set_errno EPIPE ;; ret (Return (-1))
        else react wflags reader_sleep x') (reader_round w0 x0) w') as Hk.
  { intros x' w1 H1 Hx Hbr. pose proof (quiet_trans _ _ _ _ Hwf H0 H1) as H01.
    apply wp_bind, wp_get_priv; [by eapply live_quiet|].
    apply wp_if; intros _.
    - apply wp_bind, (wp_set_errno size); [by eapply quiet_wf|]. intros w2 H2 He. apply wp_ret.
      split; [by eapply quiet_trans|]. by right.
    - apply (wp_react size); [done | by eapply quiet_wf | by eapply live_quiet | |].
      + intros x2 w2 H2 E _. split; [by eapply quiet_trans|]. unfold count_ok in *. by rewrite E.
      + apply wp_reader_sleep; [by eapply quiet_wf | by eapply live_quiet | |].
        * intros w2 H2. split; [by eapply quiet_trans | done].
        * intros w2 H2 Hnb. split; [by eapply quiet_trans|]. right. by split. }
  apply (wp_check_broken size); [done | done | done | | |].
  - simpl. intros Hne. apply Hk; [by apply quiet_refl | unfold count_ok in *; simpl; lia | done].
  - intros w1 H1 Hnb. apply Hk; [done | unfold count_ok, XEN_SHM_PIPE_WAIT_LOOP_LIMIT; simpl; lia | done].
  - intros w1 H1 He _. split; [by eapply quiet_trans|]. by right.
Qed.

Lemma reader_quiet_read w w' : quiet size w w' → read (sh w') = read (sh w).
Proof. by intros [(_ & _ & (_ & ? & _) & _) _]. Qed.

(** A look that finds the index moved finds something to read. *)
Lemma reader_sees w w' :
  ring_wf size (sh w) → quiet size w w' → read (sh w) ≠ write (sh w') → 0 < held (sh w').
Proof.
  intros Hwf Hq Hne. pose proof (quiet_wf _ _ _ Hq) as Hwf'.
  pose proof (held_range _ _ Hwf'). pose proof (held_zero _ _ Hwf') as Hz.
  rewrite (reader_quiet_read _ _ Hq) in Hz. destruct (decide (held (sh w') = 0)); [tauto | lia].
Qed.

Lemma wp_wait_reader_body g x w :
  ring_wf size (sh w) → live w = true → count_ok x →
  wp (wait_reader_body g (read (sh w)) x) (reader_round w x) w.
Proof.
  intros Hwf Hl Hcnt. apply wp_bind, wp_load_now.
  pose proof (drifts_interfere size set_reader_flags peer_relies w Hwf) as (H1 & _).
  assert (∀ T, filled_from size T → read (sh w) = write (sh (peer_ran w)) → (clock w < T)%nat) as HT.
  { intros T HT E. destruct (decide (clock w < T)%nat) as [|Hge]; [done|].
    specialize (HT (clock w) (sh w) ltac:(lia) Hwf).
    pose proof (proj2 (held_zero _ _ (quiet_wf _ _ _ H1))) as Hz.
    rewrite (reader_quiet_read _ _ H1) in Hz. specialize (Hz E). simpl in *. lia. }
  set (w1 := peer_ran w) in *.
  apply wp_if; intros E; bool_hyps; [apply wp_ret; split; [done|]; by apply reader_sees with w|].
  apply wp_bind, (wp_load_drifts size set_reader_flags peer_relies); [by eapply quiet_wf|].
  intros w2 (H2 & _). pose proof (quiet_trans _ _ _ _ Hwf H1 H2) as H02.
  apply wp_bind, (wp_flags_or size _ peer_relies reader_own); [by eapply quiet_wf|].
  intros w3 (H3 & _ & _ & HP3). pose proof (quiet_trans _ _ _ _ Hwf H02 H3) as H03.
  apply wp_bind, (wp_load_drifts size set_reader_flags peer_relies); [by eapply quiet_wf|].
  intros w4 (H4 & _ & _ & HP4). pose proof (quiet_trans _ _ _ _ Hwf H03 H4) as H04.
  rewrite count_down by done.
  apply wp_if; intros E4; bool_hyps; [apply wp_ret; split; [done|]; by apply reader_sees with w|].
  apply wp_reader_empty; [done | done | done | done | auto |].
  intros Hc Hfin. split.
  - apply HP4, HP3; [intros t s; apply Hfin | done | intros t s; apply Hfin | done | done].
  - apply content_nil, held_zero with size; [by eapply quiet_wf|].
    by rewrite (reader_quiet_read _ _ H04).
Qed.

(** Each round takes time. *)
Lemma ticks_wait_reader_rest g read_p x :
  ∀ v : Z, ticks (if negb (read_p =? v) then ret (Break x) else
    let* wflags := load writer_flags in
    let count := u32 (loop_count x - 1) in
    reader_flags_or XSHMP_WAITING ;;
    let* w := load write in
    let x := WaitLocals count (active_count x) true in
    if negb (read_p =? w) then ret (Break x)
    else if has wflags XSHMP_CLOSED then ret (Return 0)
    else check_broken g x (λ x,
      let* p := get_priv in
      if saw_epipe p then set_errno EPIPE ;; ret (Return (-1))
      else react wflags reader_sleep x)).
Proof. intros v. unfold check_broken, react, reader_sleep. auto 40 with ticks. Qed.

Lemma wp_wait_reader_body_ticks g x w :
  ring_wf size (sh w) → live w = true → count_ok x →
  wp (wait_reader_body g (read (sh w)) x)
     (λ f w', reader_round w x f w' ∧ (clock w < clock w')%nat) w.
Proof.
  intros Hwf Hl Hcnt. pose proof (wp_wait_reader_body g x w Hwf Hl Hcnt) as H1.
  apply (wp_ticks _ _ (peer_ran w) (ticks_wait_reader_rest g (read (sh w)) x _)) in H1.
  exact H1.
Qed.

(** ** The routine *)

Definition wait_reader_post (w : world) (r : Z) (w' : world) : Prop :=
  quiet size w w' ∧
  (r = 1 ∧ 0 < held (sh w')
   ∨ r = 0 ∧ (close_is_final → writer_closed (sh w') ∧ content (sh w') = [])
   ∨ r = -1 ∧ (broken → errno w' = EPIPE)).

(** The end of the wait: this end is no longer waiting. *)
Lemma wp_reader_leave w0 w x :
  ring_wf size (sh w0) → quiet size w0 w → 0 < held (sh w) →
  wp (when (unset_wait x) (reader_flags_clear XSHMP_WAITING) ;; ret 1) (wait_reader_post w0) w.
Proof.
  intros Hwf H0 Hh. apply wp_bind, wp_when; intros _.
  - apply (wp_flags_clear size _ peer_relies reader_own); [by eapply quiet_wf|].
    intros w1 (H1 & _). apply wp_ret. split; [by eapply quiet_trans|]. left. split; [done|].
    pose proof (writer_step_held _ _ _ (quiet_wf _ _ _ H0) (proj1 (proj2 (proj2 (proj1 H1))))). lia.
  - apply wp_ret. split; [done|]. by left.
Qed.

Definition reader_loop_post (w0 : world) (r : wait_locals + Z) (w : world) : Prop :=
  match r with
  | inl _ => quiet size w0 w ∧ 0 < held (sh w)
  | inr v => wait_reader_post w0 v w
  end.

Lemma reader_round_step w0 w x f w' :
  ring_wf size (sh w0) → quiet size w0 w → reader_round w x f w' →
  match f with
  | Continue x' => quiet size w0 w' ∧ count_ok x'
  | Break x' => reader_loop_post w0 (inl x') w'
  | Return r => reader_loop_post w0 (inr r) w'
  end.
Proof.
  intros Hwf H0 [Hq Hf]. pose proof (quiet_trans _ _ _ _ Hwf H0 Hq) as H0'.
  destruct f as [x'|x'|r]; simpl in *.
  - split; [done | apply Hf].
  - done.
  - split; [done|]. destruct Hf as [[-> ?]|[-> ?]]; auto.
Qed.

Lemma wait_start_ok : count_ok wait_start.
Proof. unfold count_ok, wait_start, XEN_SHM_PIPE_WAIT_LOOP_LIMIT. simpl. lia. Qed.

Lemma safe_wait_reader fuel g w :
  ring_wf size (sh w) → live w = true →
  safe (__xen_shm_pipe_wait_reader fuel g) (wait_reader_post w) w.
Proof.
  intros Hwf Hl. apply safe_bind, safe_wp, (wp_load size); [done..|]. intros w1 H1.
  rewrite (reader_quiet_read _ _ H1). apply safe_bind. eapply safe_mono.
  { apply (safe_loop (λ x w', quiet size w w' ∧ count_ok x) _ (reader_loop_post w)).
    - intros x w2 [H2 Hx]. apply safe_wp. rewrite <-(reader_quiet_read _ _ H2). eapply wp_mono.
      { apply wp_wait_reader_body; [by eapply quiet_wf | by eapply live_quiet | done]. }
      intros f w3 H3. by apply (reader_round_step w w2 x).
    - split; [done | apply wait_start_ok]. }
  intros [x|v] w2 H2; [|by apply safe_ret].
  apply safe_wp. destruct H2. by apply wp_reader_leave.
Qed.

(** If the writer eventually provides, the wait ends. *)
Lemma wp_wait_reader_filled fuel g T w :
  ring_wf size (sh w) → live w = true → filled_from size T → (T < fuel)%nat →
  wp (__xen_shm_pipe_wait_reader fuel g) (wait_reader_post w) w.
Proof.
  intros Hwf Hl HT Hf. apply wp_bind, (wp_load size); [done..|]. intros w1 H1.
  rewrite (reader_quiet_read _ _ H1). apply wp_bind. eapply wp_mono.
  { apply (wp_loop (λ x w', quiet size w w' ∧ count_ok x)
      (λ _ w', Z.of_nat (T - clock w')) _ (reader_loop_post w)).
    - intros x w2 [H2 Hx]. rewrite <-(reader_quiet_read _ _ H2). eapply wp_mono.
      { apply wp_wait_reader_body_ticks; [by eapply quiet_wf | by eapply live_quiet | done]. }
      intros f w3 [H3 Ht]. pose proof (reader_round_step w w2 x f w3 Hwf H2 H3) as Hs.
      destruct f as [x'|x'|r]; [|done|done]. split; [done|].
      destruct H3 as (_ & _ & HT2 & _). specialize (HT2 T HT). lia.
    - split; [done | apply wait_start_ok].
    - lia. }
  intros [x|v] w2 H2; [|by apply wp_ret]. destruct H2. by apply wp_reader_leave.
Qed.

(** If the module reports the pipe broken, the wait ends within the limit on
    the number of rounds between two such checks. *)
Lemma wp_wait_reader_broken fuel g w :
  ring_wf size (sh w) → live w = true → broken →
  XEN_SHM_PIPE_WAIT_LOOP_LIMIT < Z.of_nat fuel →
  wp (__xen_shm_pipe_wait_reader fuel g) (wait_reader_post w) w.
Proof.
  intros Hwf Hl Hb Hf. apply wp_bind, (wp_load size); [done..|]. intros w1 H1.
  rewrite (reader_quiet_read _ _ H1). apply wp_bind. eapply wp_mono.
  { apply (wp_loop (λ x w', quiet size w w' ∧ count_ok x) (λ x _, loop_count x)
      _ (reader_loop_post w)).
    - intros x w2 [H2 Hx]. rewrite <-(reader_quiet_read _ _ H2). eapply wp_mono.
      { apply wp_wait_reader_body; [by eapply quiet_wf | by eapply live_quiet | done]. }
      intros f w3 H3. pose proof (reader_round_step w w2 x f w3 Hwf H2 H3) as Hs.
      destruct f as [x'|x'|r]; [|done|done]. split; [done|].
      destruct H3 as (_ & Hc & _ & Hb2). specialize (Hb2 Hb). unfold count_ok in *. lia.
    - split; [done | apply wait_start_ok].
    - simpl. unfold XEN_SHM_PIPE_WAIT_LOOP_LIMIT in *. lia. }
  intros [x|v] w2 H2; [|by apply wp_ret]. destruct H2. by apply wp_reader_leave.
Qed.
End ReaderWait.

(** ** The writer's wait *)

(** From [T] on, there is room whenever this end looks. *)
Definition room_from `{!PipeEnv} (size : Z) (T : nat) : Prop :=
  ∀ t s, (T ≤ t)%nat → ring_wf size s → held (peer t s) < size - 1.

(** The index after the write index, as the code computes it. *)
Definition write_next (size w : Z) : Z := if u32 (w + 1) =? size then 0 else u32 (w + 1).

Lemma full_iff size s :
  ring_wf size s → 1 < size ≤ 2 ^ 32 → write_next size (write s) = read s ↔ held s = size - 1.
Proof.
  intros (Hl & Hr & Hw) Hs. unfold held, write_next. rewrite Hl, used_cases by done.
  unfold u32, wrap. destruct (decide (write s + 1 = 2 ^ 32)) as [E|E].
  - rewrite E, Z_mod_same_full. destruct (Z.eqb_spec 0 size); case_decide; lia.
  - rewrite Z.mod_small by lia. destruct (Z.eqb_spec (write s + 1) size); case_decide; lia.
Qed.

Section WriterWait.
Context `{!PipeEnv} (size : Z).
#[local] Instance writer_wait_side : Side size := writer_side size.
Hypothesis peer_reads : ∀ t s, ring_wf size s → reader_step size s (peer t s).
Hypothesis size_range : 1 < size ≤ 2 ^ 32.

Lemma peer_relies_w t s : ring_wf size s → rely s (peer t s).
Proof. exact (peer_reads t s). Qed.
Lemma writer_own v s : same_ring s (set_writer_flags v s).
Proof. done. Qed.

Lemma writer_quiet_write w w' : quiet size w w' → write (sh w') = write (sh w).
Proof. by intros [(_ & _ & (_ & ? & _) & _) _]. Qed.

Definition writer_round (w : world) (x : wait_locals) (f : flow wait_locals Z) (w' : world) : Prop :=
  quiet size w w' ∧
  match f with
  | Break _ => held (sh w') < size - 1
  | Return r => r = -1 ∧ ¬ (responsive ∧ reader_stays_open) ∧ gave_up w'
  | Continue x' =>
      count_ok x' ∧ (∀ T, room_from size T → (clock w < T)%nat) ∧
      (broken → loop_count x' = loop_count x - 1)
  end.

(** A look that finds the read index elsewhere finds room. *)
Lemma writer_sees w w' :
  ring_wf size (sh w) → quiet size w w' → write_next size (write (sh w)) ≠ read (sh w') →
  held (sh w') < size - 1.
Proof.
  intros Hwf Hq Hne. pose proof (quiet_wf _ _ _ Hq) as Hwf'.
  pose proof (held_range _ _ Hwf'). pose proof (full_iff _ _ Hwf' size_range) as Hz.
  rewrite (writer_quiet_write _ _ Hq) in Hz. destruct (decide (held (sh w') = size - 1)); [tauto | lia].
Qed.

Lemma wp_writer_sleep x Q w :
  ring_wf size (sh w) → live w = true →
  (∀ w', quiet size w w' → ¬ broken → Q (Continue x) w') →
  (∀ w', quiet size w w' → ¬ responsive → gave_up w' → Q (Return (-1)) w') →
  wp (writer_sleep x) Q w.
Proof.
  intros Hwf Hl HC HR.
  apply wp_bind, (wp_flags_or size _ peer_relies_w writer_own); [done|]. intros w1 (H1 & _).
  apply wp_bind, (wp_wait_signal size); [done | by eapply quiet_wf | by eapply live_quiet|].
  intros r w2 H2 Hb Hre. pose proof (quiet_trans _ _ _ _ Hwf H1 H2) as H02.
  apply wp_bind, (wp_flags_clear size _ peer_relies_w writer_own); [by eapply quiet_wf|].
  intros w3 (H3 & He3 & _). pose proof (quiet_trans _ _ _ _ Hwf H02 H3) as H03.
  apply wp_if; intros E; bool_hyps.
  - apply wp_bind, (wp_flags_clear size _ peer_relies_w writer_own); [by eapply quiet_wf|].
    intros w4 (H4 & He4 & _). apply wp_ret, HR; [by eapply quiet_trans | intros Hres; specialize (Hre Hres); lia |].
    right. intros Hbr. rewrite He4, He3. by apply Hb.
  - apply wp_ret, HC; [done|]. intros Hbr. by destruct (Hb Hbr).
Qed.

(** A look at the reader's flags: a reader that stays open is not seen closed. *)
Lemma wp_load_reader_flags Q w :
  ring_wf size (sh w) →
  (∀ w', quiet size w w' →
    (has (reader_flags (sh w')) XSHMP_CLOSED = true → ¬ reader_stays_open) →
    Q (reader_flags (sh w')) w') →
  wp (load reader_flags) Q w.
Proof.
  intros Hwf HQ. apply wp_load_now, HQ.
  - apply (drifts_interfere size set_writer_flags peer_relies_w w Hwf).
  - intros Hc Ho. specialize (Ho (clock w) (sh w)). simpl in Hc. by rewrite Ho in Hc.
Qed.

Lemma wp_wait_writer_body g x w :
  ring_wf size (sh w) → live w = true → count_ok x →
  wp (wait_writer_body g (write_next size (write (sh w))) x) (writer_round w x) w.
Proof.
  intros Hwf Hl Hcnt. apply wp_bind, wp_load_now.
  pose proof (drifts_interfere size set_writer_flags peer_relies_w w Hwf) as (H1 & _).
  assert (∀ T, room_from size T → write_next size (write (sh w)) = read (sh (peer_ran w)) →
    (clock w < T)%nat) as HT.
  { intros T HT E. destruct (decide (clock w < T)%nat) as [|Hge]; [done|].
    specialize (HT (clock w) (sh w) ltac:(lia) Hwf).
    pose proof (proj1 (full_iff _ _ (quiet_wf _ _ _ H1) size_range)) as Hz.
    rewrite (writer_quiet_write _ _ H1) in Hz. specialize (Hz E). simpl in *. lia. }
  set (w1 := peer_ran w) in *.
  apply wp_if; intros E; bool_hyps; [apply wp_ret; split; [done|]; by apply writer_sees with w|].
  apply wp_bind, wp_load_reader_flags; [by eapply quiet_wf|]. intros w2 H2 Hop. pose proof (quiet_trans _ _ _ _ Hwf H1 H2) as H02.
  apply wp_bind, (wp_flags_or size _ peer_relies_w writer_own); [by eapply quiet_wf|].
  intros w3 D3. pose proof D3 as (H3 & _). pose proof (quiet_trans _ _ _ _ Hwf H02 H3) as H03.
  apply wp_bind, (wp_load_drifts size set_writer_flags peer_relies_w); [by eapply quiet_wf|].
  intros w4 D4. pose proof D4 as (H4 & _). pose proof (quiet_trans _ _ _ _ Hwf H03 H4) as H04.
  pose proof (quiet_wf _ _ _ H04) as Hwf4. assert (live w4 = true) as Hl4 by (by eapply live_quiet).
  rewrite count_down by done.
  apply wp_if; intros E4; bool_hyps; [apply wp_ret; split; [done|]; by apply writer_sees with w|].
  apply wp_if; intros Hcl.
  { apply wp_ret. split; [done|]. split; [done|]. split; [tauto|]. left. intros Hfin.
    destruct D3 as (_ & _ & _ & HP3), D4 as (_ & _ & _ & HP4).
    apply (HP4 reader_closed); [done..|]. by apply (HP3 reader_closed). }
  assert (∀ x' w', quiet size w4 w' → count_ok x' → (broken → loop_count x' = loop_count x - 1) →
    wp (react (reader_flags (sh w2)) writer_sleep x') (writer_round w x) w') as Hk.
  { intros x' w5 H5 Hx Hbr. pose proof (quiet_trans _ _ _ _ Hwf H04 H5) as H05.
    apply (wp_react size); [exact peer_relies_w | by eapply quiet_wf | by eapply live_quiet | |].
    - intros x2 w6 H6 Ec _. split; [by eapply quiet_trans|]. unfold count_ok in *. rewrite Ec. auto.
    - apply wp_writer_sleep; [by eapply quiet_wf | by eapply live_quiet | |].
      + intros w6 H6 Hnb. split; [by eapply quiet_trans | auto].
      + intros w6 H6 Hnr Hg. split; [by eapply quiet_trans |]. split_and!; [done | tauto | done]. }
  apply (wp_check_broken size); [exact peer_relies_w | done | done | | |].
  - simpl. intros Hne. apply Hk; [by apply quiet_refl | unfold count_ok in *; simpl; lia | done].
  - intros w5 H5 Hnb. apply Hk; [done | unfold count_ok, XEN_SHM_PIPE_WAIT_LOOP_LIMIT; simpl; lia | done].
  - intros w5 H5 He Hnr. split; [by eapply quiet_trans|]. split_and!; [done | tauto | by right].
Qed.

(** ** The routine *)

Definition wait_writer_post (w : world) (r : Z) (w' : world) : Prop :=
  quiet size w w' ∧ (r = 1 ∧ held (sh w') < size - 1 ∨ r = -1 ∧ ¬ (responsive ∧ reader_stays_open) ∧ gave_up w').

Definition writer_loop_post (w0 : world) (r : wait_locals + Z) (w : world) : Prop :=
  match r with
  | inl _ => quiet size w0 w ∧ held (sh w) < size - 1
  | inr v => wait_writer_post w0 v w
  end.

Lemma wp_writer_leave w0 w x :
  ring_wf size (sh w0) → quiet size w0 w → held (sh w) < size - 1 →
  wp (when (unset_wait x) (writer_flags_clear XSHMP_WAITING) ;; ret 1) (wait_writer_post w0) w.
Proof.
  intros Hwf H0 Hh. apply wp_bind, wp_when; intros _.
  - apply (wp_flags_clear size _ peer_relies_w writer_own); [by eapply quiet_wf|].
    intros w1 (H1 & _). apply wp_ret. split; [by eapply quiet_trans|]. left. split; [done|].
    pose proof (reader_step_held _ _ _ (quiet_wf _ _ _ H0) (proj1 (proj2 (proj2 (proj1 H1))))). lia.
  - apply wp_ret. split; [done|]. by left.
Qed.

Lemma writer_round_step w0 w x f w' :
  ring_wf size (sh w0) → quiet size w0 w → writer_round w x f w' →
  match f with
  | Continue x' => quiet size w0 w' ∧ count_ok x'
  | Break x' => writer_loop_post w0 (inl x') w'
  | Return r => writer_loop_post w0 (inr r) w'
  end.
Proof.
  intros Hwf H0 [Hq Hf]. pose proof (quiet_trans _ _ _ _ Hwf H0 Hq) as H0'.
  destruct f as [x'|x'|r]; simpl in *; [split; [done | apply Hf] | done | split; auto].
Qed.

(** What is shown of the loop from any world after the start is shown of the
    routine. *)
Lemma writer_enter `{!Triple world} (fuel : nat) g w :
  ring_wf size (sh w) → live w = true → buffer_size (priv w) = size →
  (∀ w1, quiet size w w1 →
    triple (loop fuel (wait_writer_body g (write_next size (write (sh w)))) wait_start)
      (writer_loop_post w) w1) →
  triple (__xen_shm_pipe_wait_writer fuel g) (wait_writer_post w) w.
Proof.
  intros Hwf Hl Hbs Hloop.
  apply triple_bind, triple_wp, wp_load_reader_flags; [done |].
  intros w1 H1 Hop. destruct (has (reader_flags (sh w1)) XSHMP_CLOSED) eqn:Hc.
  { apply triple_wp, wp_ret. split; [done|]. right. split_and!; [done | tauto | by left]. }
  apply triple_bind, triple_wp, (wp_load size); [exact peer_relies_w | by eapply quiet_wf|].
  intros w2 H2. pose proof (quiet_trans _ _ _ _ Hwf H1 H2) as H02.
  apply triple_bind, triple_wp, wp_get_priv; [by eapply live_quiet|].
  pose proof (quiet_geom _ _ _ H02) as Hg. injection Hg as _ Hbs2 _ _ _ _.
  rewrite Hbs2, Hbs, (writer_quiet_write _ _ H02). apply triple_bind.
  eapply triple_mono; [by apply Hloop|]. intros [x|v] w3 H3; apply triple_wp.
  - destruct H3. by apply wp_writer_leave.
  - by apply wp_ret.
Qed.

Lemma safe_wait_writer fuel g w :
  ring_wf size (sh w) → live w = true → buffer_size (priv w) = size →
  safe (__xen_shm_pipe_wait_writer fuel g) (wait_writer_post w) w.
Proof.
  intros Hwf Hl Hbs. apply (writer_enter (Triple0 := partial)); [done..|]. intros w1 H1.
  apply (safe_loop (λ x w', quiet size w w' ∧ count_ok x)).
  - intros x w2 [H2 Hx]. apply safe_wp. rewrite <-(writer_quiet_write _ _ H2). eapply wp_mono.
    { apply wp_wait_writer_body; [by eapply quiet_wf | by eapply live_quiet | done]. }
    intros f w3 H3. by apply (writer_round_step w w2 x).
  - split; [done | apply wait_start_ok].
Qed.

(** Each round takes time. *)
Lemma ticks_wait_writer_rest g write_p x :
  ∀ v : Z, ticks (if negb (write_p =? v) then ret (Break x) else
    let* rflags := load reader_flags in
    let count := u32 (loop_count x - 1) in
    writer_flags_or XSHMP_WAITING ;;
    let* r := load read in
    let x := WaitLocals count (active_count x) true in
    if negb (write_p =? r) then ret (Break x)
    else if has rflags XSHMP_CLOSED then ret (Return (-1))
    else check_broken g x (react rflags writer_sleep)).
Proof. intros v. unfold check_broken, react, writer_sleep. auto 40 with ticks. Qed.

Lemma wp_wait_writer_body_ticks g x w :
  ring_wf size (sh w) → live w = true → count_ok x →
  wp (wait_writer_body g (write_next size (write (sh w))) x)
     (λ f w', writer_round w x f w' ∧ (clock w < clock w')%nat) w.
Proof.
  intros Hwf Hl Hcnt. pose proof (wp_wait_writer_body g x w Hwf Hl Hcnt) as H1.
  apply (wp_ticks _ _ (peer_ran w)
    (ticks_wait_writer_rest g (write_next size (write (sh w))) x _)) in H1.
  exact H1.
Qed.

(** If the reader eventually makes room, the wait ends. *)
Lemma wp_wait_writer_room fuel g T w :
  ring_wf size (sh w) → live w = true → buffer_size (priv w) = size →
  room_from size T → (T < fuel)%nat →
  wp (__xen_shm_pipe_wait_writer fuel g) (wait_writer_post w) w.
Proof.
  intros Hwf Hl Hbs HT Hf. apply (writer_enter (Triple0 := total)); [done..|]. intros w1 H1.
  apply (wp_loop (λ x w', quiet size w w' ∧ count_ok x) (λ _ w', Z.of_nat (T - clock w'))).
  - intros x w2 [H2 Hx]. rewrite <-(writer_quiet_write _ _ H2). eapply wp_mono.
    { apply wp_wait_writer_body_ticks; [by eapply quiet_wf | by eapply live_quiet | done]. }
    intros f w3 [H3 Ht]. pose proof (writer_round_step w w2 x f w3 Hwf H2 H3) as Hs.
    destruct f as [x'|x'|r]; [|done|done]. split; [done|].
    destruct H3 as (_ & _ & HT2 & _). specialize (HT2 T HT). lia.
  - split; [done | apply wait_start_ok].
  - lia.
Qed.

Lemma wp_wait_writer_broken fuel g w :
  ring_wf size (sh w) → live w = true → buffer_size (priv w) = size → broken →
  XEN_SHM_PIPE_WAIT_LOOP_LIMIT < Z.of_nat fuel →
  wp (__xen_shm_pipe_wait_writer fuel g) (wait_writer_post w) w.
Proof.
  intros Hwf Hl Hbs Hb Hf. apply (writer_enter (Triple0 := total)); [done..|]. intros w1 H1.
  apply (wp_loop (λ x w', quiet size w w' ∧ count_ok x) (λ x _, loop_count x)).
  - intros x w2 [H2 Hx]. rewrite <-(writer_quiet_write _ _ H2). eapply wp_mono.
    { apply wp_wait_writer_body; [by eapply quiet_wf | by eapply live_quiet | done]. }
    intros f w3 H3. pose proof (writer_round_step w w2 x f w3 Hwf H2 H3) as Hs.
    destruct f as [x'|x'|r]; [|done|done]. split; [done|].
    destruct H3 as (_ & Hc & _ & Hb2). specialize (Hb2 Hb). unfold count_ok in *. lia.
  - split; [done | apply wait_start_ok].
  - simpl. unfold XEN_SHM_PIPE_WAIT_LOOP_LIMIT in *. lia.
Qed.
End WriterWait.
