(* ===== verification/PipeApi.v ===== *)
(** The public operations on a pipe (xen_shm_pipe.h): creation, connection,
    reading, writing, flushing and closing. *)
From S2P Require Import Prelude Abi Ring PipeDefs PipeCopy PipeFifo PipeSide PipeRead PipeWrite PipeWait.

(** [MAP_FAILED] *)
Definition MAP_FAILED : Z := -1.

(** What [xen_shm_pipe_init] writes in the allocated structure: the sizes and
    [remaining_ms] keep what [mem] held. *)
Definition init_priv (fd : Z) (mod_ : xen_shm_pipe_mod) (conv_ : xen_shm_pipe_conv) (mem : pipe_priv) :
    pipe_priv :=
  PipePriv fd mod_ conv_ 0 (buffer_size mem) (wait_check_interval mem)
    (IoctlargAwait XEN_SHM_IOCTL_AWAIT_LATENT_USER 0 (remaining_ms (await_op mem)))
    false (PipeStats 0 0 0 0 0 0).
Definition set_fd v p := PipePriv v (pmod p) (conv p) (shared p) (buffer_size p)
  (wait_check_interval p) (await_op p) (saw_epipe p) (stats p).

(** [buffer_size] and [wait_check_interval] of a pipe of [page_count] pages. *)
Definition pipe_buffer_size (page_count : Z) : Z :=
  u64 (page_count * XEN_SHM_PIPE_PAGE_SIZE - sizeof_shared).
Definition pipe_check_interval (bs : Z) : Z :=
  Z.quot (signed 64 bs) XEN_SHM_PIPE_WAIT_CHECK_PER_ROUND.

Section Api.
Context `{!PipeEnv}.

Definition error (e : Z) : M world Z := set_errno e ;; ret (-1).
Definition flags_or_of (fw : flag_word) (m : Z) : M world unit := flags_or (flags_of fw) (set_flags_of fw) m.

(** [mem] is what the allocated memory held. *)
Definition xen_shm_pipe_init (mem : pipe_priv) (mod_ : xen_shm_pipe_mod) (conv_ : xen_shm_pipe_conv) :
    M world Z :=
  let* p := sys SysMalloc in
  if ans_ret p =? 0 then error ENOMEM else
  modify (λ w, with_live true (with_priv mem w)) ;;
  let* a := sys SysOpen in
  put_priv (set_fd (ans_ret a)) ;;
  let* p := get_priv in
  if fd p <? 0 then
    (let* _ := sys SysFree in modify (with_live false)) ;;
    error ENODEV
  else
    put_priv (init_priv (fd p) mod_ conv_) ;;
    ret 0.

(** The result, and [*receiver_domid] when it is written. *)
Definition xen_shm_pipe_getdomid : M world (Z * option Z) :=
  let* p := get_priv in
  if __xen_shm_pipe_is_offerer p then let* r := error EMEDIUMTYPE in ret (r, None) else
  let* a := sys (SysGetDomid (fd p)) in
  if negb (ans_ret a =? 0) then ret (-1, None)
  else ret (0, Some (u16 (ans_out1 a))).

Definition __xen_shm_pipe_map_shared_memory (page_count : Z) : M world Z :=
  let* p := get_priv in
  let* a := sys (SysMmap (u64 (page_count * XEN_SHM_PIPE_PAGE_SIZE)) (fd p)) in
  if ans_ret a =? MAP_FAILED then ret (-1)
  else put_priv (set_shared (ans_ret a)) ;; ret 0.

Definition set_pipe_sizes (page_count : Z) : M world unit :=
  put_priv (set_sizes (pipe_buffer_size page_count)
    (pipe_check_interval (pipe_buffer_size page_count))).

(** The result, and [*offerer_domid] and [*grant_ref] when they are written. *)
Definition xen_shm_pipe_offers (page_count receiver_domid : Z) : M world (Z * option (Z * Z)) :=
  let* p := get_priv in
  if negb (__xen_shm_pipe_is_offerer p) then let* r := error EMEDIUMTYPE in ret (r, None) else
  let* a := sys (SysInitOfferer (fd p) page_count (u16 receiver_domid)) in
  if negb (ans_ret a =? 0) then ret (-1, None) else
  let* m := __xen_shm_pipe_map_shared_memory page_count in
  if negb (m =? 0) then ret (-1, None) else
  set_pipe_sizes page_count ;;
  store (set_reader_flags 0) ;;
  store (set_writer_flags 0) ;;
  store (set_read 0) ;;
  store (set_write 0) ;;
  flags_or_of (__xen_shm_pipe_get_flags p true) XSHMP_OPENED ;;
  ret (0, Some (u16 (ans_out2 a), u32 (ans_out1 a))).

Definition xen_shm_pipe_connect (page_count offerer_domid grant_ref : Z) : M world Z :=
  let* p := get_priv in
  if __xen_shm_pipe_is_offerer p then error EMEDIUMTYPE else
  let* a := sys (SysInitReceiver (fd p) page_count (u16 offerer_domid) grant_ref) in
  if negb (ans_ret a =? 0) then ret (-1) else
  let* m := __xen_shm_pipe_map_shared_memory page_count in
  if negb (m =? 0) then ret (-1) else
  set_pipe_sizes page_count ;;
  flags_or_of (__xen_shm_pipe_get_flags p true) XSHMP_OPENED ;;
  ret 0.

(** [remaining_ms] of the argument is not initialised: [garbage]. *)
Definition xen_shm_pipe_wait (garbage timeout_ms : Z) : M world Z :=
  let* p := get_priv in
  if negb (__xen_shm_pipe_is_offerer p) || (shared p =? 0) then error EMEDIUMTYPE else
  let* a := sys (SysAwait (fd p) (IoctlargAwait XEN_SHM_IOCTL_AWAIT_INIT timeout_ms garbage)) in
  if negb (ans_ret a =? 0) then ret (-1)
  else if ans_out1 a =? 0 then error ETIME
  else ret 0.

Definition xen_shm_pipe_free : M world unit :=
  let* p := get_priv in
  when (negb (shared p =? 0))
    (flags_or_of (__xen_shm_pipe_get_flags p true) XSHMP_CLOSED ;;
     let* _ := sys (SysMunmap (shared p) (u64 (buffer_size p + sizeof_shared))) in
     ret tt) ;;
  let* _ := sys (SysClose (fd p)) in
  let* _ := sys SysFree in
  modify (with_live false).

(** [fuel] bounds the rounds of the wait. *)
Definition xen_shm_pipe_read (fuel : nat) (garbage buf nbytes : Z) : M world Z :=
  bump stat_read ;;
  let* p := get_priv in
  if bool_decide (pmod p = xen_shm_pipe_mod_write) then error EMEDIUMTYPE
  else if shared p =? 0 then error EMEDIUMTYPE else
  let* f := load reader_flags in
  if has f XSHMP_CLOSED then ret 0 else
  reader_flags_or XSHMP_ACTIVE ;;
  let* wait_ret := __xen_shm_pipe_wait_reader fuel garbage in
  if wait_ret <=? 0 then reader_flags_clear XSHMP_ACTIVE ;; ret wait_ret else
  let* read_ret := __xen_shm_pipe_read_avail buf nbytes in
  reader_flags_clear XSHMP_ACTIVE ;;
  ret read_ret.

Definition xen_shm_pipe_write (fuel : nat) (garbage buf nbytes : Z) : M world Z :=
  bump stat_write ;;
  let* p := get_priv in
  if bool_decide (pmod p = xen_shm_pipe_mod_read) then error EMEDIUMTYPE
  else if shared p =? 0 then error EMEDIUMTYPE else
  let* f := load writer_flags in
  if has f XSHMP_CLOSED then error EPIPE else
  writer_flags_or XSHMP_ACTIVE ;;
  let* wait_ret := __xen_shm_pipe_wait_writer fuel garbage in
  if wait_ret <=? 0 then writer_flags_clear XSHMP_ACTIVE ;; ret wait_ret else
  let* write_ret := __xen_shm_pipe_write_avail buf nbytes in
  writer_flags_clear XSHMP_ACTIVE ;;
  ret write_ret.

(** One call of the "all" loops on [(moved, buf, nbytes)]. *)
Definition all_body (once : Z → Z → M world Z) (x : Z * Z * Z) : M world (flow (Z * Z * Z) Z) :=
  let '(moved, buf, nbytes) := x in
  if nbytes =? 0 then ret (Break x) else
  let* retval := once buf nbytes in
  if retval <=? 0 then ret (Return (if negb (moved =? 0) then moved else retval))
  else ret (Continue (moved + retval, buf + retval, nbytes - retval)).

Definition all (once : Z → Z → M world Z) (buf nbytes : Z) : M world Z :=
  let* r := loop (S (Z.to_nat nbytes)) (all_body once) (0, buf, nbytes) in
  match r with
  | inl (moved, _, _) => ret moved
  | inr v => ret v
  end.

Definition xen_shm_pipe_write_all (fuel : nat) (garbage buf nbytes : Z) : M world Z :=
  all (xen_shm_pipe_write fuel garbage) buf nbytes.
Definition xen_shm_pipe_read_all (fuel : nat) (garbage buf nbytes : Z) : M world Z :=
  all (xen_shm_pipe_read fuel garbage) buf nbytes.

Definition xen_shm_pipe_flush : M world Z :=
  let* p := get_priv in
  if shared p =? 0 then error EMEDIUMTYPE else
  let* f := load (flags_of (__xen_shm_pipe_get_flags p false)) in
  if has f XSHMP_CLOSED then error EPIPE
  else __xen_shm_pipe_send_signal.

Definition xen_shm_pipe_get_stats : M world pipe_stats :=
  let* p := get_priv in ret (stats p).
End Api.
