(* ===== verification/PipeStream.v ===== *)
(** Reading and writing as the caller sees them: [xen_shm_pipe_read],
    [xen_shm_pipe_write] and their "all" loops move the bytes of one stream,
    in order, and stop only for a reason they report. The proofs are made once
    for both notions of correctness ([Triple]). *)
From S2P Require Import Prelude Abi Ring PipeDefs PipeCopy PipeFifo PipeSide PipeRead PipeWrite PipeWait PipeApi.

(** ** The reader's and the writer's view of a stretch of the run *)

(** From [w0] to [w], [data] was delivered at [buf]: followed by what is still in
    the queue it is what was there followed by what the writer added. *)
Definition delivered (size buf : Z) (data : list Z) (w0 w : world) : Prop :=
  usr w = poke (usr w0) (buf - usr_base w0) data ∧
  geom w = geom w0 ∧ ring_wf size (sh w) ∧
  ∃ tr, trace w = tr ++ trace w0 ∧ own_steps (reader_step size) tr ∧
    data ++ content (sh w) = content (sh w0) ++ appended tr.

(** From [w0] to [w], the [n] bytes at [buf] were appended: what the reader took
    followed by what is in the queue is what was there followed by them. *)
Definition accepted (size buf n : Z) (w0 w : world) : Prop :=
  usr w = usr w0 ∧ geom w = geom w0 ∧ ring_wf size (sh w) ∧
  ∃ tr, trace w = tr ++ trace w0 ∧ own_steps (writer_step size) tr ∧
    consumed tr ++ content (sh w) = content (sh w0) ++ peek (usr w0) (buf - usr_base w0) n.

(** A mapped pipe whose indices are in range, opened in mode [m]. *)
Definition ready (m : xen_shm_pipe_mod) (size : Z) (w : world) : Prop :=
  mapped size w ∧ ring_wf size (sh w) ∧ pmod (priv w) = m ∧ shared (priv w) ≠ 0.

Lemma ready_geom m size w w' :
  geom w' = geom w → ring_wf size (sh w') → ready m size w → ready m size w'.
Proof.
  intros [= H1 H2 H3 H4 H5 H6] Hwf ((? & ? & ? & ? & ? & ?) & _ & ? & ?).
  unfold ready, mapped. rewrite H1, H2, H3, H5, H6. auto 10.
Qed.

Lemma user_range_next buf nbytes n w w' :
  len (usr w') = len (usr w) → geom w' = geom w → user_range buf nbytes w → 0 ≤ n ≤ nbytes →
  user_range (buf + n) (nbytes - n) w'.
Proof.
  intros Hl [= _ _ _ Hb _ _] (? & ? & ? & ?) ?. unfold user_range. rewrite Hl, Hb. lia.
Qed.

(** ** Transfers *)

(** What a call that moves at most [m] bytes may answer: the number it moved,
    not 0 unless [m] is, or [r <= 0], nothing being moved, with the reason
    [stop]. [P n] is what moving [n] bytes does. *)
Definition transfer (P : Z → world → Prop) (stop : Z → world → Prop) (m r : Z) (w : world) : Prop :=
  ∃ n, P n w ∧ 0 ≤ n ≤ m ∧
    (r = n ∧ (m = 0 ∨ 0 < n) ∨ n = 0 ∧ r ≤ 0 ∧ stop r w).

(** The same for the "all" loops: everything was moved, or a call stopped. *)
Definition transfer_all (P : Z → world → Prop) (stop : Z → world → Prop) (m r : Z) (w : world) : Prop :=
  ∃ n, P n w ∧ 0 ≤ n ≤ m ∧
    (r = n ∧ (n = m ∨ 0 < n ∧ ∃ r0, r0 ≤ 0 ∧ stop r0 w)
     ∨ n = 0 ∧ 0 < m ∧ r ≤ 0 ∧ stop r w).

Lemma transfer_all_stop P (stop stop' : Z → world → Prop) m r w :
  (∀ r, stop r w → stop' r w) → transfer_all P stop m r w → transfer_all P stop' m r w.
Proof.
  intros Hs (n & HP & Hn & Hr). exists n. split; [done|]. split; [done|].
  destruct Hr as [(? & [?|(? & r0 & ? & ?)])|(? & ? & ? & ?)]; [left | left | right]; auto.
  split; [done|]. right. split; [done|]. exists r0. auto.
Qed.

Section All.
Context `{!Triple world} (once : Z → Z → M world Z).
Context (P : Z → Z → world → world → Prop) (ok : Z → Z → world → Prop) (stop : Z → world → Prop).
Hypothesis P_start : ∀ buf m w, ok buf m w → P buf 0 w w.
Hypothesis P_trans : ∀ buf n k w1 w2 w3,
  0 ≤ n → 0 ≤ k → ok buf (n + k) w1 → P buf n w1 w2 → P (buf + n) k w2 w3 → P buf (n + k) w1 w3.
Hypothesis P_ok : ∀ buf m n w w', 0 ≤ n ≤ m → ok buf m w → P buf n w w' → ok (buf + n) (m - n) w'.
Hypothesis ok_less : ∀ buf m n w, 0 ≤ n ≤ m → ok buf m w → ok buf n w.
Hypothesis once_spec : ∀ buf m w,
  ok buf m w → triple (once buf m) (λ r w', transfer (λ n, P buf n w) stop m r w') w.

Definition all_inv (buf m : Z) (w0 : world) (x : Z * Z * Z) (w : world) : Prop :=
  let '(moved, b, rest) := x in
  P buf moved w0 w ∧ 0 ≤ moved ∧ b = buf + moved ∧ rest = m - moved ∧ 0 ≤ rest.

Definition all_post (buf m : Z) (w0 : world) (r : (Z * Z * Z) + Z) (w : world) : Prop :=
  transfer_all (λ n, P buf n w0) stop m (match r with inl x => x.1.1 | inr v => v end) w.

Lemma all_round buf m w0 x w :
  ok buf m w0 → all_inv buf m w0 x w →
  triple (all_body once x) (λ f w',
    match f with
    | Continue x' => all_inv buf m w0 x' w' ∧ 0 ≤ x'.2 < x.2
    | Break x' => all_post buf m w0 (inl x') w'
    | Return r => all_post buf m w0 (inr r) w'
    end) w.
Proof.
  destruct x as [[moved b] rest]. intros Hok (HP & Hm & -> & -> & Hl). unfold all_body.
  destruct (Z.eqb_spec (m - moved) 0) as [E|E].
  { apply triple_wp, wp_ret. exists moved. simpl. split_and!; [done | lia | lia |]. left. auto with lia. }
  apply triple_bind. eapply triple_mono; [apply once_spec, (P_ok _ _ _ w0); [lia | done | done]|].
  intros r w' (n & HPn & Hn & Hr).
  assert (P buf (moved + n) w0 w') as HP'.
  { apply (P_trans _ _ _ _ w); [lia | lia | | done | done]. apply (ok_less _ m); [lia | done]. }
  apply triple_wp, wp_if; intros Hr0; bool_hyps; apply wp_ret.
  - destruct Hr as [[-> [?|?]]|(-> & _ & Hs)]; [lia | lia |]. rewrite Z.add_0_r in HP'.
    exists moved. simpl. split_and!; [done | lia | lia |].
    destruct (Z.eqb_spec moved 0) as [->|?]; simpl; [right; auto with lia | left].
    split; [done|]. right. split; [lia|]. by exists r.
  - destruct Hr as [[-> _]|(_ & ? & _)]; [|lia]. simpl. split_and!; auto with lia.
Qed.

Lemma triple_all buf m w :
  0 ≤ m → ok buf m w → triple (all once buf m) (transfer_all (λ n, P buf n w) stop m) w.
Proof.
  intros Hm Hok. apply triple_bind. eapply triple_mono.
  { apply (triple_loop _ _ (all_inv buf m w) (λ x _, x.2) _ (all_post buf m w)).
    - intros x w' HI. eapply triple_mono; [by apply all_round|]. intros [] ? ?; auto.
    - split_and!; [by eapply P_start | lia..].
    - simpl. lia. }
  intros [[[moved ?] ?]|v] w' H; apply triple_wp, wp_ret; exact H.
Qed.
End All.

(** ** The reader *)

Section ReaderStream.
Context `{!PipeEnv} (size : Z).
#[local] Instance reader_stream_side : Side size := reader_side size.
Hypothesis peer_writes : ∀ t s, ring_wf size s → writer_step size s (peer t s).

Definition read_ok (buf m : Z) (w : world) : Prop :=
  ready xen_shm_pipe_mod_read size w ∧ user_range buf m w.
Definition read_moves (buf n : Z) (w0 w : world) : Prop :=
  ∃ data, len data = n ∧ delivered size buf data w0 w.

(** Why a read delivers nothing: this end is closed, or the writer is and
    nothing is left to read; or an error. *)
Definition read_stop (r : Z) (w : world) : Prop :=
  r = 0 ∧ (close_is_final → has (reader_flags (sh w)) XSHMP_CLOSED = true ∨
                            writer_closed (sh w) ∧ content (sh w) = [])
  ∨ r = -1 ∧ (broken → errno w = EPIPE).

Lemma delivered_nil buf w w' : 0 ≤ buf - usr_base w → quiet size w w' → delivered size buf [] w w'.
Proof.
  intros Hb [(Hg & Hwf & _ & tr & Ht & Hl & Ho) Hu].
  split_and!; [by rewrite poke_nil | done | done |]. by exists tr.
Qed.

Lemma delivered_trans buf d1 d2 w1 w2 w3 :
  0 ≤ buf - usr_base w1 → buf - usr_base w1 + len d1 + len d2 ≤ len (usr w1) →
  delivered size buf d1 w1 w2 → delivered size (buf + len d1) d2 w2 w3 →
  delivered size buf (d1 ++ d2) w1 w3.
Proof.
  intros Hb Hle (Hu1 & Hg1 & _ & tr1 & Ht1 & Ho1 & Hf1) (Hu2 & Hg2 & Hwf & tr2 & Ht2 & Ho2 & Hf2).
  split_and!; [|congruence|done|].
  - rewrite Hu2, Hu1. injection Hg1 as _ _ _ -> _ _.
    rewrite <-poke_app by lia. f_equal. lia.
  - exists (tr2 ++ tr1). split_and!; [by rewrite Ht2, Ht1, app_assoc | by apply Forall_app |].
    by rewrite appended_app, <-app_assoc, Hf2, !app_assoc, Hf1.
Qed.

Lemma delivered_quiet buf d w1 w2 w3 :
  0 ≤ buf - usr_base w1 → buf - usr_base w1 + len d ≤ len (usr w1) →
  delivered size buf d w1 w2 → quiet size w2 w3 → delivered size buf d w1 w3.
Proof.
  intros Hb Hle Hd Hq. rewrite <-(app_nil_r d).
  pose proof (len_nonneg d). pose proof Hd as (_ & Hg & _). injection Hg as _ _ _ Hu _ _.
  eapply delivered_trans; [done | change (len []) with 0; lia | done |].
  apply delivered_nil; [lia | done].
Qed.

Lemma delivered_usr buf d w w' :
  0 ≤ buf - usr_base w → buf - usr_base w + len d ≤ len (usr w) →
  delivered size buf d w w' → len (usr w') = len (usr w).
Proof. intros ? ? (-> & _). by apply len_poke. Qed.

Lemma read_post_delivered buf m n w w' :
  read_post size buf m w n w' → ∃ data, n = len data ∧ n ≤ m ∧ Z.min m (held (sh w)) ≤ n ∧ delivered size buf data w w'.
Proof.
  intros (data & tr & Hn & Hm & Hmin & Hu & Ht & Hf & Ho & Hwf & Hg).
  exists data. split_and!; [done|done|lia|]. split_and!; [done|done|done|]. by exists tr.
Qed.

Section Once.
Context `{!Triple world} (fuel : nat) (g : Z).
Hypothesis wait_ends : ∀ w, ring_wf size (sh w) → live w = true →
  triple (__xen_shm_pipe_wait_reader fuel g) (wait_reader_post size w) w.

(** The wait and the copy, once ACTIVE is set. *)
Lemma triple_read_rest buf m w0 w :
  read_ok buf m w0 → quiet size w0 w →
  triple (let* wait_ret := __xen_shm_pipe_wait_reader fuel g in
    if wait_ret <=? 0 then reader_flags_clear XSHMP_ACTIVE ;; ret wait_ret else
    let* read_ret := __xen_shm_pipe_read_avail buf m in
    reader_flags_clear XSHMP_ACTIVE ;; ret read_ret)
    (λ r w', transfer (λ n, read_moves buf n w0) read_stop m r w') w.
Proof.
  intros [Hrd Hrange] H0. pose proof Hrd as (Hmap & Hwf & _). pose proof Hmap as (Hl & _).
  pose proof Hrange as (Hub & Hm & Hlen & H64).
  apply triple_bind. eapply triple_mono; [apply wait_ends; [by eapply quiet_wf | by eapply live_quiet]|].
  intros r w1 [H1 Hr]. pose proof (quiet_trans _ _ _ _ Hwf H0 H1) as H01.
  apply triple_wp, wp_if; intros Hr0; bool_hyps; apply wp_bind.
  - apply (wp_flags_clear size _ (peer_relies size peer_writes) reader_own); [by eapply quiet_wf|].
    intros w2 (H2 & He2 & _ & HP). apply wp_ret. exists 0. split_and!; [|lia|lia|right].
    { exists []. split; [done|]. apply delivered_nil; [lia | by eapply quiet_trans]. }
    split_and!; [done | lia |]. destruct Hr as [[? ?]|[[-> Hr]|[-> Hr]]]; [lia|left|right].
    + split; [done|]. intros Hfin. right. specialize (Hr Hfin).
      apply (HP (λ s, writer_closed s ∧ content s = [])); [|done|done].
      intros t s [Hc Hnil]. destruct (Hfin t s Hc) as [? ->]. done.
    + split; [done|]. intros Hb. by rewrite He2, Hr.
  - assert (ready xen_shm_pipe_mod_read size w1) as (Hmap1 & _).
    { eapply ready_geom; [by eapply quiet_geom | by eapply quiet_wf | done]. }
    pose proof (quiet_geom _ _ _ H01) as Hg. injection Hg as _ _ _ Hub1 _ _.
    eapply wp_mono; [apply (wp_read_avail size peer_writes); [done | by eapply quiet_wf |]|].
    { destruct H01 as [_ Hu]. unfold user_range. by rewrite Hu, Hub1. }
    intros n w2 (data & -> & Hn & Hmin & Hd)%read_post_delivered.
    assert (delivered size buf data w0 w2) as Hd0.
    { apply (delivered_trans buf [] data w0 w1); [lia | change (len []) with 0; lia | |].
      - apply delivered_nil; [lia | done].
      - change (len []) with 0. by rewrite Z.add_0_r. }
    apply wp_bind, (wp_flags_clear size _ (peer_relies size peer_writes) reader_own); [apply Hd|].
    intros w3 (H3 & _). apply wp_ret. pose proof (len_nonneg data).
    exists (len data). split_and!; [|lia|lia|left; split; [done|]].
    { exists data. split; [done|]. eapply delivered_quiet; [lia | lia | done | done]. }
    destruct Hr as [[_ Hh]|[[? _]|[? _]]]; lia.
Qed.

Lemma triple_read buf m w :
  read_ok buf m w →
  triple (xen_shm_pipe_read fuel g buf m)
    (λ r w', transfer (λ n, read_moves buf n w) read_stop m r w') w.
Proof.
  intros Hok. pose proof Hok as ((Hmap & Hwf & Hmod & Hsh) & Hrange). pose proof Hmap as (Hl & _).
  pose proof Hrange as (Hub & Hm & Hlen & H64).
  apply triple_bind, triple_wp, (wp_put_priv size); [done..|]. intros w1 H1.
  pose proof (quiet_geom _ _ _ H1) as Hg. injection Hg as Hs1 _ _ _ _ Hp1.
  apply triple_bind, triple_wp, wp_get_priv; [by eapply live_quiet|].
  rewrite bool_decide_eq_false_2 by (rewrite Hp1, Hmod; done).
  rewrite (proj2 (Z.eqb_neq _ _)) by congruence.
  apply triple_bind, triple_wp, (wp_load size); [done | by eapply quiet_wf|].
  intros w2 H2. pose proof (quiet_trans _ _ _ _ Hwf H1 H2) as H02.
  destruct (has (reader_flags (sh w2)) XSHMP_CLOSED) eqn:Hc.
  { apply triple_wp, wp_ret. exists 0. split_and!; [|lia|lia|right].
    - exists []. split; [done|]. apply delivered_nil; [lia | done].
    - split_and!; [done | lia |]. left. auto. }
  apply triple_bind, triple_wp.
  apply (wp_flags_or size _ (peer_relies size peer_writes) reader_own); [by eapply quiet_wf|].
  intros w3 (H3 & _). apply triple_read_rest; [done | by eapply quiet_trans].
Qed.

Lemma triple_read_all buf m w :
  read_ok buf m w →
  triple (xen_shm_pipe_read_all fuel g buf m)
    (λ r w', transfer_all (λ n, read_moves buf n w) read_stop m r w') w.
Proof.
  intros Hok. pose proof Hok as [_ (_ & Hm & _)].
  apply (triple_all _ read_moves read_ok read_stop); [..|done|done].
  - intros b k w1 [(_ & Hwf & _) (Hb & _)]. exists []. split; [done|].
    apply delivered_nil; [lia | by apply quiet_refl].
  - intros b n k w1 w2 w3 Hn Hk [_ (Hb & _ & Hle & _)] (d1 & <- & H1) (d2 & <- & H2).
    exists (d1 ++ d2). split; [apply len_app|]. eapply delivered_trans; [lia | lia | done | done].
  - intros b k n w1 w2 Hn [Hr Hrg] (d & <- & Hd). pose proof Hrg as (Hb & _ & Hle & _).
    pose proof Hd as (_ & Hg & Hwf & _). split; [by eapply ready_geom|].
    eapply user_range_next; [eapply delivered_usr; [| |done]; lia | done | done | lia].
  - intros b k n w1 Hn [Hr (? & ? & ? & ?)]. split; [done|]. split_and!; lia.
  - intros. by apply triple_read.
Qed.
End Once.
End ReaderStream.

(** ** The writer *)

(** Nothing marks this writer closed. *)
Definition writer_stays_open `{!PipeEnv} : Prop :=
  ∀ t s, has (writer_flags (peer t s)) XSHMP_CLOSED = false.

(** Why a write accepts nothing: one of the ends was closed, or the module failed;
    errno is EPIPE when the module reports the memory closed, unless the reader was
    seen closed. *)
Definition write_stop `{!PipeEnv} (r : Z) (w : world) : Prop :=
  r = -1 ∧ ¬ (responsive ∧ reader_stays_open ∧ writer_stays_open) ∧ gave_up w.

Section WriterStream.
Context `{!PipeEnv} (size : Z).
#[local] Instance writer_stream_side : Side size := writer_side size.
Hypothesis peer_reads : ∀ t s, ring_wf size s → reader_step size s (peer t s).

Definition write_ok (buf m : Z) (w : world) : Prop :=
  ready xen_shm_pipe_mod_write size w ∧ user_range buf m w.

Lemma accepted_zero buf w w' : quiet size w w' → accepted size buf 0 w w'.
Proof.
  intros [(Hg & Hwf & _ & tr & Ht & Hl & Ho) Hu].
  split_and!; [done | done | done |]. exists tr. rewrite peek_nil, app_nil_r.
  by split_and!.
Qed.

Lemma accepted_trans buf n k w1 w2 w3 :
  0 ≤ n → 0 ≤ k → 0 ≤ buf - usr_base w1 → buf - usr_base w1 + n + k ≤ len (usr w1) →
  accepted size buf n w1 w2 → accepted size (buf + n) k w2 w3 → accepted size buf (n + k) w1 w3.
Proof.
  intros Hn Hk Hb Hle (Hu1 & Hg1 & _ & tr1 & Ht1 & Ho1 & Hf1)
    (Hu2 & Hg2 & Hwf & tr2 & Ht2 & Ho2 & Hf2).
  split_and!; [congruence|congruence|done|].
  exists (tr2 ++ tr1). split_and!; [by rewrite Ht2, Ht1, app_assoc | by apply Forall_app |].
  injection Hg1 as _ _ _ Hb1 _ _. rewrite Hb1, Hu1 in Hf2.
  rewrite consumed_app, <-app_assoc, Hf2, app_assoc, Hf1, <-app_assoc. f_equal.
  replace (buf + n - usr_base w1) with (buf - usr_base w1 + n) by lia.
  symmetry. apply peek_app; lia.
Qed.

Lemma accepted_quiet buf n w1 w2 w3 :
  0 ≤ n → 0 ≤ buf - usr_base w1 → buf - usr_base w1 + n ≤ len (usr w1) →
  accepted size buf n w1 w2 → quiet size w2 w3 → accepted size buf n w1 w3.
Proof.
  intros Hn Hb Hle Ha Hq. rewrite <-(Z.add_0_r n).
  eapply accepted_trans; [lia | lia | lia | lia | done | by apply accepted_zero].
Qed.

Lemma write_post_accepted buf m n w w' :
  write_post size buf m w n w' →
  0 ≤ n ≤ m ∧ Z.min m (size - 1 - held (sh w)) ≤ n ∧ accepted size buf n w w'.
Proof.
  intros (tr & Hn & Hmin & Hu & Ht & Hf & Ho & Hwf & Hg).
  split_and!; [lia|lia|done|]. split_and!; [done|done|done|]. by exists tr.
Qed.

Section Once.
Context `{!Triple world} (fuel : nat) (g : Z).
Hypothesis wait_ends : ∀ w, ring_wf size (sh w) → live w = true →
  buffer_size (priv w) = size →
  triple (__xen_shm_pipe_wait_writer fuel g) (wait_writer_post size w) w.

(** The wait and the copy, once ACTIVE is set. *)
Lemma triple_write_rest buf m w0 w :
  write_ok buf m w0 → quiet size w0 w →
  triple (let* wait_ret := __xen_shm_pipe_wait_writer fuel g in
    if wait_ret <=? 0 then writer_flags_clear XSHMP_ACTIVE ;; ret wait_ret else
    let* write_ret := __xen_shm_pipe_write_avail buf m in
    writer_flags_clear XSHMP_ACTIVE ;; ret write_ret)
    (λ r w', transfer (λ n, accepted size buf n w0) write_stop m r w') w.
Proof.
  intros [Hrd Hrange] H0. pose proof Hrd as (Hmap & Hwf & _). pose proof Hmap as (Hl & Hbs & _).
  pose proof Hrange as (Hub & Hm & Hlen & H64).
  pose proof (quiet_geom _ _ _ H0) as Hg0. injection Hg0 as _ Hbs0 _ _ _ _.
  apply triple_bind. eapply triple_mono.
  { apply wait_ends; [by eapply quiet_wf | by eapply live_quiet | congruence]. }
  intros r w1 [H1 Hr]. pose proof (quiet_trans _ _ _ _ Hwf H0 H1) as H01.
  apply triple_wp, wp_if; intros Hr0; bool_hyps; apply wp_bind.
  - apply (wp_flags_clear size _ (peer_relies_w size peer_reads) writer_own); [by eapply quiet_wf|].
    intros w2 (H2 & He2 & _ & HP). apply wp_ret. exists 0. split_and!; [|lia|lia|right].
    { apply accepted_zero. by eapply quiet_trans. }
    destruct Hr as [[? ?]|(-> & Hr & Hg)]; [lia|]. split_and!; [done|lia|]. split; [done|]. split; [tauto|].
    destruct Hg as [Hc|Hb]; [left; intros Hfin; by apply (HP reader_closed), Hc | right; intros Hbr; rewrite He2; by apply Hb].
  - assert (ready xen_shm_pipe_mod_write size w1) as (Hmap1 & _).
    { eapply ready_geom; [by eapply quiet_geom | by eapply quiet_wf | done]. }
    pose proof (quiet_geom _ _ _ H01) as Hg. injection Hg as _ _ _ Hub1 _ _.
    eapply wp_mono; [apply (wp_write_avail size peer_reads); [done | by eapply quiet_wf |]|].
    { destruct H01 as [_ Hu]. unfold user_range. by rewrite Hu, Hub1. }
    intros n w2 (Hn & Hmin & Ha)%write_post_accepted.
    assert (accepted size buf n w0 w2) as Ha0.
    { change n with (0 + n). apply (accepted_trans _ _ _ _ w1); [lia | lia | lia | lia | |].
      - by apply accepted_zero.
      - by rewrite Z.add_0_r. }
    apply wp_bind, (wp_flags_clear size _ (peer_relies_w size peer_reads) writer_own); [apply Ha|].
    intros w3 (H3 & _). apply wp_ret.
    exists n. split_and!; [|lia|lia|left; split; [done|]].
    { eapply accepted_quiet; [lia | lia | lia | done | done]. }
    destruct Hr as [[_ Hh]|[? _]]; lia.
Qed.

Lemma triple_write buf m w :
  write_ok buf m w →
  triple (xen_shm_pipe_write fuel g buf m)
    (λ r w', transfer (λ n, accepted size buf n w) write_stop m r w') w.
Proof.
  intros Hok. pose proof Hok as ((Hmap & Hwf & Hmod & Hsh) & Hrange). pose proof Hmap as (Hl & _).
  pose proof Hrange as (_ & Hm & _).
  apply triple_bind, triple_wp, (wp_put_priv size); [done..|]. intros w1 H1.
  pose proof (quiet_geom _ _ _ H1) as Hg. injection Hg as Hs1 _ _ _ _ Hp1.
  apply triple_bind, triple_wp, wp_get_priv; [by eapply live_quiet|].
  rewrite bool_decide_eq_false_2 by (rewrite Hp1, Hmod; done).
  rewrite (proj2 (Z.eqb_neq _ _)) by congruence.
  apply triple_bind, triple_wp, wp_load_now.
  pose proof (drifts_interfere size set_writer_flags (peer_relies_w size peer_reads) w1
    (quiet_wf _ _ _ H1)) as (H2 & _).
  destruct (has (writer_flags (sh (peer_ran w1))) XSHMP_CLOSED) eqn:Hc.
  { apply triple_wp, wp_bind, (wp_set_errno size); [by eapply quiet_wf|].
    intros w3 H3 He. apply wp_ret. exists 0. split_and!; [|lia|lia|right].
    - apply accepted_zero. eapply quiet_trans; [done | done |]. eapply quiet_trans; [by eapply quiet_wf | done | done].
    - split_and!; [done | lia |]. split; [done|]. split; [|by right]. intros (_ & _ & Ho).
      specialize (Ho (clock w1) (sh w1)). simpl in Hc. by rewrite Ho in Hc. }
  apply triple_bind, triple_wp.
  pose proof (quiet_trans _ _ _ _ Hwf H1 H2) as H02.
  apply (wp_flags_or size _ (peer_relies_w size peer_reads) writer_own); [by eapply quiet_wf|].
  intros w3 (H3 & _). apply triple_write_rest; [done | by eapply quiet_trans].
Qed.

Lemma triple_write_all buf m w :
  write_ok buf m w →
  triple (xen_shm_pipe_write_all fuel g buf m)
    (λ r w', transfer_all (λ n, accepted size buf n w) write_stop m r w') w.
Proof.
  intros Hok. pose proof Hok as [_ (_ & Hm & _)].
  apply (triple_all _ (λ b n, accepted size b n) write_ok write_stop); [..|done|done].
  - intros b k w1 [(_ & Hwf & _) (Hb & _)]. by apply accepted_zero, quiet_refl.
  - intros b n k w1 w2 w3 Hn Hk [_ (Hb & _ & Hle & _)] H1 H2.
    eapply accepted_trans; [lia | lia | lia | lia | done | done].
  - intros b k n w1 w2 Hn [Hr Hrg] Ha.
    pose proof Ha as (Hu & Hg & Hwf & _). split; [by eapply ready_geom|].
    eapply user_range_next; [by rewrite Hu | done | done | lia].
  - intros b k n w1 Hn [Hr (? & ? & ? & ?)]. split; [done|]. split_and!; lia.
  - intros. by apply triple_write.
Qed.
End Once.
End WriterStream.
