(* ===== verification/PipeTrace.v ===== *)
(** What the trace of a run says of the other end: its entries are steps the
    other end made, so whatever holds of those steps holds of the trace. *)
From S2P Require Import Prelude Abi Ring PipeDefs PipeCopy PipeFifo PipeSide PipeWait PipeApi.

Definition peer_steps (R : pipe_shared → pipe_shared → Prop) (tr : steps) : Prop :=
  Forall (λ '(a, s, s'), a = Peer → R s s') tr.

Create HintDb traced.

Section Traced.
Context `{!PipeEnv} (R : pipe_shared → pipe_shared → Prop).
Hypothesis peer_R : ∀ t s, R s (peer t s).

(** [m] adds to the trace only steps of the other end that satisfy [R], and
    steps of its own. *)
Definition traced {A} (m : M world A) : Prop :=
  ∀ w a w', m w = Done a w' → ∃ tr, trace w' = tr ++ trace w ∧ peer_steps R tr.

Lemma traced_local {A} (m : M world A) :
  (∀ w a w', m w = Done a w' → trace w' = trace w) → traced m.
Proof. intros Hm w a w' E. exists []. rewrite (Hm _ _ _ E). by split; [|constructor]. Qed.

Lemma traced_ret {A} (a : A) : traced (ret a).
Proof. apply traced_local. by intros w ? ? [= <- <-]. Qed.

Lemma traced_bind {A B} (m : M world A) (k : A → M world B) :
  traced m → (∀ a, traced (k a)) → traced (bind m k).
Proof.
  intros Hm Hk w b w'. unfold bind. destruct (m w) as [a w1| |] eqn:E; [|done|done]. intros E'.
  destruct (Hm _ _ _ E) as (tr1 & Ht1 & H1). destruct (Hk _ _ _ _ E') as (tr2 & Ht2 & H2).
  exists (tr2 ++ tr1). rewrite Ht2, Ht1, app_assoc. split; [done | by apply Forall_app].
Qed.

Lemma traced_if {A} (b : bool) (m1 m2 : M world A) :
  traced m1 → traced m2 → traced (if b then m1 else m2).
Proof. by destruct b. Qed.

Lemma traced_when b (m : M world unit) : traced m → traced (when b m).
Proof. intros. apply traced_if; [done | apply traced_ret]. Qed.

Lemma traced_while {X} fuel c (body : X → M world X) x :
  (∀ x, traced (body x)) → traced (while fuel c body x).
Proof.
  intros Hb. revert x. induction fuel as [|n IH]; intros x; [done|]. simpl.
  apply traced_if; [by apply traced_bind | apply traced_ret].
Qed.

Lemma traced_loop {X Y} fuel (body : X → M world (flow X Y)) x :
  (∀ x, traced (body x)) → traced (loop fuel body x).
Proof.
  intros Hb. revert x. induction fuel as [|n IH]; intros x; [done|]. simpl.
  apply traced_bind; [done|]. intros []; [done | apply traced_ret..].
Qed.

Lemma traced_interfere : traced interfere.
Proof.
  intros w ? ? [= <- <-]. exists [(Peer, sh w, peer (clock w) (sh w))].
  split; [done|]. constructor; [intros _; apply peer_R | constructor].
Qed.

(** After the other end has run, an access logs at most a step of this end. *)
Lemma traced_access {A} (k : M world A) :
  (∀ w a w', k w = Done a w' → trace w' = trace w ∨ ∃ s s', trace w' = (Self, s, s') :: trace w) →
  traced (interfere ;; k).
Proof.
  intros Hk. apply traced_bind; [apply traced_interfere|]. intros _ w a w' E.
  destruct (Hk _ _ _ E) as [->|(s & s' & ->)].
  - exists []. by split; [|constructor].
  - exists [(Self, s, s')]. split; [done|]. by constructor; [|constructor].
Qed.

Lemma traced_load {A} (f : pipe_shared → A) : traced (load f).
Proof. apply traced_access. intros w ? ? [= <- <-]. by left. Qed.
Lemma traced_store f : traced (store f).
Proof. apply traced_access. intros w ? ? [= <- <-]. right. simpl. eauto. Qed.
Lemma traced_load_shared k a : traced (load_shared k a).
Proof. apply traced_access. intros w ? ?. repeat case_match; intros [= <- <-]. by left. Qed.
Lemma traced_store_shared k a v : traced (store_shared k a v).
Proof. apply traced_access. intros w ? ?. repeat case_match; intros [= <- <-]. right. simpl. eauto. Qed.
Lemma traced_sys c : traced (sys c).
Proof. apply traced_access. intros w ? ? [= <- <-]. left. by case_match. Qed.
Lemma traced_load_user k a : traced (load_user k a).
Proof. apply traced_local. intros w ? ?. unfold load_user. by repeat case_match; intros [= <- <-]. Qed.
Lemma traced_store_user k a v : traced (store_user k a v).
Proof. apply traced_local. intros w ? ?. unfold store_user. by repeat case_match; intros [= <- <-]. Qed.
Lemma traced_get_priv : traced get_priv.
Proof. apply traced_local. intros w ? ?. unfold get_priv. by case_match; intros [= <- <-]. Qed.
Lemma traced_put_priv f : traced (put_priv f).
Proof. apply traced_local. intros w ? ?. unfold put_priv. by case_match; intros [= <- <-]. Qed.
Lemma traced_set_errno e : traced (set_errno e).
Proof. apply traced_local. by intros w ? ? [= <- <-]. Qed.
Lemma traced_get_errno : traced get_errno.
Proof. apply traced_local. by intros w ? ? [= <- <-]. Qed.
End Traced.

#[export] Hint Resolve traced_ret traced_if traced_when traced_while traced_loop traced_load
  traced_store traced_load_shared traced_store_shared traced_sys traced_load_user
  traced_store_user traced_get_priv traced_put_priv traced_set_errno traced_get_errno : traced.
#[export] Hint Extern 2 (traced _ (bind _ _)) => apply traced_bind; [|intros ?] : traced.
#[export] Hint Extern 3 (traced _ (match ?x with _ => _ end)) => destruct x : traced.

(** ** The operations *)

Section Operations.
Context `{!PipeEnv} (R : pipe_shared → pipe_shared → Prop).
Hypothesis peer_R : ∀ t s, R s (peer t s).

Lemma traced_bump f : traced R (bump f).
Proof. apply traced_put_priv. Qed.
Lemma traced_send_signal : traced R __xen_shm_pipe_send_signal.
Proof. unfold __xen_shm_pipe_send_signal, bump. auto 10 with traced. Qed.
Lemma traced_wait_signal : traced R __xen_shm_pipe_wait_signal.
Proof. unfold __xen_shm_pipe_wait_signal, bump. auto 10 with traced. Qed.
Lemma traced_prone g : traced R (__xen_shm_pipe_prone_for_epipe g).
Proof. unfold __xen_shm_pipe_prone_for_epipe, bump. auto 10 with traced. Qed.
Lemma traced_flags_or f set m : traced R (flags_or f set m).
Proof. unfold flags_or. auto with traced. Qed.
Lemma traced_flags_clear f set m : traced R (flags_clear f set m).
Proof. unfold flags_clear. auto with traced. Qed.
#[local] Hint Resolve traced_bump traced_send_signal traced_wait_signal traced_prone
  traced_flags_or traced_flags_clear : traced.

Lemma traced_wait_reader fuel g : traced R (__xen_shm_pipe_wait_reader fuel g).
Proof.
  unfold __xen_shm_pipe_wait_reader, wait_reader_body, check_broken, react, reader_sleep,
    reader_flags_or, reader_flags_clear, writer_flags_clear.
  auto 60 with traced.
Qed.
Lemma traced_wait_writer fuel g : traced R (__xen_shm_pipe_wait_writer fuel g).
Proof.
  unfold __xen_shm_pipe_wait_writer, wait_writer_body, check_broken, react, writer_sleep,
    writer_flags_or, writer_flags_clear.
  auto 60 with traced.
Qed.

Lemma traced_copy_in k x : traced R (copy_in k x).
Proof. unfold copy_in. auto with traced. Qed.
Lemma traced_copy_out k x : traced R (copy_out k x).
Proof. unfold copy_out. auto with traced. Qed.
Lemma traced_copy_run copy fuel al gc m cur pos :
  (∀ k x, traced R (copy k x)) → traced R (copy_run copy fuel al gc m cur pos).
Proof. intros. unfold copy_run. auto 20 with traced. Qed.
#[local] Hint Resolve traced_wait_reader traced_wait_writer traced_copy_in traced_copy_out
  traced_copy_run : traced.

Lemma traced_read_avail buf n : traced R (__xen_shm_pipe_read_avail buf n).
Proof.
  unfold __xen_shm_pipe_read_avail, first_gran, wake_other, read_avail_body, gran_step.
  auto 40 with traced.
Qed.
Lemma traced_write_avail buf n : traced R (__xen_shm_pipe_write_avail buf n).
Proof.
  unfold __xen_shm_pipe_write_avail, first_gran, wake_other, write_avail_body, gran_step,
    load_read_reduced.
  auto 40 with traced.
Qed.
#[local] Hint Resolve traced_read_avail traced_write_avail : traced.

Lemma traced_read fuel g buf n : traced R (xen_shm_pipe_read fuel g buf n).
Proof.
  unfold xen_shm_pipe_read, reader_flags_or, reader_flags_clear, error. auto 30 with traced.
Qed.
Lemma traced_write fuel g buf n : traced R (xen_shm_pipe_write fuel g buf n).
Proof.
  unfold xen_shm_pipe_write, writer_flags_or, writer_flags_clear, error. auto 30 with traced.
Qed.
#[local] Hint Resolve traced_read traced_write : traced.

Lemma traced_read_all fuel g buf n : traced R (xen_shm_pipe_read_all fuel g buf n).
Proof. unfold xen_shm_pipe_read_all, all, all_body. auto 20 with traced. Qed.
Lemma traced_write_all fuel g buf n : traced R (xen_shm_pipe_write_all fuel g buf n).
Proof. unfold xen_shm_pipe_write_all, all, all_body. auto 20 with traced. Qed.
End Operations.

(** ** What an idle other end consumes and appends *)

Lemma consumed_idle tr : peer_steps (λ s s', content s' = content s) tr → consumed tr = [].
Proof.
  induction 1 as [|[[[] s] s'] tr H _ IH]; simpl; [done | done |].
  by rewrite IH, H, Nat.sub_diag.
Qed.

Lemma appended_idle tr : peer_steps (λ s s', content s' = content s) tr → appended tr = [].
Proof.
  induction 1 as [|[[[] s] s'] tr H _ IH]; simpl; [done | done |].
  by rewrite IH, H, drop_all.
Qed.

