(* ===== verification/PipeLife.v ===== *)
(** The life of a pipe: what creating, offering, connecting, closing and freeing
    it establish, and the calls made in the wrong state. *)
From S2P Require Import Prelude Abi Ring PipeDefs PipeCopy PipeFifo PipeSide PipeRead PipeWrite PipeWait PipeApi PipeStream.

(** ** Worlds that differ in flags only *)

(** The shared indices and bytes, the private structure and the caller's memory
    are the same. *)
Definition alike (w w' : world) : Prop :=
  same_ring (sh w) (sh w') ∧ priv w' = priv w ∧ live w' = live w ∧
  usr w' = usr w ∧ usr_base w' = usr_base w.

Lemma alike_refl w : alike w w.
Proof. done. Qed.

Lemma same_ring_trans s1 s2 s3 : same_ring s1 s2 → same_ring s2 s3 → same_ring s1 s3.
Proof. intros (?&?&?) (?&?&?). split_and!; congruence. Qed.

Lemma alike_trans w1 w2 w3 : alike w1 w2 → alike w2 w3 → alike w1 w3.
Proof.
  intros (Hr1&?&?&?&?) (Hr2&?&?&?&?). split_and!; try congruence.
  by apply (same_ring_trans _ (sh w2)).
Qed.

Section Calm.
Context `{!PipeEnv}.
Hypothesis peer_calm : ∀ t s, same_ring s (peer t s).

Lemma alike_peer w : alike w (peer_ran w).
Proof. split_and!; [apply peer_calm | done..]. Qed.

Lemma wp_load_calm {A} (f : pipe_shared → A) Q w :
  (∀ w', alike w w' → Q (f (sh w')) w') → wp (load f) Q w.
Proof. intros HQ. apply wp_load_now, HQ, alike_peer. Qed.

Lemma wp_store_calm f Q w :
  (∀ w', alike w w' → Q tt (with_sh Self (f (sh w')) w')) → wp (store f) Q w.
Proof. intros HQ. exact (HQ _ (alike_peer w)). Qed.

Lemma wp_sys_calm c Q w :
  (∀ t w', alike w w' → (ans_ret (answer t c) < 0 → errno w' = ans_errno (answer t c)) →
     Q (answer t c) w') → wp (sys c) Q w.
Proof.
  intros HQ. set (w1 := peer_ran w). apply (HQ (clock w1)).
  - apply (alike_trans _ w1); [apply alike_peer|]. by case_match.
  - intros Hlt. apply Z.ltb_lt in Hlt. subst w1. simpl in *. by rewrite Hlt.
Qed.

(** Storing to a flag word. *)
Lemma set_flags_same fw v s : same_ring s (set_flags_of fw v s).
Proof. by destruct fw. Qed.

Lemma flags_set fw v s : flags_of fw (set_flags_of fw v s) = v.
Proof. by destruct fw. Qed.

Lemma wp_flags_or_calm fw m Q w :
  (∀ w', alike w w' → (∃ f, flags_of fw (sh w') = set_bits f m) → Q tt w') →
  wp (flags_or_of fw m) Q w.
Proof.
  intros HQ. apply wp_bind, wp_load_calm. intros w1 H1. apply wp_store_calm. intros w2 H2.
  apply HQ; [|eexists; apply flags_set].
  eapply alike_trans; [done|]. eapply alike_trans; [done|].
  split_and!; [apply set_flags_same | done..].
Qed.
End Calm.

Lemma has_set_bits f m : m ≠ 0 → has (set_bits f m) m = true.
Proof.
  intros Hm. unfold has, set_bits. rewrite Z.land_lor_distr_l, Z.land_diag.
  apply negb_true_iff, Z.eqb_neq. intros H%Z.lor_eq_0_iff. tauto.
Qed.

(** ** Sizes *)

Lemma pipe_buffer_size_range pc :
  1 ≤ pc < 256 →
  let bs := pipe_buffer_size pc in
  bs = 4096 * pc - 16 ∧ bs mod 8 = 0 ∧ 1 < bs ≤ 2 ^ 32 ∧ pipe_check_interval bs = bs / 4 ∧ 0 < bs / 4.
Proof.
  intros Hpc. unfold pipe_buffer_size, pipe_check_interval, XEN_SHM_PIPE_PAGE_SIZE, sizeof_shared,
    XEN_SHM_PIPE_WAIT_CHECK_PER_ROUND, u64, signed, wrap. simpl.
  rewrite !(Z.mod_small _ (2 ^ 64)) by lia. case_decide; [|lia].
  rewrite Z.quot_div_nonneg by lia. split_and!; zmod.
Qed.

(** ** Offering and connecting *)

Section Open.
Context `{!PipeEnv}.
Hypothesis peer_calm : ∀ t s, same_ring s (peer t s).
Variables (pc : Z) (map_addr : Z).
Hypothesis pc_range : 1 ≤ pc < 256.
Hypothesis mmap_maps : ∀ t n f, ans_ret (answer t (SysMmap n f)) = map_addr.
Hypothesis map_addr_pos : 0 < map_addr.

(** The private structure once the area is mapped. *)
Definition opened (p : pipe_priv) : pipe_priv :=
  set_sizes (pipe_buffer_size pc) (pipe_check_interval (pipe_buffer_size pc)) (set_shared map_addr p).

Lemma wp_put_priv_live f Q w :
  live w = true → Q tt (with_priv (f (priv w)) w) → wp (put_priv f) Q w.
Proof. unfold wp, put_priv. by intros ->. Qed.

Lemma wp_map Q w :
  live w = true → (∀ w', alike (with_priv (set_shared map_addr (priv w)) w) w' → Q 0 w') →
  wp (__xen_shm_pipe_map_shared_memory pc) Q w.
Proof.
  intros Hl HQ. apply wp_bind, wp_get_priv; [done|].
  apply wp_bind, wp_sys_calm; [done|]. intros t w1 (Hr & Hp & Hl1 & Hu & Hub) _.
  rewrite mmap_maps. unfold MAP_FAILED. rewrite (proj2 (Z.eqb_neq map_addr (-1))) by lia.
  apply wp_bind, wp_put_priv_live; [congruence|]. apply wp_ret, HQ.
  split_and!; [done | simpl; congruence | done..].
Qed.

Lemma opened_ready m w0 w :
  priv w = opened (priv w0) → pmod (priv w0) = m → live w = true →
  ring_wf (pipe_buffer_size pc) (sh w) → ready m (pipe_buffer_size pc) w.
Proof.
  intros Hp Hm Hl Hwf. destruct (pipe_buffer_size_range pc pc_range) as (Hbs & H8 & Hr & Hi & Hi0).
  unfold ready, mapped. rewrite Hp. simpl. rewrite Hi. split_and!; try done; lia.
Qed.

Lemma wp_set_pipe_sizes Q w :
  live w = true → Q tt (with_priv (set_sizes (pipe_buffer_size pc)
    (pipe_check_interval (pipe_buffer_size pc)) (priv w)) w) → wp (set_pipe_sizes pc) Q w.
Proof. apply wp_put_priv_live. Qed.

Definition is_offerer (w : world) : bool := __xen_shm_pipe_is_offerer (priv w).
(** This end's flag word. *)
Definition own_flags (w : world) : Z := flags_of (__xen_shm_pipe_get_flags (priv w) true) (sh w).

Lemma get_flags_opened p my : __xen_shm_pipe_get_flags (opened p) my = __xen_shm_pipe_get_flags p my.
Proof. done. Qed.

(** The module accepts the offer: the pipe is ready, empty, and open on this end. *)
Lemma wp_offers dom w :
  live w = true → is_offerer w = true →
  len (buffer (sh w)) = pipe_buffer_size pc →
  (∀ t, ans_ret (answer t (SysInitOfferer (fd (priv w)) pc (u16 dom))) = 0) →
  wp (xen_shm_pipe_offers pc dom) (λ r w', r.1 = 0 ∧ is_Some r.2 ∧
    ready (pmod (priv w)) (pipe_buffer_size pc) w' ∧ content (sh w') = [] ∧
    has (own_flags w') XSHMP_OPENED = true) w.
Proof.
  intros Hl Hoff Hlen Hans. apply wp_bind, wp_get_priv; [done|]. unfold is_offerer in Hoff.
  rewrite Hoff. apply wp_bind, wp_sys_calm; [done|]. intros t w1 H1 _. rewrite Hans. simpl.
  pose proof H1 as (Hr1 & Hp1 & Hl1 & Hu1 & Hub1).
  apply wp_bind, wp_map; [congruence|]. intros w2 (Hr2 & Hp2 & Hl2 & Hu2 & Hub2). simpl in *.
  apply wp_bind, wp_set_pipe_sizes; [congruence|].
  apply wp_bind, wp_store_calm; [done|]. intros w3 (Hr3 & Hp3 & Hl3 & _).
  apply wp_bind, wp_store_calm; [done|]. intros w4 (Hr4 & Hp4 & Hl4 & _).
  apply wp_bind, wp_store_calm; [done|]. intros w5 (Hr5 & Hp5 & Hl5 & _).
  apply wp_bind, wp_store_calm; [done|]. intros w6 (Hr6 & Hp6 & Hl6 & _).
  apply wp_bind, wp_flags_or_calm; [done|]. intros w7 (Hr7 & Hp7 & Hl7 & _) [f Hf].
  apply wp_ret. simpl in *.
  destruct Hr1 as (? & ? & ?), Hr2 as (? & ? & ?), Hr3 as (? & ? & ?), Hr4 as (? & ? & ?),
    Hr5 as (? & ? & ?), Hr6 as (? & ? & ?), Hr7 as (? & ? & ?). simpl in *. rewrite Hp6, Hp5, Hp4, Hp3, Hp2, Hp1 in Hp7.
  destruct (pipe_buffer_size_range pc pc_range) as (Hbs & _ & Hrg & _).
  assert (ring_wf (pipe_buffer_size pc) (sh w7)) as Hwf.
  { split_and!; try congruence; lia. }
  split_and!; [done | by eexists | | |].
  - apply (opened_ready _ w); [done | done | congruence | done].
  - apply content_nil, held_zero with (pipe_buffer_size pc); [done | congruence].
  - unfold own_flags. rewrite Hp7. change (__xen_shm_pipe_get_flags (set_sizes _ _ _) true)
      with (__xen_shm_pipe_get_flags (priv w) true). rewrite Hf. by apply has_set_bits.
Qed.

(** The module accepts the connection: the pipe is ready and open on this end,
    and the shared area is as the offerer left it. *)
Lemma wp_connect dom grant w :
  live w = true → is_offerer w = false →
  ring_wf (pipe_buffer_size pc) (sh w) →
  (∀ t, ans_ret (answer t (SysInitReceiver (fd (priv w)) pc (u16 dom) grant)) = 0) →
  wp (xen_shm_pipe_connect pc dom grant) (λ r w', r = 0 ∧
    ready (pmod (priv w)) (pipe_buffer_size pc) w' ∧ same_ring (sh w) (sh w') ∧
    has (own_flags w') XSHMP_OPENED = true) w.
Proof.
  intros Hl Hoff Hwf Hans. apply wp_bind, wp_get_priv; [done|]. unfold is_offerer in Hoff.
  rewrite Hoff. apply wp_bind, wp_sys_calm; [done|]. intros t w1 H1 _. rewrite Hans. simpl.
  pose proof H1 as (Hr1 & Hp1 & Hl1 & Hu1 & Hub1).
  apply wp_bind, wp_map; [congruence|]. intros w2 (Hr2 & Hp2 & Hl2 & Hu2 & Hub2). simpl in *.
  apply wp_bind, wp_set_pipe_sizes; [congruence|].
  apply wp_bind, wp_flags_or_calm; [done|]. intros w3 (Hr3 & Hp3 & Hl3 & _) [f Hf]. simpl in *.
  apply wp_ret. rewrite Hp2, Hp1 in Hp3.
  assert (same_ring (sh w) (sh w3)) as Hs by eauto using same_ring_trans.
  split_and!; [done | | done |].
  - apply (opened_ready _ w); [done | done | congruence | by eapply same_ring_wf].
  - unfold own_flags. rewrite Hp3. change (__xen_shm_pipe_get_flags (set_sizes _ _ _) true)
      with (__xen_shm_pipe_get_flags (priv w) true). rewrite Hf. by apply has_set_bits.
Qed.
End Open.

(** ** Closing *)

Section Close.
Context `{!PipeEnv}.

(** Nobody else clears this flag word's CLOSED. *)
Definition keeps_closed (fw : flag_word) : Prop :=
  stable (λ s, has (flags_of fw s) XSHMP_CLOSED = true).

(** What [xen_shm_pipe_free] asks of the system: unmapping, closing, freeing. *)
Definition free_calls (p : pipe_priv) : list syscall :=
  SysFree :: SysClose (fd p) ::
  (if shared p =? 0 then [] else [SysMunmap (shared p) (u64 (buffer_size p + sizeof_shared))]).

(** A pipe whose operations all access freed memory. *)
Definition unusable (w : world) : Prop :=
  (∀ fuel g buf n,
     xen_shm_pipe_read fuel g buf n w = Fault UseAfterFree ∧ xen_shm_pipe_write fuel g buf n w = Fault UseAfterFree ∧
     (n ≠ 0 → xen_shm_pipe_read_all fuel g buf n w = Fault UseAfterFree ∧
              xen_shm_pipe_write_all fuel g buf n w = Fault UseAfterFree)) ∧
  (∀ n d g, xen_shm_pipe_offers n d w = Fault UseAfterFree ∧ xen_shm_pipe_connect n d g w = Fault UseAfterFree ∧
            xen_shm_pipe_wait g n w = Fault UseAfterFree) ∧
  xen_shm_pipe_getdomid w = Fault UseAfterFree ∧ xen_shm_pipe_get_stats w = Fault UseAfterFree ∧
  xen_shm_pipe_flush w = Fault UseAfterFree ∧ xen_shm_pipe_free w = Fault UseAfterFree.

Lemma wp_free w :
  live w = true →
  wp xen_shm_pipe_free (λ _ w', live w' = false ∧
    (calls w').*2 = free_calls (priv w) ++ (calls w).*2 ∧
    (shared (priv w) ≠ 0 → keeps_closed (__xen_shm_pipe_get_flags (priv w) true) →
     has (flags_of (__xen_shm_pipe_get_flags (priv w) true) (sh w')) XSHMP_CLOSED = true)) w.
Proof.
  intros Hl. set (fw := __xen_shm_pipe_get_flags (priv w) true).
  set (P w' := shared (priv w) ≠ 0 → keeps_closed fw → has (flags_of fw (sh w')) XSHMP_CLOSED = true).
  assert (∀ c Q w1, P w1 → (∀ a w2, P w2 → (calls w2).*2 = c :: (calls w1).*2 → Q a w2) → wp (sys c) Q w1) as Hsys.
  { intros c Q w1 H1 HQ. apply HQ; [|by case_match]. intros Hs Hk. case_match; simpl; by apply Hk, H1. }
  apply wp_bind, wp_get_priv; [done|]. apply wp_bind.
  apply wp_mono with (λ (_ : unit) w1, P w1 ∧ (calls w1).*2 =
    (if shared (priv w) =? 0 then [] else [SysMunmap (shared (priv w)) (u64 (buffer_size (priv w) + sizeof_shared))]) ++ (calls w).*2).
  { destruct (Z.eqb_spec (shared (priv w)) 0) as [E|E]; [by apply wp_ret; split; [intros ?|]|]. simpl when.
    apply wp_bind. unfold flags_or_of, fw. apply wp_mono with (λ (_ : unit) w1, P w1 ∧ (calls w1).*2 = (calls w).*2).
    { split; [|done]. intros _ _. simpl. rewrite flags_set. by apply has_set_bits. }
    intros _ w1 [H1 Hc]. apply wp_bind, Hsys; [done|]. intros a w2 H2 Hc2. apply wp_ret. by rewrite Hc2, Hc. }
  intros _ w1 [H1 Hc1]. apply wp_bind, Hsys; [done|]. intros a2 w2 H2 Hc2.
  apply wp_bind, Hsys; [done|]. intros a3 w3 H3 Hc3. apply wp_modify. split_and!; [done | | done].
  simpl. by rewrite Hc3, Hc2, Hc1.
Qed.

(** Every operation on a freed pipe is an access to freed memory. *)
Lemma freed_faults w : live w = false → unusable w.
Proof.
  intros Hl.
  assert (∀ fuel g buf n, xen_shm_pipe_read fuel g buf n w = Fault UseAfterFree ∧
            xen_shm_pipe_write fuel g buf n w = Fault UseAfterFree) as Hrw.
  { intros. unfold xen_shm_pipe_read, xen_shm_pipe_write, bump, put_priv, bind. by rewrite Hl. }
  assert (∀ once buf n, n ≠ 0 → once buf n w = Fault UseAfterFree → all once buf n w = Fault UseAfterFree) as Hall.
  { intros once buf n Hn Ho. unfold all. simpl loop. unfold all_body at 1. rewrite (proj2 (Z.eqb_neq _ _) Hn).
    unfold bind at 1 2 3. by rewrite Ho. }
  split_and!.
  - intros fuel g buf n. destruct (Hrw fuel g buf n). split_and!; [done..|]. intros Hn. split; by apply Hall.
  - intros n d g. unfold xen_shm_pipe_offers, xen_shm_pipe_connect, xen_shm_pipe_wait, get_priv, bind. by rewrite Hl.
  - unfold xen_shm_pipe_getdomid, get_priv, bind. by rewrite Hl.
  - unfold xen_shm_pipe_get_stats, get_priv, bind. by rewrite Hl.
  - unfold xen_shm_pipe_flush, get_priv, bind. by rewrite Hl.
  - unfold xen_shm_pipe_free, get_priv, bind. by rewrite Hl.
Qed.
End Close.

(** ** Calls in the wrong state *)

Section WrongState.
Context `{!PipeEnv} (w : world).
Hypothesis is_live : live w = true.

Definition bumped (f : pipe_stats → pipe_stats) : world :=
  with_priv (set_stats (f (stats (priv w))) (priv w)) w.

(** Reading the write end, or an end with no shared area, answers EMEDIUMTYPE
    with nothing accessed; and the other way round. *)
Lemma read_wrong_state fuel g buf n :
  pmod (priv w) = xen_shm_pipe_mod_write ∨ shared (priv w) = 0 →
  xen_shm_pipe_read fuel g buf n w = Done (-1) (with_errno EMEDIUMTYPE (bumped stat_read)).
Proof.
  unfold xen_shm_pipe_read, bump, put_priv, get_priv, bind. rewrite is_live. simpl. rewrite is_live.
  intros Hor. case_bool_decide as Hb; [done|]. simpl in Hb.
  destruct Hor as [? | Hs]; [congruence |]. unfold with_priv at 1. simpl. by rewrite Hs.
Qed.

Lemma write_wrong_state fuel g buf n :
  pmod (priv w) = xen_shm_pipe_mod_read ∨ shared (priv w) = 0 →
  xen_shm_pipe_write fuel g buf n w = Done (-1) (with_errno EMEDIUMTYPE (bumped stat_write)).
Proof.
  unfold xen_shm_pipe_write, bump, put_priv, get_priv, bind. rewrite is_live. simpl. rewrite is_live.
  intros Hor. case_bool_decide as Hb; [done|]. simpl in Hb.
  destruct Hor as [? | Hs]; [congruence |]. unfold with_priv at 1. simpl. by rewrite Hs.
Qed.

Lemma flush_wrong_state :
  shared (priv w) = 0 → xen_shm_pipe_flush w = Done (-1) (with_errno EMEDIUMTYPE w).
Proof. unfold xen_shm_pipe_flush, get_priv, bind. rewrite is_live. by intros ->. Qed.

Lemma offerer_wrong_side pc dom g ms :
  __xen_shm_pipe_is_offerer (priv w) = false →
  xen_shm_pipe_offers pc dom w = Done (-1, None) (with_errno EMEDIUMTYPE w) ∧
  xen_shm_pipe_wait g ms w = Done (-1) (with_errno EMEDIUMTYPE w).
Proof.
  unfold xen_shm_pipe_offers, xen_shm_pipe_wait, get_priv, bind. rewrite is_live. by intros ->.
Qed.

Lemma receiver_wrong_side pc dom grant :
  __xen_shm_pipe_is_offerer (priv w) = true →
  xen_shm_pipe_connect pc dom grant w = Done (-1) (with_errno EMEDIUMTYPE w) ∧
  xen_shm_pipe_getdomid w = Done (-1, None) (with_errno EMEDIUMTYPE w).
Proof.
  unfold xen_shm_pipe_connect, xen_shm_pipe_getdomid, get_priv, bind. rewrite is_live. by intros ->.
Qed.
End WrongState.

(** ** Waking the other end *)

Section Wake.
Context `{!PipeEnv}.

(** From [T] on, the other end sleeps. *)
Definition asleep_from (T : nat) (fw : flag_word) : Prop :=
  ∀ t s, (T ≤ t)%nat → has (flags_of fw (peer t s)) XSHMP_SLEEPING = true.

(** A signal was the last thing this end did, after every access. *)
Definition signalled (w : world) : Prop := ∃ t f l, calls w = (t, SysSsig f) :: l ∧ clock w = S t.

Lemma send_signal_signals w r w' : __xen_shm_pipe_send_signal w = Done r w' → signalled w'.
Proof.
  intros Hd. do 2 past_bind Hd.
  apply bind_done in Hd as (a & w3 & E & [= <- <-]).
  apply bind_done in E as (? & w4 & _ & [= <- <-]). case_match; by eexists _, _, _.
Qed.

Lemma wake_other_signals T fw w u w' :
  asleep_from T fw → (T < clock w')%nat → wake_other (flags_of fw) w = Done u w' → signalled w'.
Proof.
  intros Hs HT Hd. apply bind_done in Hd as (f & w1 & E & Hd).
  apply bind_done in E as (? & w2 & E & E'). injection E as _ <-. injection E' as <- <-. simpl in Hd.
  destruct (has _ XSHMP_SLEEPING) eqn:Hf.
  - apply bind_done in Hd as (r & w3 & Hd & [= _ <-]). by eapply send_signal_signals.
  - injection Hd as _ <-. simpl in HT. rewrite Hs in Hf by lia. done.
Qed.

(** A copy that completes while the other end sleeps ends with a signal. *)
Lemma read_avail_signals T buf n w r w' :
  asleep_from T WriterFlags → (T < clock w')%nat → __xen_shm_pipe_read_avail buf n w = Done r w' → signalled w'.
Proof.
  intros Hs HT Hd. do 5 past_bind Hd.
  apply bind_done in Hd as (? & ? & Hd & [= _ <-]).
  exact (wake_other_signals T WriterFlags _ _ _ Hs HT Hd).
Qed.

Lemma write_avail_signals T buf n w r w' :
  asleep_from T ReaderFlags → (T < clock w')%nat → __xen_shm_pipe_write_avail buf n w = Done r w' → signalled w'.
Proof.
  intros Hs HT Hd. do 5 past_bind Hd.
  apply bind_done in Hd as (? & ? & Hd & [= _ <-]).
  exact (wake_other_signals T ReaderFlags _ _ _ Hs HT Hd).
Qed.
End Wake.

(** ** End of file *)

Section EndOfFile.
Context `{!PipeEnv} (size : Z).
#[local] Instance eof_side : Side size := reader_side size.
Hypothesis peer_writes : ∀ t s, ring_wf size s → writer_step size s (peer t s).
Hypothesis closing : close_is_final.

(** The writer is closed and everything was read. *)
Definition drained (s : pipe_shared) : Prop := writer_closed s ∧ content s = [].

Lemma drained_stable : stable drained.
Proof. intros t s [Hc Hn]. destruct (closing t s Hc) as [? E]. rewrite <-E in Hn. by split. Qed.

Lemma drained_own v s : drained s → drained (set_reader_flags v s).
Proof. done. Qed.

Lemma drained_indices s : ring_wf size s → drained s → (read s =? write s) = true.
Proof.
  intros Hwf [_ Hn]. apply Z.eqb_eq, (held_zero size); [done|].
  pose proof (length_content s) as Hl. rewrite Hn in Hl. pose proof (held_range _ _ Hwf). simpl in Hl. lia.
Qed.

#[local] Abbreviation drifts := (drifts size set_reader_flags).

Lemma drifts_drained w w' : drifts w w' → drained (sh w) → drained (sh w').
Proof. intros (_ & _ & _ & HP). apply HP; [apply drained_stable | intros; by apply drained_own]. Qed.

(** One round of the wait finds the end of the file. *)
Lemma wp_wait_reader_eof fuel g w :
  ring_wf size (sh w) → drained (sh w) →
  wp (__xen_shm_pipe_wait_reader (S fuel) g) (λ r w', r = 0 ∧ drifts w w') w.
Proof.
  intros Hwf Hd. apply wp_bind, (wp_load_drifts size set_reader_flags (peer_relies size peer_writes)); [done|].
  intros w1 H1. pose proof (quiet_wf _ _ _ (proj1 H1)) as Hwf1.
  pose proof (drifts_drained _ _ H1 Hd) as Hd1.
  apply wp_bind, wp_bind, wp_bind.
  apply (wp_load_drifts size set_reader_flags (peer_relies size peer_writes)); [done|].
  intros w2 H2. pose proof (drifts_trans _ _ _ _ _ Hwf H1 H2) as H02.
  pose proof (quiet_wf _ _ _ (proj1 H2)) as Hwf2. pose proof (drifts_drained _ _ H2 Hd1) as Hd2.
  rewrite <-(reader_quiet_read size _ _ (proj1 H2)), drained_indices by done. simpl.
  apply wp_bind, (wp_load_drifts size set_reader_flags (peer_relies size peer_writes)); [done|].
  intros w3 H3. pose proof (drifts_trans _ _ _ _ _ Hwf H02 H3) as H03.
  pose proof (quiet_wf _ _ _ (proj1 H3)) as Hwf3. pose proof (drifts_drained _ _ H3 Hd2) as Hd3.
  apply wp_bind, (wp_flags_or size _ (peer_relies size peer_writes) reader_own); [done|].
  intros w4 H4. pose proof (drifts_trans _ _ _ _ _ Hwf H03 H4) as H04.
  pose proof (quiet_wf _ _ _ (proj1 H4)) as Hwf4. pose proof (drifts_drained _ _ H4 Hd3) as Hd4.
  apply wp_bind, (wp_load_drifts size set_reader_flags (peer_relies size peer_writes)); [done|].
  intros w5 H5. pose proof (drifts_trans _ _ _ _ _ Hwf H04 H5) as H05.
  pose proof (quiet_wf _ _ _ (proj1 H5)) as Hwf5. pose proof (drifts_drained _ _ H5 Hd4) as Hd5.
  rewrite <-(reader_quiet_read size _ _ (proj1 (drifts_trans _ _ _ _ _ Hwf2 H3
    (drifts_trans _ _ _ _ _ Hwf3 H4 H5)))), drained_indices by done. simpl.
  destruct Hd3 as [Hc _]. unfold writer_closed in Hc. rewrite Hc. apply wp_ret.
  by apply wp_ret.
Qed.

Lemma wp_read_eof fuel g buf n w :
  ready xen_shm_pipe_mod_read size w → drained (sh w) →
  wp (xen_shm_pipe_read (S fuel) g buf n) (λ r w', r = 0 ∧ usr w' = usr w ∧ drained (sh w')) w.
Proof.
  intros ((Hl & _) & Hwf & Hmod & Hsh) Hd.
  apply wp_bind, wp_put_priv_live; [done|]. apply wp_bind, wp_get_priv; [done|].
  set (w1 := with_priv _ w). assert (ring_wf size (sh w1)) as Hwf1 by exact Hwf. rewrite bool_decide_eq_false_2 by (subst w1; simpl; by rewrite Hmod).
  rewrite (proj2 (Z.eqb_neq _ _)) by done.
  apply wp_bind, (wp_load_drifts size set_reader_flags (peer_relies size peer_writes)); [done|].
  intros w2 H2. pose proof (quiet_wf _ _ _ (proj1 H2)) as Hwf2. pose proof (drifts_drained _ _ H2 Hd) as Hd2.
  apply wp_if; intros _; [apply wp_ret; split_and!; [done | by destruct H2 as [[_ ?] _] | done]|].
  apply wp_bind, (wp_flags_or size _ (peer_relies size peer_writes) reader_own); [done|].
  intros w3 H3. pose proof (drifts_trans _ _ _ _ _ Hwf1 H2 H3) as H03.
  pose proof (quiet_wf _ _ _ (proj1 H3)) as Hwf3. pose proof (drifts_drained _ _ H3 Hd2) as Hd3.
  apply wp_bind. eapply wp_mono; [by apply wp_wait_reader_eof|].
  intros r w4 [-> H4]. simpl. pose proof (drifts_trans _ _ _ _ _ Hwf1 H03 H4) as H04.
  apply wp_bind, (wp_flags_clear size _ (peer_relies size peer_writes) reader_own); [by eapply quiet_wf, H4|].
  intros w5 H5. pose proof (drifts_trans _ _ _ _ _ Hwf1 H04 H5) as H05. apply wp_ret.
  pose proof (drifts_drained _ _ H05 Hd).
  split_and!; [done | by destruct H05 as [[_ ?] _] | done].
Qed.
End EndOfFile.
