(* ===== verification/PipeTheorems.v ===== *)
(** The properties of the pipe library (xen_shm_pipe.c), with instances that meet
    their hypotheses. *)
From S2P Require Import Prelude Abi Ring PipeDefs PipeCopy PipeFifo PipeSide PipeRead PipeWrite PipeWait PipeApi PipeStream PipeTrace PipeLife.

(** ** Concrete other ends *)

(** The other end and the module do nothing. *)
Definition idle_env : PipeEnv := {| peer := λ _ s, s; answer := λ _ _, SysAnswer 0 0 0 0 |}.

(** A writer that makes one byte available whenever there is none. *)
Definition feed (s : pipe_shared) : pipe_shared :=
  if held s =? 0 then set_write (advance (len (buffer s)) (write s) 1) s else s.
Definition feeding_env : PipeEnv := {| peer := λ _, feed; answer := λ _ _, SysAnswer 0 0 0 0 |}.

(** A reader that takes one byte whenever the queue is full, never closes and
    finds the writer open. *)
Definition drain (s : pipe_shared) : pipe_shared :=
  let s := if held s =? len (buffer s) - 1 then set_read (advance (len (buffer s)) (read s) 1) s else s in
  set_writer_flags XSHMP_OPENED (set_reader_flags XSHMP_OPENED s).
Definition draining_env : PipeEnv := {| peer := λ _, drain; answer := λ _ _, SysAnswer 0 0 0 0 |}.

(** The module reports the memory closed; the writer stays closed. *)
Definition closed_env : PipeEnv := {| peer := λ _ s, s; answer := λ _ _, SysAnswer (-1) EPIPE 0 0 |}.

Lemma writer_step_feed size s : 1 < size → ring_wf size s → writer_step size s (feed s).
Proof.
  intros Hs Hwf. unfold feed. case_match eqn:E; [|by apply writer_step_refl].
  bool_hyps. pose proof Hwf as (Hl & Hr & Hw). rewrite Hl. apply publish_step; [done | lia | lia].
Qed.

Lemma filled_by_feed size T : 1 < size → filled_from (H := feeding_env) size T.
Proof.
  intros Hs t s _ Hwf. simpl. pose proof (held_range _ _ Hwf). pose proof Hwf as (Hl & Hr & Hw).
  unfold feed. case_match eqn:E; bool_hyps; [|lia]. rewrite Hl.
  destruct (publish size s 1) as [Hwf' Hc]; [done | lia | lia |].
  apply (f_equal length) in Hc. rewrite length_app, !length_content, length_slice in Hc.
  apply held_range in Hwf'. lia.
Qed.

Lemma reader_step_drain size s : 1 < size → ring_wf size s → reader_step size s (drain s).
Proof.
  intros Hs Hwf. unfold drain. pose proof Hwf as (Hl & Hr & Hw). rewrite Hl.
  assert (∀ s', reader_step size s s' →
    reader_step size s (set_writer_flags XSHMP_OPENED (set_reader_flags XSHMP_OPENED s'))) as Hfl.
  { intros s' H'. eapply reader_step_trans; [done | exact H' |]. apply reader_step_flags; [apply H' | done]. }
  apply Hfl. case_match eqn:E; [|by apply reader_step_refl].
  bool_hyps. apply pop_step; [done | lia | lia].
Qed.

Lemma room_by_drain size T : 1 < size → room_from (H := draining_env) size T.
Proof.
  intros Hs t s _ Hwf. simpl. pose proof (held_range _ _ Hwf). pose proof Hwf as (Hl & Hr & Hw).
  unfold drain. rewrite Hl. case_match eqn:E; bool_hyps; change (held (set_writer_flags _ (set_reader_flags _ ?x))) with (held x); [|lia].
  destruct (pop size s 1) as [Hwf' Hc]; [done | lia | lia |].
  apply (f_equal length) in Hc. rewrite length_drop, !length_content in Hc.
  apply held_range in Hwf'. lia.
Qed.

(** ** Concrete worlds: a ring of 16 bytes, a caller's buffer of 32. *)

Definition demo_priv (m : xen_shm_pipe_mod) : pipe_priv :=
  PipePriv 3 m xen_shm_pipe_conv_writer_offers 4096 16 4
    (IoctlargAwait XEN_SHM_IOCTL_AWAIT_LATENT_USER 0 0) false (PipeStats 0 0 0 0 0 0).
Definition demo_world (m : xen_shm_pipe_mod) (s : pipe_shared) : world :=
  World s (demo_priv m) true 8192 (seqZ 1 32) 0 0 [] [].
(** Indices at 14 and 3: five bytes across the end of the ring. *)
Definition demo_ring : pipe_shared := PipeShared 1 1 3 14 (seqZ 100 16).
Definition demo_empty : pipe_shared := PipeShared 1 1 14 14 (seqZ 100 16).

Lemma demo_mapped m s : mapped 16 (demo_world m s).
Proof. by split_and!. Qed.
Lemma demo_ready m s : ring_wf 16 s → ready m 16 (demo_world m s).
Proof. intros. split_and!; [apply demo_mapped | done..]. Qed.
Lemma demo_ring_wf : ring_wf 16 demo_ring.
Proof. by split_and!. Qed.
Lemma demo_empty_wf : ring_wf 16 demo_empty.
Proof. by split_and!. Qed.
Lemma demo_range m s : user_range 8195 20 (demo_world m s).
Proof. unfold user_range. simpl. change (len (seqZ 1 32)) with 32. lia. Qed.

(** ** Reading and writing *)

(** C1. [xen_shm_pipe_read_all] delivers a stretch of one stream: whatever the
    writer does meanwhile, the bytes it puts in the caller's buffer followed by
    those left in the queue are those that were queued followed by those the
    writer appended; only this end's legal steps touch the ring; no access is out
    of bounds or misaligned; and it stops before [m] bytes only at end of file or
    on an error. It returns when the writer keeps providing, and when the module
    reports the memory closed. *)
Theorem read_all_streams `{E : PipeEnv} size fuel garbage buf m w :
  (∀ t s, ring_wf size s → writer_step size s (peer t s)) →
  read_ok size buf m w →
  let post := transfer_all (λ n, read_moves size buf n w) read_stop m in
  safe (xen_shm_pipe_read_all fuel garbage buf m) post w ∧
  (∀ T, filled_from size T → (T < fuel)%nat → wp (xen_shm_pipe_read_all fuel garbage buf m) post w) ∧
  (broken → XEN_SHM_PIPE_WAIT_LOOP_LIMIT < Z.of_nat fuel →
     wp (xen_shm_pipe_read_all fuel garbage buf m) post w).
Proof.
  intros Hpeer Hok post. split_and!; [|intros T HT Hf|intros Hb Hf].
  - apply (triple_read_all size Hpeer (Triple0 := partial)); [|done]. intros. by apply safe_wait_reader.
  - apply (triple_read_all size Hpeer (Triple0 := total)); [|done]. intros. by eapply wp_wait_reader_filled.
  - apply (triple_read_all size Hpeer (Triple0 := total)); [|done]. intros. by apply wp_wait_reader_broken.
Qed.

Lemma read_all_streams_witness :
  let w := demo_world xen_shm_pipe_mod_read demo_ring in
  wp (xen_shm_pipe_read_all (H := feeding_env) 1 0 8195 20)
     (transfer_all (λ n, read_moves 16 8195 n w) (read_stop (H := feeding_env)) 20) w.
Proof.
  apply (read_all_streams (E := feeding_env) 16 1 0 8195 20) with (T := 0%nat).
  - intros t s. apply writer_step_feed. lia.
  - split; [apply demo_ready, demo_ring_wf | apply demo_range].
  - by apply filled_by_feed.
  - lia.
Defined.

(** C2. [xen_shm_pipe_write_all] appends a stretch of the caller's buffer: what
    the reader took meanwhile followed by what is queued is what was queued
    followed by the first [n] bytes at [buf]. It returns when the reader keeps
    making room, and when the module reports the memory closed; and when the
    reader makes room, neither end closes and the module answers, it accepts all
    [m] bytes. *)
Theorem write_all_streams `{E : PipeEnv} size fuel garbage buf m w :
  (∀ t s, ring_wf size s → reader_step size s (peer t s)) →
  write_ok size buf m w →
  let post := transfer_all (λ n, accepted size buf n w) write_stop m in
  safe (xen_shm_pipe_write_all fuel garbage buf m) post w ∧
  (broken → XEN_SHM_PIPE_WAIT_LOOP_LIMIT < Z.of_nat fuel →
     wp (xen_shm_pipe_write_all fuel garbage buf m) post w) ∧
  (∀ T, room_from size T → (T < fuel)%nat →
     wp (xen_shm_pipe_write_all fuel garbage buf m) (λ r w', post r w' ∧
       (responsive ∧ reader_stays_open ∧ writer_stays_open → r = m ∧ accepted size buf m w w')) w).
Proof.
  intros Hpeer Hok post. pose proof Hok as [((_ & _ & _ & Hsz & _) & _) _].
  split_and!; [|intros Hb Hf|intros T HT Hf].
  - apply (triple_write_all size Hpeer (Triple0 := partial)); [|done]. intros. by apply safe_wait_writer.
  - apply (triple_write_all size Hpeer (Triple0 := total)); [|done]. intros. by apply wp_wait_writer_broken.
  - eapply wp_mono; [apply (triple_write_all size Hpeer (Triple0 := total)); [|done]|].
    { intros. by eapply wp_wait_writer_room. }
    intros r w' Hr. split; [exact Hr|]. intros Hopen.
    destruct Hr as (n & Ha & _ & [[-> [->|(_ & r0 & _ & _ & Hn)]]|(_ & _ & _ & _ & Hn)]); tauto.
Qed.

Lemma write_all_streams_witness :
  let w := demo_world xen_shm_pipe_mod_write demo_ring in
  wp (xen_shm_pipe_write_all (H := draining_env) 1 0 8195 20) (λ r w',
    transfer_all (λ n, accepted 16 8195 n w) (write_stop (H := draining_env)) 20 r w' ∧
    (responsive (H := draining_env) ∧ reader_stays_open (H := draining_env) ∧
     writer_stays_open (H := draining_env) → r = 20 ∧ accepted 16 8195 20 w w')) w.
Proof.
  apply (write_all_streams (E := draining_env) 16 1 0 8195 20) with (T := 0%nat).
  - intros t s. apply reader_step_drain. lia.
  - split; [apply demo_ready, demo_ring_wf | apply demo_range].
  - by apply room_by_drain.
  - lia.
Defined.

(** C3. [__xen_shm_pipe_read_avail] on a ring in any state: at least the bytes
    queued at the start (up to [nbytes]) are delivered, in order, with byte and
    64-bit copies that stay in bounds and aligned, and the read index is
    published after the bytes were copied. *)
Theorem read_avail_delivers `{E : PipeEnv} size buf nbytes w :
  (∀ t s, ring_wf size s → writer_step size s (peer t s)) →
  mapped size w → ring_wf size (sh w) → user_range buf nbytes w →
  wp (__xen_shm_pipe_read_avail buf nbytes) (read_post size buf nbytes w) w.
Proof. intros. by apply wp_read_avail. Qed.

Lemma read_avail_delivers_witness :
  let w := demo_world xen_shm_pipe_mod_read demo_ring in
  wp (__xen_shm_pipe_read_avail (H := feeding_env) 8195 20) (read_post 16 8195 20 w) w.
Proof.
  apply (read_avail_delivers (E := feeding_env)).
  - intros t s. apply writer_step_feed. lia.
  - apply demo_mapped.
  - apply demo_ring_wf.
  - apply demo_range.
Defined.

(** C4. [__xen_shm_pipe_write_avail] on a ring in any state: at least as many
    bytes as were free at the start (up to [nbytes]) are appended, in order; the
    unread bytes are never overwritten, one slot stays free, and the write index
    is published after the bytes were stored. *)
Theorem write_avail_appends `{E : PipeEnv} size buf nbytes w :
  (∀ t s, ring_wf size s → reader_step size s (peer t s)) →
  mapped size w → ring_wf size (sh w) → user_range buf nbytes w →
  wp (__xen_shm_pipe_write_avail buf nbytes) (write_post size buf nbytes w) w.
Proof. intros. by apply wp_write_avail. Qed.

Lemma write_avail_appends_witness :
  let w := demo_world xen_shm_pipe_mod_write demo_ring in
  wp (__xen_shm_pipe_write_avail (H := draining_env) 8195 20) (write_post 16 8195 20 w) w.
Proof.
  apply (write_avail_appends (E := draining_env)).
  - intros t s. apply reader_step_drain. lia.
  - apply demo_mapped.
  - apply demo_ring_wf.
  - apply demo_range.
Defined.

(** C5. [__xen_shm_pipe_wait_reader] answers 1 only with something to read, 0
    only at end of file, and -1 with EPIPE when the memory is closed; it moves no
    index. It ends at the latest one round after the writer provides, and within
    the limit on rounds between two checks when the memory is closed. *)
Theorem wait_reader_meets `{E : PipeEnv} size fuel garbage w :
  (∀ t s, ring_wf size s → writer_step size s (peer t s)) →
  ring_wf size (sh w) → live w = true →
  let post := wait_reader_post size w in
  safe (__xen_shm_pipe_wait_reader fuel garbage) post w ∧
  (∀ T, filled_from size T → (T < fuel)%nat → wp (__xen_shm_pipe_wait_reader fuel garbage) post w) ∧
  (broken → XEN_SHM_PIPE_WAIT_LOOP_LIMIT < Z.of_nat fuel →
     wp (__xen_shm_pipe_wait_reader fuel garbage) post w).
Proof.
  intros Hpeer Hwf Hl post. split_and!; [by apply safe_wait_reader | |].
  - intros T HT Hf. by eapply wp_wait_reader_filled.
  - intros Hb Hf. by apply wp_wait_reader_broken.
Qed.

Lemma wait_reader_meets_witness :
  let w := demo_world xen_shm_pipe_mod_read demo_empty in
  wp (__xen_shm_pipe_wait_reader (H := closed_env) (Z.to_nat 10001) 0)
    (wait_reader_post (H := closed_env) 16 w) w.
Proof.
  refine (proj2 (proj2 (wait_reader_meets (E := closed_env) 16 (Z.to_nat 10001) 0
    (demo_world xen_shm_pipe_mod_read demo_empty) _ _ _)) _ _).
  - intros t s. apply writer_step_refl.
  - apply demo_empty_wf.
  - done.
  - by intros t fd arg.
  - by rewrite Z2Nat.id.
Defined.

(** C6. [__xen_shm_pipe_wait_writer] answers 1 only with room for a byte, and -1
    only when the reader closed or the module failed; with the same guarantees of
    ending. *)
Theorem wait_writer_meets `{E : PipeEnv} size fuel garbage w :
  (∀ t s, ring_wf size s → reader_step size s (peer t s)) → 1 < size ≤ 2 ^ 32 →
  ring_wf size (sh w) → live w = true → buffer_size (priv w) = size →
  let post := wait_writer_post size w in
  safe (__xen_shm_pipe_wait_writer fuel garbage) post w ∧
  (∀ T, room_from size T → (T < fuel)%nat → wp (__xen_shm_pipe_wait_writer fuel garbage) post w) ∧
  (broken → XEN_SHM_PIPE_WAIT_LOOP_LIMIT < Z.of_nat fuel →
     wp (__xen_shm_pipe_wait_writer fuel garbage) post w).
Proof.
  intros Hpeer Hs Hwf Hl Hbs post. split_and!; [by apply safe_wait_writer | |].
  - intros T HT Hf. by eapply wp_wait_writer_room.
  - intros Hb Hf. by apply wp_wait_writer_broken.
Qed.

(** A full ring: the slot before the read index is the write index. *)
Definition demo_full : pipe_shared := PipeShared 1 1 13 14 (seqZ 100 16).

Lemma wait_writer_meets_witness :
  let w := demo_world xen_shm_pipe_mod_write demo_full in
  wp (__xen_shm_pipe_wait_writer (H := draining_env) 1 0)
    (wait_writer_post (H := draining_env) 16 w) w.
Proof.
  apply (wait_writer_meets (E := draining_env)) with (T := 0%nat).
  - intros t s. apply reader_step_drain. lia.
  - lia.
  - by split_and!.
  - done.
  - done.
  - by apply room_by_drain.
  - lia.
Defined.

(** ** From one end to the other *)

(** Whatever the ends interleave is first in, first out: a write into an empty
    ring, then a read. *)
Lemma wp_write_then_read (E1 E2 : PipeEnv) size m bufw bufr w :
  (∀ t s, same_ring s (peer (PipeEnv := E1) t s)) → (∀ t s, same_ring s (peer (PipeEnv := E2) t s)) →
  mapped size w → ring_wf size (sh w) → user_range bufw m w → content (sh w) = [] → m < size →
  wp (__xen_shm_pipe_write_avail (H := E1) bufw m) (λ n w1, n = m ∧
    ∀ wr, sh wr = sh w1 → mapped size wr → user_range bufr m wr →
      wp (__xen_shm_pipe_read_avail (H := E2) bufr m) (λ n w2, n = m ∧
        peek (usr w2) (bufr - usr_base wr) m = peek (usr w) (bufw - usr_base w) m ∧
        content (sh w2) = []) wr) w.
Proof.
  intros HE1 HE2 Hmap Hwf Hrange Hempty Hm. pose proof Hrange as (Hub & Hm0 & Hle & _).
  assert (held (sh w) = 0) as Hh.
  { pose proof (length_content (sh w)) as Hl. rewrite Hempty in Hl. apply held_range in Hwf. simpl in Hl. lia. }
  eapply wp_mono; [apply wp_and; [apply (wp_write_avail size)|]|].
  - intros t s Hs. by apply reader_step_flags.
  - done.
  - done.
  - done.
  - intros n w1 Hrun. exact (traced_write_avail (H := E1) (λ s s', content s' = content s)
      (λ t s, same_ring_content _ _ (HE1 t s)) bufw m w n w1 Hrun).
  - simpl. intros n w1 [(tr & Hn & Hmin & Hu & Ht & Hf & _ & Hwf1 & _) (tr' & Ht' & Hidle)].
    rewrite Ht in Ht'. apply app_inv_tail in Ht' as <-.
    rewrite (consumed_idle _ Hidle), Hempty in Hf. simpl in Hf. split; [lia|]. assert (n = m) as -> by lia.
    intros wr Hsh Hmapr Hranger. pose proof Hranger as (Hubr & _ & Hler & _).
    rewrite <-Hsh in Hwf1, Hf.
    eapply wp_mono; [apply wp_and; [apply (wp_read_avail size)|]|].
    + intros t s Hs. by apply writer_step_flags.
    + done.
    + done.
    + done.
    + intros n w2 Hrun. exact (traced_read_avail (H := E2) (λ s s', content s' = content s)
        (λ t s, same_ring_content _ _ (HE2 t s)) bufr m wr n w2 Hrun).
    + simpl. intros n w2 [(data & tr2 & Hn2 & Hm2 & Hmin2 & Hu2 & Ht2 & Hf2 & _) (tr2' & Ht2' & Hidle2)].
      rewrite Ht2 in Ht2'. apply app_inv_tail in Ht2' as <-.
      rewrite (appended_idle _ Hidle2), app_nil_r, Hf in Hf2.
      assert (held (sh wr) = m) as Hheld.
      { pose proof (length_content (sh wr)) as Hl. rewrite Hf in Hl.
        pose proof (len_peek (usr w) (bufw - usr_base w) m) as Hlp. unfold len in Hlp, Hle.
        apply held_range in Hwf1. unfold len in *. lia. }
      assert (n = m) as Hnm by lia. pose proof (f_equal len Hf2) as Hlen.
      rewrite len_app, len_peek in Hlen by lia.
      assert (content (sh w2) = []) as Hnil.
      { apply nil_length_inv. unfold len in *. lia. }
      rewrite Hnil, app_nil_r in Hf2. split_and!; [done | | done].
      rewrite Hu2, <-Hf2, <-Hnm, Hn2. apply peek_poke; lia.
Qed.

(** C7. What one end writes is what the other reads: [m] bytes written into an
    empty ring that has room for them and then read by the other end are the
    [m] bytes of the writer's buffer, whatever the alignment of the two buffers
    and the position of the indices; the ring is empty again. *)
Theorem write_read_roundtrip (E1 E2 : PipeEnv) size m bufw bufr w :
  (∀ t s, same_ring s (peer (PipeEnv := E1) t s)) → (∀ t s, same_ring s (peer (PipeEnv := E2) t s)) →
  mapped size w → ring_wf size (sh w) → user_range bufw m w → content (sh w) = [] → m < size →
  wp (__xen_shm_pipe_write_avail (H := E1) bufw m) (λ n w1, n = m ∧
    ∀ wr, sh wr = sh w1 → mapped size wr → user_range bufr m wr →
      wp (__xen_shm_pipe_read_avail (H := E2) bufr m) (λ n w2, n = m ∧
        peek (usr w2) (bufr - usr_base wr) m = peek (usr w) (bufw - usr_base w) m ∧
        content (sh w2) = []) wr) w.
Proof. apply wp_write_then_read. Qed.

Lemma write_read_roundtrip_witness :
  let w := demo_world xen_shm_pipe_mod_write demo_empty in
  wp (__xen_shm_pipe_write_avail (H := idle_env) 8195 11) (λ n w1, n = 11 ∧
    ∀ wr, sh wr = sh w1 → mapped 16 wr → user_range 8200 11 wr →
      wp (__xen_shm_pipe_read_avail (H := idle_env) 8200 11) (λ n w2, n = 11 ∧
        peek (usr w2) (8200 - usr_base wr) 11 = peek (usr w) (8195 - usr_base w) 11 ∧
        content (sh w2) = []) wr) w.
Proof.
  apply (write_read_roundtrip idle_env idle_env 16 11 8195 8200); [done | done | | | | done | lia].
  - apply demo_mapped.
  - apply demo_empty_wf.
  - unfold user_range. simpl. change (len (seqZ 1 32)) with 32. lia.
Defined.

(** ** Opening, closing, errors *)

(** Before the module is used the area holds what it held, and nothing is mapped. *)
Definition fresh_priv (m : xen_shm_pipe_mod) : pipe_priv :=
  PipePriv 3 m xen_shm_pipe_conv_writer_offers 0 0 0
    (IoctlargAwait XEN_SHM_IOCTL_AWAIT_LATENT_USER 0 0) false (PipeStats 0 0 0 0 0 0).
Definition fresh_world (m : xen_shm_pipe_mod) (s : pipe_shared) : world :=
  World s (fresh_priv m) true 8192 [] 0 0 [] [].
(** The module accepts everything and maps at page 4. *)
Definition mapping_env : PipeEnv := {|
  peer := λ _ s, s;
  answer := λ _ c, SysAnswer (match c with SysMmap _ _ => 16384 | _ => 0 end) 0 0 0;
|}.

(** C8. Establishing a pipe: when the module accepts, [xen_shm_pipe_offers]
    leaves the offerer with a mapped, empty ring, and [xen_shm_pipe_connect] on
    the area the offerer left gives the receiver a pipe of the same geometry over
    the same empty ring; both ends have marked themselves open. *)
Theorem pipe_established (E1 E2 : PipeEnv) pc a1 a2 dom dom' grant w wr :
  (∀ t s, same_ring s (peer (PipeEnv := E1) t s)) → (∀ t s, same_ring s (peer (PipeEnv := E2) t s)) →
  1 ≤ pc < 256 → 0 < a1 → 0 < a2 →
  (∀ t n f, ans_ret (answer (PipeEnv := E1) t (SysMmap n f)) = a1) →
  (∀ t n f, ans_ret (answer (PipeEnv := E2) t (SysMmap n f)) = a2) →
  (∀ t, ans_ret (answer (PipeEnv := E1) t (SysInitOfferer (fd (priv w)) pc (u16 dom))) = 0) →
  (∀ t, ans_ret (answer (PipeEnv := E2) t (SysInitReceiver (fd (priv wr)) pc (u16 dom') grant)) = 0) →
  live w = true → live wr = true → is_offerer w = true → is_offerer wr = false →
  len (buffer (sh w)) = pipe_buffer_size pc →
  let size := pipe_buffer_size pc in
  wp (xen_shm_pipe_offers (H := E1) pc dom) (λ r w1,
    r.1 = 0 ∧ is_Some r.2 ∧ ready (pmod (priv w)) size w1 ∧ content (sh w1) = [] ∧
    has (own_flags w1) XSHMP_OPENED = true ∧
    (sh wr = sh w1 → wp (xen_shm_pipe_connect (H := E2) pc dom' grant) (λ r w2,
      r = 0 ∧ ready (pmod (priv wr)) size w2 ∧ content (sh w2) = [] ∧
      has (own_flags w2) XSHMP_OPENED = true) wr)) w.
Proof.
  intros HE1 HE2 Hpc Ha1 Ha2 Hm1 Hm2 Hi1 Hi2 Hl Hlr Hof Hofr Hlen size.
  eapply wp_mono; [by apply (wp_offers HE1 pc a1 Hpc Hm1)|].
  intros r w1 (Hr & Ho & Hrd & Hc & Hfl). split_and!; [done..|].
  intros Hsh. eapply wp_mono; [apply (wp_connect HE2 pc a2 Hpc Hm2); [done..| |done]|].
  - rewrite Hsh. apply Hrd.
  - intros r2 w2 (Hr2 & Hrd2 & Hs & Hf2). split_and!; [done | done | | done].
    by rewrite (same_ring_content _ _ Hs), Hsh.
Qed.

Lemma pipe_established_witness :
  let s0 := PipeShared 7 7 9 9 (replicate 4080 0) in
  let w := fresh_world xen_shm_pipe_mod_write s0 in
  wp (xen_shm_pipe_offers (H := mapping_env) 1 5) (λ r w1,
    r.1 = 0 ∧ is_Some r.2 ∧ ready xen_shm_pipe_mod_write (pipe_buffer_size 1) w1 ∧
    content (sh w1) = [] ∧ has (own_flags w1) XSHMP_OPENED = true ∧
    (s0 = sh w1 → wp (xen_shm_pipe_connect (H := mapping_env) 1 0 8) (λ r w2,
      r = 0 ∧ ready xen_shm_pipe_mod_read (pipe_buffer_size 1) w2 ∧ content (sh w2) = [] ∧
      has (own_flags w2) XSHMP_OPENED = true) (fresh_world xen_shm_pipe_mod_read s0))) w.
Proof.
  apply (pipe_established mapping_env mapping_env 1 16384 16384 5 0 8
    (fresh_world xen_shm_pipe_mod_write _) (fresh_world xen_shm_pipe_mod_read _));
    [done | done | lia | lia | lia | done..].
Defined.

(** C9. End of file: once the writer has closed and everything was read,
    [xen_shm_pipe_read] answers 0 in its first round, without touching the
    caller's buffer. *)
Theorem read_end_of_file `{E : PipeEnv} size fuel garbage buf n w :
  (∀ t s, ring_wf size s → writer_step size s (peer t s)) → close_is_final →
  ready xen_shm_pipe_mod_read size w → drained (sh w) →
  wp (xen_shm_pipe_read (S fuel) garbage buf n)
     (λ r w', r = 0 ∧ usr w' = usr w ∧ drained (sh w')) w.
Proof. intros. by apply (wp_read_eof size). Qed.

Lemma read_end_of_file_witness :
  let w := demo_world xen_shm_pipe_mod_read (set_writer_flags XSHMP_CLOSED demo_empty) in
  wp (xen_shm_pipe_read (H := idle_env) 1 0 8195 20)
     (λ r w', r = 0 ∧ usr w' = usr w ∧ drained (sh w')) w.
Proof.
  apply (read_end_of_file (E := idle_env) 16); [| | |done].
  - intros t s. apply writer_step_refl.
  - by intros t s.
  - by apply demo_ready; split_and!.
Defined.



(** Calls in the wrong state: reading the write end, writing the read end,
    or using an end that has no shared area, answers -1 with EMEDIUMTYPE; the
    shared area, the caller's buffer and the module are not touched. So are the
    offerer's calls on a receiver and the receiver's on an offerer. *)
Theorem wrong_state_refused `{E : PipeEnv} w fuel g buf n pc dom grant ms :
  live w = true →
  let refused := with_errno EMEDIUMTYPE w in
  (pmod (priv w) = xen_shm_pipe_mod_write ∨ shared (priv w) = 0 →
     xen_shm_pipe_read fuel g buf n w = Done (-1) (with_errno EMEDIUMTYPE (bumped w stat_read))) ∧
  (pmod (priv w) = xen_shm_pipe_mod_read ∨ shared (priv w) = 0 →
     xen_shm_pipe_write fuel g buf n w = Done (-1) (with_errno EMEDIUMTYPE (bumped w stat_write))) ∧
  (shared (priv w) = 0 → xen_shm_pipe_flush w = Done (-1) refused) ∧
  (__xen_shm_pipe_is_offerer (priv w) = false →
     xen_shm_pipe_offers pc dom w = Done (-1, None) refused ∧ xen_shm_pipe_wait g ms w = Done (-1) refused) ∧
  (__xen_shm_pipe_is_offerer (priv w) = true →
     xen_shm_pipe_connect pc dom grant w = Done (-1) refused ∧
     xen_shm_pipe_getdomid w = Done (-1, None) refused).
Proof.
  intros Hl refused. split_and!.
  - by apply read_wrong_state.
  - by apply write_wrong_state.
  - by apply flush_wrong_state.
  - by apply offerer_wrong_side.
  - by apply receiver_wrong_side.
Qed.

Lemma wrong_state_refused_witness :
  let w := fresh_world xen_shm_pipe_mod_read demo_ring in
  xen_shm_pipe_flush (H := idle_env) w = Done (-1) (with_errno EMEDIUMTYPE w).
Proof.
  exact (proj1 (proj2 (proj2 (wrong_state_refused (E := idle_env)
    (fresh_world xen_shm_pipe_mod_read demo_ring) 1 0 0 0 1 0 0 0 eq_refl))) eq_refl).
Defined.

(** C12. No sleeper is left behind: whatever the other end did before, if it sleeps
    from time [T] on and the copy ends later than [T], so that its last access saw
    the other end asleep, the last thing the copy did is a signal, after every
    access and so after the last index it published. *)
Theorem sleeper_is_signalled `{E : PipeEnv} T buf n w r w' :
  (T < clock w')%nat →
  (asleep_from T WriterFlags → __xen_shm_pipe_read_avail buf n w = Done r w' → signalled w') ∧
  (asleep_from T ReaderFlags → __xen_shm_pipe_write_avail buf n w = Done r w' → signalled w').
Proof. intros HT. split; intros; [by eapply read_avail_signals | by eapply write_avail_signals]. Qed.

(** The reader falls asleep at time 5, while bytes are being copied to the ring. *)
Definition sleeping_env : PipeEnv := {|
  peer := λ t s, set_reader_flags (if (5 <=? t)%nat then XSHMP_SLEEPING else XSHMP_OPENED) s;
  answer := λ _ _, SysAnswer 0 0 0 0 |}.

Lemma sleeper_is_signalled_witness :
  ∃ r w', __xen_shm_pipe_write_avail (H := sleeping_env) 8195 7
            (demo_world xen_shm_pipe_mod_write demo_empty) = Done r w' ∧ signalled w'.
Proof.
  eexists _, _. split; [vm_compute; reflexivity|].
  refine (proj2 (sleeper_is_signalled (E := sleeping_env) 5 8195 7
    (demo_world xen_shm_pipe_mod_write demo_empty) _ _ _) _ _).
  - cbn [clock]. lia.
  - intros t s Ht. destruct t as [|[|[|[|[|t]]]]]; [lia..|done].
  - vm_compute. reflexivity.
Defined.

(** [__xen_shm_pipe_wait_writer] that finds the reader closed answers -1 and
    leaves errno as it was: [xen_shm_pipe_write] then fails with whatever errno
    the caller last saw. *)
Theorem write_to_closed_reader `{E : PipeEnv} fuel garbage w :
  live w = true → (∀ t s, has (reader_flags (peer t s)) XSHMP_CLOSED = true) →
  wp (__xen_shm_pipe_wait_writer fuel garbage) (λ r w', r = -1 ∧ errno w' = errno w) w.
Proof.
  intros Hl Hc. apply wp_bind, wp_load_now. specialize (Hc (clock w) (sh w)).
  change (peer (clock w) (sh w)) with (sh (peer_ran w)) in Hc. rewrite Hc. apply wp_ret. by split.
Qed.

Definition closed_reader_env : PipeEnv := {|
  peer := λ _ s, set_reader_flags XSHMP_CLOSED s; answer := λ _ _, SysAnswer 0 0 0 0 |}.

Lemma write_to_closed_reader_witness :
  wp (__xen_shm_pipe_wait_writer (H := closed_reader_env) 1 0) (λ r w', r = -1 ∧ errno w' = 0)
     (demo_world xen_shm_pipe_mod_write demo_ring).
Proof. apply (write_to_closed_reader (E := closed_reader_env) 1 0 (demo_world xen_shm_pipe_mod_write demo_ring)); [done | intros t s; reflexivity]. Defined.

(** The module fails every wait with EINTR. *)
Definition interrupted_env : PipeEnv := {|
  peer := λ _ s, s; answer := λ _ _, SysAnswer (-1) EINTR 0 0 |}.

(** A reader whose sleep is interrupted returns -1 with its own WAITING flag
    still set, and clears the writer's: the error path of
    [__xen_shm_pipe_wait_reader] writes the other end's word. *)
Theorem interrupted_reader_stays_waiting :
  let s := set_writer_flags XSHMP_WAITING demo_empty in
  let run := __xen_shm_pipe_wait_reader (H := interrupted_env) 2 0 in
  wp run (λ r w', r = -1 ∧ errno w' = EINTR ∧
    has (reader_flags (sh w')) XSHMP_WAITING = true)
    (demo_world xen_shm_pipe_mod_read demo_empty) ∧
  wp (reader_sleep (H := interrupted_env) wait_start) (λ _ w',
    has (writer_flags (sh w')) XSHMP_WAITING = false)
    (demo_world xen_shm_pipe_mod_read s).
Proof. split; vm_compute; auto. Qed.
