(* ===== verification/Udp.v ===== *)
(** The messages of the handshake (xen_shm_udp_proto.h): packed structures laid
    over a buffer of bytes, in the byte order of the host, which is little endian. *)
From S2P Require Import Prelude Ring.

(** ** Constants *)

Definition XEN_SHM_UDP_PROTO_VERSION : Z := 0x01.
Definition XEN_SHM_UDP_PROTO_MAX_LEN : Z := 40.

Definition XEN_SHM_UDP_PROTO_CLIENT_HELLO : Z := 0x01.
Definition XEN_SHM_UDP_PROTO_SERVER_RESET : Z := 0x02.
Definition XEN_SHM_UDP_PROTO_SERVER_GRANT : Z := 0x03.
Definition XEN_SHM_UDP_PROTO_CLIENT_RESET : Z := 0x04.
Definition XEN_SHM_UDP_PROTO_CLIENT_GRANT : Z := 0x05.

Definition XEN_SHM_UDP_PROTO_GRANT_MODE_WRITER_OFFERER : Z := 0x01.
Definition XEN_SHM_UDP_PROTO_GRANT_MODE_READER_OFFERER : Z := 0x02.

(** ** Words of a buffer *)

Fixpoint bytes_of (n : nat) (z : Z) : list Z :=
  match n with
  | O => []
  | S n => z mod 256 :: bytes_of n (z / 256)
  end.
Definition word_of (l : list Z) : Z := foldr (λ b acc, b + 256 * acc) 0 l.

Lemma length_bytes_of n z : length (bytes_of n z) = n.
Proof. revert z. induction n as [|n IH]; intros z; simpl; [done | by rewrite IH]. Qed.

Lemma word_of_bytes n z : 0 ≤ z < 256 ^ Z.of_nat n → word_of (bytes_of n z) = z.
Proof.
  revert z. induction n as [|n IH]; intros z Hz; [simpl in *; lia|].
  rewrite Nat2Z.inj_succ, Z.pow_succ_r in Hz by lia.
  simpl. rewrite IH by (split; [apply Z.div_pos; lia | apply Z.div_lt_upper_bound; lia]).
  pose proof (Z.div_mod z 256). lia.
Qed.

Lemma word_of_range l : Forall (λ b, 0 ≤ b < 256) l → 0 ≤ word_of l < 256 ^ Z.of_nat (length l).
Proof.
  induction 1 as [|b l Hb _ IH]; [simpl; lia|].
  cbn [length foldr word_of]. rewrite Nat2Z.inj_succ, Z.pow_succ_r by lia. simpl. unfold word_of in IH. lia.
Qed.

(** ** The structures *)

(** A member of a packed structure: its offset and its size in bytes. *)
Record member := Member {
  m_off : Z;
  m_size : nat;
}.

(** [struct xen_shm_udp_proto_header] *)
Definition header_version : member := Member 0 1.
Definition header_message : member := Member 1 1.
Definition header_reserved : member := Member 2 2.
Definition header_big_reserved : member := Member 4 4.
Definition sizeof_header : Z := 8.

(** [struct xen_shm_udp_proto_client_hello] *)
Definition hello_domid : member := Member 8 4.
Definition sizeof_client_hello : Z := 12.

(** [struct xen_shm_udp_proto_grant] *)
Definition grant_grant_ref : member := Member 8 4.
Definition grant_domid : member := Member 12 4.
Definition grant_mode : member := Member 16 1.
Definition grant_page_count : member := Member 17 1.
Definition sizeof_grant : Z := 18.

(** [p->member] and [p->member = v] for a pointer to the buffer's start. *)
Definition fetch (f : member) (buf : list Z) : Z := word_of (peek buf (m_off f) (Z.of_nat (m_size f))).
Definition put (f : member) (v : Z) (buf : list Z) : list Z := poke buf (m_off f) (bytes_of (m_size f) v).

Definition in_range (f : member) (buf : list Z) : Prop :=
  0 ≤ m_off f ∧ m_off f + Z.of_nat (m_size f) ≤ len buf.
Definition disjoint_members (f g : member) : bool :=
  (m_off f + Z.of_nat (m_size f) <=? m_off g) || (m_off g + Z.of_nat (m_size g) <=? m_off f).

Lemma len_put f v buf : in_range f buf → len (put f v buf) = len buf.
Proof.
  intros [H1 H2]. unfold put. apply len_poke; [done|]. unfold len at 1. rewrite length_bytes_of. lia.
Qed.

Lemma fetch_put f v buf : in_range f buf → 0 ≤ v < 256 ^ Z.of_nat (m_size f) → fetch f (put f v buf) = v.
Proof.
  intros [H1 H2] Hv. unfold fetch, put.
  assert (len (bytes_of (m_size f) v) = Z.of_nat (m_size f)) as Hl by (unfold len; by rewrite length_bytes_of).
  rewrite <-Hl, peek_poke by lia. by apply word_of_bytes.
Qed.

Lemma fetch_put_ne f g v buf :
  in_range f buf → in_range g buf → disjoint_members f g = true → fetch f (put g v buf) = fetch f buf.
Proof.
  intros [H1 H2] [H3 H4] Hd. unfold fetch, put. rewrite peek_poke_ne; [done | lia | | lia | lia | lia |];
    unfold len at 1; rewrite length_bytes_of; [lia|].
  unfold disjoint_members in Hd. apply orb_true_iff in Hd as [Hd|Hd]; bool_hyps; lia.
Qed.

(** What is sent is the start of the buffer. *)
Lemma fetch_take f n buf :
  in_range f buf → m_off f + Z.of_nat (m_size f) ≤ n → fetch f (take (Z.to_nat n) buf) = fetch f buf.
Proof.
  intros [H1 H2] Hn. unfold fetch, peek. rewrite skipn_firstn_comm, take_take. do 2 f_equal. lia.
Qed.

Lemma fetch_app f l l' : in_range f l → fetch f (l ++ l') = fetch f l.
Proof.
  intros [H1 H2]. unfold fetch, peek, len in *. rewrite drop_app_le by lia.
  rewrite take_app_le; [done|]. rewrite length_drop. lia.
Qed.

(** ** Messages *)

Inductive message :=
| ClientHello (domid : Z)
| ServerReset
| ServerGrant (grant_ref domid mode page_count : Z)
| ClientReset
| ClientGrant (grant_ref domid mode page_count : Z).

(** A buffer with a header and nothing else. *)
Definition packet (msg : Z) (size : Z) : list Z :=
  put header_message msg (put header_version XEN_SHM_UDP_PROTO_VERSION (replicate (Z.to_nat size) 0)).
Definition put_grant (ref domid mode pages : Z) (buf : list Z) : list Z :=
  put grant_page_count pages (put grant_mode mode (put grant_domid domid (put grant_grant_ref ref buf))).

Definition encode (m : message) : list Z :=
  match m with
  | ClientHello d => put hello_domid d (packet XEN_SHM_UDP_PROTO_CLIENT_HELLO sizeof_client_hello)
  | ServerReset => packet XEN_SHM_UDP_PROTO_SERVER_RESET sizeof_header
  | ServerGrant r d mo p => put_grant r d mo p (packet XEN_SHM_UDP_PROTO_SERVER_GRANT sizeof_grant)
  | ClientReset => packet XEN_SHM_UDP_PROTO_CLIENT_RESET sizeof_header
  | ClientGrant r d mo p => put_grant r d mo p (packet XEN_SHM_UDP_PROTO_CLIENT_GRANT sizeof_grant)
  end.

(** What a packet means to a side that looks at the version and the length of each
    message; the reserved fields are not looked at. *)
Definition decode_grant (buf : list Z) (k : Z → Z → Z → Z → message) : option message :=
  if len buf <? sizeof_grant then None
  else Some (k (fetch grant_grant_ref buf) (fetch grant_domid buf) (fetch grant_mode buf)
              (fetch grant_page_count buf)).
Definition decode (buf : list Z) : option message :=
  if len buf <? sizeof_header then None
  else if negb (fetch header_version buf =? XEN_SHM_UDP_PROTO_VERSION) then None
  else let msg := fetch header_message buf in
    if msg =? XEN_SHM_UDP_PROTO_CLIENT_HELLO then
      if len buf <? sizeof_client_hello then None else Some (ClientHello (fetch hello_domid buf))
    else if msg =? XEN_SHM_UDP_PROTO_SERVER_RESET then Some ServerReset
    else if msg =? XEN_SHM_UDP_PROTO_SERVER_GRANT then decode_grant buf ServerGrant
    else if msg =? XEN_SHM_UDP_PROTO_CLIENT_RESET then Some ClientReset
    else if msg =? XEN_SHM_UDP_PROTO_CLIENT_GRANT then decode_grant buf ClientGrant
    else None.

(** The fields fit their members. *)
Definition message_wf (m : message) : Prop :=
  match m with
  | ClientHello d => 0 ≤ d < 2 ^ 32
  | ServerReset | ClientReset => True
  | ServerGrant r d mo p | ClientGrant r d mo p =>
      0 ≤ r < 2 ^ 32 ∧ 0 ≤ d < 2 ^ 32 ∧ 0 ≤ mo < 256 ∧ 0 ≤ p < 256
  end.

(** ** Fields of what is sent *)

Lemma in_range_put f g v buf : in_range g buf → in_range f buf → in_range f (put g v buf).
Proof. intros Hg [H1 H2]. split; [done | by rewrite len_put]. Qed.

Lemma in_range_packet f msg n : 0 ≤ m_off f → m_off f + Z.of_nat (m_size f) ≤ n → 2 ≤ n → in_range f (packet msg n).
Proof.
  intros H1 H2 Hn. unfold packet.
  assert (∀ g, 0 ≤ m_off g → m_off g + Z.of_nat (m_size g) ≤ n → in_range g (replicate (Z.to_nat n) 0)) as Hr.
  { intros g ? ?. split; [done|]. unfold len. rewrite length_replicate. lia. }
  apply in_range_put; [|apply in_range_put; [|by apply Hr]].
  - apply in_range_put; apply Hr; simpl; lia.
  - apply Hr; simpl; lia.
Qed.

(** Fields of a buffer written member by member. *)
Ltac in_range_tac :=
  repeat first [assumption | apply in_range_packet | apply in_range_put]; simpl;
  unfold sizeof_header, sizeof_client_hello, sizeof_grant; try lia.
Ltac fields :=
  repeat first
    [ rewrite fetch_put by (solve [in_range_tac; lia | split; by vm_compute])
    | rewrite fetch_put_ne by (reflexivity || in_range_tac) ].

Lemma len_packet msg n : 2 ≤ n → len (packet msg n) = n.
Proof.
  intros Hn. unfold packet. rewrite !len_put.
  - unfold len. rewrite length_replicate. lia.
  - split; simpl; [lia|]. unfold len. rewrite length_replicate. lia.
  - apply in_range_put; (split; simpl; [lia|]; unfold len; rewrite length_replicate; lia).
Qed.

Lemma packet_header msg n :
  2 ≤ n → 0 ≤ msg < 256 →
  fetch header_version (packet msg n) = XEN_SHM_UDP_PROTO_VERSION ∧ fetch header_message (packet msg n) = msg.
Proof.
  intros Hn Hmsg. unfold packet.
  assert (∀ g, 0 ≤ m_off g → m_off g + Z.of_nat (m_size g) ≤ n → in_range g (replicate (Z.to_nat n) 0)) as Hr.
  { intros g ? ?. split; [done|]. unfold len. rewrite length_replicate. lia. }
  split.
  - rewrite fetch_put_ne; [|apply in_range_put; apply Hr; simpl; lia | apply in_range_put; apply Hr; simpl; lia | done].
    rewrite fetch_put; [done | apply Hr; simpl; lia | by vm_compute].
  - rewrite fetch_put; [done | apply in_range_put; apply Hr; simpl; lia | simpl; lia].
Qed.

Lemma put_grant_fields r d mo p buf :
  in_range grant_page_count buf → message_wf (ServerGrant r d mo p) →
  let buf' := put_grant r d mo p buf in
  len buf' = len buf ∧ fetch grant_grant_ref buf' = r ∧ fetch grant_domid buf' = d ∧
  fetch grant_mode buf' = mo ∧ fetch grant_page_count buf' = p ∧
  fetch header_version buf' = fetch header_version buf ∧ fetch header_message buf' = fetch header_message buf.
Proof.
  intros [_ Hlen] (Hr & Hd & Hm & Hp). simpl in Hlen.
  assert (∀ g, 0 ≤ m_off g → m_off g + Z.of_nat (m_size g) ≤ 18 → in_range g buf) as Hin.
  { intros g ? ?. split; lia. }
  assert (in_range grant_grant_ref buf) as H1 by (apply Hin; simpl; lia).
  assert (in_range grant_domid buf) as H2 by (apply Hin; simpl; lia).
  assert (in_range grant_mode buf) as H3 by (apply Hin; simpl; lia).
  assert (in_range grant_page_count buf) as H4 by (apply Hin; simpl; lia).
  assert (in_range header_version buf) as H5 by (apply Hin; simpl; lia).
  assert (in_range header_message buf) as H6 by (apply Hin; simpl; lia).
  unfold put_grant. simpl. rewrite !len_put by in_range_tac. split_and!; [done|fields; done..].
Qed.

Lemma decode_encode_eq m : message_wf m → decode (encode m) = Some m.
Proof.
  intros Hwf. unfold decode, decode_grant.
  assert (∀ msg n, 2 ≤ n → 0 ≤ msg < 256 → fetch header_version (packet msg n) = 1 ∧ fetch header_message (packet msg n) = msg) as Hh.
  { intros. by apply packet_header. }
  destruct m as [d| |r d mo p| |r d mo p]; cbn [encode].
  - destruct (Hh XEN_SHM_UDP_PROTO_CLIENT_HELLO sizeof_client_hello) as [H1 H2]; [done..|].
    simpl in Hwf. rewrite len_put, len_packet by in_range_tac. fields. by rewrite H1, H2.
  - by vm_compute.
  - destruct (put_grant_fields r d mo p (packet XEN_SHM_UDP_PROTO_SERVER_GRANT sizeof_grant))
      as (-> & -> & -> & -> & -> & -> & ->); [by in_range_tac | done |].
    by destruct (Hh XEN_SHM_UDP_PROTO_SERVER_GRANT sizeof_grant) as [-> ->].
  - by vm_compute.
  - destruct (put_grant_fields r d mo p (packet XEN_SHM_UDP_PROTO_CLIENT_GRANT sizeof_grant))
      as (-> & -> & -> & -> & -> & -> & ->); [by in_range_tac | done |].
    by destruct (Hh XEN_SHM_UDP_PROTO_CLIENT_GRANT sizeof_grant) as [-> ->].
Qed.
