(* ===== verification/Process.v ===== *)
(** A process that uses the libraries: its pipes, each a world of the pipe
    library, its heap of list elements, and the calls it makes to the system. *)
From S2P Require Import Prelude Abi Ring PipeDefs PipeApi Udp.
From stdpp Require Import gmap.
Open Scope Z_scope.
Open Scope c_scope.

(** ** Data *)

(** [struct xen_shm_handler_data] *)
Record handler_data := HandlerData {
  hd_receive_fd : Z;
  hd_send_fd : Z;
  hd_stop : Z;
  hd_private_data : Z;
}.

(** [struct pthread_list] *)
Record pthread_list := PthreadList {
  child : Z;
  child_next : Z;
  child_data : handler_data;
}.

(** [struct opening_list]; a pipe is named by its address. *)
Record opening_list := OpeningList {
  distant_port : Z;
  distant_addr : Z;
  receive_fd : Z;
  opening_next : Z;
}.

(** [struct internal_data] *)
Record internal_data := InternalData {
  proposed_page_page_count : Z;
  private_data : Z;
  initializer : Z;
  childs : Z;
  current : Z;
}.

(** The calls to the system and the event library, and the reads of the variable
    [stop] that another thread writes. [PthreadJoin thread stop] waits for a thread
    whose data hold [stop] meanwhile; whether the thread ever ends is for the
    environment to tell, by an answer whose [u_out] is not 0 when it does. *)
Inductive ucall :=
| RecvFrom
| SendTo (payload : list Z) (port addr : Z)
| Recv
| Send (payload : list Z)
| Socket
| Bind (port : Z)
| Shutdown (fd : Z)
| Calloc
| Free (p : Z)
| EventLoop
| StopLoop
| PthreadCreate (start argument : Z)
| PthreadJoin (thread stop : Z)
| RunHandler (handler_fct : Z) (data : handler_data)
| Exit (status : Z)
| LoadStop
| Malloc (size : Z)
| ClockGettime
| GetTimeOfDay
| Print.

(** What a call answers: its result, what it writes through its argument, the
    bytes it received and their source. *)
Record uanswer := UAnswer {
  u_ret : Z;
  u_out : Z;
  u_bytes : list Z;
  u_port : Z;
  u_addr : Z;
  u_addr_len : Z;
}.

Record process := Process {
  pipes : gmap Z world;
  openings : gmap Z opening_list;
  children : gmap Z pthread_list;
  server : internal_data;
  unique_handler_id : Z;
  uclock : nat;
  utrace : list (ucall * uanswer);
}.

(** Code outside the repository: [udp t c] answers the call made at time [t];
    [pipe_env h] is the module and the other end of pipe [h]; [new_pipe t] is the
    address [malloc] gives to a pipe initialised at time [t], with what the memory
    and the shared area hold. *)
Class UdpEnv := {
  udp : nat → ucall → uanswer;
  pipe_env : Z → PipeEnv;
  new_pipe : nat → Z * world;
}.

(** ** Field updates *)

Definition process_eta (p : process) : process :=
  Process (pipes p) (openings p) (children p) (server p) (unique_handler_id p) (uclock p) (utrace p).
Definition set_pipes : gmap Z world → process → process := ltac:(field_setter process_eta pipes).
Definition set_openings : gmap Z opening_list → process → process := ltac:(field_setter process_eta openings).
Definition set_children : gmap Z pthread_list → process → process := ltac:(field_setter process_eta children).
Definition set_server : internal_data → process → process := ltac:(field_setter process_eta server).
Definition set_unique_handler_id : Z → process → process := ltac:(field_setter process_eta unique_handler_id).
Definition set_uclock : nat → process → process := ltac:(field_setter process_eta uclock).
Definition set_utrace : list (ucall * uanswer) → process → process := ltac:(field_setter process_eta utrace).

Definition internal_eta (d : internal_data) : internal_data :=
  InternalData (proposed_page_page_count d) (private_data d) (initializer d) (childs d) (current d).
Definition set_childs : Z → internal_data → internal_data := ltac:(field_setter internal_eta childs).
Definition set_current : Z → internal_data → internal_data := ltac:(field_setter internal_eta current).

Definition opening_eta (o : opening_list) : opening_list :=
  OpeningList (distant_port o) (distant_addr o) (receive_fd o) (opening_next o).
Definition set_distant_port : Z → opening_list → opening_list := ltac:(field_setter opening_eta distant_port).
Definition set_distant_addr : Z → opening_list → opening_list := ltac:(field_setter opening_eta distant_addr).
Definition set_receive_fd : Z → opening_list → opening_list := ltac:(field_setter opening_eta receive_fd).
Definition set_opening_next : Z → opening_list → opening_list := ltac:(field_setter opening_eta opening_next).

Definition pthread_eta (c : pthread_list) : pthread_list := PthreadList (child c) (child_next c) (child_data c).
Definition set_child : Z → pthread_list → pthread_list := ltac:(field_setter pthread_eta child).
Definition set_child_next : Z → pthread_list → pthread_list := ltac:(field_setter pthread_eta child_next).
Definition set_child_data : handler_data → pthread_list → pthread_list :=
  ltac:(field_setter pthread_eta child_data).

Definition handler_eta (h : handler_data) : handler_data :=
  HandlerData (hd_receive_fd h) (hd_send_fd h) (hd_stop h) (hd_private_data h).
Definition set_hd_send_fd : Z → handler_data → handler_data := ltac:(field_setter handler_eta hd_send_fd).
Definition set_hd_stop : Z → handler_data → handler_data := ltac:(field_setter handler_eta hd_stop).

(** ** Accesses *)

Section Process.
Context `{!UdpEnv}.

Definition ask (c : ucall) : M process uanswer := λ p,
  let r := udp (uclock p) c in
  Done r (set_uclock (S (uclock p)) (set_utrace ((c, r) :: utrace p) p)).
(** A call whose answer is not used. *)
Definition ask_ (c : ucall) : M process unit := let* _ := ask c in ret tt.

(** An element of a list, by its address. *)
Definition deref {A} (heap : process → gmap Z A) (a : Z) : M process A := λ p,
  if a =? 0 then Fault NullDeref else
  match heap p !! a with Some x => Done x p | None => Fault UseAfterFree end.
Definition get_opening : Z → M process opening_list := deref openings.
Definition get_child : Z → M process pthread_list := deref children.
Definition put_opening (a : Z) (f : opening_list → opening_list) : M process unit :=
  let* o := get_opening a in modify (λ p, set_openings (<[a := f o]> (openings p)) p).
Definition put_child (a : Z) (f : pthread_list → pthread_list) : M process unit :=
  let* c := get_child a in modify (λ p, set_children (<[a := f c]> (children p)) p).

(** [calloc] of a list element; [free]. *)
Definition calloc {A} (store : Z → A → process → process) (zero : A) : M process Z :=
  let* r := ask Calloc in
  if u_ret r =? 0 then ret 0 else
  modify (store (u_ret r) zero) ;; ret (u_ret r).
Definition calloc_opening : M process Z :=
  calloc (λ a x p, set_openings (<[a := x]> (openings p)) p) (OpeningList 0 0 0 0).
Definition calloc_child : M process Z :=
  calloc (λ a x p, set_children (<[a := x]> (children p)) p) (PthreadList 0 0 (HandlerData 0 0 0 0)).
Definition free_element (a : Z) (remove : process → process) : M process unit :=
  ask_ (Free a) ;; when (negb (a =? 0)) (modify remove).

(** ** Pipes *)

(** A function of the pipe library on the pipe at address [h]. *)
Definition on_pipe {A} (h : Z) (f : PipeEnv → M world A) : M process A := λ p,
  if h =? 0 then Fault NullDeref else
  match pipes p !! h with
  | None => Fault UseAfterFree
  | Some w =>
      match f (pipe_env h) w with
      | Done a w' => Done a (set_pipes (<[h := w']> (pipes p)) p)
      | Fault e => Fault e
      | NoFuel => NoFuel
      end
  end.

(** [xen_shm_pipe_init(&pipe, ...)]: the result, and [pipe] when it is written. *)
Definition pipe_init (mod_ : xen_shm_pipe_mod) (conv_ : xen_shm_pipe_conv) : M process (Z * option Z) := λ p,
  let (h, w) := new_pipe (uclock p) in
  let p := set_uclock (S (uclock p)) p in
  match xen_shm_pipe_init (H := pipe_env h) (priv w) mod_ conv_ w with
  | Done r w' =>
      if r =? 0 then Done (r, Some h) (set_pipes (<[h := w']> (pipes p)) p) else Done (r, None) p
  | Fault e => Fault e
  | NoFuel => NoFuel
  end.
Definition pipe_free (h : Z) : M process unit := on_pipe h (λ E, xen_shm_pipe_free).
End Process.
