(* ===== verification/Server.v ===== *)
(** The server (server_lib.c): the connections that are being opened, the message
    handler, starting and stopping. *)
From S2P Require Import Prelude Abi Ring PipeDefs PipeApi Udp Process.
From stdpp Require Import gmap.
Open Scope Z_scope.
Open Scope c_scope.

Definition sizeof_sockaddr_in : Z := 16.

Section Server.
Context `{!UdpEnv}.

Definition get_data : M process internal_data := λ p, Done (server p) p.
Definition put_data (f : internal_data → internal_data) : M process unit :=
  modify (λ p, set_server (f (server p)) p).

(** ** Opening list *)

Definition find_body (port addr : Z) (temp : Z) : M process (flow Z Z) :=
  if temp =? 0 then ret (Break temp) else
  let* o := get_opening temp in
  if (distant_port o =? port) && (distant_addr o =? addr) then ret (Break temp)
  else ret (Continue (opening_next o)).
(** The address of the opening, 0 when there is none. *)
Definition find_opening (fuel : nat) (port addr : Z) : M process Z :=
  let* data := get_data in
  let* r := loop fuel (find_body port addr) (current data) in
  match r with inl temp => ret temp | inr temp => ret temp end.

Definition unlink_body (o temp : Z) : M process (flow Z unit) :=
  let* t := get_opening temp in
  if opening_next t =? 0 then ret (Break temp) else
  if opening_next t =? o then
    let* x := get_opening o in
    put_opening temp (set_opening_next (opening_next x)) ;;
    ret (Break temp)
  else ret (Continue (opening_next t)).
Definition free_opening (fuel : nat) (o : Z) : M process unit :=
  let* data := get_data in
  if current data =? 0 then ret tt else
  let* _ := loop fuel (unlink_body o) (current data) in
  free_element o (λ p, set_openings (delete o (openings p)) p).

(** ** Messages *)

Definition clean : M process unit := ask_ StopLoop.

(** The labels [send], [server_reset], [free_o_new] and [free_data]. *)
Definition send (buffer : list Z) (send_len port addr : Z) : M process unit :=
  ask_ (SendTo (take (Z.to_nat send_len) buffer) port addr).
Definition server_reset (buffer : list Z) (port addr : Z) : M process unit :=
  send (put header_message XEN_SHM_UDP_PROTO_SERVER_RESET buffer) sizeof_header port addr.
Definition free_o_new (fuel : nat) (o : Z) (buffer : list Z) (port addr : Z) : M process unit :=
  let* x := get_opening o in
  pipe_free (receive_fd x) ;;
  free_opening fuel o ;;
  server_reset buffer port addr.
Definition free_data (fuel : nat) (c o : Z) (buffer : list Z) (port addr : Z) : M process unit :=
  free_element c (λ p, set_children (delete c (children p)) p) ;;
  free_o_new fuel o buffer port addr.

Definition handle_client_hello (buffer : list Z) (len port addr : Z) : M process unit :=
  if len <? sizeof_client_hello then ret tt else
  let* o := calloc_opening in
  if o =? 0 then ret tt else
  let* r := pipe_init xen_shm_pipe_mod_read xen_shm_pipe_conv_reader_offers in
  match r with
  | (_, None) => server_reset buffer port addr
  | (_, Some h) =>
      put_opening o (set_receive_fd h) ;;
      let* data := get_data in
      let* r := on_pipe h (λ E, xen_shm_pipe_offers (proposed_page_page_count data) (fetch hello_domid buffer)) in
      match r with
      | (_, None) => pipe_free h ;; server_reset buffer port addr
      | (_, Some (domid, ref)) =>
          let buffer := put grant_grant_ref ref (put grant_domid domid buffer) in
          put_opening o (set_distant_port port) ;;
          put_opening o (set_distant_addr addr) ;;
          let buffer := put header_message XEN_SHM_UDP_PROTO_SERVER_GRANT buffer in
          let buffer := put grant_mode XEN_SHM_UDP_PROTO_GRANT_MODE_READER_OFFERER buffer in
          let buffer := put grant_page_count (proposed_page_page_count data) buffer in
          put_opening o (set_opening_next (current data)) ;;
          put_data (set_current o) ;;
          send buffer sizeof_grant port addr
      end
  end.

Definition handle_client_grant (fuel : nat) (buffer : list Z) (len port addr : Z) : M process unit :=
  let* o := find_opening fuel port addr in
  if o =? 0 then server_reset buffer port addr else
  if len <? sizeof_grant then free_o_new fuel o buffer port addr else
  let* c := calloc_child in
  if c =? 0 then free_data fuel c o buffer port addr else
  if negb (fetch grant_mode buffer =? XEN_SHM_UDP_PROTO_GRANT_MODE_READER_OFFERER)
  then free_data fuel c o buffer port addr else
  let* r := pipe_init xen_shm_pipe_mod_write xen_shm_pipe_conv_reader_offers in
  match r with
  | (_, None) => free_data fuel c o buffer port addr
  | (_, Some h) =>
      put_child c (λ x, set_child_data (set_hd_send_fd h (child_data x)) x) ;;
      let* ret_ := on_pipe h (λ E, xen_shm_pipe_connect (fetch grant_page_count buffer)
        (fetch grant_domid buffer) (fetch grant_grant_ref buffer)) in
      if negb (ret_ =? 0) then pipe_free h ;; free_data fuel c o buffer port addr else
      let* x := get_opening o in
      let* data := get_data in
      put_child c (set_child_data (HandlerData (receive_fd x) h 0 (private_data data))) ;;
      let* t := ask (PthreadCreate (initializer data) c) in
      if negb (u_ret t =? 0) then
        pipe_free (receive_fd x) ;;
        pipe_free h ;;
        free_opening fuel o ;;
        free_element c (λ p, set_children (delete c (children p)) p)
      else
        put_child c (set_child (u_out t)) ;;
        put_child c (set_child_next (childs data)) ;;
        put_data (set_childs c)
  end.

(** [exit] does not return. *)
Definition exit (status : Z) : M process unit := ask_ (Exit status) ;; throw Exited.

(** [garbage] is what the buffer holds beyond the packet. *)
Definition udp_readable_cb (fuel : nat) (ev_error ev_read : bool) (garbage : list Z) : M process unit :=
  if ev_error then clean else
  if negb ev_read then ret tt else
  let* r := ask RecvFrom in
  let len := u_ret r in
  if len <? 0 then ret tt else
  if negb (u_addr_len r =? sizeof_sockaddr_in) then exit 1 else
  let buffer := poke garbage 0 (u_bytes r) in
  if len <? sizeof_header then ret tt else
  if negb (fetch header_version buffer =? XEN_SHM_UDP_PROTO_VERSION) then ret tt else
  let message := fetch header_message buffer in
  if message =? XEN_SHM_UDP_PROTO_CLIENT_HELLO then handle_client_hello buffer len (u_port r) (u_addr r)
  else if (message =? XEN_SHM_UDP_PROTO_SERVER_RESET) || (message =? XEN_SHM_UDP_PROTO_SERVER_GRANT) then ret tt
  else if message =? XEN_SHM_UDP_PROTO_CLIENT_RESET then
    let* o := find_opening fuel (u_port r) (u_addr r) in
    if negb (o =? 0) then free_o_new fuel o buffer (u_port r) (u_addr r) else ret tt
  else if message =? XEN_SHM_UDP_PROTO_CLIENT_GRANT then
    handle_client_grant fuel buffer len (u_port r) (u_addr r)
  else ret tt.

(** ** Starting and stopping *)

(** What the event loop finds on the socket: errors, data, and what the handler's
    buffer holds. *)
Record event := Event {
  ev_error : bool;
  ev_read : bool;
  ev_garbage : list Z;
}.
(** [ev_loop]: the handler runs for each event, until the loop is stopped. *)
Fixpoint ev_loop (fuel : nat) (events : list event) : M process unit :=
  match events with
  | [] => ask_ EventLoop
  | e :: events =>
      udp_readable_cb fuel (ev_error e) (ev_read e) (ev_garbage e) ;;
      ev_loop fuel events
  end.

(** "Close the currently half-opened connections" *)
Definition close_body (o_it : Z) : M process (flow Z unit) :=
  if o_it =? 0 then ret (Break o_it) else
  let* o := get_opening o_it in
  when (negb (receive_fd o =? 0)) (pipe_free (receive_fd o)) ;;
  let* o := get_opening o_it in
  free_element o_it (λ p, set_openings (delete o_it (openings p)) p) ;;
  ret (Continue (opening_next o)).

(** The three walks of the list of threads. *)
Definition child_walk (fuel : nat) (visit : Z → pthread_list → M process unit) (first : Z) : M process unit :=
  let* _ := loop fuel (λ c_it : Z,
    if c_it =? 0 then ret (@Break Z unit c_it) else
    let* c := get_child c_it in
    visit c_it c ;;
    ret (Continue (child_next c))) first in
  ret tt.
Definition ask_stop (c_it : Z) (c : pthread_list) : M process unit :=
  put_child c_it (λ x, set_child_data (set_hd_stop 1 (child_data x)) x).
(** [pthread_join] returns when the thread has ended; until then it reads the flag
    that [ask_stop] writes. *)
Definition join_child (c_it : Z) (c : pthread_list) : M process unit :=
  let* r := ask (PthreadJoin (child c) (hd_stop (child_data c))) in
  if u_out r =? 0 then (λ _, NoFuel) else ret tt.
Definition free_child (c_it : Z) (c : pthread_list) : M process unit :=
  free_element c_it (λ p, set_children (delete c_it (children p)) p).

Definition stop_server (fuel : nat) : M process unit :=
  let* data := get_data in
  let* _ := loop fuel close_body (current data) in
  let* data := get_data in
  child_walk fuel ask_stop (childs data) ;;
  child_walk fuel join_child (childs data) ;;
  child_walk fuel free_child (childs data).

Definition run_server (fuel : nat) (events : list event) (port page_count init private : Z) : M process Z :=
  let* killer := ask Calloc in
  if u_ret killer =? 0 then ret (-1) else
  let* event := ask Calloc in
  if u_ret event =? 0 then ask_ (Free (u_ret killer)) ;; ret (-1) else
  let* data := ask Calloc in
  if u_ret data =? 0 then ask_ (Free (u_ret killer)) ;; ask_ (Free (u_ret event)) ;; ret (-1) else
  modify (set_server (InternalData page_count private init 0 0)) ;;
  let* server_fd := ask Socket in
  (if u_ret server_fd <? 0 then ret tt else
   let* bound := ask (Bind (u16 port)) in
   (if u_ret bound <? 0 then ret tt else
    ev_loop fuel events ;;
    stop_server fuel) ;;
   ask_ (Shutdown (u_ret server_fd))) ;;
  ask_ (Free (u_ret data)) ;;
  ask_ (Free (u_ret event)) ;;
  ask_ (Free (u_ret killer)) ;;
  ret 0.
End Server.
