(* ===== verification/Client.v ===== *)
(** The client (client_lib.c): the handshake seen from the side that asks for it,
    and running a handler on the two pipes. *)
From S2P Require Import Prelude Abi Ring PipeDefs PipeApi Udp Process.
From stdpp Require Import gmap.
Open Scope Z_scope.
Open Scope c_scope.

Section Client.
Context `{!UdpEnv}.

(** The labels [shutdown_socket], [clean_receive_fd], [clean_send_fd] and
    [cancel_server]; the result is -1 throughout. *)
Definition shutdown_socket (fd : Z) : M process Z :=
  ask_ (Shutdown fd) ;; ret (-1).
Definition clean_receive_fd (fd receive : Z) : M process Z :=
  pipe_free receive ;; shutdown_socket fd.
Definition clean_send_fd (fd receive send : Z) : M process Z :=
  pipe_free send ;; clean_receive_fd fd receive.
Definition cancel_server (fd receive send : Z) (buffer : list Z) (port addr : Z) : M process Z :=
  let buffer := put header_message XEN_SHM_UDP_PROTO_CLIENT_RESET buffer in
  ask_ (SendTo (take (Z.to_nat sizeof_header) buffer) port addr) ;;
  clean_send_fd fd receive send.

(** From the server's answer on: [len] bytes were received. *)
Definition answer_grant (fd receive send : Z) (buffer : list Z) (len port addr proposed : Z) : M process Z :=
  let cancel := λ buffer, cancel_server fd receive send buffer port addr in
  if fetch header_message buffer =? XEN_SHM_UDP_PROTO_SERVER_RESET then cancel buffer else
  if negb (fetch header_message buffer =? XEN_SHM_UDP_PROTO_SERVER_GRANT) then cancel buffer else
  if len <? sizeof_grant then cancel buffer else
  if fetch grant_mode buffer =? XEN_SHM_UDP_PROTO_GRANT_MODE_WRITER_OFFERER then cancel buffer else
  if negb (fetch grant_mode buffer =? XEN_SHM_UDP_PROTO_GRANT_MODE_READER_OFFERER) then cancel buffer else
  let* ret_ := on_pipe send (λ E, xen_shm_pipe_connect (fetch grant_page_count buffer)
    (fetch grant_domid buffer) (fetch grant_grant_ref buffer)) in
  if negb (ret_ =? 0) then cancel buffer else
  let* r := on_pipe receive (λ E, xen_shm_pipe_offers proposed (fetch grant_domid buffer)) in
  match r with
  | (_, None) => cancel buffer
  | (_, Some (domid, ref)) =>
      let buffer := put grant_grant_ref ref (put grant_domid domid buffer) in
      let buffer := put header_message XEN_SHM_UDP_PROTO_CLIENT_GRANT buffer in
      let buffer := put grant_page_count proposed buffer in
      let* l := ask (SendTo (take (Z.to_nat sizeof_grant) buffer) port addr) in
      if u_ret l <? 0 then cancel buffer else
      if negb (u_ret l =? sizeof_grant) then cancel buffer else
      ask_ (Shutdown fd) ;; ret 0
  end.

(** From the first message on. *)
Definition ask_server (fd receive send : Z) (buffer : list Z) (port addr proposed : Z) : M process Z :=
  let* l := ask (SendTo (take (Z.to_nat sizeof_client_hello) buffer) port addr) in
  if u_ret l <? 0 then cancel_server fd receive send buffer port addr else
  if negb (u_ret l =? sizeof_client_hello) then cancel_server fd receive send buffer port addr else
  let* l := ask Recv in
  if u_ret l <=? 0 then cancel_server fd receive send buffer port addr else
  answer_grant fd receive send (poke buffer 0 (u_bytes l)) (u_ret l) port addr proposed.

(** The result, and [*receive_fd] and [*send_fd] when they are written. *)
Definition init_pipe (port addr proposed : Z) : M process (Z * option Z * option Z) :=
  let* fd := ask Socket in
  let fd := u_ret fd in
  if fd <? 0 then ret (-1, None, None) else
  let buffer := replicate (Z.to_nat XEN_SHM_UDP_PROTO_MAX_LEN) 0 in
  let* r := pipe_init xen_shm_pipe_mod_read xen_shm_pipe_conv_reader_offers in
  match r with
  | (_, None) => let* r := shutdown_socket fd in ret (r, None, None)
  | (_, Some receive) =>
      let* r := pipe_init xen_shm_pipe_mod_write xen_shm_pipe_conv_reader_offers in
      match r with
      | (_, None) => let* r := clean_receive_fd fd receive in ret (r, Some receive, None)
      | (_, Some send) =>
          let buffer := put header_version XEN_SHM_UDP_PROTO_VERSION buffer in
          let buffer := put header_message XEN_SHM_UDP_PROTO_CLIENT_HELLO buffer in
          let* r := on_pipe send (λ E, xen_shm_pipe_getdomid) in
          let* r :=
            match r with
            | (_, None) => clean_send_fd fd receive send
            | (_, Some domid) => ask_server fd receive send (put hello_domid domid buffer) port addr proposed
            end in
          ret (r, Some receive, Some send)
      end
  end.

(** The call fills the members of the handler's data it writes. *)
Definition fill (receive send : option Z) (h : handler_data) : handler_data :=
  HandlerData (default (hd_receive_fd h) receive) (default (hd_send_fd h) send) (hd_stop h) (hd_private_data h).

(** The result, and the handler's data, which is at [hdlr_addr]. *)
Definition run_client_thread (port addr proposed handler_fct hdlr_addr : Z) (hdlr_data : handler_data) :
    M process (Z * handler_data) :=
  let hdlr_data := set_hd_stop 0 hdlr_data in
  let* r := init_pipe port addr proposed in
  let '(ret_, receive, send) := r in
  let hdlr_data := fill receive send hdlr_data in
  if negb (ret_ =? 0) then ret (ret_, hdlr_data) else
  let* t := ask (PthreadCreate handler_fct hdlr_addr) in
  if negb (u_ret t =? 0) then
    pipe_free (hd_receive_fd hdlr_data) ;;
    pipe_free (hd_send_fd hdlr_data) ;;
    ret (u_ret t, hdlr_data)
  else ret (0, hdlr_data).

(** The result, the handler's data, and what the handler returned. *)
Definition run_client (port addr proposed handler_fct : Z) (hdlr_data : handler_data) :
    M process (Z * handler_data * option Z) :=
  let hdlr_data := set_hd_stop 0 hdlr_data in
  let* r := init_pipe port addr proposed in
  let '(ret_, receive, send) := r in
  let hdlr_data := fill receive send hdlr_data in
  if negb (ret_ =? 0) then ret (ret_, hdlr_data, None) else
  let* v := ask (RunHandler handler_fct hdlr_data) in
  ret (0, hdlr_data, Some (u_ret v)).
End Client.
