(* ===== verification/ProcessSpecs.v ===== *)
(** Rules for the operations of a process: pipes stay alive until they are freed,
    whatever the module answers and the other end does; linked lists of elements
    as lists. *)
From S2P Require Import Prelude Abi Ring PipeDefs PipeSide PipeApi PipeStream PipeLife Udp Process.
From stdpp Require Import gmap.
Open Scope Z_scope.
Open Scope c_scope.

(** ** Pipes that stay alive *)

Definition lives {A} (m : M world A) : Prop :=
  ∀ w, live w = true → wp m (λ _ w', live w' = true) w.

Create HintDb lives.

Section Lives.
Context `{!PipeEnv}.

Lemma lives_ret {A} (a : A) : lives (ret a).
Proof. by intros w Hw. Qed.
Lemma lives_bind {A B} (m : M world A) (k : A → M world B) : lives m → (∀ a, lives (k a)) → lives (bind m k).
Proof. intros Hm Hk w Hw. apply wp_bind. eapply wp_mono; [by apply Hm|]. intros a w' Hw'. by apply Hk. Qed.
Lemma lives_if {A} (b : bool) (m1 m2 : M world A) : lives m1 → lives m2 → lives (if b then m1 else m2).
Proof. by destruct b. Qed.
Lemma lives_load {A} (f : pipe_shared → A) : lives (load f).
Proof. by intros w Hw. Qed.
Lemma lives_store f : lives (store f).
Proof. by intros w Hw. Qed.
Lemma lives_sys c : lives (sys c).
Proof. intros w Hw. unfold wp, sys, bind, interfere. simpl. by case_match. Qed.
Lemma lives_get_priv : lives get_priv.
Proof. intros w Hw. unfold wp, get_priv. by rewrite Hw. Qed.
Lemma lives_put_priv f : lives (put_priv f).
Proof. intros w Hw. unfold wp, put_priv. by rewrite Hw. Qed.
Lemma lives_error e : lives (error e).
Proof. by intros w Hw. Qed.
Lemma lives_flags_or_of fw m : lives (flags_or_of fw m).
Proof. by intros w Hw. Qed.
End Lives.

#[export] Hint Resolve lives_ret lives_if lives_load lives_store lives_sys lives_get_priv lives_put_priv
  lives_error lives_flags_or_of : lives.
#[export] Hint Extern 2 (lives (bind _ _)) => apply lives_bind; [|intros ?] : lives.

Section Operations.
Context `{!PipeEnv}.

Lemma lives_map n : lives (__xen_shm_pipe_map_shared_memory n).
Proof. unfold __xen_shm_pipe_map_shared_memory. auto 20 with lives. Qed.
Hint Resolve lives_map : lives.

Lemma lives_offers n d : lives (xen_shm_pipe_offers n d).
Proof. unfold xen_shm_pipe_offers, set_pipe_sizes. auto 30 with lives. Qed.
Lemma lives_connect n d r : lives (xen_shm_pipe_connect n d r).
Proof. unfold xen_shm_pipe_connect, set_pipe_sizes. auto 30 with lives. Qed.
Lemma lives_getdomid : lives xen_shm_pipe_getdomid.
Proof. unfold xen_shm_pipe_getdomid. auto 30 with lives. Qed.

(** Freeing a pipe that is alive ends its life, whatever the module answers. *)
Lemma wp_free_alive w : live w = true → wp xen_shm_pipe_free (λ _ w', live w' = false) w.
Proof.
  intros Hw. apply wp_bind. eapply wp_mono; [by apply lives_get_priv|]. intros p w1 H1.
  apply wp_bind. apply (wp_mono _ (λ _ w', live w' = true)).
  { apply wp_when; [intros _|done].
    assert (lives (flags_or_of (__xen_shm_pipe_get_flags p true) XSHMP_CLOSED ;;
      let* _ := sys (SysMunmap (shared p) (u64 (buffer_size p + sizeof_shared))) in ret tt)) as Hl by auto with lives.
    by apply Hl. }
  intros _ w2 H2. apply wp_bind. eapply wp_mono; [by apply lives_sys|]. intros ? w3 H3.
  apply wp_bind. eapply wp_mono; [by apply lives_sys|]. intros ? w4 H4. by apply wp_modify.
Qed.

(** A pipe that was initialised. *)
Definition initialised (m : xen_shm_pipe_mod) (c : xen_shm_pipe_conv) (w : world) : Prop :=
  live w = true ∧ pmod (priv w) = m ∧ conv (priv w) = c ∧ shared (priv w) = 0.

Lemma wp_init_outcomes mem m c w :
  wp (xen_shm_pipe_init mem m c) (λ r w', r = 0 → initialised m c w') w.
Proof.
  apply wp_bind. apply (wp_mono _ (λ _ _, True)); [unfold wp, sys, bind, interfere; done|].
  intros a w1 _. apply wp_if; intros _.
  { apply wp_bind, wp_modify, wp_ret. lia. }
  apply wp_bind, wp_modify. apply wp_bind. eapply wp_mono; [by apply lives_sys|]. intros b w3 H3.
  apply wp_bind, wp_put_priv_live; [done|]. apply wp_bind, wp_get_priv; [done|].
  apply wp_if; intros _.
  - apply wp_bind, wp_bind. eapply wp_mono; [by apply lives_sys|]. intros ? w4 H4.
    apply wp_modify, wp_bind, wp_modify, wp_ret. lia.
  - apply wp_bind, wp_put_priv_live; [done|]. by apply wp_ret.
Qed.
End Operations.

(** ** Accesses *)

Section ProcessRules.
Context `{!UdpEnv}.

(** The state once [c] was asked. *)
Definition asked (c : ucall) (p : process) : process :=
  set_uclock (S (uclock p)) (set_utrace ((c, udp (uclock p) c) :: utrace p) p).

Lemma wp_ask c Q p : Q (udp (uclock p) c) (asked c p) → wp (ask c) Q p.
Proof. exact id. Qed.
Lemma wp_ask_ c Q p : Q tt (asked c p) → wp (ask_ c) Q p.
Proof. exact id. Qed.

Lemma wp_deref {A} (heap : process → gmap Z A) a x Q p :
  a ≠ 0 → heap p !! a = Some x → Q x p → wp (deref heap a) Q p.
Proof. intros Ha Hx HQ. unfold wp, deref. by rewrite (proj2 (Z.eqb_neq _ _) Ha), Hx. Qed.

Lemma wp_put_opening a f x Q p :
  a ≠ 0 → openings p !! a = Some x → Q tt (set_openings (<[a := f x]> (openings p)) p) → wp (put_opening a f) Q p.
Proof. intros Ha Hx HQ. apply wp_bind, (wp_deref _ _ x); [done|done|]. by apply wp_modify. Qed.
Lemma wp_put_child a f x Q p :
  a ≠ 0 → children p !! a = Some x → Q tt (set_children (<[a := f x]> (children p)) p) → wp (put_child a f) Q p.
Proof. intros Ha Hx HQ. apply wp_bind, (wp_deref _ _ x); [done|done|]. by apply wp_modify. Qed.

(** *** Pipes *)

Definition alive (h : Z) (p : process) : Prop :=
  h ≠ 0 ∧ ∃ w, pipes p !! h = Some w ∧ live w = true.
Definition freed (h : Z) (p : process) : Prop :=
  ∃ w, pipes p !! h = Some w ∧ live w = false.

(** Pipe [h] is now [w]. *)
Definition with_pipe (h : Z) (w : world) (p : process) : process := set_pipes (<[h := w]> (pipes p)) p.

Lemma alive_with h h' w p : alive h p → live w = true ∨ h ≠ h' → alive h (with_pipe h' w p).
Proof.
  intros [Hh (w0 & Hw & Hl)] Hor. split; [done|]. destruct (decide (h = h')) as [->|Hne].
  - exists w. destruct Hor; [|done]. split; [by apply lookup_insert_eq | done].
  - exists w0. split; [unfold with_pipe; simpl; by rewrite lookup_insert_ne | done].
Qed.
Lemma alive_new h w p : h ≠ 0 → live w = true → alive h (with_pipe h w p).
Proof. intros. split; [done|]. exists w. split; [apply lookup_insert_eq | done]. Qed.
Lemma freed_new h w p : live w = false → freed h (with_pipe h w p).
Proof. intros. exists w. split; [apply lookup_insert_eq | done]. Qed.
Lemma freed_with h h' w p : freed h p → live w = false ∨ h ≠ h' → freed h (with_pipe h' w p).
Proof.
  intros (w0 & Hw & Hl) Hor. destruct (decide (h = h')) as [->|Hne].
  - destruct Hor; [|done]. by apply freed_new.
  - exists w0. split; [unfold with_pipe; simpl; by rewrite lookup_insert_ne | done].
Qed.

Lemma wp_on_pipe {A} h (f : PipeEnv → M world A) Q w p :
  h ≠ 0 → pipes p !! h = Some w →
  wp (f (pipe_env h)) (λ a w', Q a (with_pipe h w' p)) w → wp (on_pipe h f) Q p.
Proof.
  intros Hh Hw HQ. unfold wp, on_pipe in *. rewrite (proj2 (Z.eqb_neq _ _) Hh), Hw. by case_match.
Qed.

Lemma wp_on_alive {A} h (f : PipeEnv → M world A) Q p :
  alive h p → lives (f (pipe_env h)) →
  (∀ a w, live w = true → Q a (with_pipe h w p)) → wp (on_pipe h f) Q p.
Proof.
  intros [Hh (w & Hw & Hl)] Hf HQ. apply (wp_on_pipe _ _ _ w); [done|done|].
  eapply wp_mono; [by apply Hf|]. auto.
Qed.

Lemma wp_pipe_free h Q p :
  alive h p → (∀ w, live w = false → Q tt (with_pipe h w p)) → wp (pipe_free h) Q p.
Proof.
  intros [Hh (w & Hw & Hl)] HQ. apply (wp_on_pipe _ _ _ w); [done|done|].
  eapply wp_mono; [by apply wp_free_alive|]. intros [] w' ?. by apply HQ.
Qed.

(** A pipe that was freed is not touched again without a fault. *)
Lemma freed_free_faults h p : h ≠ 0 → freed h p → pipe_free h p = Fault UseAfterFree.
Proof.
  intros Hh (w & Hw & Hl). unfold pipe_free, on_pipe. rewrite (proj2 (Z.eqb_neq _ _) Hh), Hw.
  destruct (freed_faults (H := pipe_env h) w Hl) as (_ & _ & _ & _ & _ & ->). done.
Qed.

Definition ticked (p : process) : process := set_uclock (S (uclock p)) p.

Lemma wp_pipe_init m c Q p :
  (∀ r, Q (r, None) (ticked p)) →
  (∀ w, initialised m c w →
     Q (0, Some (new_pipe (uclock p)).1) (with_pipe (new_pipe (uclock p)).1 w (ticked p))) →
  wp (pipe_init m c) Q p.
Proof.
  intros H1 H2. unfold wp, pipe_init. destruct (new_pipe (uclock p)) as [h w] eqn:E. simpl in H2.
  pose proof (wp_init_outcomes (H := pipe_env h) (priv w) m c w) as Hi. unfold wp in Hi.
  destruct (xen_shm_pipe_init (priv w) m c w) as [r w'| |]; [|done|done].
  destruct (Z.eqb_spec r 0) as [->|Hne]; [|by apply H1]. apply H2. auto.
Qed.
End ProcessRules.

(** ** Linked lists *)

(** The elements of a list in a heap, first to last: [node e n] is what the element
    [e] holds when the next one is at [n]. *)
Section Chain.
Context {A E : Type} (addr : E → Z) (node : E → Z → A).

Definition first (l : list E) : Z := match l with [] => 0 | e :: _ => addr e end.
Fixpoint chain (heap : gmap Z A) (l : list E) : Prop :=
  match l with
  | [] => True
  | e :: l => addr e ≠ 0 ∧ heap !! addr e = Some (node e (first l)) ∧ chain heap l
  end.
(** The list at [a]. *)
Definition linked (heap : gmap Z A) (a : Z) (l : list E) : Prop :=
  a = first l ∧ NoDup (addr <$> l) ∧ chain heap l.

Lemma chain_ne heap heap' l :
  (∀ e, e ∈ l → heap' !! addr e = heap !! addr e) → chain heap l → chain heap' l.
Proof.
  induction l as [|e l IH]; [done|]. intros Hin (H0 & H1 & H2). split_and!; [done | |].
  - rewrite Hin; [done | apply list_elem_of_here].
  - apply IH; [|done]. intros e' He'. apply Hin. by apply list_elem_of_further.
Qed.

Lemma chain_insert heap a x l : a ∉ addr <$> l → chain heap l → chain (<[a := x]> heap) l.
Proof.
  intros Ha. apply chain_ne. intros e He. apply lookup_insert_ne. intros ->. apply Ha.
  by apply list_elem_of_fmap_2.
Qed.
Lemma chain_delete heap a l : a ∉ addr <$> l → chain heap l → chain (delete a heap) l.
Proof.
  intros Ha. apply chain_ne. intros e He. apply lookup_delete_ne. intros ->. apply Ha.
  by apply list_elem_of_fmap_2.
Qed.

Lemma chain_app heap l1 l2 : chain heap (l1 ++ l2) → chain heap l2.
Proof. induction l1 as [|e l1 IH]; [done|]. intros (_ & _ & H). by apply IH. Qed.
Lemma chain_at heap l1 e l2 :
  chain heap (l1 ++ e :: l2) → addr e ≠ 0 ∧ heap !! addr e = Some (node e (first l2)).
Proof. intros H%chain_app. by destruct H as (? & ? & _). Qed.

Lemma linked_not_in heap a l b : linked heap a l → heap !! b = None → b ∉ addr <$> l.
Proof.
  intros (_ & _ & Hc) Hb (e & -> & (l1 & l2 & ->)%list_elem_of_split)%list_elem_of_fmap.
  apply chain_at in Hc as [_ Hc]. congruence.
Qed.

(** An element added at the head. *)
Lemma linked_cons heap a l e :
  linked heap a l → heap !! addr e = None → addr e ≠ 0 →
  linked (<[addr e := node e a]> heap) (addr e) (e :: l).
Proof.
  intros Hl Hn H0. pose proof (linked_not_in _ _ _ _ Hl Hn) as Hin. destruct Hl as (-> & Hd & Hc).
  split_and!; [done | by constructor |]. split_and!; [done | apply lookup_insert_eq | by apply chain_insert].
Qed.

(** An element unlinked, which is not the first. *)
Lemma linked_unlink heap a l1 e0 e l2 :
  linked heap a (l1 ++ e0 :: e :: l2) →
  linked (delete (addr e) (<[addr e0 := node e0 (first l2)]> heap)) a (l1 ++ e0 :: l2).
Proof.
  intros (-> & Hd & Hc). rewrite fmap_app, !fmap_cons in Hd.
  apply NoDup_app in Hd as (Hd1 & Hd12 & Hd2). apply NoDup_cons in Hd2 as [He0 Hd2].
  apply NoDup_cons in Hd2 as [He Hd2]. apply not_elem_of_cons in He0 as [Hne He0].
  assert (∀ x, x ∈ addr <$> l1 → x ≠ addr e0 ∧ x ≠ addr e) as H1.
  { intros x Hx. specialize (Hd12 x Hx). set_solver. }
  split_and!.
  - by destruct l1.
  - rewrite fmap_app, fmap_cons. apply NoDup_app. split_and!; [done | | by constructor].
    intros x Hx. specialize (Hd12 x Hx). set_solver.
  - induction l1 as [|b l1 IH].
    + simpl in Hc. destruct Hc as (Ha & _ & _ & _ & Hc). simpl. split_and!; [done | |].
      * rewrite lookup_delete_ne by done. apply lookup_insert_eq.
      * apply chain_delete; [done|]. by apply chain_insert.
    + simpl in Hc. destruct Hc as (Hb & Hh & Hc). rewrite fmap_cons in Hd1. apply NoDup_cons in Hd1 as [Hb1 Hd1].
      destruct (H1 (addr b)) as [? ?]; [simpl; apply list_elem_of_here|].
      simpl. split_and!; [done | |].
      * rewrite lookup_delete_ne, lookup_insert_ne by done. rewrite Hh. by destruct l1.
      * apply IH; [done | | done |]; intros x Hx; [apply Hd12 | apply H1]; simpl; by apply list_elem_of_further.
Qed.
End Chain.

(** [free_element] of an element that is there. *)
Lemma wp_free_element `{!UdpEnv} a remove Q p :
  a ≠ 0 → Q tt (remove (asked (Free a) p)) → wp (free_element a remove) Q p.
Proof.
  intros Ha HQ. apply wp_bind, wp_ask_. rewrite (proj2 (Z.eqb_neq _ _) Ha). by apply wp_modify.
Qed.
