(* ===== verification/ServerSpecs.v ===== *)
(** What the server keeps: its lists as lists of connections and of threads, and
    the effect of each message on them. *)
From S2P Require Import Prelude Abi Ring PipeDefs PipeApi Udp Process Server ProcessSpecs.
From stdpp Require Import gmap.
Open Scope Z_scope.
Open Scope c_scope.

(** ** The lists *)

(** A connection that was offered and a thread that was started, at their addresses. *)
Record connection := Connection {
  op_addr : Z;
  op_port : Z;
  op_from : Z;
  op_fd : Z;
}.
Record thread := Thread {
  th_addr : Z;
  th_child : Z;
  th_data : handler_data;
}.
Definition opening_node (e : connection) (n : Z) : opening_list := OpeningList (op_port e) (op_from e) (op_fd e) n.
Definition thread_node (c : thread) (n : Z) : pthread_list := PthreadList (th_child c) n (th_data c).

(** The connection is the one of this source. *)
Definition serves (port from : Z) (e : connection) : bool := (op_port e =? port) && (op_from e =? from).

Section ServerSpecs.
Context `{!UdpEnv}.

(** The server's state is the connections [lo] and the threads [lc], newest first;
    each connection has a pipe of its own. *)
Record server_ok (p : process) (lo : list connection) (lc : list thread) : Prop := {
  so_openings : linked op_addr opening_node (openings p) (current (server p)) lo;
  so_children : linked th_addr thread_node (children p) (childs (server p)) lc;
  so_alive : ∀ e, e ∈ lo → alive (op_fd e) p;
  so_distinct : NoDup (op_fd <$> lo);
}.

(** [malloc] and [calloc] give addresses of nothing that is there. *)
Definition alloc_fresh (p : process) : Prop :=
  ∀ t, (uclock p ≤ t)%nat →
    (new_pipe t).1 ≠ 0 ∧ ¬ alive (new_pipe t).1 p ∧
    openings p !! u_ret (udp t Calloc) = None ∧ children p !! u_ret (udp t Calloc) = None.

(** ** Looking up and unlinking *)

Lemma find_loop n port from p l :
  chain op_addr opening_node (openings p) l → (length l < n)%nat →
  loop n (find_body port from) (first op_addr l) p =
    Done (inl (from_option op_addr 0 (List.find (serves port from) l))) p.
Proof.
  revert n. induction l as [|e l IH]; intros [|n] Hc Hn; simpl in Hn; try lia; [done|].
  destruct Hc as (H0 & Hh & Hc). cbn [loop first List.find].
  unfold bind at 1, find_body, get_opening, deref, bind at 1. rewrite !(proj2 (Z.eqb_neq _ _) H0), Hh.
  change ((distant_port (opening_node e (first op_addr l)) =? port) &&
    (distant_addr (opening_node e (first op_addr l)) =? from)) with (serves port from e).
  destruct (serves port from e); [done|]. apply IH; [done | lia].
Qed.

(** [find_opening] is the first connection of the source, and changes nothing. *)
Lemma find_opening_eq fuel port from p lo :
  linked op_addr opening_node (openings p) (current (server p)) lo → (length lo < fuel)%nat →
  find_opening fuel port from p = Done (from_option op_addr 0 (List.find (serves port from) lo)) p.
Proof.
  intros (Ha & _ & Hc) Hn. unfold find_opening, get_data, bind at 1. rewrite Ha.
  unfold bind. by rewrite find_loop.
Qed.

(** The connection [e0] is now followed by what [l] starts with. *)
Definition relinked (e0 : connection) (l : list connection) (p : process) : process :=
  set_openings (<[op_addr e0 := opening_node e0 (first op_addr l)]> (openings p)) p.
Definition without_opening (a : Z) (p : process) : process :=
  set_openings (delete a (openings p)) (asked (Free a) p).

Lemma unlink_loop n e0 e l1 l2 p :
  NoDup (op_addr <$> l1 ++ e0 :: e :: l2) → chain op_addr opening_node (openings p) (l1 ++ e0 :: e :: l2) →
  (length l1 < n)%nat →
  loop n (unlink_body (op_addr e)) (first op_addr (l1 ++ e0 :: e :: l2)) p =
    Done (inl (op_addr e0)) (relinked e0 l2 p).
Proof.
  revert n. induction l1 as [|b l1 IH]; intros [|n] Hd Hc Hn; simpl in Hn; try lia.
  - destruct Hc as (H0 & Hh0 & H1 & Hh1 & _). cbn [loop first app].
    unfold bind at 1, unlink_body, get_opening, deref, bind at 1.
    rewrite (proj2 (Z.eqb_neq _ _) H0), Hh0. cbn [opening_node opening_next first].
    rewrite (proj2 (Z.eqb_neq _ _) H1), Z.eqb_refl. unfold bind at 1. rewrite Hh1.
    unfold put_opening, get_opening, deref, modify, bind. rewrite (proj2 (Z.eqb_neq _ _) H0), Hh0. done.
  - destruct Hc as (H0 & Hh & Hc). change ((b :: l1) ++ e0 :: e :: l2) with (b :: (l1 ++ e0 :: e :: l2)) in Hd.
    rewrite fmap_cons in Hd. apply NoDup_cons in Hd as [Hb Hd].
    assert (first op_addr (l1 ++ e0 :: e :: l2) ≠ 0) as Hz by (destruct l1; apply Hc).
    assert (first op_addr (l1 ++ e0 :: e :: l2) ≠ op_addr e) as Hne.
    { destruct l1 as [|b' l1]; cbn in Hd |- *; apply NoDup_cons in Hd as [Hin _]; intros E; apply Hin;
        rewrite E; set_solver. }
    change ((b :: l1) ++ e0 :: e :: l2) with (b :: (l1 ++ e0 :: e :: l2)). cbn [loop first].
    unfold bind at 1, unlink_body, get_opening, deref, bind at 1.
    rewrite (proj2 (Z.eqb_neq _ _) H0), Hh. cbn [opening_node opening_next].
    rewrite (proj2 (Z.eqb_neq _ _) Hz), (proj2 (Z.eqb_neq _ _) Hne). apply IH; [done | done | lia].
Qed.

Lemma last_loop n o l p :
  l ≠ [] → chain op_addr opening_node (openings p) l → o ∉ tail (op_addr <$> l) → (length l ≤ n)%nat →
  ∃ a, loop n (unlink_body o) (first op_addr l) p = Done (inl a) p.
Proof.
  revert n. induction l as [|e l IH]; intros [|n] Hl Hc Ho Hn; simpl in Hn; try (done || lia).
  destruct Hc as (H0 & Hh & Hc). cbn [loop first]. unfold bind at 1, unlink_body, get_opening, deref, bind at 1.
  rewrite (proj2 (Z.eqb_neq _ _) H0), Hh. cbn [opening_node opening_next].
  destruct l as [|b l]; [by eexists|]. destruct Hc as (H1 & Hc).
  cbn [first]. rewrite (proj2 (Z.eqb_neq _ _) H1). simpl in Ho. apply not_elem_of_cons in Ho as [Hne Ho].
  rewrite (proj2 (Z.eqb_neq (op_addr b) o)) by congruence.
  apply (IH n); [done | by split | done | lia].
Qed.

(** [free_opening] of a connection that is not the newest unlinks it. *)
Lemma wp_free_opening fuel e0 e l1 l2 Q p :
  linked op_addr opening_node (openings p) (current (server p)) (l1 ++ e0 :: e :: l2) →
  (length (l1 ++ e0 :: e :: l2) < fuel)%nat →
  Q tt (without_opening (op_addr e) (relinked e0 l2 p)) →
  wp (free_opening fuel (op_addr e)) Q p.
Proof.
  intros (Ha & Hd & Hc) Hn HQ. rewrite length_app in Hn. pose proof Hc as Hc'.
  replace (l1 ++ e0 :: e :: l2) with ((l1 ++ [e0]) ++ e :: l2) in Hc' by by rewrite <-app_assoc.
  apply chain_at in Hc' as [He _].
  unfold free_opening, get_data. apply wp_bind. unfold wp at 1. rewrite Ha.
  assert (first op_addr (l1 ++ e0 :: e :: l2) ≠ 0) as Hz by (destruct l1; apply Hc).
  rewrite (proj2 (Z.eqb_neq _ _) Hz). apply wp_bind. unfold wp at 1. rewrite unlink_loop by (done || lia).
  by apply wp_free_element.
Qed.

(** [free_opening] of the newest connection frees it and leaves it in the list. *)
Lemma wp_free_newest fuel e l Q p :
  linked op_addr opening_node (openings p) (current (server p)) (e :: l) →
  (length (e :: l) < fuel)%nat → Q tt (without_opening (op_addr e) p) →
  wp (free_opening fuel (op_addr e)) Q p.
Proof.
  intros (Ha & Hd & Hc) Hn HQ. destruct (last_loop fuel (op_addr e) (e :: l) p) as [a Hl];
    [done | done | by apply NoDup_cons in Hd as [? _] | lia |].
  destruct Hc as (H0 & _). unfold free_opening, get_data. apply wp_bind. unfold wp at 1. rewrite Ha.
  cbn [first]. rewrite (proj2 (Z.eqb_neq _ _) H0). apply wp_bind. unfold wp at 1.
  change (op_addr e) with (first op_addr (e :: l)) at 2. rewrite Hl. by apply wp_free_element.
Qed.
End ServerSpecs.
