(* ===== verification/ServerEvents.v ===== *)
(** The message handler keeps the server's state well formed, whatever the
    packet and whatever the module and the system answer, unless it frees the
    newest connection. *)
From S2P Require Import Prelude Abi Ring PipeDefs PipeApi Udp Process Server ProcessSpecs ServerSpecs.
From stdpp Require Import gmap.
Open Scope Z_scope.
Open Scope c_scope.

(** Solves what the reads of a map that was written at other addresses leave. *)
Ltac read_maps := rewrite ?lookup_insert_ne, ?lookup_delete_ne, ?lookup_insert_eq by congruence; try done.

Section ServerEvents.
Context `{!UdpEnv}.

(** Nothing the server knew was changed. *)
Record grows (p p' : process) : Prop := {
  gr_server : server p' = server p;
  gr_openings a x : openings p !! a = Some x → openings p' !! a = Some x;
  gr_children a x : children p !! a = Some x → children p' !! a = Some x;
  gr_alive h : alive h p → alive h p';
}.

Lemma chain_grows {A E} (addr : E → Z) (node : E → Z → A) heap heap' l :
  (∀ a x, heap !! a = Some x → heap' !! a = Some x) → chain addr node heap l → chain addr node heap' l.
Proof.
  intros Hg. induction l as [|e l IH]; [done|]. intros (H0 & H1 & H2). split_and!; [done | by apply Hg | by apply IH].
Qed.

Lemma linked_grows {A E} (addr : E → Z) (node : E → Z → A) heap heap' a l :
  (∀ a x, heap !! a = Some x → heap' !! a = Some x) → linked addr node heap a l → linked addr node heap' a l.
Proof. intros Hg (? & ? & ?). split_and!; [done..|]. by eapply chain_grows. Qed.

Lemma server_ok_grows p p' lo lc : grows p p' → server_ok p lo lc → server_ok p' lo lc.
Proof.
  intros [Hs Ho Hc Ha] [H1 H2 H3 H4]. constructor; rewrite ?Hs; [by eapply linked_grows | by eapply linked_grows | auto | done].
Qed.

Lemma grows_trans p1 p2 p3 : grows p1 p2 → grows p2 p3 → grows p1 p3.
Proof. intros [] []. constructor; [congruence | auto ..]. Qed.
Lemma grows_refl p : grows p p.
Proof. by constructor. Qed.
Lemma grows_asked c p : grows p (asked c p).
Proof. by constructor. Qed.
Lemma grows_ticked p : grows p (ticked p).
Proof. by constructor. Qed.
Lemma grows_with_pipe h w p : live w = true ∨ ¬ alive h p → grows p (with_pipe h w p).
Proof.
  intros Hor. constructor; [done..|]. intros h' Ha. apply alive_with; [done|].
  destruct Hor; [by left | right; by intros ->].
Qed.
Lemma grows_opening a x p : openings p !! a = None → grows p (set_openings (<[a := x]> (openings p)) p).
Proof. intros Hn. constructor; [done | | done | done]. intros b y Hb. simpl. read_maps. Qed.
Lemma grows_child a x p : children p !! a = None → grows p (set_children (<[a := x]> (children p)) p).
Proof. intros Hn. constructor; [done | done | | done]. intros b y Hb. simpl. read_maps. Qed.

(** *** Allocation *)

Lemma wp_calloc_opening Q p :
  alloc_fresh p → (u_ret (udp (uclock p) Calloc) = 0 → Q 0 (asked Calloc p)) →
  (∀ a, a ≠ 0 → openings p !! a = None →
     Q a (set_openings (<[a := OpeningList 0 0 0 0]> (openings p)) (asked Calloc p))) →
  wp calloc_opening Q p.
Proof.
  intros Hf H0 H1. apply wp_bind, wp_ask, wp_if; intros Hz.
  - bool_hyps. apply wp_ret, H0, Hz.
  - bool_hyps. apply wp_bind, wp_modify, wp_ret, H1; [done|]. by destruct (Hf (uclock p)) as (_ & _ & ? & _).
Qed.
Lemma wp_calloc_child Q p :
  alloc_fresh p → (u_ret (udp (uclock p) Calloc) = 0 → Q 0 (asked Calloc p)) →
  (∀ a, a ≠ 0 → children p !! a = None →
     Q a (set_children (<[a := PthreadList 0 0 (HandlerData 0 0 0 0)]> (children p)) (asked Calloc p))) →
  wp calloc_child Q p.
Proof.
  intros Hf H0 H1. apply wp_bind, wp_ask, wp_if; intros Hz.
  - bool_hyps. apply wp_ret, H0, Hz.
  - bool_hyps. apply wp_bind, wp_modify, wp_ret, H1; [done|]. by destruct (Hf (uclock p)) as (_ & _ & _ & ?).
Qed.

(** Initialising a pipe: nothing, or a pipe of a new address. *)
Lemma wp_pipe_init_fresh m c Q p :
  (∀ r, Q (r, None) (ticked p)) →
  (∀ h w, h = (new_pipe (uclock p)).1 → initialised m c w → Q (0, Some h) (with_pipe h w (ticked p))) →
  wp (pipe_init m c) Q p.
Proof. intros H1 H2. apply wp_pipe_init; [done|]. intros w Hw. by apply H2. Qed.

(** A pipe that was not known is known to nobody once it is freed. *)
Lemma wp_server_reset buffer port addr Q p :
  (∀ b, Q tt (asked (SendTo b port addr) p)) → wp (server_reset buffer port addr) Q p.
Proof. intros HQ. apply wp_ask_, HQ. Qed.

Lemma wp_get_data Q p : Q (server p) p → wp get_data Q p.
Proof. exact id. Qed.

(** *** CLIENT_HELLO *)

(** What a message from [port], [addr] may do to the connections and the threads. *)
Inductive lists_step (port addr : Z) (lo : list connection) (lc : list thread) :
    list connection → list thread → Prop :=
| Kept : lists_step port addr lo lc lo lc
| Opened e : serves port addr e = true → lists_step port addr lo lc (e :: lo) lc
| Started c : lists_step port addr lo lc lo (c :: lc)
| Closed l1 e0 e l2 : serves port addr e = true → lo = l1 ++ e0 :: e :: l2 →
    lists_step port addr lo lc (l1 ++ e0 :: l2) lc.

(** The server is well formed after such a step. *)
Definition stepped (port addr : Z) (lo : list connection) (lc : list thread) (p' : process) : Prop :=
  ∃ lo' lc', server_ok p' lo' lc' ∧ lists_step port addr lo lc lo' lc'.
(** The newest connection was freed and is still the first of the list. *)
Definition dangling (port addr : Z) (lo : list connection) (p' : process) : Prop :=
  ∃ e l, lo = e :: l ∧ serves port addr e = true ∧
    current (server p') = op_addr e ∧ op_addr e ≠ 0 ∧ openings p' !! op_addr e = None.

Lemma kept port addr lo lc p p' : server_ok p lo lc → grows p p' → stepped port addr lo lc p'.
Proof. intros Hok G. exists lo, lc. split; [by eapply server_ok_grows | constructor]. Qed.

(** A connection added at the head, with a new pipe. *)
Lemma server_ok_opened p q lo lc e w :
  server_ok p lo lc → op_addr e ≠ 0 → openings p !! op_addr e = None → op_fd e ≠ 0 → ¬ alive (op_fd e) p →
  openings q = <[op_addr e := opening_node e (current (server p))]> (openings p) →
  pipes q = <[op_fd e := w]> (pipes p) → live w = true → children q = children p →
  childs (server q) = childs (server p) → current (server q) = op_addr e →
  server_ok q (e :: lo) lc.
Proof.
  intros [H1 H2 H3 H4] Ha Hn Hh Hna Ho Hp Hl Hc Hcs Hcur. constructor.
  - rewrite Ho, Hcur. by apply linked_cons.
  - by rewrite Hc, Hcs.
  - intros x [->|Hx]%elem_of_cons.
    + split; [done|]. exists w. by rewrite Hp, lookup_insert_eq.
    + destruct (H3 x Hx) as [Hx0 (w0 & Hw0 & Hl0)]. split; [done|]. exists w0. split; [|done].
      assert (op_fd x ≠ op_fd e). { intros E. apply Hna. rewrite <-E. by apply H3. }
      rewrite Hp. read_maps.
  - rewrite fmap_cons. constructor; [|done]. intros (x & E & Hx)%list_elem_of_fmap. apply Hna. rewrite E. by apply H3.
Qed.

(** A thread added at the head. *)
Lemma server_ok_started p q lo lc c :
  server_ok p lo lc → grows p q → th_addr c ≠ 0 → children p !! th_addr c = None → ∀ p',
  children p' = <[th_addr c := thread_node c (childs (server p))]> (children p) →
  openings p' = openings q → pipes p' = pipes q → childs (server p') = th_addr c →
  current (server p') = current (server q) → server_ok p' lo (c :: lc).
Proof.
  intros Hok G Hc Hn p' Hch Ho Hp Hcs Hcur. destruct (server_ok_grows _ _ _ _ G Hok) as [H1 H2 H3 H4].
  constructor.
  - by rewrite Ho, Hcur.
  - rewrite Hch, Hcs. apply (linked_cons th_addr thread_node); [apply Hok | done | done].
  - intros e He. destruct (H3 e He) as [? (w & ? & ?)]. split; [done|]. exists w. by rewrite Hp.
  - done.
Qed.

Lemma wp_handle_client_hello buffer len port addr lo lc p :
  server_ok p lo lc → alloc_fresh p →
  wp (handle_client_hello buffer len port addr) (λ _ p', stepped port addr lo lc p') p.
Proof.
  intros Hok Hf. apply wp_if; intros _; [apply wp_ret; apply (kept _ _ _ _ p); [done | apply grows_refl]|].
  apply wp_bind, wp_calloc_opening; [done | intros _; apply (wp_ret tt), (kept _ _ _ _ p); [done | apply grows_asked]|]. intros a Ha Hn. rewrite (proj2 (Z.eqb_neq _ _) Ha).
  set (p1 := set_openings _ _).
  assert (grows p p1) as G1 by (apply (grows_trans _ (asked Calloc p)); [apply grows_asked | exact (grows_opening a _ (asked Calloc p) Hn)]).
  apply wp_bind, wp_pipe_init_fresh.
  { intros r. apply wp_server_reset. intros b. apply (kept _ _ _ _ p); [done|]. eapply grows_trans; [done|]. apply grows_trans with (ticked p1); [apply grows_ticked | apply grows_asked]. }
  intros h w -> (Hl & _). destruct (Hf (uclock p1)) as (Hh & Hna & _); [unfold p1; simpl; lia|].
  set (h := (new_pipe (uclock p1)).1) in *. set (p2 := with_pipe h w (ticked p1)).
  apply wp_bind, (wp_put_opening _ _ (OpeningList 0 0 0 0)); [done | apply lookup_insert_eq|].
  set (x := set_receive_fd h _). set (p3 := set_openings _ _).
  apply wp_bind, wp_get_data.
  apply wp_bind, wp_on_alive; [by apply alive_new | apply lives_offers|].
  intros [r [[dom ref]|]] w' Hl'.
  - apply wp_bind, (wp_put_opening _ _ x); [done | apply lookup_insert_eq|].
    apply wp_bind, (wp_put_opening _ _ (set_distant_port port x)); [done | apply lookup_insert_eq|].
    apply wp_bind, (wp_put_opening _ _ (set_distant_addr addr (set_distant_port port x))); [done | apply lookup_insert_eq|].
    apply wp_bind, wp_modify, wp_ask_. exists (Connection a port addr h :: lo), lc.
    split; [|apply Opened; unfold serves; by rewrite !Z.eqb_refl].
    eapply (server_ok_opened p _ lo lc _ w'); try done; simpl; [by rewrite !insert_insert_eq ..].
  - apply wp_bind, wp_pipe_free; [by apply alive_new|]. intros w'' Hl''.
    apply wp_server_reset. intros b. apply (kept _ _ _ _ p); [done|]. constructor; [done | | done |].
    + intros a0 x0 H0. simpl. read_maps.
    + intros h' Ha'. destruct Ha' as [Hz (w0 & Hw0 & Hl0)]. split; [done|]. exists w0. split; [|done]. simpl.
      assert (h' ≠ h). { intros ->. apply Hna. split; [done|]. by exists w0. }
      read_maps.
Qed.

(** *** CLIENT_RESET and CLIENT_GRANT *)

(** What is left of the server once [e] is freed. *)
Definition gone (l1 : list connection) (e : connection) (l2 : list connection) (lc : list thread)
    (p' : process) : Prop :=
  match l1 with
  | [] => current (server p') = op_addr e ∧ op_addr e ≠ 0 ∧ openings p' !! op_addr e = None
  | _ => server_ok p' (l1 ++ l2) lc
  end.

Lemma gone_result port addr l1 e l2 lc p' :
  serves port addr e = true → gone l1 e l2 lc p' →
  stepped port addr (l1 ++ e :: l2) lc p' ∨ dangling port addr (l1 ++ e :: l2) p'.
Proof.
  intros He Hg. destruct l1 as [|x l1 _] using rev_ind.
  - right. by exists e, l2.
  - left. exists (l1 ++ x :: l2), lc. rewrite <-app_assoc. split; [|by apply Closed with e].
    unfold gone in Hg. rewrite <-app_assoc in Hg. by destruct l1.
Qed.

Lemma gone_grows l1 e l2 lc p p' :
  gone l1 e l2 lc p → grows p p' → openings p' = openings p → gone l1 e l2 lc p'.
Proof.
  intros Hg G Ho. destruct l1 as [|x l1]; [|by eapply server_ok_grows].
  destruct Hg as (? & ? & ?). rewrite <-Ho in *. split_and!; [by rewrite (gr_server _ _ G) | done..].
Qed.

Lemma NoDup_remove (f : connection → Z) l1 e l2 :
  NoDup (f <$> l1 ++ e :: l2) → NoDup (f <$> l1 ++ l2) ∧ ∀ x, x ∈ l1 ++ l2 → f x ≠ f e.
Proof.
  rewrite !fmap_app, fmap_cons. intros Hd. rewrite <-Permutation_middle in Hd.
  apply NoDup_cons in Hd as [He Hd]. split; [done|]. intros x Hx E. apply He. rewrite <-E, <-fmap_app.
  by apply list_elem_of_fmap_2.
Qed.

(** Freeing a connection whose pipe is closed already. *)
Lemma wp_free_gone fuel l1 e l2 lc p :
  linked op_addr opening_node (openings p) (current (server p)) (l1 ++ e :: l2) →
  linked th_addr thread_node (children p) (childs (server p)) lc →
  NoDup (op_fd <$> l1 ++ e :: l2) → (∀ x, x ∈ l1 ++ l2 → alive (op_fd x) p) →
  (length (l1 ++ e :: l2) < fuel)%nat →
  wp (free_opening fuel (op_addr e)) (λ _ p', gone l1 e l2 lc p' ∧
    pipes p' = pipes p ∧ children p' = children p ∧ server p' = server p) p.
Proof.
  intros Hlo Hlc Hd Ha Hn. destruct l1 as [|e0 l1 _] using rev_ind.
  - apply wp_free_newest with l2; [done..|]. split_and!; [|done..]. destruct Hlo as (? & _ & H0 & _).
    split_and!; [done | done | apply lookup_delete_eq].
  - rewrite <-app_assoc in *. simpl in *. apply wp_free_opening with e0 l1 l2; [done..|].
    split_and!; [|done..]. assert (server_ok (without_opening (op_addr e) (relinked e0 l2 p)) (l1 ++ e0 :: l2) lc) as Hok.
    + constructor; [by apply (linked_unlink op_addr opening_node) | done | by exact Ha |].
      replace (l1 ++ e0 :: e :: l2) with ((l1 ++ [e0]) ++ e :: l2) in Hd by by rewrite <-app_assoc.
      apply NoDup_remove in Hd as [Hd _]. by rewrite <-app_assoc in Hd.
    + unfold gone. rewrite <-app_assoc. destruct l1; exact Hok.
Qed.

Lemma wp_free_o_new fuel l1 e l2 lc buffer port addr p :
  server_ok p (l1 ++ e :: l2) lc → (length (l1 ++ e :: l2) < fuel)%nat →
  wp (free_o_new fuel (op_addr e) buffer port addr)
    (λ _ p', gone l1 e l2 lc p' ∧ freed (op_fd e) p' ∧ server p' = server p ∧ children p' = children p) p.
Proof.
  intros [H1 H2 H3 H4] Hn. pose proof H1 as (_ & _ & Hc). apply chain_at in Hc as [He Hh].
  apply wp_bind, (wp_deref _ _ (opening_node e (first op_addr l2))); [done|done|].
  apply wp_bind, wp_pipe_free; [apply H3; set_solver|]. intros w Hw.
  destruct (NoDup_remove _ _ _ _ H4) as [Hd Hne].
  apply wp_bind. eapply wp_mono; [apply (wp_free_gone fuel l1 e l2 lc); [done|done|done| |done]|].
  { intros x Hx. apply alive_with; [apply H3; set_solver | right; by apply Hne]. }
  intros [] p' (Hg & Hp & Hc' & Hs). apply wp_server_reset. intros b. split_and!; [| |exact Hs|exact Hc'].
  - by eapply gone_grows; [|apply grows_asked|].
  - destruct (freed_new (op_fd e) w p Hw) as (w0 & Hw0 & Hl0). exists w0. split; [|done].
    simpl. by rewrite Hp.
Qed.

(** The handler's outcomes, from any state that kept what the server knew. *)
Definition event_result (port addr : Z) (lo : list connection) (lc : list thread) (p' : process) : Prop :=
  stepped port addr lo lc p' ∨ dangling port addr lo p'.

Lemma grows_delete_child c p p' :
  children p !! c = None → grows p p' → grows p (set_children (delete c (children p')) p').
Proof.
  intros Hc [G1 G2 G3 G4]. constructor; [done | done | | done].
  intros a x Ha. simpl. specialize (G3 a x Ha). read_maps.
Qed.

(** A thread's element and a pipe were added. *)
Lemma grows_child_pipe c h p q x y :
  children p !! c = None → ¬ alive h p → server q = server p → openings q = openings p →
  children q = <[c := x]> (children p) → pipes q = <[h := y]> (pipes p) → grows p q.
Proof.
  intros Hc Hh Hs Ho Hch Hp. constructor; [done | by rewrite Ho | |].
  - intros a z Hz. rewrite Hch. read_maps.
  - intros h' Ha. assert (h' ≠ h) by (by intros ->). destruct Ha as [? (w & ? & ?)].
    split; [done|]. exists w. rewrite Hp. split; [read_maps | done].
Qed.

Lemma wp_give_up fuel l1 e l2 lc buffer port addr p p' :
  server_ok p (l1 ++ e :: l2) lc → (length (l1 ++ e :: l2) < fuel)%nat → serves port addr e = true →
  grows p p' →
  wp (free_o_new fuel (op_addr e) buffer port addr)
    (λ _ p'', event_result port addr (l1 ++ e :: l2) lc p'') p'.
Proof.
  intros Hok Hn He G. eapply wp_mono; [apply (wp_free_o_new fuel l1 e l2 lc); [by eapply server_ok_grows | done]|].
  intros [] p'' (Hg & _). by apply gone_result.
Qed.

Lemma wp_give_up_child fuel c l1 e l2 lc buffer port addr p p' :
  server_ok p (l1 ++ e :: l2) lc → (length (l1 ++ e :: l2) < fuel)%nat → serves port addr e = true →
  grows p p' → c = 0 ∨ children p !! c = None →
  wp (free_data fuel c (op_addr e) buffer port addr)
    (λ _ p'', event_result port addr (l1 ++ e :: l2) lc p'') p'.
Proof.
  intros Hok Hn He G Hc. apply wp_bind, wp_bind, wp_ask_, wp_when; intros Hz; bool_hyps.
  - apply wp_modify. apply (wp_give_up _ _ _ _ _ _ _ _ p); [done..|].
    destruct Hc as [|Hc]; [done|]. apply (grows_delete_child c p (asked (Free c) p')); [done|].
    eapply grows_trans; [done | apply grows_asked].
  - apply (wp_give_up _ _ _ _ _ _ _ _ p); [done..|]. eapply grows_trans; [done | apply grows_asked].
Qed.

(** The thread could not be started: the two pipes, the connection and the thread's
    element are freed. *)
Lemma wp_no_thread fuel c h l1 e l2 lc port addr p p' :
  server_ok p (l1 ++ e :: l2) lc → (length (l1 ++ e :: l2) < fuel)%nat → serves port addr e = true →
  grows p p' → c ≠ 0 → children p !! c = None → alive h p' → ¬ alive h p →
  wp (pipe_free (op_fd e) ;; pipe_free h ;; free_opening fuel (op_addr e) ;;
      free_element c (λ p, set_children (delete c (children p)) p))
    (λ _ p'', event_result port addr (l1 ++ e :: l2) lc p'') p'.
Proof.
  intros Hok Hn He G Hc Hnc Hh Hnh.
  assert (alive (op_fd e) p) as Hae by (apply (so_alive _ _ _ Hok); set_solver).
  assert (h ≠ op_fd e) as Hne by (by intros ->).
  apply wp_bind, wp_pipe_free; [by apply (gr_alive _ _ G)|]. intros w1 _.
  apply wp_bind, wp_pipe_free; [apply alive_with; [done | by right]|]. intros w2 _.
  destruct (server_ok_grows _ _ _ _ G Hok) as [H1 H2 H3 H4]. destruct (NoDup_remove _ _ _ _ H4) as [_ Hdiff].
  apply wp_bind. eapply wp_mono; [apply (wp_free_gone fuel l1 e l2 lc); [done|done|done| |done]|].
  { intros x Hx. assert (alive (op_fd x) p) as Hax by (apply (so_alive _ _ _ Hok); set_solver).
    apply alive_with; [apply alive_with; [by apply (gr_alive _ _ G) | right; by apply Hdiff] | right; by intros E; rewrite <-E in Hnh]. }
  intros [] p3 (Hg & Hp & Hch & Hs). apply wp_free_element; [done|]. apply gone_result; [done|].
  destruct l1 as [|x l1]; [exact Hg|]. destruct Hg as [K1 K2 K3 K4].
  assert (c ∉ th_addr <$> lc) as Hin by (eapply (linked_not_in th_addr thread_node); [apply Hok | done]).
  constructor; [done | | done | done].
  destruct K2 as (? & ? & ?). split_and!; [done..|]. by apply chain_delete.
Qed.

(** The thread on the connected pipes [op_fd e] and [h]. *)
Lemma wp_start_thread fuel c h w y l1 e l2 lc port addr p p3 :
  server_ok p (l1 ++ e :: l2) lc → (length (l1 ++ e :: l2) < fuel)%nat → serves port addr e = true →
  c ≠ 0 → children p !! c = None → h ≠ 0 → ¬ alive h p → live w = true →
  server p3 = server p → openings p3 = openings p → children p3 = <[c := y]> (children p) →
  pipes p3 = <[h := w]> (pipes p) →
  wp (let* t := ask (PthreadCreate (initializer (server p)) c) in
      if negb (u_ret t =? 0) then
        pipe_free (op_fd e) ;; pipe_free h ;; free_opening fuel (op_addr e) ;;
        free_element c (λ p, set_children (delete c (children p)) p)
      else
        put_child c (set_child (u_out t)) ;;
        put_child c (set_child_next (childs (server p))) ;;
        put_data (set_childs c)) (λ _ p', event_result port addr (l1 ++ e :: l2) lc p') p3.
Proof.
  intros Hok Hn He Hc Hnc Hh Hna Hl Hs3 Ho3 Hc3 Hp3.
  assert (grows p p3) as G3 by by eapply (grows_child_pipe c h).
  assert (alive h p3) as Ha3 by (split; [done|]; exists w; by rewrite Hp3, lookup_insert_eq).
  apply wp_bind, wp_ask, wp_if; intros _.
  { apply (wp_no_thread fuel c h l1 e l2 lc port addr p); [done..| | done | done | done | done].
    eapply grows_trans; [done | apply grows_asked]. }
  apply wp_bind, (wp_put_child _ _ y); [done | change (children p3 !! c = Some y); rewrite Hc3; apply lookup_insert_eq|].
  set (z := set_child _ y). apply wp_bind, (wp_put_child _ _ z); [done | apply lookup_insert_eq|].
  apply wp_modify. left. exists (l1 ++ e :: l2), (Thread c (child z) (child_data z) :: lc). split; [|constructor].
  eapply (server_ok_started p p3); try done. simpl. by rewrite Hc3, !insert_insert_eq.
Qed.

Lemma wp_handle_client_grant fuel buffer len port addr lo lc p :
  server_ok p lo lc → alloc_fresh p → (length lo < fuel)%nat →
  wp (handle_client_grant fuel buffer len port addr) (λ _ p', event_result port addr lo lc p') p.
Proof.
  intros Hok Hf Hn. apply wp_bind. unfold wp at 1.
  rewrite (find_opening_eq _ _ _ _ lo) by (done || apply Hok).
  destruct (List.find (serves port addr) lo) as [e|] eqn:Hfind; simpl from_option.
  2: { apply wp_server_reset. intros b. left. apply (kept _ _ _ _ p); [done | apply grows_asked]. }
  apply List.find_some in Hfind as [Hin%list_elem_of_In He].
  apply list_elem_of_split in Hin as (l1 & l2 & ->).
  pose proof (so_openings _ _ _ Hok) as (_ & _ & Hch). apply chain_at in Hch as [Ho Hho].
  rewrite (proj2 (Z.eqb_neq _ _) Ho).
  apply wp_if; intros _; [apply (wp_give_up _ _ _ _ _ _ _ _ p); [done..|apply grows_refl]|].
  apply wp_bind, wp_calloc_child; [done | |].
  { intros _. apply (wp_give_up_child _ _ _ _ _ _ _ _ _ p); [done..|apply grows_asked | by left]. }
  intros c Hc Hnc. rewrite (proj2 (Z.eqb_neq _ _) Hc). set (p1 := set_children _ _).
  assert (grows p p1) as G1 by (apply (grows_trans _ (asked Calloc p)); [apply grows_asked | exact (grows_child c _ (asked Calloc p) Hnc)]).
  apply wp_if; intros _; [apply (wp_give_up_child _ _ _ _ _ _ _ _ _ p); [done..|by right]|].
  apply wp_bind, wp_pipe_init_fresh.
  { intros r. apply (wp_give_up_child _ _ _ _ _ _ _ _ _ p); [done..| |by right].
    eapply grows_trans; [done | apply grows_ticked]. }
  intros h w Hheq Hi. destruct (Hf (uclock p1)) as (Hh & Hna & _); [unfold p1; simpl; lia|].
  rewrite <-Hheq in Hh, Hna.
  destruct Hi as (Hl & _).
  assert (∀ q x y, server q = server p → openings q = openings p → children q = <[c := x]> (children p) →
    pipes q = <[h := y]> (pipes p) → grows p q) as Hg by (intros; by eapply (grows_child_pipe c h)).
  apply wp_bind, (wp_put_child _ _ (PthreadList 0 0 (HandlerData 0 0 0 0))); [done | apply lookup_insert_eq|].
  apply wp_bind, wp_on_alive; [by apply alive_new | apply lives_connect|]. intros r w2 Hl2.
  set (x := set_child_data _ _). set (p2 := with_pipe h w2 _).
  assert (children p2 = <[c := x]> (children p)) as Hc2 by (unfold p2; simpl; by rewrite insert_insert_eq).
  assert (pipes p2 = <[h := w2]> (pipes p)) as Hp2 by (unfold p2; simpl; by rewrite insert_insert_eq).
  assert (grows p p2) as G2 by by eapply Hg.
  apply wp_if; intros _.
  { apply wp_bind, wp_pipe_free; [by apply alive_new|]. intros w3 Hl3.
    apply (wp_give_up_child _ _ _ _ _ _ _ _ _ p); [done..| |by right].
    eapply Hg; [done | done | exact Hc2 |]. etrans; [exact (f_equal (insert h w3) Hp2) | apply insert_insert_eq]. }
  apply wp_bind, (wp_deref _ _ (opening_node e (first op_addr l2))); [done | exact Hho|].
  apply wp_bind, wp_get_data. apply wp_bind, (wp_put_child _ _ x); [done | rewrite Hc2; apply lookup_insert_eq|].
  set (y := set_child_data _ x). set (p3 := set_children _ _).
  assert (children p3 = <[c := y]> (children p)) as Hc3 by (etrans; [exact (f_equal (insert c y) Hc2) | apply insert_insert_eq]).
  by apply (wp_start_thread fuel c h w2 y l1 e l2 lc port addr p p3).
Qed.
End ServerEvents.
