(* ===== verification/ServerRuns.v ===== *)
(** The callback, for every packet; stopping a server that is well formed. *)
From S2P Require Import Prelude Abi Ring PipeDefs PipeApi Udp Process Server ProcessSpecs ServerSpecs ServerEvents.
From stdpp Require Import gmap relations.
Open Scope Z_scope.
Open Scope c_scope.

Section ServerRuns.
Context `{!UdpEnv}.

Lemma alloc_fresh_asked c p : alloc_fresh p → alloc_fresh (asked c p).
Proof. intros Hf t Ht. apply Hf. simpl in Ht. lia. Qed.

Lemma event_result_grows port addr lo lc p p' :
  server_ok p lo lc → grows p p' → event_result port addr lo lc p'.
Proof. intros Hok G. left. by apply (kept _ _ _ _ p). Qed.

(** *** The callback *)

(** The source address of an IPv4 datagram has the size of [struct sockaddr_in]. *)
Definition ipv4_source (p : process) : Prop := u_addr_len (udp (uclock p) RecvFrom) = sizeof_sockaddr_in.

Lemma wp_udp_readable_cb fuel err rd garbage lo lc p :
  server_ok p lo lc → alloc_fresh p → ipv4_source p → (length lo < fuel)%nat →
  let r := udp (uclock p) RecvFrom in
  wp (udp_readable_cb fuel err rd garbage) (λ _ p', event_result (u_port r) (u_addr r) lo lc p') p.
Proof.
  intros Hok Hf Hip Hn r. assert (server_ok (asked RecvFrom p) lo lc) as Hok1
    by (eapply server_ok_grows, Hok; apply grows_asked).
  pose proof (λ p', event_result_grows (u_port r) (u_addr r) lo lc _ p' Hok1) as Hsame.
  pose proof (Hsame _ (grows_refl _)) as Hnone.
  apply wp_if; intros _; [apply wp_ask_, (event_result_grows _ _ _ _ p); [done | apply grows_asked]|].
  apply wp_if; intros _; [apply wp_ret, (event_result_grows _ _ _ _ p); [done | apply grows_refl]|].
  apply wp_bind, wp_ask. fold r.
  apply wp_if; intros _; [by apply wp_ret|].
  apply wp_if; intros Hz; [bool_hyps; by destruct (Hz Hip)|].
  apply wp_if; intros _; [by apply wp_ret|]. apply wp_if; intros _; [by apply wp_ret|].
  apply wp_if; intros _.
  { eapply wp_mono; [by apply wp_handle_client_hello, alloc_fresh_asked|]. intros u p' Hp'. by left. }
  apply wp_if; intros _; [by apply wp_ret|].
  apply wp_if; intros _; [|apply wp_if; intros _; [|by apply wp_ret]].
  - apply wp_bind. unfold wp at 1. rewrite (find_opening_eq _ _ _ _ lo) by (done || apply Hok1).
    destruct (List.find (serves (u_port r) (u_addr r)) lo) as [e|] eqn:Hfind; simpl from_option; [|by apply wp_ret].
    apply List.find_some in Hfind as [Hin%list_elem_of_In He]. apply list_elem_of_split in Hin as (l1 & l2 & ->).
    pose proof (so_openings _ _ _ Hok) as (_ & _ & Hch). apply chain_at in Hch as [Ho _].
    rewrite (proj2 (Z.eqb_neq _ _) Ho). by apply (wp_give_up _ _ _ _ _ _ _ _ (asked RecvFrom p)), grows_refl.
  - apply wp_handle_client_grant; [done | by apply alloc_fresh_asked | done].
Qed.

(** *** Stopping *)

(** The walk over the connections closes the pipe of each and frees it. *)
Lemma wp_close_loop n l p Q :
  NoDup (op_addr <$> l) → chain op_addr opening_node (openings p) l →
  (∀ e, e ∈ l → alive (op_fd e) p) → NoDup (op_fd <$> l) → (length l < n)%nat →
  (∀ p', (∀ e, e ∈ l → freed (op_fd e) p' ∧ openings p' !! op_addr e = None) →
    (∀ h, freed h p → freed h p') → (∀ a, openings p !! a = None → openings p' !! a = None) →
    children p' = children p → server p' = server p →
    (utrace p').*1 = ((λ e, Free (op_addr e)) <$> reverse l) ++ (utrace p).*1 → Q (inl 0) p') →
  wp (loop n close_body (first op_addr l)) Q p.
Proof.
  revert n p. induction l as [|e l IH]; intros [|n] p Hd Hc Ha Hf Hn HQ; simpl in Hn; try lia.
  { apply (HQ p); try done. intros e He. by apply elem_of_nil in He. }
  destruct Hc as (H0 & Hh & Hc). cbn [loop first]. unfold close_body at 1. rewrite (proj2 (Z.eqb_neq _ _) H0).
  rewrite !fmap_cons in Hd, Hf. apply NoDup_cons in Hd as [Hd1 Hd], Hf as [Hf1 Hf].
  assert (alive (op_fd e) p) as He by (apply Ha; set_solver).
  apply wp_bind, wp_bind, (wp_deref _ _ (opening_node e (first op_addr l))); [done|done|].
  change (receive_fd (opening_node e (first op_addr l))) with (op_fd e).
  apply wp_bind. rewrite (proj2 (Z.eqb_neq _ _) (proj1 He)). apply wp_when; [intros _|done].
  apply wp_pipe_free; [done|]. intros w Hw.
  apply wp_bind, (wp_deref _ _ (opening_node e (first op_addr l))); [done|done|].
  apply wp_bind, wp_free_element; [done|]. apply wp_ret. cbv iota beta. apply IH; [done| | |done|lia|].
  - simpl. by apply chain_delete.
  - intros x Hx. apply alive_with; [apply Ha; set_solver|]. right. intros E. apply Hf1. rewrite <-E. by apply list_elem_of_fmap_2.
  - intros p' H1 H2 H3 H4 H5 H6. apply HQ.
    + intros x [->|Hx]%elem_of_cons; [|by apply H1]. split; [by apply H2, freed_new|].
      apply H3. simpl. apply lookup_delete_eq.
    + intros h Hh'. apply H2. apply freed_with; [done | by left].
    + intros a Hna. apply H3. simpl. destruct (decide (a = op_addr e)) as [->|]; [apply lookup_delete_eq | read_maps].
    + done.
    + done.
    + rewrite H6, reverse_cons, fmap_app. simpl. by rewrite <-app_assoc.
Qed.

(** A walk over the threads that makes one call for each. *)
Lemma wp_walk_loop (visit : Z → pthread_list → M process unit) (next : thread → thread) (keep : bool)
    (calls : thread → list ucall) n l p Q :
  (∀ e nx p Q, e ∈ l → th_addr e ≠ 0 → children p !! th_addr e = Some (thread_node e nx) →
    (∀ p', openings p' = openings p → pipes p' = pipes p → server p' = server p →
       children p' = (if keep then <[th_addr e := thread_node (next e) nx]> (children p) else delete (th_addr e) (children p)) →
       (utrace p').*1 = calls e ++ (utrace p).*1 → Q tt p') →
    wp (visit (th_addr e) (thread_node e nx)) Q p) →
  (∀ e, th_addr (next e) = th_addr e) →
  NoDup (th_addr <$> l) → chain th_addr thread_node (children p) l → (length l < n)%nat →
  (∀ p', openings p' = openings p → pipes p' = pipes p → server p' = server p →
    (if keep then chain th_addr thread_node (children p') (next <$> l)
     else ∀ e, e ∈ l → children p' !! th_addr e = None) →
    (∀ a, a ∉ th_addr <$> l → children p' !! a = children p !! a) →
    (utrace p').*1 = mjoin (calls <$> reverse l) ++ (utrace p).*1 → Q tt p') →
  wp (child_walk n visit (first th_addr l)) Q p.
Proof.
  intros Hv Hnext Hd Hc Hn HQ. apply wp_bind.
  apply (wp_mono _ (λ _ p', Q tt p')); [|done].
  revert n p Hv Hd Hc Hn HQ. induction l as [|e l IH]; intros [|n] p Hv Hd Hc Hn HQ; simpl in Hn; try lia.
  { apply (HQ p); try done. destruct keep; [done|]. intros e He. by apply elem_of_nil in He. }
  destruct Hc as (H0 & Hh & Hc). cbn [loop first]. rewrite (proj2 (Z.eqb_neq _ _) H0).
  rewrite fmap_cons in Hd. apply NoDup_cons in Hd as [Hd1 Hd].
  apply wp_bind, wp_bind, (wp_deref _ _ (thread_node e (first th_addr l))); [done|done|].
  apply wp_bind, Hv; [set_solver|done|done|]. intros p1 Ho1 Hp1 Hs1 Hc1 Ht1. apply wp_ret. cbv iota beta.
  apply IH; [intros x nx p0 Q0 Hx; apply Hv; set_solver|done| |lia|].
  - rewrite Hc1. destruct keep; [by apply chain_insert | by apply chain_delete].
  - intros p' Ho Hp Hs Hk Hne Ht. assert (children p' !! th_addr e = children p1 !! th_addr e) as He by by apply Hne.
    apply HQ; [congruence | congruence | congruence | | |].
    + destruct keep.
      * split_and!; [by rewrite Hnext | | done]. rewrite Hnext, He, Hc1, lookup_insert_eq. do 2 f_equal.
        destruct l; simpl; [done | by rewrite Hnext].
      * intros x [->|Hx]%elem_of_cons; [|by apply Hk]. rewrite He, Hc1. apply lookup_delete_eq.
    + intros a Ha. rewrite fmap_cons in Ha. apply not_elem_of_cons in Ha as [Ha1 Ha2].
      rewrite Hne, Hc1 by done. destruct keep; read_maps.
    + rewrite Ht, Ht1, reverse_cons, fmap_app, join_app, <-app_assoc. simpl. by rewrite app_nil_r.
Qed.

Lemma join_singletons {A B} (f : A → B) (l : list A) : mjoin ((λ x, [f x]) <$> l) = f <$> l.
Proof. induction l as [|x l IH]; [done|]. exact (f_equal (cons (f x)) IH). Qed.

Lemma join_nils {A B} (l : list A) : mjoin ((λ _, []) <$> l) = ([] : list B).
Proof. induction l as [|x l IH]; [done|]. exact IH. Qed.

Definition told_to_stop (c : thread) : thread := Thread (th_addr c) (th_child c) (set_hd_stop 1 (th_data c)).

Lemma wp_ask_stop_walk n l p Q :
  NoDup (th_addr <$> l) → chain th_addr thread_node (children p) l → (length l < n)%nat →
  (∀ p', openings p' = openings p → pipes p' = pipes p → server p' = server p →
    chain th_addr thread_node (children p') (told_to_stop <$> l) →
    (utrace p').*1 = (utrace p).*1 → Q tt p') →
  wp (child_walk n ask_stop (first th_addr l)) Q p.
Proof.
  intros Hd Hc Hn HQ.
  apply (wp_walk_loop ask_stop told_to_stop true (λ _, [])); [|done|done|done|done|].
  - intros e nx p0 Q0 _ H0 Hh HQ0. apply (wp_put_child _ _ (thread_node e nx)); [done|done|]. by apply HQ0.
  - intros p' Ho Hp Hs Hk _ Ht. apply HQ; [done|done|done|done|]. by rewrite Ht, join_nils.
Qed.

(** A thread that is told to stop ends. *)
Definition stops_when_told : Prop := ∀ t th, u_out (udp t (PthreadJoin th 1)) ≠ 0.

Lemma wp_join_walk n (l : list thread) p Q :
  stops_when_told → Forall (λ c, hd_stop (th_data c) = 1) l →
  NoDup (th_addr <$> l) → chain th_addr thread_node (children p) l → (length l < n)%nat →
  (∀ p', openings p' = openings p → pipes p' = pipes p → server p' = server p →
    chain th_addr thread_node (children p') l →
    (utrace p').*1 = ((λ c, PthreadJoin (th_child c) 1) <$> reverse l) ++ (utrace p).*1 → Q tt p') →
  wp (child_walk n join_child (first th_addr l)) Q p.
Proof.
  intros Hstop Htold Hd Hc Hn HQ.
  apply (wp_walk_loop join_child id true (λ c, [PthreadJoin (th_child c) 1])); [|done|done|done|done|].
  - intros e nx p0 Q0 He H0 Hh HQ0. rewrite Forall_forall in Htold. apply Htold in He.
    apply wp_bind, wp_ask. simpl. rewrite He, (proj2 (Z.eqb_neq _ _)) by apply Hstop.
    apply wp_ret, HQ0; try done. simpl. by rewrite insert_id.
  - intros p' Ho Hp Hs Hk _ Ht. rewrite list_fmap_id in Hk. apply HQ; [done|done|done|done|].
    by rewrite Ht, join_singletons.
Qed.

Lemma wp_free_walk n l p Q :
  NoDup (th_addr <$> l) → chain th_addr thread_node (children p) l → (length l < n)%nat →
  (∀ p', openings p' = openings p → pipes p' = pipes p → server p' = server p →
    (∀ c, c ∈ l → children p' !! th_addr c = None) →
    (utrace p').*1 = ((λ c, Free (th_addr c)) <$> reverse l) ++ (utrace p).*1 → Q tt p') →
  wp (child_walk n free_child (first th_addr l)) Q p.
Proof.
  intros Hd Hc Hn HQ.
  apply (wp_walk_loop free_child id false (λ c, [Free (th_addr c)])); [|done|done|done|done|].
  - intros e nx p0 Q0 _ H0 Hh HQ0. apply wp_free_element; [done|]. by apply HQ0.
  - intros p' Ho Hp Hs Hk _ Ht. apply HQ; [done|done|done|done|].
    by rewrite Ht, join_singletons.
Qed.

(** What stopping does, most recent call first. *)
Definition stop_calls (lo : list connection) (lc : list thread) : list ucall :=
  ((λ c, Free (th_addr c)) <$> reverse lc) ++ ((λ c, PthreadJoin (th_child c) 1) <$> reverse lc) ++
  ((λ e, Free (op_addr e)) <$> reverse lo).
Definition all_closed (lo : list connection) (lc : list thread) (p' : process) : Prop :=
  (∀ e, e ∈ lo → freed (op_fd e) p' ∧ openings p' !! op_addr e = None) ∧
  (∀ c, c ∈ lc → children p' !! th_addr c = None).

Lemma wp_stop_server fuel lo lc p :
  stops_when_told → server_ok p lo lc → (length lo < fuel)%nat → (length lc < fuel)%nat →
  wp (stop_server fuel) (λ _ p', all_closed lo lc p' ∧ (utrace p').*1 = stop_calls lo lc ++ (utrace p).*1) p.
Proof.
  intros Hstop [(Ha & Hd & Hc) (Hac & Hdc & Hcc) H3 H4] Hn Hnc.
  apply wp_bind, wp_get_data. rewrite Ha. apply wp_bind, wp_close_loop; [done..|].
  intros p1 Hf _ _ Hch1 Hs1 Ht1. apply wp_bind, wp_get_data. rewrite Hs1, Hac.
  apply wp_bind, wp_ask_stop_walk; [done | by rewrite Hch1 | done|].
  intros p2 Ho2 Hp2 Hs2 Hc2 Ht2.
  assert (first th_addr lc = first th_addr (told_to_stop <$> lc)) as -> by by destruct lc.
  assert (NoDup (th_addr <$> (told_to_stop <$> lc))) as Hd2 by by rewrite <-list_fmap_compose.
  apply wp_bind, wp_join_walk;
    [done | by apply Forall_fmap, Forall_true | done | done | by rewrite length_fmap|]. intros p3 Ho3 Hp3 Hs3 Hc3 Ht3.
  apply wp_free_walk; [done | done | by rewrite length_fmap|]. intros p4 Ho4 Hp4 Hs4 Hc4 Ht4.
  split; [split|].
  - intros e He. destruct (Hf e He) as [(w & Hw & Hl) Hnone]. split.
    + exists w. by rewrite Hp4, Hp3, Hp2.
    + by rewrite Ho4, Ho3, Ho2.
  - intros c Hc'. apply (Hc4 (told_to_stop c)). by apply list_elem_of_fmap_2.
  - rewrite Ht4, Ht3, Ht2, Ht1, <-!fmap_reverse, <-!list_fmap_compose. unfold stop_calls. by rewrite <-!app_assoc.
Qed.

(** *** The abstract server *)

(** An abstract server is its connections and its threads; a message takes a step
    of [lists_step]. *)
Definition abstract_server : Type := list connection * list thread.
Inductive abstract_step : abstract_server → abstract_server → Prop :=
| Abstract port addr lo lc lo' lc' :
    lists_step port addr lo lc lo' lc' → abstract_step (lo, lc) (lo', lc').

(** One turn of the event loop, with fuel enough for the walks of the lists. *)
Definition event_step (p p' : process) : Prop :=
  alloc_fresh p ∧ ipv4_source p ∧ ∃ err rd garbage (n : nat),
    ∀ fuel, (n ≤ fuel)%nat → udp_readable_cb fuel err rd garbage p = Done tt p'.

(** The turn freed the newest connection. *)
Definition freed_newest (p : process) : Prop :=
  current (server p) ≠ 0 ∧ openings p !! current (server p) = None.

Lemma dangling_freed port addr lo p : dangling port addr lo p → freed_newest p.
Proof. intros (e & l & _ & _ & Hc & H0 & Hn). unfold freed_newest. by rewrite Hc. Qed.

(** A well-formed server simulates the abstract one. *)
Lemma event_simulates p p' lo lc :
  server_ok p lo lc → event_step p p' →
  (∃ s', abstract_step (lo, lc) s' ∧ server_ok p' s'.1 s'.2) ∨ freed_newest p'.
Proof.
  intros Hok (Hf & Hip & err & rd & garbage & n & Hrun).
  pose proof (wp_udp_readable_cb (S (n + length lo)) err rd garbage lo lc p Hok Hf Hip ltac:(lia)) as Hwp.
  cbv zeta in Hwp. unfold wp in Hwp. rewrite Hrun in Hwp by lia.
  destruct Hwp as [(lo' & lc' & Hok' & Hs)|Hd]; [left | right; by eapply dangling_freed].
  exists (lo', lc'). by split; [econstructor|].
Qed.

Lemma run_refines p p' lo lc :
  server_ok p lo lc → rtc event_step p p' →
  (∃ s', rtc abstract_step (lo, lc) s' ∧ server_ok p' s'.1 s'.2) ∨
  ∃ q, rtc event_step p q ∧ rtc event_step q p' ∧ freed_newest q.
Proof.
  intros Hok Hrun. revert lo lc Hok. induction Hrun as [p|p q p' Hs Hrun IH]; intros lo lc Hok.
  { left. by exists (lo, lc). }
  destruct (event_simulates _ _ _ _ Hok Hs) as [([lo1 lc1] & Ha & Hok1)|Hd].
  - destruct (IH _ _ Hok1) as [(s' & Hr & Hok')|(q' & H1 & H2 & H3)].
    + left. exists s'. split; [by econstructor | done].
    + right. exists q'. split_and!; [by econstructor | done | done].
  - right. exists q. split_and!; [by apply rtc_once | done | done].
Qed.

(** Whoever looks at the list next reads freed memory. *)
Lemma freed_newest_faults p n port addr :
  freed_newest p → find_opening (S n) port addr p = Fault UseAfterFree ∧ stop_server (S n) p = Fault UseAfterFree.
Proof.
  intros [H0 Hn]. unfold find_opening, stop_server, get_data, bind at 1. cbn [loop].
  unfold find_body, close_body, get_opening, deref, bind at 1. rewrite (proj2 (Z.eqb_neq _ _) H0).
  unfold bind. by rewrite (proj2 (Z.eqb_neq _ _) H0), Hn.
Qed.

(** A list whose first element follows itself is searched for ever. *)
Lemma self_loop_never_ends p o port addr :
  current (server p) ≠ 0 → openings p !! current (server p) = Some o → opening_next o = current (server p) →
  (distant_port o =? port) && (distant_addr o =? addr) = false →
  ∀ n, find_opening n port addr p = NoFuel.
Proof.
  intros H0 Ho Hnext Hne n. unfold find_opening, get_data, bind.
  rewrite (loop_never_ends (λ a q, a = current (server p) ∧ q = p)); [done | | done].
  intros a q [-> ->]. unfold find_body. rewrite (proj2 (Z.eqb_neq _ _) H0).
  apply wp_bind, (wp_deref _ _ o); [done|done|]. rewrite Hne, Hnext. apply wp_ret. by eexists.
Qed.
End ServerRuns.
