(* ===== verification/Handshake.v ===== *)
(** The messages of the code: what the sides send and how they read what they
    receive, and both sides of the handshake when the module accepts. *)
From stdpp Require Import gmap.
From S2P Require Import Prelude Abi Ring PipeDefs PipeSide PipeApi PipeStream PipeLife Udp Process Server Client ProcessSpecs ServerSpecs ServerEvents ServerRuns.
Open Scope Z_scope.
Open Scope c_scope.

(** ** Packets *)

Lemma decode_hello_inv buf d :
  decode buf = Some (ClientHello d) →
  sizeof_client_hello ≤ len buf ∧ fetch header_version buf = XEN_SHM_UDP_PROTO_VERSION ∧
  fetch header_message buf = XEN_SHM_UDP_PROTO_CLIENT_HELLO ∧ fetch hello_domid buf = d.
Proof.
  unfold decode, decode_grant. repeat case_match; intros [= <-] || done; bool_hyps. split_and!; congruence || lia.
Qed.

Lemma decode_grant_inv buf r d mo p :
  decode buf = Some (ServerGrant r d mo p) ∨ decode buf = Some (ClientGrant r d mo p) →
  sizeof_grant ≤ len buf ∧ fetch header_version buf = XEN_SHM_UDP_PROTO_VERSION ∧
  fetch grant_grant_ref buf = r ∧ fetch grant_domid buf = d ∧ fetch grant_mode buf = mo ∧
  fetch grant_page_count buf = p.
Proof.
  unfold decode, decode_grant. intros [H|H]; revert H; repeat case_match; intros [= <- <- <- <-] || done;
    bool_hyps; split_and!; congruence || lia.
Qed.

Lemma decode_message_inv buf m :
  decode buf = Some m →
  sizeof_header ≤ len buf ∧ fetch header_version buf = XEN_SHM_UDP_PROTO_VERSION ∧
  fetch header_message buf =
    match m with
    | ClientHello _ => XEN_SHM_UDP_PROTO_CLIENT_HELLO
    | ServerReset => XEN_SHM_UDP_PROTO_SERVER_RESET
    | ServerGrant _ _ _ _ => XEN_SHM_UDP_PROTO_SERVER_GRANT
    | ClientReset => XEN_SHM_UDP_PROTO_CLIENT_RESET
    | ClientGrant _ _ _ _ => XEN_SHM_UDP_PROTO_CLIENT_GRANT
    end.
Proof.
  unfold decode, decode_grant. repeat case_match; intros [=]; subst; bool_hyps; split_and!; congruence || lia.
Qed.

(** What is received lies at the start of the buffer. *)
Lemma fetch_received f buf bytes :
  in_range f bytes → len bytes ≤ len buf → fetch f (poke buf 0 bytes) = fetch f bytes.
Proof. intros Hr Hl. unfold poke. simpl. by apply fetch_app. Qed.

(** What is sent, read back. *)
Lemma decode_grant_sent buf :
  sizeof_grant ≤ len buf → fetch header_version buf = XEN_SHM_UDP_PROTO_VERSION →
  let sent := take (Z.to_nat sizeof_grant) buf in
  let fields k := Some (k (fetch grant_grant_ref buf) (fetch grant_domid buf) (fetch grant_mode buf)
    (fetch grant_page_count buf)) in
  (fetch header_message buf = XEN_SHM_UDP_PROTO_SERVER_GRANT → decode sent = fields ServerGrant) ∧
  (fetch header_message buf = XEN_SHM_UDP_PROTO_CLIENT_GRANT → decode sent = fields ClientGrant).
Proof.
  intros Hl Hv sent fields. unfold sizeof_grant in *.
  assert (∀ f, 0 ≤ m_off f → m_off f + Z.of_nat (m_size f) ≤ 18 → fetch f sent = fetch f buf) as Hf.
  { intros f ? ?. apply fetch_take; [split; lia | done]. }
  assert (len sent = 18) as Hlen by (subst sent; unfold len in *; rewrite length_take; lia).
  unfold decode, decode_grant. rewrite Hlen, !Hf, Hv by (simpl; lia). by split; intros ->.
Qed.

Lemma decode_hello_sent buf :
  sizeof_client_hello ≤ len buf → fetch header_version buf = XEN_SHM_UDP_PROTO_VERSION →
  fetch header_message buf = XEN_SHM_UDP_PROTO_CLIENT_HELLO →
  decode (take (Z.to_nat sizeof_client_hello) buf) = Some (ClientHello (fetch hello_domid buf)).
Proof.
  intros Hl Hv Hm. set (sent := take _ _). unfold sizeof_client_hello in *.
  assert (∀ f, 0 ≤ m_off f → m_off f + Z.of_nat (m_size f) ≤ 12 → fetch f sent = fetch f buf) as Hf.
  { intros f ? ?. apply fetch_take; [split; lia | done]. }
  assert (len sent = 12) as Hlen by (subst sent; unfold len in *; rewrite length_take; lia).
  unfold decode, decode_grant. by rewrite Hlen, !Hf, Hv, Hm by (simpl; lia).
Qed.

Lemma u16_range z : 0 ≤ u16 z < 2 ^ 16.
Proof. by apply wrap_range. Qed.
Lemma u32_range z : 0 ≤ u32 z < 2 ^ 32.
Proof. by apply wrap_range. Qed.

(** ** Pipes when the module accepts *)

(** What [xen_shm_pipe_offers] announces is what the module answered. *)
Lemma offers_announces `{!PipeEnv} n d w r dom ref w' :
  xen_shm_pipe_offers n d w = Done (r, Some (dom, ref)) w' →
  ∃ t, let a := answer t (SysInitOfferer (fd (priv w)) n (u16 d)) in dom = u16 (ans_out2 a) ∧ ref = u32 (ans_out1 a).
Proof.
  unfold xen_shm_pipe_offers. intros Hd. apply bind_done in Hd as (p & w1 & Hp & Hd).
  unfold get_priv in Hp. destruct (live w); [|done]. injection Hp as <- <-.
  destruct (negb _); [by apply bind_done in Hd as (? & ? & _ & [= ]) |].
  apply bind_done in Hd as (a & w2 & Ha & Hd). apply bind_done in Ha as (u & w3 & _ & Ha).
  injection Ha as Ha _. destruct (negb (ans_ret a =? 0)); [done|]. past_bind Hd.
  destruct (negb _); [done|]. do 6 past_bind Hd. injection Hd as _ <- <- _. exists (clock w3). by rewrite <-Ha.
Qed.

(** The calls made so far stay in the state. *)
Definition calls_grow (w w' : world) : Prop := ∃ l, calls w' = l ++ calls w.
Lemma calls_grow_refl w : calls_grow w w.
Proof. by exists []. Qed.
Lemma calls_grow_trans w1 w2 w3 : calls_grow w1 w2 → calls_grow w2 w3 → calls_grow w1 w3.
Proof. intros [l1 H1] [l2 H2]. exists (l2 ++ l1). by rewrite H2, H1, app_assoc. Qed.

(** The module was asked to map the [n] pages of grant [g] of domain [d]. *)
Definition asked_receiver (n d g : Z) (w : world) : Prop := ∃ f, SysInitReceiver f n (u16 d) g ∈ (calls w).*2.

Create HintDb calls_grow.
Section CallsGrow.
Context `{!PipeEnv}.
Abbreviation grows_calls := (keeps calls_grow).

Lemma grow_bind {A B} (m : M world A) (k : A → M world B) :
  grows_calls m → (∀ a, grows_calls (k a)) → grows_calls (bind m k).
Proof. apply keeps_bind, calls_grow_trans. Qed.
Lemma grow_ret {A} (a : A) : grows_calls (ret a).
Proof. apply keeps_ret, calls_grow_refl. Qed.
Lemma grow_same {A} (m : M world A) : (∀ w a w', m w = Done a w' → calls w' = calls w) → grows_calls m.
Proof. intros Hm w a w' E. exists []. by eapply Hm. Qed.
Lemma grow_get_priv : grows_calls get_priv.
Proof. apply grow_same. intros w a w'. unfold get_priv. case_match; intros [= <- <-]; done. Qed.
Lemma grow_put_priv f : grows_calls (put_priv f).
Proof. apply grow_same. intros w a w'. unfold put_priv. case_match; intros [=]; by subst. Qed.
Lemma grow_flags_or fw m : grows_calls (flags_or_of fw m).
Proof. apply grow_same. intros w a w' [=]. by subst. Qed.
Lemma grow_sys c : grows_calls (sys c).
Proof. intros w a w' [= _ <-]. eexists [_]. by case_match. Qed.
#[local] Hint Resolve grow_bind grow_ret grow_get_priv grow_put_priv grow_flags_or grow_sys keeps_if : calls_grow.

Lemma connect_asks n d g w r w' :
  is_offerer w = false → xen_shm_pipe_connect n d g w = Done r w' → asked_receiver n d g w'.
Proof.
  intros Ho Hd. apply bind_done in Hd as (p & w1 & Hp & Hd).
  unfold get_priv in Hp. destruct (live w); [|done]. injection Hp as <- <-.
  unfold is_offerer in Ho. rewrite Ho in Hd. apply bind_done in Hd as (a & w2 & Ha & Hd).
  match type of Hd with ?m w2 = _ => assert (grows_calls m) as Hm end.
  { unfold __xen_shm_pipe_map_shared_memory, set_pipe_sizes. auto 20 with calls_grow. }
  destruct (Hm _ _ _ Hd) as [l Hl]. injection Ha as _ <-. exists (fd (priv w)). rewrite Hl, fmap_app.
  apply elem_of_app. right. case_match; by left.
Qed.
End CallsGrow.

(** The module and the C library accept every call, the area is mapped at [a], and
    the other ends leave the rings alone. *)
Record accepting `{!UdpEnv} (n a : Z) : Prop := {
  acc_calm h t s : same_ring s (peer (PipeEnv := pipe_env h) t s);
  acc_malloc h t : ans_ret (answer (PipeEnv := pipe_env h) t SysMalloc) ≠ 0;
  acc_open h t : 0 ≤ ans_ret (answer (PipeEnv := pipe_env h) t SysOpen);
  acc_domid h t f : ans_ret (answer (PipeEnv := pipe_env h) t (SysGetDomid f)) = 0;
  acc_offer h t f d : ans_ret (answer (PipeEnv := pipe_env h) t (SysInitOfferer f n d)) = 0;
  acc_receive h t f d g : ans_ret (answer (PipeEnv := pipe_env h) t (SysInitReceiver f n d g)) = 0;
  acc_mmap h t l f : ans_ret (answer (PipeEnv := pipe_env h) t (SysMmap l f)) = a;
  acc_mapped : 0 < a;
  acc_pages : 1 ≤ n < 256;
}.

Section Accepting.
Context `{!UdpEnv} (n a : Z) (acc : accepting n a).

Lemma wp_init_accepted h mem m c w :
  wp (xen_shm_pipe_init (H := pipe_env h) mem m c)
    (λ r w', r = 0 ∧ initialised m c w' ∧ same_ring (sh w) (sh w')) w.
Proof.
  assert (∀ t s, same_ring s (peer (PipeEnv := pipe_env h) t s)) as Hcalm by apply acc.
  apply wp_bind, wp_sys_calm; [done|]. intros t w1 H1 _.
  rewrite (proj2 (Z.eqb_neq _ _) (acc_malloc _ _ acc h t)).
  apply wp_bind, wp_modify. apply wp_bind, wp_sys_calm; [done|]. intros t2 w2 (Hr2 & Hp2 & Hl2 & _) _.
  apply wp_bind, wp_put_priv_live; [done|]. apply wp_bind, wp_get_priv; [done|].
  cbn [with_priv priv set_fd fd]. pose proof (acc_open _ _ acc h t2).
  rewrite (proj2 (Z.ltb_ge _ _)) by done.
  apply wp_bind, wp_put_priv_live; [done|]. apply wp_ret. split_and!; [done | done |].
  eapply same_ring_trans; [apply H1 | done].
Qed.

Lemma wp_pipe_init_accepted m c Q p :
  let h := (new_pipe (uclock p)).1 in
  (∀ w, initialised m c w → same_ring (sh (new_pipe (uclock p)).2) (sh w) →
     Q (0, Some h) (with_pipe h w (ticked p))) → wp (pipe_init m c) Q p.
Proof.
  intros h HQ. unfold wp, pipe_init. destruct (new_pipe (uclock p)) as [h' w] eqn:E. simpl in HQ.
  pose proof (wp_init_accepted h' (priv w) m c w) as (r & w' & -> & -> & Hi & Hs)%wp_done. by apply HQ.
Qed.

(** An initialised read end is the offerer, an initialised write end is not. *)
Lemma initialised_offerer m w :
  initialised m xen_shm_pipe_conv_reader_offers w → is_offerer w = bool_decide (m = xen_shm_pipe_mod_read).
Proof. intros (_ & Hm & Hc & _). unfold is_offerer, __xen_shm_pipe_is_offerer. rewrite Hm, Hc. by destruct m. Qed.

(** The pipe is connected: mapped, open on this end. *)
Definition open_pipe (m : xen_shm_pipe_mod) (w : world) : Prop :=
  ready m (pipe_buffer_size n) w ∧ has (own_flags w) XSHMP_OPENED = true.

Lemma wp_offers_accepted h d w :
  initialised xen_shm_pipe_mod_read xen_shm_pipe_conv_reader_offers w →
  len (buffer (sh w)) = pipe_buffer_size n →
  wp (xen_shm_pipe_offers (H := pipe_env h) n d) (λ r w', ∃ dom ref, r = (0, Some (dom, ref)) ∧
    (∃ t, let b := answer (PipeEnv := pipe_env h) t (SysInitOfferer (fd (priv w)) n (u16 d)) in
      dom = u16 (ans_out2 b) ∧ ref = u32 (ans_out1 b)) ∧
    open_pipe xen_shm_pipe_mod_read w' ∧ content (sh w') = []) w.
Proof.
  intros Hi Hl. destruct acc as [A1 A2 A3 A4 A5 A6 A7 A8 A9].
  assert (is_offerer w = true) as Ho by (by rewrite (initialised_offerer _ _ Hi)).
  eapply wp_mono; [apply wp_and; [|intros r w'; exact (λ E, E)]|].
  - apply (wp_offers (H := pipe_env h) (A1 h) n a A9 (A7 h) A8 d); [apply Hi | done | done | intros; apply A5].
  - intros [r [[dom ref]|]] w' [(Hr & [? Ho'] & Hrd & Hc & Hf) Hrun]; [|done]. simpl in *. subst r.
    exists dom, ref. destruct Hi as (_ & Hm & _). rewrite Hm in Hrd. split_and!; [done | | split; done | done].
    by eapply (offers_announces (H := pipe_env h)).
Qed.

Lemma wp_connect_accepted h d g w :
  initialised xen_shm_pipe_mod_write xen_shm_pipe_conv_reader_offers w →
  ring_wf (pipe_buffer_size n) (sh w) →
  wp (xen_shm_pipe_connect (H := pipe_env h) n d g) (λ r w', r = 0 ∧ open_pipe xen_shm_pipe_mod_write w' ∧
    asked_receiver n d g w') w.
Proof.
  intros Hi Hw. destruct acc as [A1 A2 A3 A4 A5 A6 A7 A8 A9].
  assert (is_offerer w = false) as Ho by (by rewrite (initialised_offerer _ _ Hi)).
  eapply wp_mono; [apply wp_and; [|intros r w'; exact (connect_asks (H := pipe_env h) n d g w r w' Ho)]|].
  - apply (wp_connect (H := pipe_env h) (A1 h) n a A9 (A7 h) A8 d g); [apply Hi | done | done | intros; apply A6].
  - intros r w' [(Hr & Hrd & _ & Hf) Ha]. destruct Hi as (_ & Hm & _). rewrite Hm in Hrd. by split_and!.
Qed.

Lemma wp_getdomid_accepted h w :
  initialised xen_shm_pipe_mod_write xen_shm_pipe_conv_reader_offers w →
  wp (xen_shm_pipe_getdomid (H := pipe_env h)) (λ r w', ∃ d, r = (0, Some d) ∧ 0 ≤ d < 2 ^ 16 ∧
    initialised xen_shm_pipe_mod_write xen_shm_pipe_conv_reader_offers w' ∧ same_ring (sh w) (sh w')) w.
Proof.
  intros Hi. pose proof Hi as (Hl & Hm & Hc & Hs). apply wp_bind, wp_get_priv; [done|].
  assert (is_offerer w = false) as Ho by (by rewrite (initialised_offerer _ _ Hi)).
  unfold is_offerer in Ho. rewrite Ho.
  apply wp_bind, wp_sys_calm; [apply acc|]. intros t w1 (Hr1 & Hp1 & Hl1 & _) _.
  rewrite (acc_domid _ _ acc). apply wp_ret. eexists. split_and!; [done | apply u16_range.. | | done].
  unfold initialised. rewrite Hp1, Hl1. done.
Qed.
End Accepting.

(** ** The server's side *)

Section ServerSide.
Context `{!UdpEnv}.

(** The packet at the socket is message [m]; [garbage] is the handler's buffer. *)
Record incoming (m : message) (garbage : list Z) (p : process) : Prop := {
  in_length : u_ret (udp (uclock p) RecvFrom) = len (u_bytes (udp (uclock p) RecvFrom));
  in_message : decode (u_bytes (udp (uclock p) RecvFrom)) = Some m;
  in_buffer : len garbage = XEN_SHM_UDP_PROTO_MAX_LEN;
  in_fits : len (u_bytes (udp (uclock p) RecvFrom)) ≤ XEN_SHM_UDP_PROTO_MAX_LEN;
  in_source : ipv4_source p;
}.

(** The handler runs what the message asks for, on a buffer that starts with it. *)
Lemma wp_incoming fuel m garbage Q p :
  incoming m garbage p →
  let r := udp (uclock p) RecvFrom in
  let buffer := poke garbage 0 (u_bytes r) in
  wp (match m with
      | ClientHello _ => handle_client_hello buffer (u_ret r) (u_port r) (u_addr r)
      | ClientReset =>
          let* o := find_opening fuel (u_port r) (u_addr r) in
          if negb (o =? 0) then free_o_new fuel o buffer (u_port r) (u_addr r) else ret tt
      | ClientGrant _ _ _ _ => handle_client_grant fuel buffer (u_ret r) (u_port r) (u_addr r)
      | ServerReset | ServerGrant _ _ _ _ => ret tt
      end) Q (asked RecvFrom p) →
  wp (udp_readable_cb fuel false true garbage) Q p.
Proof.
  intros [Hl Hm Hg Hfit Hip] r buffer HQ. unfold udp_readable_cb. apply wp_bind, wp_ask. fold r.
  apply decode_message_inv in Hm as (Hlen & Hv & Hmsg). fold r in Hl, Hlen, Hv, Hmsg, Hfit.
  unfold sizeof_header in *.
  rewrite (proj2 (Z.ltb_ge _ _)) by lia. unfold ipv4_source in Hip. fold r in Hip. rewrite Hip. simpl negb. cbv iota.
  fold buffer.
  assert (∀ f, 0 ≤ m_off f → m_off f + Z.of_nat (m_size f) ≤ 8 → fetch f buffer = fetch f (u_bytes r)) as Hf.
  { intros f ? ?. apply fetch_received; [split; lia | lia]. }
  rewrite (proj2 (Z.ltb_ge _ _)) by (unfold sizeof_header; lia).
  rewrite !Hf, Hv, Hmsg by (simpl; lia). by destruct m.
Qed.

Lemma len_received m garbage p :
  incoming m garbage p → len (poke garbage 0 (u_bytes (udp (uclock p) RecvFrom))) = 40.
Proof. intros [Hl Hm Hg Hfit Hip]. unfold XEN_SHM_UDP_PROTO_MAX_LEN in *. rewrite len_poke; lia. Qed.

Lemma received_fields m garbage p f :
  incoming m garbage p → 0 ≤ m_off f →
  m_off f + Z.of_nat (m_size f) ≤ len (u_bytes (udp (uclock p) RecvFrom)) →
  fetch f (poke garbage 0 (u_bytes (udp (uclock p) RecvFrom))) = fetch f (u_bytes (udp (uclock p) RecvFrom)).
Proof. intros [Hl Hm Hg Hfit Hip] ? ?. apply fetch_received; [by split | lia]. Qed.

#[local] Opaque packet put fetch.

(** What the server sends as a grant. *)
Lemma server_grant_sent ref dom n buf :
  len buf = 40 → fetch header_version buf = XEN_SHM_UDP_PROTO_VERSION →
  0 ≤ ref < 2 ^ 32 → 0 ≤ dom < 2 ^ 32 → 0 ≤ n < 256 →
  decode (take (Z.to_nat sizeof_grant)
    (put grant_page_count n (put grant_mode XEN_SHM_UDP_PROTO_GRANT_MODE_READER_OFFERER
      (put header_message XEN_SHM_UDP_PROTO_SERVER_GRANT (put grant_grant_ref ref (put grant_domid dom buf)))))) =
  Some (ServerGrant ref dom XEN_SHM_UDP_PROTO_GRANT_MODE_READER_OFFERER n).
Proof.
  intros Hl Hv Hr Hd Hn.
  assert (∀ g, 0 ≤ m_off g → m_off g + Z.of_nat (m_size g) ≤ 18 → in_range g buf) as Hin by (intros; split; lia).
  assert (in_range grant_grant_ref buf) as H1 by (apply Hin; simpl; lia).
  assert (in_range grant_domid buf) as H2 by (apply Hin; simpl; lia).
  assert (in_range grant_mode buf) as H3 by (apply Hin; simpl; lia).
  assert (in_range grant_page_count buf) as H4 by (apply Hin; simpl; lia).
  assert (in_range header_version buf) as H5 by (apply Hin; simpl; lia).
  assert (in_range header_message buf) as H6 by (apply Hin; simpl; lia).
  set (sent := put grant_page_count n _).
  assert (len sent = 40) as Hs by (subst sent; by rewrite !len_put by in_range_tac).
  destruct (decode_grant_sent sent) as [Hdec _]; [unfold sizeof_grant; lia | subst sent; by fields |].
  rewrite Hdec by (subst sent; by fields). subst sent. by fields.
Qed.

Section ServerAccepting.
Variables (n a : Z).
Hypothesis acc : accepting n a.
Hypothesis callocs : ∀ t, u_ret (udp t Calloc) ≠ 0.

(** A hello is answered by a grant of a new, empty ring: what it changes. *)
Lemma wp_hello_accepted fuel d garbage p :
  proposed_page_page_count (server p) = n → incoming (ClientHello d) garbage p →
  (∀ t, (new_pipe t).1 ≠ 0 ∧ len (buffer (sh (new_pipe t).2)) = pipe_buffer_size n) →
  let r := udp (uclock p) RecvFrom in
  wp (udp_readable_cb fuel false true garbage) (λ _ p', ∃ e w payload ref dom s tl,
    op_addr e = u_ret (udp (S (uclock p)) Calloc) ∧ op_fd e = (new_pipe (S (S (uclock p)))).1 ∧
    op_port e = u_port r ∧ op_from e = u_addr r ∧
    openings p' = <[op_addr e := opening_node e (current (server p))]> (openings p) ∧
    current (server p') = op_addr e ∧ childs (server p') = childs (server p) ∧ children p' = children p ∧
    pipes p' = <[op_fd e := w]> (pipes p) ∧ open_pipe n xen_shm_pipe_mod_read w ∧ content (sh w) = [] ∧
    utrace p' = (SendTo payload (u_port r) (u_addr r), s) :: tl ∧
    decode payload = Some (ServerGrant ref dom XEN_SHM_UDP_PROTO_GRANT_MODE_READER_OFFERER n) ∧
    ∃ t f, let b := answer (PipeEnv := pipe_env (op_fd e)) t (SysInitOfferer f n (u16 d)) in
      dom = u16 (ans_out2 b) ∧ ref = u32 (ans_out1 b)) p.
Proof.
  intros Hprop Hin Hbuf r. apply (wp_incoming _ (ClientHello d)); [done|]. fold r.
  pose proof Hin as [Hl Hm _ _ _]. fold r in Hl, Hm. apply decode_hello_inv in Hm as (Hlen & Hv & _ & Hd).
  unfold sizeof_client_hello in Hlen.
  pose proof (len_received _ _ _ Hin) as Hb. fold r in Hb.
  assert (fetch header_version (poke garbage 0 (u_bytes r)) = XEN_SHM_UDP_PROTO_VERSION) as Hbv
    by (etrans; [eapply received_fields; [exact Hin | done | fold r; simpl; lia] | done]).
  assert (fetch hello_domid (poke garbage 0 (u_bytes r)) = d) as Hbd
    by (etrans; [eapply received_fields; [exact Hin | done | fold r; simpl; lia] | done]).
  set (buf := poke _ _ _) in *. apply wp_if; intros Hz; [bool_hyps; unfold sizeof_client_hello in Hz; lia|]. clear Hz.
  apply wp_bind, wp_bind, wp_ask. simpl uclock. set (x := u_ret (udp (S (uclock p)) Calloc)).
  assert (x ≠ 0) as Hx by apply callocs. rewrite !(proj2 (Z.eqb_neq x 0)) by done.
  apply wp_bind, wp_modify, wp_ret. rewrite (proj2 (Z.eqb_neq x 0)) by done. set (p1 := set_openings _ _).
  apply wp_bind, (wp_pipe_init_accepted n a acc). set (h := (new_pipe (uclock p1)).1).
  destruct (Hbuf (uclock p1)) as [Hh Harea]. fold h in Hh.
  intros w Hi Hs. apply wp_bind, (wp_put_opening _ _ (OpeningList 0 0 0 0)); [done | apply lookup_insert_eq|].
  set (o := set_receive_fd h _). apply wp_bind, wp_get_data. simpl server. rewrite Hprop, Hbd.
  apply wp_bind, (wp_on_pipe _ _ _ w); [done | apply lookup_insert_eq|].
  eapply wp_mono; [apply (wp_offers_accepted n a acc h d w Hi)|].
  { destruct Hs as (_ & _ & Hs). by rewrite Hs. }
  intros res w' (dom & ref & -> & (t & Hdom & Href) & Ho & Hc).
  apply wp_bind, (wp_put_opening _ _ o); [done | apply lookup_insert_eq|].
  apply wp_bind, (wp_put_opening _ _ (set_distant_port (u_port r) o)); [done | apply lookup_insert_eq|].
  apply wp_bind, (wp_put_opening _ _ (set_distant_addr (u_addr r) (set_distant_port (u_port r) o))); [done | apply lookup_insert_eq|].
  apply wp_bind, wp_modify, wp_ask_. simpl proposed_page_page_count.
  exists (Connection x (u_port r) (u_addr r) h), w'. eexists _, ref, dom, _, _.
  split_and!; [done | done | done | done | simpl; by rewrite !insert_insert_eq | done | done | done
              | simpl; by rewrite !insert_insert_eq | done | done | reflexivity | | by exists t, (fd (priv w))].
  pose proof (acc_pages _ _ acc). subst dom ref. apply server_grant_sent; [done | done | apply u32_range | | lia].
  pose proof (u16_range (ans_out2 (answer (PipeEnv := pipe_env h) t (SysInitOfferer (fd (priv w)) n (u16 d))))). lia.
Qed.

(** The same on a well-formed server. *)
Lemma wp_hello_granted fuel d garbage p lo lc :
  server_ok p lo lc → alloc_fresh p → proposed_page_page_count (server p) = n →
  incoming (ClientHello d) garbage p →
  (∀ t, (new_pipe t).1 ≠ 0 ∧ len (buffer (sh (new_pipe t).2)) = pipe_buffer_size n) →
  let r := udp (uclock p) RecvFrom in
  wp (udp_readable_cb fuel false true garbage) (λ _ p', ∃ e w payload ref dom s tl,
    op_port e = u_port r ∧ op_from e = u_addr r ∧ server_ok p' (e :: lo) lc ∧
    pipes p' !! op_fd e = Some w ∧ open_pipe n xen_shm_pipe_mod_read w ∧ content (sh w) = [] ∧
    utrace p' = (SendTo payload (u_port r) (u_addr r), s) :: tl ∧
    decode payload = Some (ServerGrant ref dom XEN_SHM_UDP_PROTO_GRANT_MODE_READER_OFFERER n) ∧
    ∃ t f, let b := answer (PipeEnv := pipe_env (op_fd e)) t (SysInitOfferer f n (u16 d)) in
      dom = u16 (ans_out2 b) ∧ ref = u32 (ans_out1 b)) p.
Proof.
  intros Hok Hf Hprop Hin Hbuf r. eapply wp_mono; [by apply wp_hello_accepted|].
  intros _ p' (e & w & payload & ref & dom & s & tl & Hx & Hh & Hp & Ha & Ho & Hcur & Hcs & Hc & Hpi & Hopen & Hcont & Hrest).
  exists e, w, payload, ref, dom, s, tl.
  split_and!; [done | done | | rewrite Hpi; apply lookup_insert_eq | done | done | apply Hrest..].
  destruct (Hf (S (uclock p))) as (_ & _ & Hno & _); [lia|].
  destruct (Hf (S (S (uclock p)))) as (Hh0 & Hna & _); [lia|].
  eapply (server_ok_opened p p' lo lc e w); try done; rewrite ?Hx, ?Hh; auto. apply Hopen.
Qed.

(** The grant of a client whose connection is open connects the second pipe and
    starts a thread on the two; the connection stays in the list. *)
Lemma wp_grant_started fuel g d garbage e p lo lc :
  server_ok p lo lc → alloc_fresh p → (length lo < fuel)%nat →
  incoming (ClientGrant g d XEN_SHM_UDP_PROTO_GRANT_MODE_READER_OFFERER n) garbage p →
  (∀ t, ring_wf (pipe_buffer_size n) (sh (new_pipe t).2)) →
  (∀ t f c, u_ret (udp t (PthreadCreate f c)) = 0) →
  let r := udp (uclock p) RecvFrom in
  List.find (serves (u_port r) (u_addr r)) lo = Some e →
  wp (udp_readable_cb fuel false true garbage) (λ _ p', ∃ c w s tl,
    server_ok p' lo (c :: lc) ∧
    hd_receive_fd (th_data c) = op_fd e ∧ hd_send_fd (th_data c) ≠ op_fd e ∧ hd_stop (th_data c) = 0 ∧
    hd_private_data (th_data c) = private_data (server p) ∧
    pipes p' !! hd_send_fd (th_data c) = Some w ∧ open_pipe n xen_shm_pipe_mod_write w ∧ asked_receiver n d g w ∧
    utrace p' = (PthreadCreate (initializer (server p)) (th_addr c), s) :: tl ∧ th_child c = u_out s) p.
Proof.
  intros Hok Hf Hn Hin Hbuf Hthread r Hfind. apply (wp_incoming _ _ _ _ _ Hin). fold r.
  pose proof Hin as [Hl Hm _ _ _]. fold r in Hl, Hm.
  destruct (decode_grant_inv _ g d _ n (or_intror Hm)) as (Hlen & _ & Hg & Hd & Hmo & Hpc). unfold sizeof_grant in Hlen.
  assert (∀ f, 0 ≤ m_off f → m_off f + Z.of_nat (m_size f) ≤ 18 →
    fetch f (poke garbage 0 (u_bytes r)) = fetch f (u_bytes r)) as Hfld.
  { intros f ? ?. eapply received_fields; [exact Hin | done | fold r; lia]. }
  set (buf := poke _ _ _) in *. set (p0 := asked RecvFrom p).
  assert (server_ok p0 lo lc) as Hok0 by (eapply server_ok_grows, Hok; apply grows_asked).
  apply wp_bind. unfold wp at 1. rewrite (find_opening_eq _ _ _ _ lo), Hfind by (done || apply Hok0). simpl from_option.
  apply List.find_some in Hfind as [Hine%list_elem_of_In He]. pose proof Hine as (l1 & l2 & Hlo)%list_elem_of_split.
  pose proof (so_openings _ _ _ Hok0) as (_ & _ & Hch). rewrite Hlo in Hch. apply chain_at in Hch as [Ho Hho].
  rewrite (proj2 (Z.eqb_neq _ _) Ho). apply wp_if; intros Hz; [bool_hyps; unfold sizeof_grant in Hz; lia|]. clear Hz.
  apply wp_bind, wp_calloc_child; [by apply alloc_fresh_asked | intros E; by destruct (callocs _ E) |].
  intros c Hc Hnc. rewrite (proj2 (Z.eqb_neq _ _) Hc). set (p1 := set_children _ _).
  rewrite !Hfld, Hmo, Z.eqb_refl by (simpl; lia). simpl negb. cbv iota.
  apply wp_bind, (wp_pipe_init_accepted n a acc). set (h := (new_pipe (uclock p1)).1).
  destruct (Hf (uclock p1)) as (Hh & Hna & _); [unfold p1; simpl; lia|]. fold h in Hh, Hna.
  intros w Hi Hs. apply wp_bind, (wp_put_child _ _ (PthreadList 0 0 (HandlerData 0 0 0 0))); [done | apply lookup_insert_eq|].
  set (x := set_child_data _ _). rewrite Hpc, Hd, Hg.
  apply wp_bind, (wp_on_pipe _ _ _ w); [done | apply lookup_insert_eq|].
  eapply wp_mono; [apply (wp_connect_accepted n a acc h d g w Hi); by eapply same_ring_wf|].
  intros res w' (-> & Ho' & Hask). simpl negb. cbv iota.
  apply wp_bind, (wp_deref _ _ (opening_node e (first op_addr l2))); [done | exact Hho|].
  apply wp_bind, wp_get_data. apply wp_bind, (wp_put_child _ _ x); [done | apply lookup_insert_eq|].
  set (y := set_child_data _ x). set (p3 := set_children (<[c := y]> _) _).
  assert (children p3 = <[c := y]> (children p)) as Hc3 by (unfold p3; simpl; by rewrite !insert_insert_eq).
  apply wp_bind, wp_ask. rewrite Hthread. simpl negb. cbv iota.
  apply wp_bind, (wp_put_child _ _ y); [done | change (children p3 !! c = Some y); rewrite Hc3; apply lookup_insert_eq|].
  set (z := set_child _ y). apply wp_bind, (wp_put_child _ _ z); [done | apply lookup_insert_eq|].
  apply wp_modify. exists (Thread c (child z) (child_data z)), w'. eexists _, _.
  split_and!; [| done | | done | done | apply lookup_insert_eq | done | done | reflexivity | reflexivity].
  - eapply (server_ok_started p0 p3); [done| |done|done| |done..].
    + eapply (grows_child_pipe c h); [exact Hnc | exact Hna | done | done | exact Hc3 |].
      unfold p3. simpl. by rewrite insert_insert_eq.
    + simpl. by rewrite !insert_insert_eq.
  - simpl. intros E. apply Hna. rewrite E. by apply (so_alive _ _ _ Hok).
Qed.
End ServerAccepting.
End ServerSide.
