(* ===== verification/ClientSpecs.v ===== *)
(** The client: every outcome of [init_pipe], and the handshake when the module
    and the server accept. *)
From stdpp Require Import gmap.
From S2P Require Import Prelude Abi Ring PipeDefs PipeSide PipeApi PipeStream PipeLife Udp Process Server Client ProcessSpecs ServerSpecs ServerEvents Handshake.
Open Scope Z_scope.
Open Scope c_scope.

Section ClientSpecs.
Context `{!UdpEnv}.

(** [malloc] gives two pipes two addresses, of nothing that is in use. *)
Definition new_pipes (p : process) : Prop :=
  ∀ t, (uclock p ≤ t)%nat → (new_pipe t).1 ≠ 0 ∧ ¬ alive (new_pipe t).1 p ∧
    (new_pipe (S t)).1 ≠ (new_pipe t).1.

(** The end of a call that failed: what it made is closed, the socket is shut
    down, and the pipes it did not make are as they were. *)
Definition failed (p : process) (made : list Z) (fd r : Z) (p' : process) : Prop :=
  r = -1 ∧ (∀ h, h ∈ made → freed h p') ∧ (∀ h, alive h p → alive h p') ∧
  ∃ tl, (utrace p').*1 = Shutdown fd :: tl.

(** The pipes [made] are new with respect to [p], and alive in [q]. *)
Record holding (p : process) (made : list Z) (q : process) : Prop := {
  ho_new h : h ∈ made → alive h q ∧ ¬ alive h p;
  ho_distinct : NoDup made;
  ho_old h : alive h p → alive h q;
}.

Lemma holding_asked p made c q : holding p made q → holding p made (asked c q).
Proof. intros [H1 H2 H3]. by constructor. Qed.

Lemma holding_ticked p made q : holding p made q → holding p made (ticked q).
Proof. intros [H1 H2 H3]. by constructor. Qed.

(** An operation on one of the pipes. *)
Lemma holding_used p made h w q : holding p made q → live w = true → holding p made (with_pipe h w q).
Proof.
  intros [H1 H2 H3] Hl. constructor; [|done|].
  - intros h' Hh. split; [|by apply H1]. apply alive_with; [by apply H1 | by left].
  - intros h' Hh. apply alive_with; [by apply H3 | by left].
Qed.

Lemma holding_freed p h made w q : holding p (h :: made) q → live w = false → holding p made (with_pipe h w q).
Proof.
  intros [H1 H2 H3] Hl. apply NoDup_cons in H2 as [Hin H2]. constructor; [|done|].
  - intros h' Hh. split; [|apply H1; by right]. apply alive_with; [apply H1; by right | right; by intros ->].
  - intros h' Hh. apply alive_with; [by apply H3 |]. right. intros ->. by apply (H1 h); [left|].
Qed.

Lemma wp_shutdown_socket fd p q made :
  (∀ h, h ∈ made → freed h q) → (∀ h, alive h p → alive h q) →
  wp (shutdown_socket fd) (λ r q', failed p made fd r q') q.
Proof. intros H1 H2. apply wp_bind, wp_ask_, wp_ret. split_and!; [done | done | done | by eexists]. Qed.

Lemma wp_clean_receive_fd fd receive p q made :
  holding p [receive] q → (∀ h, h ∈ made → h = receive ∨ freed h q) →
  wp (clean_receive_fd fd receive) (λ r q', failed p made fd r q') q.
Proof.
  intros Hh Hf. apply wp_bind, wp_pipe_free; [apply (ho_new _ _ _ Hh); by left|]. intros w Hw.
  apply wp_shutdown_socket.
  - intros h Hin. destruct (Hf h Hin) as [->|Hfr]; [by apply freed_new | apply freed_with; [done | by left]].
  - apply (holding_freed _ _ _ w) in Hh; [|done]. apply Hh.
Qed.

Lemma wp_clean_send_fd fd receive send p q :
  holding p [send; receive] q →
  wp (clean_send_fd fd receive send) (λ r q', failed p [send; receive] fd r q') q.
Proof.
  intros Hh. apply wp_bind, wp_pipe_free; [apply (ho_new _ _ _ Hh); by left|]. intros w Hw.
  apply wp_clean_receive_fd; [by apply holding_freed|].
  intros h [->|[->|Hx%elem_of_nil]%elem_of_cons]%elem_of_cons; [right; by apply freed_new | by left | done].
Qed.

Lemma wp_cancel_server fd receive send buffer port addr p q :
  holding p [send; receive] q →
  wp (cancel_server fd receive send buffer port addr) (λ r q', failed p [send; receive] fd r q') q.
Proof. intros Hh. apply wp_bind, wp_ask_, wp_clean_send_fd. by apply holding_asked. Qed.

(** Success: the two pipes, still held, and the socket shut down. *)
Definition answered (p : process) (made : list Z) (fd r : Z) (q' : process) : Prop :=
  failed p made fd r q' ∨ (r = 0 ∧ holding p made q' ∧ ∃ tl, (utrace q').*1 = Shutdown fd :: tl).

Lemma wp_answer_grant fd receive send buffer len port addr proposed p q :
  holding p [send; receive] q →
  wp (answer_grant fd receive send buffer len port addr proposed)
    (λ r q', answered p [send; receive] fd r q') q.
Proof.
  intros Hh.
  assert (∀ b q, holding p [send; receive] q → wp (cancel_server fd receive send b port addr)
    (λ r q', answered p [send; receive] fd r q') q) as Hcancel.
  { intros b q1 H1. eapply wp_mono; [by apply wp_cancel_server|]. intros r q' ?. by left. }
  do 5 (apply wp_if; intros _; [by apply Hcancel|]).
  apply wp_bind, wp_on_alive; [apply (ho_new _ _ _ Hh); by left | apply lives_connect|].
  intros r1 w1 Hl1. apply (holding_used _ _ send w1) in Hh; [|done].
  apply wp_if; intros _; [by apply Hcancel|].
  apply wp_bind, wp_on_alive; [apply (ho_new _ _ _ Hh); by right; left | apply lives_offers|].
  intros r2 w2 Hl2. apply (holding_used _ _ receive w2) in Hh; [|done].
  destruct r2 as [r2 [[dom ref]|]]; [|by apply Hcancel].
  apply wp_bind, wp_ask. do 2 (apply wp_if; intros _; [by apply Hcancel, holding_asked|]).
  apply wp_bind, wp_ask_, wp_ret. right. split_and!; [done | by do 2 apply holding_asked | by eexists].
Qed.

Lemma wp_ask_server fd receive send buffer port addr proposed p q :
  holding p [send; receive] q →
  wp (ask_server fd receive send buffer port addr proposed)
    (λ r q', answered p [send; receive] fd r q') q.
Proof.
  intros Hh.
  assert (∀ b q, holding p [send; receive] q → wp (cancel_server fd receive send b port addr)
    (λ r q', answered p [send; receive] fd r q') q) as Hcancel.
  { intros b q1 H1. eapply wp_mono; [by apply wp_cancel_server|]. intros r q' ?. by left. }
  apply wp_bind, wp_ask. do 2 (apply wp_if; intros _; [by apply Hcancel, holding_asked|]).
  apply wp_bind, wp_ask. apply wp_if; intros _; [by apply Hcancel, holding_asked, holding_asked|].
  by apply wp_answer_grant, holding_asked, holding_asked.
Qed.

(** What [init_pipe] leaves, for every answer of the module and of the network. *)
Definition init_pipe_post (p : process) (r : Z * option Z * option Z) (p' : process) : Prop :=
  let '(ret_, receive, send) := r in
  let fd := u_ret (udp (uclock p) Socket) in
  let made := option_list send ++ option_list receive in
  (ret_ = -1 ∧ (∀ h, h ∈ made → freed h p') ∧ (∀ h, alive h p → alive h p') ∧
     if fd <? 0 then receive = None ∧ send = None ∧ (utrace p').*1 = Socket :: (utrace p).*1
     else ∃ tl, (utrace p').*1 = Shutdown fd :: tl) ∨
  (ret_ = 0 ∧ 0 ≤ fd ∧ holding p made p' ∧ (∃ x y, receive = Some x ∧ send = Some y) ∧
     ∃ tl, (utrace p').*1 = Shutdown fd :: tl).

Lemma wp_init_pipe port addr proposed p :
  new_pipes p → wp (init_pipe port addr proposed) (λ r p', init_pipe_post p r p') p.
Proof.
  intros Hnew. apply wp_bind, wp_ask. set (fd := u_ret (udp (uclock p) Socket)).
  cbv zeta. destruct (fd <? 0) eqn:Hfd.
  { apply wp_ret. unfold init_pipe_post. left. fold fd. rewrite Hfd. split_and!; [done | | done | done | done | done]. intros h Hh. by apply elem_of_nil in Hh. }
  assert (∀ receive send (q' : process), failed p (option_list send ++ option_list receive) fd (-1) q' →
    init_pipe_post p (-1, receive, send) q') as Hfail.
  { intros receive send q' (_ & Hf & Ha & Ht). unfold init_pipe_post. left. fold fd. rewrite Hfd. by split_and!. }
  apply wp_bind, wp_pipe_init.
  { intros r. apply wp_bind. eapply wp_mono; [by apply (wp_shutdown_socket fd p _ []); [intros h Hh%elem_of_nil|]|].
    intros r' q' Hq. pose proof Hq as (-> & _). apply wp_ret. by apply (Hfail None None). }
  set (receive := (new_pipe (uclock (asked Socket p))).1). intros w1 (Hl1 & _).
  destruct (Hnew (uclock (asked Socket p))) as (H0 & Hna & Hne); [simpl; lia|].
  set (p1 := with_pipe _ _ _).
  assert (holding p [receive] p1) as Hh1.
  { constructor; [| apply NoDup_singleton |].
    - intros h ->%list_elem_of_singleton. split; [by apply alive_new | done].
    - intros h Ha. apply alive_with; [done | by left]. }
  apply wp_bind, wp_pipe_init.
  { intros r. apply wp_bind. eapply wp_mono; [apply (wp_clean_receive_fd fd receive p _ [receive]); [by apply holding_ticked|]|].
    - intros h ->%list_elem_of_singleton. by left.
    - intros r' q' Hq. pose proof Hq as (-> & _). apply wp_ret. by apply (Hfail (Some receive) None). }
  set (send := (new_pipe (uclock p1)).1). intros w2 (Hl2 & _).
  destruct (Hnew (uclock p1)) as (Hs0 & Hsna & _); [simpl; lia|].
  set (p2 := with_pipe _ _ _).
  assert (holding p [send; receive] p2) as Hh2.
  { constructor.
    - intros h [->|Hin]%elem_of_cons; [split; [by apply alive_new | done]|]. split; [|by apply (ho_new _ _ _ Hh1)].
      apply alive_with; [by apply (ho_new _ _ _ Hh1) | by left].
    - apply NoDup_cons. split; [|apply NoDup_singleton]. by intros E%list_elem_of_singleton.
    - intros h Ha. apply alive_with; [by apply (ho_old _ _ _ Hh1) | by left]. }
  apply wp_bind, wp_on_alive; [apply (ho_new _ _ _ Hh2); by left | apply lives_getdomid|].
  intros d w3 Hl3. apply (holding_used _ _ send w3) in Hh2; [|done].
  apply wp_bind. apply (wp_mono _ (λ r q', answered p [send; receive] fd r q')).
  - destruct d as [d [domid|]]; [by apply wp_ask_server|].
    eapply wp_mono; [by apply wp_clean_send_fd|]. intros r q' ?. by left.
  - intros r q' [Hq|(-> & Hho & Ht)]; apply wp_ret.
    + pose proof Hq as (-> & _). by apply (Hfail (Some receive) (Some send)).
    + unfold init_pipe_post. right. fold fd. split_and!; [done | by apply Z.ltb_ge | done | by exists receive, send | done].
Qed.
End ClientSpecs.

(** ** When the module and the server accept *)

#[local] Opaque packet put fetch.

(** What the client sends as a grant: the mode is the server's. *)
Lemma client_grant_sent ref dom n buf :
  len buf = 40 → fetch header_version buf = XEN_SHM_UDP_PROTO_VERSION →
  fetch grant_mode buf = XEN_SHM_UDP_PROTO_GRANT_MODE_READER_OFFERER →
  0 ≤ ref < 2 ^ 32 → 0 ≤ dom < 2 ^ 32 → 0 ≤ n < 256 →
  let sent := take (Z.to_nat sizeof_grant) (put grant_page_count n
    (put header_message XEN_SHM_UDP_PROTO_CLIENT_GRANT (put grant_grant_ref ref (put grant_domid dom buf)))) in
  len sent = sizeof_grant ∧
  decode sent = Some (ClientGrant ref dom XEN_SHM_UDP_PROTO_GRANT_MODE_READER_OFFERER n).
Proof.
  intros Hl Hv Hmo Hr Hd Hn.
  assert (∀ g, 0 ≤ m_off g → m_off g + Z.of_nat (m_size g) ≤ 18 → in_range g buf) as Hin by (intros; split; lia).
  assert (in_range grant_grant_ref buf) as H1 by (apply Hin; simpl; lia).
  assert (in_range grant_domid buf) as H2 by (apply Hin; simpl; lia).
  assert (in_range grant_mode buf) as H3 by (apply Hin; simpl; lia).
  assert (in_range grant_page_count buf) as H4 by (apply Hin; simpl; lia).
  assert (in_range header_version buf) as H5 by (apply Hin; simpl; lia).
  assert (in_range header_message buf) as H6 by (apply Hin; simpl; lia).
  set (full := put grant_page_count n _). intros sent.
  assert (len full = 40) as Hs by (subst full; by rewrite !len_put by in_range_tac).
  split.
  { subst sent. unfold len, sizeof_grant in *. rewrite length_take. lia. }
  subst sent. destruct (decode_grant_sent full) as [_ Hdec]; [unfold sizeof_grant; lia | subst full; by fields |].
  rewrite Hdec by (subst full; by fields). subst full. fields. by rewrite Hmo.
Qed.

(** What the client sends first. *)
Lemma client_hello_sent d :
  0 ≤ d < 2 ^ 32 →
  let buf := put hello_domid d (put header_message XEN_SHM_UDP_PROTO_CLIENT_HELLO
    (put header_version XEN_SHM_UDP_PROTO_VERSION (replicate (Z.to_nat XEN_SHM_UDP_PROTO_MAX_LEN) 0))) in
  let sent := take (Z.to_nat sizeof_client_hello) buf in
  len buf = 40 ∧ len sent = sizeof_client_hello ∧ decode sent = Some (ClientHello d).
Proof.
  intros Hd. set (zero := replicate _ _). assert (len zero = 40) as Hz by reflexivity. clearbody zero.
  assert (∀ g, 0 ≤ m_off g → m_off g + Z.of_nat (m_size g) ≤ 18 → in_range g zero) as Hin by (intros; split; lia).
  assert (in_range hello_domid zero) as H1 by (apply Hin; simpl; lia).
  assert (in_range header_version zero) as H5 by (apply Hin; simpl; lia).
  assert (in_range header_message zero) as H6 by (apply Hin; simpl; lia).
  intros buf. assert (len buf = 40) as Hs by (subst buf; by rewrite !len_put by in_range_tac).
  intros sent. split_and!; [done | subst sent; unfold len, sizeof_client_hello in *; rewrite length_take; lia |].
  subst sent. rewrite decode_hello_sent; [by subst buf; fields | unfold sizeof_client_hello; lia | subst buf; by fields ..].
Qed.

Section ClientAccepted.
Context `{!UdpEnv} (n a : Z) (acc : accepting n a).
Variables (port addr g d : Z).
Hypothesis socket_opens : ∀ t, 0 ≤ u_ret (udp t Socket).
Hypothesis datagrams_leave : ∀ t l, u_ret (udp t (SendTo l port addr)) = len l.
Hypothesis server_grants : ∀ t, let r := udp t Recv in
  u_ret r = len (u_bytes r) ∧ len (u_bytes r) ≤ XEN_SHM_UDP_PROTO_MAX_LEN ∧
  decode (u_bytes r) = Some (ServerGrant g d XEN_SHM_UDP_PROTO_GRANT_MODE_READER_OFFERER n).
Hypothesis areas : ∀ t, ring_wf (pipe_buffer_size n) (sh (new_pipe t).2).

(** The pipes once the client is connected. *)
Definition client_pipes (receive send : Z) (p' : process) : Prop :=
  (∃ w, pipes p' !! receive = Some w ∧ open_pipe n xen_shm_pipe_mod_read w ∧ content (sh w) = []) ∧
  (∃ w, pipes p' !! send = Some w ∧ open_pipe n xen_shm_pipe_mod_write w ∧ asked_receiver n d g w).

Lemma wp_answer_grant_accepted fd receive send buffer bytes p wr ws :
  len buffer = 40 → len bytes ≤ 40 →
  decode bytes = Some (ServerGrant g d XEN_SHM_UDP_PROTO_GRANT_MODE_READER_OFFERER n) →
  receive ≠ 0 → send ≠ 0 → receive ≠ send → pipes p !! receive = Some wr → pipes p !! send = Some ws →
  initialised xen_shm_pipe_mod_read xen_shm_pipe_conv_reader_offers wr →
  initialised xen_shm_pipe_mod_write xen_shm_pipe_conv_reader_offers ws →
  ring_wf (pipe_buffer_size n) (sh wr) → ring_wf (pipe_buffer_size n) (sh ws) →
  wp (answer_grant fd receive send (poke buffer 0 bytes) (len bytes) port addr n)
    (λ r p', r = 0 ∧ client_pipes receive send p' ∧ ∃ grant ref dom,
       (utrace p').*1 = [Shutdown fd; SendTo grant port addr] ++ (utrace p).*1 ∧
       decode grant = Some (ClientGrant ref dom XEN_SHM_UDP_PROTO_GRANT_MODE_READER_OFFERER n) ∧
       ∃ t f, let b := answer (PipeEnv := pipe_env receive) t (SysInitOfferer f n (u16 d)) in
         dom = u16 (ans_out2 b) ∧ ref = u32 (ans_out1 b)) p.
Proof.
  intros Hb Hbytes Hm Hr0 Hs0 Hne Hr Hs Hir His Hwr Hws.
  pose proof (decode_message_inv _ _ Hm) as (_ & _ & Hmsg).
  destruct (decode_grant_inv _ g d _ n (or_introl Hm)) as (Hlen & Hv & Hg & Hd & Hmo & Hpc). unfold sizeof_grant in Hlen.
  assert (∀ f, 0 ≤ m_off f → m_off f + Z.of_nat (m_size f) ≤ 18 →
    fetch f (poke buffer 0 bytes) = fetch f bytes) as Hf by (intros; apply fetch_received; [split; lia | lia]).
  assert (len (poke buffer 0 bytes) = 40) as Hl by (rewrite len_poke; lia).
  assert (fetch header_version (poke buffer 0 bytes) = XEN_SHM_UDP_PROTO_VERSION) as Hv'
    by (rewrite Hf by (simpl; lia); done).
  assert (fetch grant_mode (poke buffer 0 bytes) = XEN_SHM_UDP_PROTO_GRANT_MODE_READER_OFFERER) as Hmo'
    by (rewrite Hf by (simpl; lia); done).
  unfold answer_grant. rewrite !Hf, Hmsg, Hmo, Hpc, Hd, Hg by (simpl; lia).
  set (buf := poke buffer 0 bytes) in *. simpl negb. simpl (_ =? _). cbv iota.
  apply wp_if; intros Hz; [bool_hyps; unfold sizeof_grant in Hz; lia|]. clear Hz.
  apply wp_bind, (wp_on_pipe _ _ _ ws); [done | done|].
  eapply wp_mono; [by apply (wp_connect_accepted n a acc send d g ws)|]. intros r w1 (-> & Ho1). simpl negb. cbv iota.
  apply wp_bind, (wp_on_pipe _ _ _ wr); [done | unfold with_pipe; simpl; by rewrite lookup_insert_ne|].
  eapply wp_mono; [by apply (wp_offers_accepted n a acc receive d wr); [|apply Hwr]|].
  intros r w2 (dom & ref & -> & (t & Hdom & Href) & Ho2 & Hc2). cbv iota zeta beta.
  pose proof (acc_pages _ _ acc). pose proof (u16_range (ans_out2 (answer (PipeEnv := pipe_env receive) t
    (SysInitOfferer (PipeDefs.fd (priv wr)) n (u16 d))))) as Hrg.
  destruct (client_grant_sent ref dom n buf) as [Hsent Hdec]; [done..|by subst ref; apply u32_range | subst dom; lia | lia |].
  apply wp_bind, wp_ask. rewrite datagrams_leave, Hsent. simpl (_ <? _). cbv iota. rewrite Z.eqb_refl. simpl negb. cbv iota.
  apply wp_bind, wp_ask_, wp_ret. split_and!; [done | split |].
  - exists w2. split_and!; [apply lookup_insert_eq | done | done].
  - exists w1. split; [|done]. unfold with_pipe. simpl. rewrite lookup_insert_ne by done. apply lookup_insert_eq.
  - eexists _, ref, dom. split_and!; [reflexivity | done | by exists t, (PipeDefs.fd (priv wr))].
Qed.

(** The whole handshake, seen from the client. *)
Lemma wp_init_pipe_accepted p :
  new_pipes p →
  wp (init_pipe port addr n) (λ r p', ∃ receive send, r = (0, Some receive, Some send) ∧
    client_pipes receive send p' ∧ ∃ fd hello domid grant ref dom,
      (utrace p').*1 = [Shutdown fd; SendTo grant port addr; Recv; SendTo hello port addr; Socket] ++ (utrace p).*1 ∧
      decode hello = Some (ClientHello domid) ∧
      decode grant = Some (ClientGrant ref dom XEN_SHM_UDP_PROTO_GRANT_MODE_READER_OFFERER n) ∧
      ∃ t f, let b := answer (PipeEnv := pipe_env receive) t (SysInitOfferer f n (u16 d)) in
        dom = u16 (ans_out2 b) ∧ ref = u32 (ans_out1 b)) p.
Proof.
  intros Hnew. apply wp_bind, wp_ask. pose proof (socket_opens (uclock p)) as Hfd.
  set (fd := u_ret (udp (uclock p) Socket)) in *. cbv zeta. rewrite (proj2 (Z.ltb_ge fd 0)) by done.
  apply wp_bind, (wp_pipe_init_accepted n a acc). intros w1 Hi1 Hs1.
  set (receive := (new_pipe (uclock (asked Socket p))).1) in *. set (p1 := with_pipe _ _ _).
  destruct (Hnew (uclock (asked Socket p))) as (Hr0 & _ & Hne); [simpl; lia|].
  apply wp_bind, (wp_pipe_init_accepted n a acc). intros w2 Hi2 Hs2.
  destruct (Hnew (uclock p1)) as (Hs0 & _ & _); [simpl; lia|].
  set (send := (new_pipe (uclock p1)).1) in *.
  assert (send ≠ receive) as Hne' by exact Hne. clear Hne.
  apply wp_bind, (wp_on_pipe _ _ _ w2); [done | apply lookup_insert_eq|].
  eapply wp_mono; [by apply (wp_getdomid_accepted n a acc)|]. intros r w3 (domid & -> & Hdr & Hi3 & Hs3). cbv iota.
  destruct (client_hello_sent domid) as (Hlen & Hsent & Hdec); [lia|].
  set (buf := put hello_domid domid _) in *.
  apply wp_bind. unfold ask_server. apply wp_bind, wp_ask. rewrite datagrams_leave, Hsent. simpl (_ <? _). cbv iota. rewrite Z.eqb_refl. simpl negb. cbv iota.
  apply wp_bind, wp_ask. set (p5 := asked Recv _).
  match goal with |- context [udp ?t Recv] => destruct (server_grants t) as (Hu & Hfit & Hgrant);
    set (got := udp t Recv) in * end.
  pose proof (decode_message_inv _ _ Hgrant) as (Hl8 & _ & _). unfold sizeof_header in Hl8.
  rewrite Hu, (proj2 (Z.leb_gt _ _)) by lia.
  eapply wp_mono; [apply (wp_answer_grant_accepted fd receive send buf (u_bytes got) p5 w1 w3); try done|].
  - unfold p5, p1. simpl. by rewrite !lookup_insert_ne, lookup_insert_eq by done.
  - apply lookup_insert_eq.
  - eapply same_ring_wf; [exact Hs1 | apply areas].
  - eapply same_ring_wf; [exact Hs3 |]. eapply same_ring_wf; [exact Hs2 | apply areas].
  - intros r p' (-> & Hp & grant & ref & dom & Ht & Hg & Ha). apply wp_ret.
    exists receive, send. split_and!; [done | done |]. exists fd, (take (Z.to_nat sizeof_client_hello) buf), domid, grant, ref, dom.
    split_and!; [by rewrite Ht | done | done | done].
Qed.
End ClientAccepted.
