(* ===== verification/UdpTheorems.v ===== *)
(** The properties of the handshake, its server and its client, each with a
    concrete system on which its hypotheses hold. *)
From stdpp Require Import gmap relations.
From S2P Require Import Prelude Abi Ring PipeDefs PipeSide PipeApi PipeStream PipeLife Udp Process Server Client ProcessSpecs ServerSpecs ServerEvents ServerRuns Handshake ClientSpecs.
Open Scope Z_scope.
Open Scope c_scope.

(** ** A concrete system *)

(** The module accepts everything, in areas of one page. *)
Definition demo_module : PipeEnv := {|
  peer := λ _ s, s;
  answer := λ _ c,
    match c with
    | SysMmap _ _ => SysAnswer 16384 0 0 0
    | SysOpen => SysAnswer 3 0 0 0
    | SysMalloc => SysAnswer 1 0 0 0
    | SysInitOfferer _ _ _ => SysAnswer 0 0 77 5
    | _ => SysAnswer 0 0 5 0
    end;
|}.
Definition demo_area : pipe_shared := PipeShared 0 0 0 0 (replicate 4080 0).
Definition demo_mem : pipe_priv :=
  PipePriv 0 xen_shm_pipe_mod_write xen_shm_pipe_conv_reader_offers 0 0 0
    (IoctlargAwait 0 0 0) false (PipeStats 0 0 0 0 0 0).
Definition demo_fresh : world := World demo_area demo_mem false 0 [] 0 0 [] [].

(** Datagrams from port 9 of host 6 hold [packet]; allocations at time [t] are at
    [1000 + t]. A thread ends when it reads 1 in its flag. *)
Definition demo_system (packet : list Z) : UdpEnv := {|
  udp := λ t c,
    match c with
    | RecvFrom | Recv => UAnswer (len packet) 0 packet 9 6 sizeof_sockaddr_in
    | SendTo l _ _ => UAnswer (len l) 0 [] 0 0 0
    | Calloc => UAnswer (1000 + Z.of_nat t) 0 [] 0 0 0
    | Socket => UAnswer 3 0 [] 0 0 0
    | PthreadCreate _ _ => UAnswer 0 70 [] 0 0 0
    | PthreadJoin _ stop => UAnswer 0 stop [] 0 0 0
    | _ => UAnswer 0 0 [] 0 0 0
    end;
  pipe_env := λ _, demo_module;
  new_pipe := λ t, (5000 + Z.of_nat t, demo_fresh);
|}.

Lemma demo_accepting packet : accepting (H := demo_system packet) 1 16384.
Proof. constructor; try done; lia. Qed.
Lemma demo_area_wf : ring_wf (pipe_buffer_size 1) demo_area.
Proof. vm_compute. split_and!; intros; discriminate || reflexivity. Qed.

(** A pipe that is alive. *)
Definition demo_pipe : world :=
  World demo_area (PipePriv 3 xen_shm_pipe_mod_read xen_shm_pipe_conv_reader_offers 16384 4080 1020
    (IoctlargAwait 0 0 0) false (PipeStats 0 0 0 0 0 0)) true 0 [] 0 0 [] [].

(** Connections [i], from host 6 and port [9 - i], at 100 + i with pipe 200 + i. *)
Definition demo_connection (i : Z) : connection := Connection (100 + i) (9 - i) 6 (200 + i).
Definition demo_openings (l : list connection) : gmap Z opening_list :=
  snd (foldr (λ e '(n, m), (op_addr e, <[op_addr e := opening_node e n]> m)) (0, ∅) l).
Definition demo_pipes (l : list connection) : gmap Z world := list_to_map ((λ e, (op_fd e, demo_pipe)) <$> l).
Definition demo_process (l : list connection) : process :=
  Process (demo_pipes l) (demo_openings l) ∅ (InternalData 1 8 9 0 (first op_addr l)) 0 0 [].

Lemma demo_fresh_alloc packet l :
  (∀ a, 300 ≤ a → demo_pipes l !! a = None) → (∀ a, 300 ≤ a → demo_openings l !! a = None) →
  @alloc_fresh (demo_system packet) (demo_process l).
Proof.
  intros Hp Ho t _. split_and!; cbn [new_pipe demo_system udp u_ret fst]; [lia | | by apply Ho; lia | done].
  intros [_ (w & Hw & _)]. cbn [demo_process pipes] in Hw. rewrite Hp in Hw by lia. done.
Qed.

(** Two connections: the one of port 9 is the older. *)
Definition demo_two : list connection := [demo_connection 1; demo_connection 0].

Lemma demo_two_ok : server_ok (demo_process demo_two) demo_two [].
Proof.
  constructor.
  - split_and!; [done | by apply (bool_decide_unpack _); vm_compute | by vm_compute].
  - split_and!; [done | constructor | done].
  - intros e He. unfold demo_two in He. apply elem_of_cons in He as [->|He%list_elem_of_singleton]; [|subst e]; (split; [done|]; by exists demo_pipe).
  - by apply (bool_decide_unpack _); vm_compute.
Qed.

Lemma demo_two_pipes a : 300 ≤ a → demo_pipes demo_two !! a = None.
Proof.
  intros Ha. apply not_elem_of_list_to_map. simpl. rewrite !not_elem_of_cons.
  split_and!; [lia | lia | apply not_elem_of_nil].
Qed.

Lemma demo_two_fresh packet : @alloc_fresh (demo_system packet) (demo_process demo_two).
Proof.
  apply demo_fresh_alloc; intros a Ha.
  - by apply demo_two_pipes.
  - unfold demo_openings. simpl. rewrite !lookup_insert_ne by (simpl; lia). done.
Qed.

(** Message [m] in a packet, received in a cleared buffer. *)
Definition demo_buffer : list Z := replicate 40 0.
Lemma demo_incoming m p :
  message_wf m → len (encode m) ≤ 40 → incoming (H := demo_system (encode m)) m demo_buffer p.
Proof. intros Hm Hl. constructor; [done | by apply decode_encode_eq | done | done | done]. Qed.

(** ** The server *)

(** C31. The message handler on a well-formed server, for every packet or error on
    the socket and whatever the module, the allocator and the system answer: it
    ends without a fault, with lists that are well formed and have changed by at
    most one step (a connection of the packet's source opened or closed, or a
    thread started), every connection with a live pipe of its own; or the packet
    made it free the newest connection. *)
Theorem handler_keeps_server `{!UdpEnv} fuel err rd garbage lo lc p :
  server_ok p lo lc → alloc_fresh p → ipv4_source p → (length lo < fuel)%nat →
  let r := udp (uclock p) RecvFrom in
  wp (udp_readable_cb fuel err rd garbage) (λ _ p', event_result (u_port r) (u_addr r) lo lc p') p.
Proof. apply wp_udp_readable_cb. Qed.

Lemma handler_keeps_server_witness :
  wp (udp_readable_cb (H := demo_system (encode ClientReset)) 3 false true demo_buffer)
    (λ _ p', event_result 9 6 demo_two [] p') (demo_process demo_two).
Proof.
  apply (handler_keeps_server (H := demo_system (encode ClientReset)));
    [apply demo_two_ok | apply demo_two_fresh | done | simpl; lia].
Defined.

(** C32. Over any run of the event loop the server refines the abstract one, which
    is a list of connections and a list of threads, as long as it does not free the
    newest connection. *)
Theorem server_refines_lists `{!UdpEnv} p p' lo lc :
  server_ok p lo lc → rtc event_step p p' →
  (∃ s', rtc abstract_step (lo, lc) s' ∧ server_ok p' s'.1 s'.2) ∨
  ∃ q, rtc event_step p q ∧ rtc event_step q p' ∧ freed_newest q.
Proof. apply run_refines. Qed.

(** A turn in which a packet that is too short arrives. *)
Lemma server_refines_lists_witness :
  ∃ p', rtc (event_step (H := demo_system [1])) (demo_process demo_two) p' ∧
  ((∃ s', rtc abstract_step (demo_two, []) s' ∧ server_ok p' s'.1 s'.2) ∨
   ∃ q, rtc (event_step (H := demo_system [1])) (demo_process demo_two) q ∧
     rtc (event_step (H := demo_system [1])) q p' ∧ freed_newest q).
Proof.
  assert (∃ p', event_step (H := demo_system [1]) (demo_process demo_two) p') as [p' Hs].
  { eexists. split; [apply demo_two_fresh|]. split; [reflexivity|].
    exists false, true, demo_buffer, 0%nat. intros fuel _. reflexivity. }
  exists p'. split; [by apply rtc_once|].
  apply (server_refines_lists (H := demo_system [1])); [apply demo_two_ok | by apply rtc_once].
Defined.

(** C33. CLIENT_HELLO, when the module accepts: a connection of the packet's source
    is added at the head, with a pipe whose ring is mapped, open and empty, and the
    answer, as the client decodes it, is a SERVER_GRANT of the proposed number of
    pages with the grant and the domain the module gave. *)
Theorem hello_is_granted `{!UdpEnv} n a fuel d garbage p lo lc :
  accepting n a → (∀ t, u_ret (udp t Calloc) ≠ 0) →
  server_ok p lo lc → alloc_fresh p → proposed_page_page_count (server p) = n →
  incoming (ClientHello d) garbage p →
  (∀ t, (new_pipe t).1 ≠ 0 ∧ len (buffer (sh (new_pipe t).2)) = pipe_buffer_size n) →
  let r := udp (uclock p) RecvFrom in
  wp (udp_readable_cb fuel false true garbage) (λ _ p', ∃ e w payload ref dom s tl,
    op_port e = u_port r ∧ op_from e = u_addr r ∧ server_ok p' (e :: lo) lc ∧
    pipes p' !! op_fd e = Some w ∧ open_pipe n xen_shm_pipe_mod_read w ∧ content (sh w) = [] ∧
    utrace p' = (SendTo payload (u_port r) (u_addr r), s) :: tl ∧
    decode payload = Some (ServerGrant ref dom XEN_SHM_UDP_PROTO_GRANT_MODE_READER_OFFERER n) ∧
    ∃ t f, let b := answer (PipeEnv := pipe_env (op_fd e)) t (SysInitOfferer f n (u16 d)) in
      dom = u16 (ans_out2 b) ∧ ref = u32 (ans_out1 b)) p.
Proof. intros acc Hc. by apply (wp_hello_granted n a acc Hc). Qed.

Lemma hello_is_granted_witness :
  let E := demo_system (encode (ClientHello 4)) in
  wp (udp_readable_cb (H := E) 0 false true demo_buffer) (λ _ p', ∃ e w payload ref dom s tl,
    op_port e = 9 ∧ op_from e = 6 ∧ server_ok p' (e :: demo_two) [] ∧
    pipes p' !! op_fd e = Some w ∧ open_pipe 1 xen_shm_pipe_mod_read w ∧ content (sh w) = [] ∧
    utrace p' = (SendTo payload 9 6, s) :: tl ∧
    decode payload = Some (ServerGrant ref dom XEN_SHM_UDP_PROTO_GRANT_MODE_READER_OFFERER 1) ∧
    ∃ t f, let b := answer (PipeEnv := pipe_env (UdpEnv := E) (op_fd e)) t (SysInitOfferer f 1 (u16 4)) in
      dom = u16 (ans_out2 b) ∧ ref = u32 (ans_out1 b)) (demo_process demo_two).
Proof.
  apply (hello_is_granted (H := demo_system (encode (ClientHello 4))) 1 16384 0 4).
  - apply demo_accepting.
  - intros t. simpl. lia.
  - apply demo_two_ok.
  - apply demo_two_fresh.
  - reflexivity.
  - by apply demo_incoming.
  - intros t. split; [simpl; lia | reflexivity].
Defined.

(** C34. CLIENT_GRANT from a source that has a connection, when the module accepts:
    a second pipe is connected on the client's grant, open over its ring, and a thread is started
    with the connection's pipe to receive from and the new one to send to. The
    connection stays in the list. *)
Theorem grant_starts_thread `{!UdpEnv} n a fuel g d garbage e p lo lc :
  accepting n a → (∀ t, u_ret (udp t Calloc) ≠ 0) →
  server_ok p lo lc → alloc_fresh p → (length lo < fuel)%nat →
  incoming (ClientGrant g d XEN_SHM_UDP_PROTO_GRANT_MODE_READER_OFFERER n) garbage p →
  (∀ t, ring_wf (pipe_buffer_size n) (sh (new_pipe t).2)) →
  (∀ t f c, u_ret (udp t (PthreadCreate f c)) = 0) →
  let r := udp (uclock p) RecvFrom in
  List.find (serves (u_port r) (u_addr r)) lo = Some e →
  wp (udp_readable_cb fuel false true garbage) (λ _ p', ∃ c w s tl,
    server_ok p' lo (c :: lc) ∧
    hd_receive_fd (th_data c) = op_fd e ∧ hd_send_fd (th_data c) ≠ op_fd e ∧ hd_stop (th_data c) = 0 ∧
    hd_private_data (th_data c) = private_data (server p) ∧
    pipes p' !! hd_send_fd (th_data c) = Some w ∧ open_pipe n xen_shm_pipe_mod_write w ∧ asked_receiver n d g w ∧
    utrace p' = (PthreadCreate (initializer (server p)) (th_addr c), s) :: tl ∧ th_child c = u_out s) p.
Proof. intros acc Hc. by apply (wp_grant_started n a acc Hc). Qed.

Lemma grant_starts_thread_witness :
  let m := ClientGrant 77 5 XEN_SHM_UDP_PROTO_GRANT_MODE_READER_OFFERER 1 in
  wp (udp_readable_cb (H := demo_system (encode m)) 3 false true demo_buffer) (λ _ p', ∃ c w s tl,
    server_ok p' demo_two [c] ∧
    hd_receive_fd (th_data c) = 200 ∧ hd_send_fd (th_data c) ≠ 200 ∧ hd_stop (th_data c) = 0 ∧
    hd_private_data (th_data c) = 8 ∧
    pipes p' !! hd_send_fd (th_data c) = Some w ∧ open_pipe 1 xen_shm_pipe_mod_write w ∧ asked_receiver 1 5 77 w ∧
    utrace p' = (PthreadCreate 9 (th_addr c), s) :: tl ∧ th_child c = u_out s) (demo_process demo_two).
Proof.
  intros m. apply (grant_starts_thread (H := demo_system (encode m)) 1 16384 3 77 5 demo_buffer (demo_connection 0)
    (demo_process demo_two) demo_two []).
  - apply demo_accepting.
  - intros t. simpl. lia.
  - apply demo_two_ok.
  - apply demo_two_fresh.
  - simpl. lia.
  - by apply demo_incoming.
  - intros t. apply demo_area_wf.
  - done.
  - reflexivity.
Defined.

(** A thread at 400 receives from the pipe of the older connection. *)
Definition demo_thread : thread := Thread 400 70 (HandlerData 200 210 0 8).
Definition demo_running_on (l : list connection) : process :=
  Process (demo_pipes l) (demo_openings l) {[ 400 := thread_node demo_thread 0 ]}
    (InternalData 1 8 9 400 (first op_addr l)) 0 0 [].

Lemma demo_running_ok l : server_ok (demo_process l) l [] → server_ok (demo_running_on l) l [demo_thread].
Proof.
  intros [H1 H2 H3 H4]. constructor; [done | | done | done].
  split_and!; [done | apply NoDup_singleton | by vm_compute].
Qed.

(** C35. Stopping a well-formed server whose threads end when they are told to: it
    ends. Every connection's pipe is closed and the connection freed; every thread is
    joined with its flag set by then, all of them before the first is freed; and
    nothing of the two lists is left. *)
Theorem stop_closes_everything `{!UdpEnv} fuel lo lc p :
  stops_when_told → server_ok p lo lc → (length lo < fuel)%nat → (length lc < fuel)%nat →
  wp (stop_server fuel) (λ _ p', all_closed lo lc p' ∧ (utrace p').*1 = stop_calls lo lc ++ (utrace p).*1) p.
Proof. apply wp_stop_server. Qed.

Lemma stop_closes_everything_witness :
  wp (stop_server (H := demo_system []) 3) (λ _ p', all_closed demo_two [demo_thread] p' ∧
    (utrace p').*1 = [Free 400; PthreadJoin 70 1; Free 100; Free 101]) (demo_running_on demo_two).
Proof.
  apply (stop_closes_everything (H := demo_system []) 3 demo_two [demo_thread] (demo_running_on demo_two));
    [done | apply demo_running_ok, demo_two_ok | simpl; lia ..].
Defined.

(** ** The client *)

(** C36. [init_pipe], whatever the module, the allocator and the network answer:
    it answers -1 with every pipe it made closed, or 0 with both pipes made and
    alive; the socket is shut down in both cases if it was opened, and the pipes of
    the process that it did not make are alive as before. *)
Theorem init_pipe_outcomes `{!UdpEnv} port addr proposed p :
  new_pipes p → wp (init_pipe port addr proposed) (λ r p', init_pipe_post p r p') p.
Proof. apply wp_init_pipe. Qed.

Lemma demo_new_pipes packet : new_pipes (H := demo_system packet) (demo_process demo_two).
Proof.
  intros t _. split_and!; cbn [new_pipe demo_system fst]; [lia | | lia].
  intros [_ (w & Hw & _)]. cbn [demo_process pipes] in Hw.
  rewrite demo_two_pipes in Hw by lia. done.
Qed.

Lemma init_pipe_outcomes_witness :
  wp (init_pipe (H := demo_system (encode ServerReset)) 9 6 1)
    (λ r p', init_pipe_post (H := demo_system (encode ServerReset)) (demo_process demo_two) r p') (demo_process demo_two).
Proof. apply (init_pipe_outcomes (H := demo_system (encode ServerReset))), demo_new_pipes. Defined.

(** C37. The handshake seen from the client, when the module accepts and the server
    answers with a SERVER_GRANT: [init_pipe] answers 0 with the pipe to send mapped
    on the server's grant and the pipe to receive mapped and empty; it sent a
    CLIENT_HELLO with the domain's number and a CLIENT_GRANT with the grant and the
    domain the module gave, as the server decodes them. *)
Theorem client_connects `{!UdpEnv} n a port addr g d p :
  accepting n a → (∀ t, 0 ≤ u_ret (udp t Socket)) →
  (∀ t l, u_ret (udp t (SendTo l port addr)) = len l) →
  (∀ t, let r := udp t Recv in
    u_ret r = len (u_bytes r) ∧ len (u_bytes r) ≤ XEN_SHM_UDP_PROTO_MAX_LEN ∧
    decode (u_bytes r) = Some (ServerGrant g d XEN_SHM_UDP_PROTO_GRANT_MODE_READER_OFFERER n)) →
  (∀ t, ring_wf (pipe_buffer_size n) (sh (new_pipe t).2)) → new_pipes p →
  wp (init_pipe port addr n) (λ r p', ∃ receive send, r = (0, Some receive, Some send) ∧
    client_pipes n g d receive send p' ∧ ∃ fd hello domid grant ref dom,
      (utrace p').*1 = [Shutdown fd; SendTo grant port addr; Recv; SendTo hello port addr; Socket] ++ (utrace p).*1 ∧
      decode hello = Some (ClientHello domid) ∧
      decode grant = Some (ClientGrant ref dom XEN_SHM_UDP_PROTO_GRANT_MODE_READER_OFFERER n) ∧
      ∃ t f, let b := answer (PipeEnv := pipe_env receive) t (SysInitOfferer f n (u16 d)) in
        dom = u16 (ans_out2 b) ∧ ref = u32 (ans_out1 b)) p.
Proof. intros acc Hs Hl Hr Ha. by apply (wp_init_pipe_accepted n a acc port addr g d). Qed.

Lemma client_connects_witness :
  let E := demo_system (encode (ServerGrant 77 5 XEN_SHM_UDP_PROTO_GRANT_MODE_READER_OFFERER 1)) in
  let p := demo_process demo_two in
  wp (init_pipe (H := E) 9 6 1) (λ r p', ∃ receive send, r = (0, Some receive, Some send) ∧
    client_pipes 1 77 5 receive send p' ∧ ∃ fd hello domid grant ref dom,
      (utrace p').*1 = [Shutdown fd; SendTo grant 9 6; Recv; SendTo hello 9 6; Socket] ++ (utrace p).*1 ∧
      decode hello = Some (ClientHello domid) ∧
      decode grant = Some (ClientGrant ref dom XEN_SHM_UDP_PROTO_GRANT_MODE_READER_OFFERER 1) ∧
      ∃ t f, let b := answer (PipeEnv := pipe_env (UdpEnv := E) receive) t (SysInitOfferer f 1 (u16 5)) in
        dom = u16 (ans_out2 b) ∧ ref = u32 (ans_out1 b)) p.
Proof.
  intros E p. apply (client_connects (H := E) 1 16384 9 6 77 5 p).
  - apply demo_accepting.
  - done.
  - done.
  - intros t. split_and!; [done | done | by apply decode_encode_eq].
  - intros t. apply demo_area_wf.
  - apply demo_new_pipes.
Defined.

(** ** Freed connections *)

(** A CLIENT_RESET runs [free_o_new] on the connection of its source. *)
Lemma wp_client_reset `{!UdpEnv} fuel garbage e p l1 l2 lc :
  server_ok p (l1 ++ e :: l2) lc → (length (l1 ++ e :: l2) < fuel)%nat → incoming ClientReset garbage p →
  let r := udp (uclock p) RecvFrom in
  List.find (serves (u_port r) (u_addr r)) (l1 ++ e :: l2) = Some e →
  wp (udp_readable_cb fuel false true garbage) (λ _ p', gone l1 e l2 lc p' ∧ freed (op_fd e) p' ∧
    server p' = server p ∧ children p' = children p) p.
Proof.
  intros Hok Hn Hin r Hfind. apply (wp_incoming _ _ _ _ _ Hin). fold r.
  assert (server_ok (asked RecvFrom p) (l1 ++ e :: l2) lc) as Hok1 by (eapply server_ok_grows, Hok; apply grows_asked).
  apply wp_bind. unfold wp at 1. rewrite (find_opening_eq _ _ _ _ (l1 ++ e :: l2)), Hfind by (done || apply Hok1).
  pose proof (so_openings _ _ _ Hok) as (_ & _ & Hch). apply chain_at in Hch as [Ho _].
  simpl from_option. rewrite (proj2 (Z.eqb_neq _ _) Ho).
  eapply wp_mono; [by apply (wp_free_o_new fuel l1 e l2 lc)|]. intros _ p' (Hg & Hf & Hs & Hc). by split_and!.
Qed.

(** C38. CLIENT_RESET from the source of the newest connection frees the connection
    and leaves the list pointing to it: the next look at the list, from any packet
    or on stopping the server, is an access to freed memory. *)
Theorem newest_reset_breaks_list `{!UdpEnv} fuel garbage e l lc p :
  server_ok p (e :: l) lc → (length (e :: l) < fuel)%nat → incoming ClientReset garbage p →
  serves (u_port (udp (uclock p) RecvFrom)) (u_addr (udp (uclock p) RecvFrom)) e = true →
  wp (udp_readable_cb fuel false true garbage) (λ _ p', freed_newest p' ∧
    ∀ n port addr, find_opening (S n) port addr p' = Fault UseAfterFree ∧
                   stop_server (S n) p' = Fault UseAfterFree) p.
Proof.
  intros Hok Hn Hin He. eapply wp_mono; [apply (wp_client_reset _ _ e _ [] l lc); [done..|]|].
  - simpl. by rewrite He.
  - intros _ p' [(Hc & H0 & Hno) _]. assert (freed_newest p') as Hf by (unfold freed_newest; by rewrite Hc).
    split; [done|]. intros. by apply freed_newest_faults.
Qed.

Definition demo_one : list connection := [demo_connection 0].

Lemma demo_one_ok : server_ok (demo_process demo_one) demo_one [].
Proof.
  constructor.
  - split_and!; [done | by apply (bool_decide_unpack _); vm_compute | by vm_compute].
  - split_and!; [done | constructor | done].
  - intros e ->%list_elem_of_singleton. split; [done|]. by exists demo_pipe.
  - by apply (bool_decide_unpack _); vm_compute.
Qed.

Lemma newest_reset_breaks_list_witness :
  let E := demo_system (encode ClientReset) in
  wp (udp_readable_cb (H := E) 2 false true demo_buffer) (λ _ p', freed_newest p' ∧
    ∀ n port addr, find_opening (S n) port addr p' = Fault UseAfterFree ∧
                   stop_server (H := E) (S n) p' = Fault UseAfterFree) (demo_process demo_one).
Proof.
  intros E. apply (newest_reset_breaks_list (H := E) 2 demo_buffer (demo_connection 0) [] []).
  - apply demo_one_ok.
  - simpl. lia.
  - by apply demo_incoming.
  - reflexivity.
Defined.

(** C39. After that, a CLIENT_HELLO whose connection is allocated at the freed
    address is linked to itself: a packet of any other source then searches the
    list for ever. *)
Theorem reused_address_never_ends `{!UdpEnv} n a fuel d garbage p :
  accepting n a → (∀ t, u_ret (udp t Calloc) ≠ 0) → proposed_page_page_count (server p) = n →
  incoming (ClientHello d) garbage p →
  (∀ t, (new_pipe t).1 ≠ 0 ∧ len (buffer (sh (new_pipe t).2)) = pipe_buffer_size n) →
  freed_newest p → u_ret (udp (S (uclock p)) Calloc) = current (server p) →
  let r := udp (uclock p) RecvFrom in
  wp (udp_readable_cb fuel false true garbage) (λ _ p', ∀ port addr,
    (port, addr) ≠ (u_port r, u_addr r) → ∀ k, find_opening k port addr p' = NoFuel) p.
Proof.
  intros acc Hc Hprop Hin Hbuf [H0 _] Hre r. eapply wp_mono; [by apply (wp_hello_accepted n a acc Hc fuel d)|].
  intros _ p' (e & w & payload & ref & dom & s & tl & Hx & _ & Hp & Ha & Ho & Hcur & _).
  rewrite Hre in Hx. intros port addr Hne k.
  apply (self_loop_never_ends p' (opening_node e (current (server p)))); rewrite ?Hcur, ?Hx; [done | | done |].
  - by rewrite Ho, Hx, lookup_insert_eq.
  - apply andb_false_iff. simpl. rewrite Hp, Ha. fold r.
    destruct (Z.eqb_spec (u_port r) port) as [<-|]; [right | by left].
    apply Z.eqb_neq. by intros <-.
Qed.

(** The newest connection was at 1001 and is freed: the hello of time 0 gets 1001. *)
Definition demo_freed : process := Process ∅ ∅ ∅ (InternalData 1 8 9 0 1001) 0 0 [].

Lemma reused_address_never_ends_witness :
  let E := demo_system (encode (ClientHello 4)) in
  wp (udp_readable_cb (H := E) 0 false true demo_buffer) (λ _ p', ∀ port addr,
    (port, addr) ≠ (9, 6) → ∀ k, find_opening k port addr p' = NoFuel) demo_freed.
Proof.
  intros E. apply (reused_address_never_ends (H := E) 1 16384 0 4).
  - apply demo_accepting.
  - intros t. simpl. lia.
  - reflexivity.
  - by apply demo_incoming.
  - intros t. split; [simpl; lia | reflexivity].
  - by split.
  - reflexivity.
Defined.

(** C40. CLIENT_RESET from the source of a connection whose thread runs closes the
    pipe the thread receives from: the thread is still in the list of threads, and its
    next read is an access to freed memory. This is so of any connection, the newest
    included, of which the list of connections then keeps the address. *)
Theorem reset_closes_running_thread `{!UdpEnv} fuel garbage e l1 l2 c lc p :
  let lo := l1 ++ e :: l2 in
  server_ok p lo lc → (length lo < fuel)%nat → incoming ClientReset garbage p →
  List.find (serves (u_port (udp (uclock p) RecvFrom)) (u_addr (udp (uclock p) RecvFrom))) lo = Some e →
  c ∈ lc → hd_receive_fd (th_data c) = op_fd e →
  wp (udp_readable_cb fuel false true garbage) (λ _ p',
    linked th_addr thread_node (children p') (childs (server p')) lc ∧
    (if l1 is [] then freed_newest p' else server_ok p' (l1 ++ l2) lc) ∧
    ∀ f g buf k, on_pipe (hd_receive_fd (th_data c)) (λ E, xen_shm_pipe_read f g buf k) p' = Fault UseAfterFree ∧
      (k ≠ 0 → on_pipe (hd_receive_fd (th_data c)) (λ E, xen_shm_pipe_read_all f g buf k) p' = Fault UseAfterFree)) p.
Proof.
  intros lo Hok Hn Hin Hfind Hc Hfd. eapply wp_mono; [by apply (wp_client_reset _ _ e _ l1 l2 lc)|].
  intros _ p' (Hg & (w & Hw & Hl) & Hs & Hch). split; [rewrite Hs, Hch; apply Hok|]. split.
  - destruct l1; [|done]. destruct Hg as (Hcur & H0 & Hno). unfold freed_newest. by rewrite Hcur.
  - intros f g buf k. assert (op_fd e ≠ 0) as H0 by (apply (so_alive _ _ _ Hok); set_solver).
    unfold on_pipe. rewrite Hfd, (proj2 (Z.eqb_neq _ _) H0), Hw.
    destruct (freed_faults (H := pipe_env (op_fd e)) w Hl) as [Hrw _]. destruct (Hrw f g buf k) as (-> & _ & Hall).
    split; [done|]. intros Hk. by destruct (Hall Hk) as [-> _].
Qed.

(** An older connection, and the only one. *)
Lemma reset_closes_running_thread_witness :
  let E := demo_system (encode ClientReset) in
  let faults p' := ∀ f g buf k, on_pipe (H := E) 200 (λ E, xen_shm_pipe_read f g buf k) p' = Fault UseAfterFree ∧
    (k ≠ 0 → on_pipe (H := E) 200 (λ E, xen_shm_pipe_read_all f g buf k) p' = Fault UseAfterFree) in
  wp (udp_readable_cb (H := E) 3 false true demo_buffer) (λ _ p',
    linked th_addr thread_node (children p') (childs (server p')) [demo_thread] ∧
    server_ok p' [demo_connection 1] [demo_thread] ∧ faults p') (demo_running_on demo_two) ∧
  wp (udp_readable_cb (H := E) 3 false true demo_buffer) (λ _ p',
    linked th_addr thread_node (children p') (childs (server p')) [demo_thread] ∧
    freed_newest p' ∧ faults p') (demo_running_on demo_one).
Proof.
  intros E faults. split.
  - apply (reset_closes_running_thread (H := E) 3 demo_buffer (demo_connection 0) [demo_connection 1] []
      demo_thread [demo_thread] (demo_running_on demo_two));
      [apply demo_running_ok, demo_two_ok | simpl; lia | by apply demo_incoming | reflexivity | by left | reflexivity].
  - apply (reset_closes_running_thread (H := E) 3 demo_buffer (demo_connection 0) [] []
      demo_thread [demo_thread] (demo_running_on demo_one));
      [apply demo_running_ok, demo_one_ok | simpl; lia | by apply demo_incoming | reflexivity | by left | reflexivity].
Defined.
