(* ===== verification/Session.v ===== *)
(** A client and a server together: the messages of the one are those the other
    receives. *)
From stdpp Require Import gmap relations.
From S2P Require Import Prelude Abi Ring PipeDefs PipeSide PipeApi PipeStream PipeLife Udp Process Server Client ProcessSpecs ServerSpecs ServerEvents ServerRuns Handshake ClientSpecs UdpTheorems.
Open Scope Z_scope.
Open Scope c_scope.

(** The next packet of the server is [bytes], from [addr]:[port]. *)
Definition arrives `{!UdpEnv} (bytes garbage : list Z) (port addr : Z) (p : process) : Prop :=
  let r := udp (uclock p) RecvFrom in
  u_bytes r = bytes ∧ u_ret r = len bytes ∧ u_port r = port ∧ u_addr r = addr ∧ ipv4_source p ∧
  len garbage = XEN_SHM_UDP_PROTO_MAX_LEN ∧ len bytes ≤ XEN_SHM_UDP_PROTO_MAX_LEN.

Lemma arrives_incoming `{!UdpEnv} m bytes garbage port addr p :
  arrives bytes garbage port addr p → decode bytes = Some m → incoming m garbage p.
Proof. intros (Hb & Hr & _ & _ & Hi & Hg & Hl) Hm. constructor; rewrite ?Hb; done. Qed.

(** A system on which everything the libraries ask for succeeds: [n] pages, mapped at
    [a]; memory for pipes and elements; threads and sockets. *)
Record willing `{!UdpEnv} (n a : Z) : Prop := {
  wi_module : accepting n a;
  wi_calloc t : u_ret (udp t Calloc) ≠ 0;
  wi_pipe t : (new_pipe t).1 ≠ 0;
  wi_area t : ring_wf (pipe_buffer_size n) (sh (new_pipe t).2);
  wi_thread t f c : u_ret (udp t (PthreadCreate f c)) = 0;
  wi_socket t : 0 ≤ u_ret (udp t Socket);
  wi_send t l port addr : u_ret (udp t (SendTo l port addr)) = len l;
}.

(** The module of pipe [h] grants [g] of domain [d] to domain [x]. *)
Definition grants `{!UdpEnv} (n h g d x : Z) : Prop := ∃ t f,
  let b := answer (PipeEnv := pipe_env h) t (SysInitOfferer f n (u16 x)) in d = u16 (ans_out2 b) ∧ g = u32 (ans_out1 b).

(** C11. The two sides of the handshake fit, for a willing client and a willing
    server whose module grants [g] of domain [d]: if the client receives the grant
    the server sends it, [init_pipe] ends with two open pipes; when its CLIENT_HELLO
    reaches the server the server answers with the grant the client received, and
    when its CLIENT_GRANT does the server starts a thread. The client's pipe to send
    is mapped on the server's grant, that the thread receives from; the thread's
    pipe to send is mapped on the grant the client's module made to the server's
    domain for the pipe the client receives from. *)
Theorem handshake_crosses (Ec Es : UdpEnv) n ac as_ g d port addr from host fuel garbage1 garbage2 pc :
  willing (H := Ec) n ac → willing (H := Es) n as_ →
  (∀ h t f x, let b := answer (PipeEnv := pipe_env (UdpEnv := Es) h) t (SysInitOfferer f n x) in
     u32 (ans_out1 b) = g ∧ u16 (ans_out2 b) = d) →
  (∀ t, let r := udp (UdpEnv := Ec) t Recv in
    u_ret r = len (u_bytes r) ∧ len (u_bytes r) ≤ XEN_SHM_UDP_PROTO_MAX_LEN ∧
    decode (u_bytes r) = Some (ServerGrant g d XEN_SHM_UDP_PROTO_GRANT_MODE_READER_OFFERER n)) →
  new_pipes (H := Ec) pc →
  wp (init_pipe (H := Ec) port addr n) (λ r pc', ∃ receive send fd hello grant,
    r = (0, Some receive, Some send) ∧ client_pipes n g d receive send pc' ∧
    (utrace pc').*1 = [Shutdown fd; SendTo grant port addr; Recv; SendTo hello port addr; Socket] ++ (utrace pc).*1 ∧
    ∀ ps lo lc, server_ok ps lo lc → alloc_fresh (H := Es) ps → (S (length lo) < fuel)%nat →
      proposed_page_page_count (server ps) = n → arrives (H := Es) hello garbage1 from host ps →
    wp (udp_readable_cb (H := Es) fuel false true garbage1) (λ _ ps1, ∃ e reply s tl,
      server_ok ps1 (e :: lo) lc ∧ utrace ps1 = (SendTo reply from host, s) :: tl ∧
      decode reply = Some (ServerGrant g d XEN_SHM_UDP_PROTO_GRANT_MODE_READER_OFFERER n) ∧
      (alloc_fresh (H := Es) ps1 → arrives (H := Es) grant garbage2 from host ps1 →
       wp (udp_readable_cb (H := Es) fuel false true garbage2) (λ _ ps2, ∃ c w gc dc,
         server_ok ps2 (e :: lo) (c :: lc) ∧ hd_receive_fd (th_data c) = op_fd e ∧
         pipes ps2 !! hd_send_fd (th_data c) = Some w ∧ open_pipe n xen_shm_pipe_mod_write w ∧
         asked_receiver n dc gc w ∧ grants (H := Ec) n receive gc dc d) ps1)) ps) pc.
Proof.
  intros Wc Ws Hg Hr Hn.
  eapply wp_mono; [apply (wp_init_pipe_accepted (H := Ec) n ac (wi_module _ _ Wc) port addr g d);
    [apply (wi_socket _ _ Wc) | intros; apply (wi_send _ _ Wc) | exact Hr | apply (wi_area _ _ Wc) | exact Hn]|].
  intros r pc' (receive & send & -> & Hp & fd & hello & domid & grant & ref & dom & Ht & Hh & Hgr & Ha).
  exists receive, send, fd, hello, grant. split_and!; [done..|].
  intros ps lo lc Hok Hf Hl Hprop Harr. pose proof Harr as (_ & _ & Hport & Hhost & _).
  eapply wp_mono; [apply (wp_hello_granted (H := Es) n as_ (wi_module _ _ Ws) (wi_calloc _ _ Ws) fuel domid garbage1 ps lo lc)|];
    [done | done | done | by eapply (arrives_incoming (H := Es)) | intros t; split; [apply Ws | by destruct (wi_area _ _ Ws t)] |].
  intros _ ps1 (e & w & reply & ref1 & dom1 & s & tl & Hep & Hef & Hok1 & _ & _ & _ & Ht1 & Hreply & t & f & Hdom & Href).
  destruct (Hg (op_fd e) t f (u16 domid)) as [Hg1 Hd1]. cbv zeta in Hdom, Href. rewrite Hg1 in Href. rewrite Hd1 in Hdom. subst ref1 dom1.
  exists e, reply, s, tl. rewrite Hport, Hhost in Ht1. split_and!; [done..|].
  intros Hf1 Harr1. pose proof Harr1 as (_ & _ & Hport1 & Hhost1 & _).
  eapply wp_mono; [apply (wp_grant_started (H := Es) n as_ (wi_module _ _ Ws) (wi_calloc _ _ Ws) fuel ref dom garbage2 e ps1 (e :: lo) lc)|];
    [done | done | done | by eapply (arrives_incoming (H := Es)) | apply (wi_area _ _ Ws) | apply (wi_thread _ _ Ws) | |].
  - simpl. unfold serves at 1. by rewrite Hep, Hef, Hport, Hhost, Hport1, Hhost1, !Z.eqb_refl.
  - intros _ ps2 (c & w2 & s2 & tl2 & Hok2 & Hrf & _ & _ & _ & Hw2 & Ho2 & Hask & _).
    exists c, w2, ref, dom. split_and!; done.
Qed.

Lemma demo_willing packet : willing (H := demo_system packet) 1 16384.
Proof.
  constructor; try done; intros t; try apply demo_area_wf; simpl; lia.
Qed.

(** The grant the server of [demo_system] sends. *)
Abbreviation demo_grant := (encode (ServerGrant 77 5 XEN_SHM_UDP_PROTO_GRANT_MODE_READER_OFFERER 1)).

Lemma demo_recv : ∀ t, let r := udp (UdpEnv := demo_system demo_grant) t Recv in
  u_ret r = len (u_bytes r) ∧ len (u_bytes r) ≤ XEN_SHM_UDP_PROTO_MAX_LEN ∧
  decode (u_bytes r) = Some (ServerGrant 77 5 XEN_SHM_UDP_PROTO_GRANT_MODE_READER_OFFERER 1).
Proof. intros t. split_and!; [done | done | by apply decode_encode_eq]. Qed.

(** A server that receives what its client sends: a CLIENT_HELLO, then a
    CLIENT_GRANT. *)
Definition session_system : UdpEnv := {|
  udp := λ t c,
    match c with
    | RecvFrom =>
        let b := if (t =? 0)%nat then encode (ClientHello 5)
                 else encode (ClientGrant 77 5 XEN_SHM_UDP_PROTO_GRANT_MODE_READER_OFFERER 1) in
        UAnswer (len b) 0 b 9 6 sizeof_sockaddr_in
    | _ => udp (UdpEnv := demo_system []) t c
    end;
  pipe_env := λ _, demo_module;
  new_pipe := λ t, (5000 + Z.of_nat t, demo_fresh);
|}.

Lemma session_willing : willing (H := session_system) 1 16384.
Proof.
  destruct (demo_willing []) as [[A1 A2 A3 A4 A5 A6 A7 A8 A9] B C D F G I]. by repeat constructor.
Qed.

Lemma session_client_sends :
  match init_pipe (H := demo_system demo_grant) 9 6 1 (demo_process demo_two) with
  | Done _ p => (utrace p).*1
  | _ => []
  end = [Shutdown 3; SendTo (encode (ClientGrant 77 5 XEN_SHM_UDP_PROTO_GRANT_MODE_READER_OFFERER 1)) 9 6; Recv;
         SendTo (encode (ClientHello 5)) 9 6; Socket].
Proof. vm_compute. reflexivity. Qed.

Lemma wp_sent {A} (m : M process A) calls (P : Prop) p :
  wp m (λ _ p', (utrace p').*1 = calls → P) p →
  match m p with Done _ p' => (utrace p').*1 | _ => [] end = calls → P.
Proof. unfold wp. by destruct (m p); auto. Qed.

Lemma same_hello fd fd' g g' h h' tl :
  [Shutdown fd; SendTo g 9 6; Recv; SendTo h 9 6; Socket] ++ tl = [Shutdown fd'; SendTo g' 9 6; Recv; SendTo h' 9 6; Socket] →
  h = h'.
Proof. by intros [= -> -> ->]. Qed.

(** The client's first message reaches a server with two connections. *)
Lemma handshake_crosses_witness :
  wp (udp_readable_cb (H := session_system) 4 false true demo_buffer) (λ _ ps1, ∃ e reply s tl,
    server_ok ps1 (e :: demo_two) [] ∧ utrace ps1 = (SendTo reply 9 6, s) :: tl ∧
    decode reply = Some (ServerGrant 77 5 XEN_SHM_UDP_PROTO_GRANT_MODE_READER_OFFERER 1)) (demo_process demo_two).
Proof.
  assert (wp (init_pipe (H := demo_system demo_grant) 9 6 1) (λ _ pc',
    (utrace pc').*1 = [Shutdown 3; SendTo (encode (ClientGrant 77 5 XEN_SHM_UDP_PROTO_GRANT_MODE_READER_OFFERER 1)) 9 6;
      Recv; SendTo (encode (ClientHello 5)) 9 6; Socket] →
    wp (udp_readable_cb (H := session_system) 4 false true demo_buffer) (λ _ ps1, ∃ e reply s tl,
      server_ok ps1 (e :: demo_two) [] ∧ utrace ps1 = (SendTo reply 9 6, s) :: tl ∧
      decode reply = Some (ServerGrant 77 5 XEN_SHM_UDP_PROTO_GRANT_MODE_READER_OFFERER 1)) (demo_process demo_two))
    (demo_process demo_two)) as Hwp.
  { eapply wp_mono; [apply (handshake_crosses (demo_system demo_grant) session_system 1 16384 16384 77 5 9 6 9 6 4
      demo_buffer demo_buffer (demo_process demo_two) (demo_willing _) session_willing)|].
    - intros h t f x. split; reflexivity.
    - apply demo_recv.
    - apply demo_new_pipes.
    - intros r pc' (receive & send & fd & hello & grant & _ & _ & Htr & Hs) Ht. rewrite Htr in Ht. apply same_hello in Ht as ->.
      eapply wp_mono; [apply (Hs (demo_process demo_two) demo_two [] demo_two_ok)|].
      + intros t Ht. exact (demo_two_fresh [] t Ht).
      + simpl. lia.
      + done.
      + by split_and!.
      + intros _ ps1 (e & reply & s & tl & H1 & H2 & H3 & _). exists e, reply, s, tl. exact (conj H1 (conj H2 H3)). }
  exact (wp_sent _ _ _ _ Hwp session_client_sends).
Defined.
