(* ===== verification/Handlers.v ===== *)
(** The handlers a thread runs on its two pipes (handler_lib.c): the two sides of
    ping, the sender and the receiver. *)
From stdpp Require Import gmap.
From Stdlib Require Import SpecFloat.
From S2P Require Import Prelude Abi Ring PipeDefs PipeApi Udp Process.
Open Scope Z_scope.
Open Scope c_scope.

Definition PING_PACKET_SIZE : Z := 10.
Definition PING_SERIES_LENGTH : Z := 500.

(** [struct xen_shm_handler_transfert] *)
Record handler_transfert := HandlerTransfert {
  buffer_len : Z;
  print_info : Z;
}.

(** ** Numbers *)

(** A [double] is an IEEE binary64 number. *)
Definition double : Type := spec_float.
Definition double_of (z : Z) : double := binary_normalize 53 1024 z 0 false.
Definition double_mul : double → double → double := SFmul 53 1024.
Definition double_div : double → double → double := SFdiv 53 1024.
(** [(uint64_t) x]: the integral part, undefined when it does not fit. *)
Definition uint64_of (x : double) : option Z :=
  match x with
  | S754_zero _ => Some 0
  | S754_finite s m e =>
      let v := if 0 <=? e then Z.pos m * 2 ^ e else Z.pos m / 2 ^ (- e) in
      let v := if s then - v else v in
      if (0 <=? v) && (v <? 2 ^ 64) then Some v else None
  | S754_infinity _ | S754_nan => None
  end.

(** [struct timeval] *)
Definition timeval : Type := Z * Z.

Section Handlers.
Context `{!UdpEnv}.

Definition xen_shm_handler_get_id : M process Z := λ p,
  Done (unique_handler_id p) (set_unique_handler_id (u32 (unique_handler_id p + 1)) p).

Definition stop_set : M process bool := let* r := ask LoadStop in ret (negb (u_ret r =? 0)).

(** A function of the pipe library on a buffer of the caller, [bytes] at address
    [base]: the result and what the buffer then holds. *)
Definition lend (base : Z) (bytes : list Z) (w : world) : world :=
  World (sh w) (priv w) (live w) base bytes (errno w) (clock w) (calls w) (trace w).
Definition with_memory {A} (h base : Z) (bytes : list Z) (f : PipeEnv → M world A) : M process (A * list Z) :=
  on_pipe h (λ E, modify (lend base bytes) ;; let* a := f E in λ w, Done (a, usr w) w).

(** [fuel] bounds the rounds of a wait and [garbage] is what the stack holds;
    [rounds] bounds the turns of the handler. *)
Variables (fuel : nat) (garbage : Z).

Definition write_all (h base : Z) (bytes : list Z) (n : Z) : M process (Z * list Z) :=
  with_memory h base bytes (λ E, xen_shm_pipe_write_all fuel garbage base n).
Definition read_all (h base : Z) (bytes : list Z) (n : Z) : M process (Z * list Z) :=
  with_memory h base bytes (λ E, xen_shm_pipe_read_all fuel garbage base n).
Definition flush (h : Z) : M process unit := let* _ := on_pipe h (λ E, xen_shm_pipe_flush) in ret tt.

(** ** Ping *)

(** One exchange of the client's series; [noise] is at address [a]. *)
Definition ping_exchange (data : handler_data) (a : Z) (x : Z * list Z) : M process (flow (Z * list Z) unit) :=
  let '(i, noise) := x in
  if negb (i <? PING_SERIES_LENGTH) then ret (Break x) else
  let* r := write_all (hd_send_fd data) a noise PING_PACKET_SIZE in
  let '(len, noise) := r in
  if len <? 0 then ask_ Print ;; ret (Return tt) else
  flush (hd_receive_fd data) ;;
  let* r := read_all (hd_receive_fd data) a noise PING_PACKET_SIZE in
  let '(len, noise) := r in
  if len <? 0 then ask_ Print ;; ret (Return tt) else
  flush (hd_receive_fd data) ;;
  ret (Continue (i + 1, noise)).
Definition ping_series (data : handler_data) (a : Z) (noise : list Z) : M process (flow (list Z) unit) :=
  let* stop := stop_set in
  if stop then ret (Break noise) else
  ask_ ClockGettime ;;
  let* r := loop (S (Z.to_nat PING_SERIES_LENGTH)) (ping_exchange data a) (0, noise) in
  match r with
  | inr _ => ret (Return tt)
  | inl (_, noise) => ask_ ClockGettime ;; ask_ Print ;; ret (Continue noise)
  end.
(** [noise] is not initialised. The handlers return NULL. *)
Definition xen_shm_handler_ping_client (rounds : nat) (data : handler_data) (a : Z) (noise : list Z) :
    M process Z :=
  let* _ := loop rounds (ping_series data a) noise in ret 0.

Definition ping_answer (data : handler_data) (a : Z) (noise : list Z) : M process (flow (list Z) unit) :=
  let* stop := stop_set in
  if stop then ret (Break noise) else
  let* r := read_all (hd_receive_fd data) a noise PING_PACKET_SIZE in
  let '(len, noise) := r in
  if len <? 0 then ask_ Print ;; ret (Return tt) else
  flush (hd_receive_fd data) ;;
  let* r := write_all (hd_send_fd data) a noise PING_PACKET_SIZE in
  let '(len, noise) := r in
  if len <? 0 then ask_ Print ;; ret (Return tt) else
  flush (hd_send_fd data) ;;
  ret (Continue noise).
Definition xen_shm_handler_ping_server (rounds : nat) (data : handler_data) (a : Z) (noise : list Z) :
    M process Z :=
  let* _ := loop rounds (ping_answer data a) noise in ret 0.

(** ** Transfers *)

(** The locals of a transfer. *)
Record transfer_locals := TransferLocals {
  byte_counter : Z;
  print_threashold : Z;
  last_print_s : Z;
  in_stamp : timeval;
}.

Definition gettimeofday : M process timeval := let* r := ask GetTimeOfDay in ret (u_ret r, u_out r).
Definition to_uint64 (x : double) : M process Z :=
  match uint64_of x with Some v => ret v | None => throw Undefined end.

(** [(uint64_t) (bandwidth * 1000000)/4] with [bandwidth = 2000]. *)
Definition transfer_start : M process transfer_locals :=
  let* v := to_uint64 (double_mul (double_of 2000) (double_of 1000000)) in
  let* t := gettimeofday in
  ret (TransferLocals 0 (v / 4) (u64 (fst t)) t).

(** The measure, after more than [print_threashold] bytes. *)
Definition transfer_print (l : transfer_locals) : M process transfer_locals :=
  let* out := gettimeofday in
  let delay := u64 (u64 (fst out - fst (in_stamp l)) * 1000000 + u64 (snd out - snd (in_stamp l))) in
  let bandwidth := double_div (double_mul (double_of (byte_counter l)) (double_of 8)) (double_of delay) in
  let* threashold := to_uint64 (double_div (double_mul bandwidth (double_of 1000000)) (double_of 4)) in
  let* last :=
    if last_print_s l <? u64 (fst out) then ask_ Print ;; ret (u64 (fst out)) else ret (last_print_s l) in
  ret (TransferLocals 0 threashold last out).

(** One turn of a transfer that moves the buffer by [move]. *)
Definition transfer_turn (move : list Z → M process (Z * list Z)) (trans_data : handler_transfert)
    (x : list Z * transfer_locals) : M process (flow (list Z * transfer_locals) unit) :=
  let '(buffer, l) := x in
  let* stop := stop_set in
  if stop then ret (Break x) else
  let* r := move buffer in
  let '(ret_, buffer) := r in
  if ret_ <? 0 then ask_ Print ;; ret (Return tt) else
  let l := TransferLocals (u64 (byte_counter l + buffer_len trans_data)) (print_threashold l) (last_print_s l) (in_stamp l) in
  if negb (print_info trans_data =? 0) && (print_threashold l <? byte_counter l) then
    let* l := transfer_print l in ret (Continue (buffer, l))
  else ret (Continue (buffer, l)).

(** [mem] is what the allocated memory holds; [free] is not reached after an error. *)
Definition run_transfer (rounds : nat) (move : Z → list Z → M process (Z * list Z)) (trans_data : handler_transfert)
    (mem : list Z) : M process Z :=
  let* b := ask (Malloc (buffer_len trans_data)) in
  let* _ := xen_shm_handler_get_id in
  let* l := transfer_start in
  let* r := loop rounds (transfer_turn (move (u_ret b)) trans_data) (if u_ret b =? 0 then [] else mem, l) in
  match r with
  | inr _ => ret 0
  | inl _ => ask_ (Free (u_ret b)) ;; ret 0
  end.

Definition xen_shm_handler_sender (rounds : nat) (data : handler_data) (trans_data : handler_transfert)
    (mem : list Z) : M process Z :=
  run_transfer rounds (λ b buffer, write_all (hd_send_fd data) b buffer (buffer_len trans_data)) trans_data mem.
Definition xen_shm_handler_receiver (rounds : nat) (data : handler_data) (trans_data : handler_transfert)
    (mem : list Z) : M process Z :=
  run_transfer rounds (λ b buffer, read_all (hd_receive_fd data) b buffer (buffer_len trans_data)) trans_data mem.
End Handlers.
