(* ===== verification/HandlerSpecs.v ===== *)
(** What the handlers do to the streams of their two pipes, once for partial and
    once for total correctness. *)
From stdpp Require Import gmap.
From S2P Require Import Prelude Abi Ring PipeDefs PipeFifo PipeSide PipeRead PipeWrite PipeWait PipeApi PipeStream PipeLife Udp Process ProcessSpecs Handlers.
Open Scope Z_scope.
Open Scope c_scope.

(** ** Streams *)

(** The private data that no transfer changes. *)
Definition shape (w : world) : Z * Z * Z * bool * xen_shm_pipe_mod :=
  (shared (priv w), buffer_size (priv w), wait_check_interval (priv w), live w, pmod (priv w)).

(** From [w0] to [w] this end took [data] from the stream, or gave it. *)
Definition took (size : Z) (data : list Z) (w0 w : world) : Prop :=
  shape w = shape w0 ∧ ring_wf size (sh w) ∧
  ∃ tr, trace w = tr ++ trace w0 ∧ own_steps (reader_step size) tr ∧
    data ++ content (sh w) = content (sh w0) ++ appended tr.
Definition gave (size : Z) (data : list Z) (w0 w : world) : Prop :=
  shape w = shape w0 ∧ ring_wf size (sh w) ∧
  ∃ tr, trace w = tr ++ trace w0 ∧ own_steps (writer_step size) tr ∧
    consumed tr ++ content (sh w) = content (sh w0) ++ data.

Lemma geom_shape w w' : geom w' = geom w → shape w' = shape w.
Proof. unfold geom, shape. intros [= ? ? ? _ ? ?]. congruence. Qed.

Lemma shape_ready m size w w' :
  shape w' = shape w → ring_wf size (sh w') → ready m size w → ready m size w'.
Proof.
  intros [= H1 H2 H3 H4 H5] Hwf ((? & ? & ? & ? & ? & ?) & _ & ? & ?).
  unfold ready, mapped. rewrite H1, H2, H3, H4, H5. auto 10.
Qed.

Lemma took_nil size w : ring_wf size (sh w) → took size [] w w.
Proof. intros. split_and!; [done | done |]. exists []. split_and!; [done | constructor | by rewrite app_nil_r]. Qed.
Lemma gave_nil size w : ring_wf size (sh w) → gave size [] w w.
Proof. intros. split_and!; [done | done |]. exists []. split_and!; [done | constructor | by rewrite app_nil_r]. Qed.

Lemma took_trans size d1 d2 w1 w2 w3 : took size d1 w1 w2 → took size d2 w2 w3 → took size (d1 ++ d2) w1 w3.
Proof.
  intros (Hs1 & _ & tr1 & Ht1 & Ho1 & Hf1) (Hs2 & Hwf & tr2 & Ht2 & Ho2 & Hf2).
  split_and!; [congruence | done |]. exists (tr2 ++ tr1).
  split_and!; [by rewrite Ht2, Ht1, app_assoc | by apply Forall_app |].
  by rewrite appended_app, <-app_assoc, Hf2, !app_assoc, Hf1.
Qed.
Lemma gave_trans size d1 d2 w1 w2 w3 : gave size d1 w1 w2 → gave size d2 w2 w3 → gave size (d1 ++ d2) w1 w3.
Proof.
  intros (Hs1 & _ & tr1 & Ht1 & Ho1 & Hf1) (Hs2 & Hwf & tr2 & Ht2 & Ho2 & Hf2).
  split_and!; [congruence | done |]. exists (tr2 ++ tr1).
  split_and!; [by rewrite Ht2, Ht1, app_assoc | by apply Forall_app |].
  by rewrite consumed_app, <-app_assoc, Hf2, app_assoc, Hf1, <-app_assoc.
Qed.

Lemma delivered_took size buf data base bytes w w' :
  delivered size buf data (lend base bytes w) w' → took size data w w'.
Proof.
  intros (_ & Hg & Hwf & tr & Ht & Ho & Hf). apply geom_shape in Hg.
  split_and!; [done | done |]. by exists tr.
Qed.
Lemma accepted_gave size buf n base bytes w w' :
  accepted size buf n (lend base bytes w) w' → gave size (peek bytes (buf - base) n) w w'.
Proof.
  intros (_ & Hg & Hwf & tr & Ht & Ho & Hf). apply geom_shape in Hg.
  split_and!; [done | done |]. by exists tr.
Qed.

Lemma lend_ready m size base bytes w : ready m size w → ready m size (lend base bytes w).
Proof. intros (Hm & Hr). by split. Qed.

(** ** Flushing *)

Section Flush.
Context `{!PipeEnv} (size : Z) `{!Side size}.
Hypothesis peer_relies : ∀ t s, ring_wf size s → rely s (peer t s).

Lemma wp_flush m w : ready m size w → wp xen_shm_pipe_flush (λ _ w', quiet size w w') w.
Proof.
  intros ((Hl & _) & Hwf & _ & Hs). apply wp_bind, wp_get_priv; [done|].
  rewrite (proj2 (Z.eqb_neq _ _) Hs). apply wp_bind, (wp_load size peer_relies); [done|]. intros w1 H1.
  apply wp_if; intros _.
  - apply wp_bind, (wp_set_errno size); [by eapply quiet_wf|]. intros w2 H2 _. apply wp_ret. by eapply quiet_trans.
  - apply (wp_send_signal size peer_relies); [by eapply quiet_wf | |].
    { by rewrite (geom_live _ _ (quiet_geom _ _ _ H1)). }
    intros a w2 H2. by eapply quiet_trans.
Qed.
End Flush.

(** ** Both notions of correctness, on a pipe and on the process *)

Class Pipes `{!UdpEnv} (rounds : nat) := {
  of_world :: Triple world;
  of_process :: Triple process;
  pipes_on A h (f : PipeEnv → M world A) Q w p :
    h ≠ 0 → pipes p !! h = Some w → triple (f (pipe_env h)) (λ a w', Q a (with_pipe h w' p)) w →
    triple (on_pipe h f) Q p;
  (** A handler's loop, which looks at [stop] first in each turn. *)
  pipes_loop X R (I : X → process → Prop) (body : X → M process (flow X R)) (Q : X + R → process → Prop) x p :
    (∀ x p, I x p → triple (body x) (λ f p',
      match f with
      | Continue x' => I x' p' ∧ (uclock p < uclock p')%nat ∧ u_ret (udp (uclock p) LoadStop) = 0
      | Break x' => Q (inl x') p'
      | Return r => Q (inr r) p'
      end) p) →
    I x p → triple (loop rounds body x) Q p;
}.

Section Instances.
Context `{!UdpEnv} (rounds : nat).

Program Definition partial_pipes : Pipes rounds := {| of_world := partial; of_process := partial |}.
Next Obligation.
  intros A h f Q w p Hh Hw Hf. simpl in *. unfold safe, on_pipe in *.
  rewrite (proj2 (Z.eqb_neq _ _) Hh), Hw. by case_match.
Qed.
Next Obligation.
  intros X R I body Q x p Hbody HI. apply (safe_loop I); [|done]. intros x' p' HI'.
  eapply safe_mono; [by apply Hbody|]. intros [y|y|y] q Hq; [by destruct Hq | exact Hq ..].
Qed.

(** The handler is told to stop from time [T] on, which is fewer than [rounds] turns away. *)
Variable T : nat.
Hypothesis stops : ∀ t, (T ≤ t)%nat → u_ret (udp t LoadStop) ≠ 0.
Hypothesis soon : (T < rounds)%nat.

Program Definition total_pipes : Pipes rounds := {| of_world := total; of_process := total |}.
Next Obligation. intros A h f Q w p Hh Hw Hf. by apply (wp_on_pipe h f Q w). Qed.
Next Obligation.
  intros X R I body Q x p Hbody HI. apply (wp_loop I (λ _ p, Z.of_nat (T - uclock p))); [|done | lia].
  intros x' p' HI'. eapply wp_mono; [by apply Hbody|]. intros [y|y|y] q Hq; [|exact Hq ..].
  destruct Hq as (Hq & Ht & Hs). split; [done|].
  assert (uclock p' < T)%nat; [|lia]. destruct (decide (uclock p' < T)%nat) as [|Hge]; [done|].
  by destruct (stops (uclock p') ltac:(lia)).
Qed.
End Instances.

(** ** Transfers through the process *)

Section Transfers.
Context `{!UdpEnv} {rounds : nat} `{!Pipes rounds} (fuel : nat) (g : Z).
#[local] Existing Instances of_world of_process.

(** Pipe [h] went from [w0] to what it is now, [data] being taken, or given. *)
Definition has_taken (size h : Z) (w0 : world) (data : list Z) (p : process) : Prop :=
  ∃ w, pipes p !! h = Some w ∧ took size data w0 w.
Definition has_given (size h : Z) (w0 : world) (data : list Z) (p : process) : Prop :=
  ∃ w, pipes p !! h = Some w ∧ gave size data w0 w.

(** Nothing but the pipe [h] changed. *)
Definition only_pipe (h : Z) (p p' : process) : Prop := ∃ w, p' = with_pipe h w p.

Lemma only_pipe_taken h size h' w0 d p p' :
  only_pipe h p p' → h' ≠ h → has_taken size h' w0 d p → has_taken size h' w0 d p'.
Proof. intros (w & ->) Hne (w' & Hw' & Ht). exists w'. split; [|done]. unfold with_pipe. simpl. by rewrite lookup_insert_ne. Qed.
Lemma only_pipe_given h size h' w0 d p p' :
  only_pipe h p p' → h' ≠ h → has_given size h' w0 d p → has_given size h' w0 d p'.
Proof. intros (w & ->) Hne (w' & Hw' & Ht). exists w'. split; [|done]. unfold with_pipe. simpl. by rewrite lookup_insert_ne. Qed.
Lemma only_pipe_clock h p p' : only_pipe h p p' → uclock p' = uclock p.
Proof. by intros (w & ->). Qed.

Lemma triple_with_memory {A} h base bytes (f : PipeEnv → M world A) Q w p :
  h ≠ 0 → pipes p !! h = Some w →
  triple (f (pipe_env h)) (λ a w', Q (a, usr w') (with_pipe h w' p)) (lend base bytes w) →
  triple (with_memory h base bytes f) Q p.
Proof.
  intros Hh Hw Hf. apply (pipes_on _ h _ _ w); [done|done|]. apply triple_bind, triple_wp, wp_modify.
  apply triple_bind. eapply triple_mono; [exact Hf|]. intros a w' HQ. by apply triple_wp.
Qed.

(** What an "all" call answers: the number of bytes, or an error or end of file
    before the first one. *)
Definition all_answer (n r : Z) : Prop := r = n ∨ n = 0 ∧ r ≤ 0.

Section Reading.
Variables (size h : Z) (w0 : world).
Hypothesis h_valid : h ≠ 0.
Hypothesis peer_writes : ∀ t s, ring_wf size s → writer_step size s (peer (PipeEnv := pipe_env h) t s).
Hypothesis wait_ends : ∀ w, ring_wf size (sh w) → live w = true →
  triple (__xen_shm_pipe_wait_reader (H := pipe_env h) fuel g) (wait_reader_post (H := pipe_env h) size w) w.
Hypothesis w0_ready : ready xen_shm_pipe_mod_read size w0.

Lemma triple_read_all_memory base bytes n d p :
  has_taken size h w0 d p → 0 ≤ base → len bytes = n → base + n < 2 ^ 64 →
  triple (read_all fuel g h base bytes n) (λ x p', ∃ d', has_taken size h w0 (d ++ d') p' ∧
    x.2 = poke bytes 0 d' ∧ len d' ≤ n ∧ all_answer (len d') x.1 ∧ only_pipe h p p') p.
Proof.
  intros (w & Hw & Ht) Hb Hn H64. pose proof (len_nonneg bytes).
  apply (triple_with_memory _ _ _ _ _ w); [done|done|].
  assert (ready xen_shm_pipe_mod_read size w) as Hr by (destruct Ht as (? & ? & _); by eapply shape_ready).
  eapply triple_mono; [apply (triple_read_all (H := pipe_env h) size peer_writes fuel g wait_ends base n)|].
  { split; [by apply lend_ready|]. unfold user_range. simpl. lia. }
  intros r w' (k & (d' & <- & Hd) & Hk & Hans). exists d'.
  pose proof (delivered_took _ _ _ _ _ _ _ Hd) as Ht'. destruct Hd as (Hu & _).
  split_and!; [| | lia | | by eexists].
  - exists w'. split; [apply lookup_insert_eq | by eapply took_trans].
  - simpl. rewrite Hu. simpl. f_equal. lia.
  - unfold all_answer. destruct Hans as [[-> _]|(? & _ & ? & _)]; [by left | by right].
Qed.

Lemma triple_flush_reader d p :
  has_taken size h w0 d p →
  triple (flush h) (λ _ p', has_taken size h w0 d p' ∧ only_pipe h p p') p.
Proof.
  intros (w & Hw & Ht). apply triple_bind. apply (pipes_on _ h _ _ w); [done|done|].
  assert (ready xen_shm_pipe_mod_read size w) as Hr by (destruct Ht as (? & ? & _); by eapply shape_ready).
  apply triple_wp. eapply wp_mono.
  { apply (wp_flush (H := pipe_env h) size (Side0 := reader_side size) peer_writes _ _ Hr). }
  intros r w' Hq. apply triple_wp, wp_ret. split; [|by eexists]. exists w'. split; [apply lookup_insert_eq|].
  rewrite <-(app_nil_r d). eapply took_trans; [done|].
  apply (delivered_took _ (usr_base w) _ (usr_base w) (usr w)). destruct w.
  apply delivered_nil; [simpl; lia | exact Hq].
Qed.
End Reading.

Section Writing.
Variables (size h : Z) (w0 : world).
Hypothesis h_valid : h ≠ 0.
Hypothesis peer_reads : ∀ t s, ring_wf size s → reader_step size s (peer (PipeEnv := pipe_env h) t s).
Hypothesis wait_ends : ∀ w, ring_wf size (sh w) → live w = true → buffer_size (priv w) = size →
  triple (__xen_shm_pipe_wait_writer (H := pipe_env h) fuel g) (wait_writer_post (H := pipe_env h) size w) w.
Hypothesis w0_ready : ready xen_shm_pipe_mod_write size w0.

Lemma triple_write_all_memory base bytes n d p :
  has_given size h w0 d p → 0 ≤ base → len bytes = n → base + n < 2 ^ 64 →
  triple (write_all fuel g h base bytes n) (λ x p', ∃ k, has_given size h w0 (d ++ peek bytes 0 k) p' ∧
    x.2 = bytes ∧ 0 ≤ k ≤ n ∧ all_answer k x.1 ∧ only_pipe h p p') p.
Proof.
  intros (w & Hw & Ht) Hb Hn H64. pose proof (len_nonneg bytes).
  apply (triple_with_memory _ _ _ _ _ w); [done|done|].
  assert (ready xen_shm_pipe_mod_write size w) as Hr by (destruct Ht as (? & ? & _); by eapply shape_ready).
  eapply triple_mono; [apply (triple_write_all (H := pipe_env h) size peer_reads fuel g wait_ends base n)|].
  { split; [by apply lend_ready|]. unfold user_range. simpl. lia. }
  intros r w' (k & Ha & Hk & Hans). exists k.
  pose proof (accepted_gave _ _ _ _ _ _ _ Ha) as Ht'. rewrite Z.sub_diag in Ht'. destruct Ha as (Hu & _).
  split_and!; [| done | lia | lia | | by eexists].
  - exists w'. split; [apply lookup_insert_eq | by eapply gave_trans].
  - unfold all_answer. destruct Hans as [[-> _]|(? & _ & ? & _)]; [by left | by right].
Qed.

Lemma triple_flush_writer d p :
  has_given size h w0 d p →
  triple (flush h) (λ _ p', has_given size h w0 d p' ∧ only_pipe h p p') p.
Proof.
  intros (w & Hw & Ht). apply triple_bind. apply (pipes_on _ h _ _ w); [done|done|].
  assert (ready xen_shm_pipe_mod_write size w) as Hr by (destruct Ht as (? & ? & _); by eapply shape_ready).
  apply triple_wp. eapply wp_mono.
  { apply (wp_flush (H := pipe_env h) size (Side0 := writer_side size) peer_reads _ _ Hr). }
  intros r w' Hq. apply triple_wp, wp_ret. split; [|by eexists]. exists w'. split; [apply lookup_insert_eq|].
  rewrite <-(app_nil_r d). eapply gave_trans; [done|].
  pose proof (accepted_gave size (usr_base w) 0 (usr_base w) (usr w) w w') as Hg. destruct w.
  rewrite peek_nil in Hg. apply Hg, accepted_zero. exact Hq.
Qed.
End Writing.
End Transfers.

(** ** Ping *)

(** [k] turns of the server: [dr] was read and [ds] written, each write from the
    buffer the read before it went to. *)
Inductive echoes (noise : list Z) : nat → list Z → list Z → list Z → Prop :=
| echo_none : echoes noise 0 [] [] noise
| echo_turn k dr ds b d n :
    echoes noise k dr ds b → len d ≤ PING_PACKET_SIZE → 0 ≤ n ≤ PING_PACKET_SIZE →
    echoes noise (S k) (dr ++ d) (ds ++ peek (poke b 0 d) 0 n) (poke b 0 d).

(** [k] exchanges of the client: each packet sent is what was received before. *)
Inductive bounces (noise : list Z) : nat → list Z → list Z → list Z → Prop :=
| bounce_none : bounces noise 0 [] [] noise
| bounce_turn k ds dr b n d :
    bounces noise k ds dr b → 0 ≤ n ≤ PING_PACKET_SIZE → len d ≤ PING_PACKET_SIZE →
    bounces noise (S k) (ds ++ peek b 0 n) (dr ++ d) (poke b 0 d).

Lemma poke_all b d : len d = len b → poke b 0 d = d.
Proof.
  unfold poke, len. intros Hl. simpl. rewrite drop_ge by lia. apply app_nil_r.
Qed.
Lemma peek_all b n : len b = n → peek b 0 n = b.
Proof. unfold peek, len. intros <-. by rewrite Nat2Z.id, firstn_all. Qed.

Section Full.
Variable noise : list Z.
Hypothesis noise_len : len noise = PING_PACKET_SIZE.

Lemma echoes_len k dr ds b :
  echoes noise k dr ds b → len b = PING_PACKET_SIZE ∧ len dr ≤ 10 * Z.of_nat k ∧ len ds ≤ 10 * Z.of_nat k.
Proof.
  unfold PING_PACKET_SIZE in *. induction 1 as [|k dr ds b d n _ (Hb & Hr & Hs) Hd Hn]; unfold PING_PACKET_SIZE in *.
  - by split_and!.
  - pose proof (len_nonneg d). assert (len (poke b 0 d) = 10) as Hp by (rewrite len_poke; lia).
    rewrite !len_app, len_peek by lia. lia.
Qed.

(** If no transfer was short, what was written is what was read. *)
Lemma echoes_full k dr ds b :
  echoes noise k dr ds b → len dr = 10 * Z.of_nat k → len ds = 10 * Z.of_nat k → ds = dr.
Proof.
  intros H. induction H as [|k dr ds b d n H IH Hd Hn]; [done|].
  destruct (echoes_len _ _ _ _ H) as (Hb & Hr & Hs). unfold PING_PACKET_SIZE in *. pose proof (len_nonneg d).
  assert (len (poke b 0 d) = 10) as Hp by (rewrite len_poke; lia).
  rewrite !len_app, len_peek by lia. intros H1 H2. rewrite IH by lia.
  by rewrite peek_all, poke_all by lia.
Qed.

Lemma bounces_len k ds dr b :
  bounces noise k ds dr b → len b = PING_PACKET_SIZE ∧ len ds ≤ 10 * Z.of_nat k ∧ len dr ≤ 10 * Z.of_nat k.
Proof.
  unfold PING_PACKET_SIZE in *. induction 1 as [|k ds dr b n d _ (Hb & Hs & Hr) Hn Hd]; unfold PING_PACKET_SIZE in *.
  - by split_and!.
  - pose proof (len_nonneg d). rewrite len_poke, !len_app, len_peek by lia. lia.
Qed.

(** If no transfer was short, the client sent its noise and then what it received. *)
Lemma bounces_full k ds dr b :
  bounces noise k ds dr b → len ds = 10 * Z.of_nat k → len dr = 10 * Z.of_nat k → ds ++ b = noise ++ dr.
Proof.
  intros H. induction H as [|k ds dr b n d H IH Hn Hd]; [by rewrite app_nil_r|].
  destruct (bounces_len _ _ _ _ H) as (Hb & Hs & Hr). unfold PING_PACKET_SIZE in *. pose proof (len_nonneg d).
  rewrite !len_app, len_peek by lia. intros H1 H2.
  rewrite peek_all, poke_all, app_assoc, <-IH by lia. done.
Qed.
End Full.

Section Ping.
Context `{!UdpEnv} {rounds : nat} `{!Pipes rounds} (fuel : nat) (g : Z).
#[local] Existing Instances of_world of_process.
Variables (data : handler_data) (size1 size2 : Z) (wr0 ws0 : world) (base : Z) (noise : list Z).
#[local] Abbreviation rcv := (hd_receive_fd data).
#[local] Abbreviation snd := (hd_send_fd data).
Hypothesis rcv_valid : rcv ≠ 0.
Hypothesis snd_valid : snd ≠ 0.
Hypothesis two_pipes : rcv ≠ snd.
Hypothesis peer_writes : ∀ t s, ring_wf size1 s → writer_step size1 s (peer (PipeEnv := pipe_env rcv) t s).
Hypothesis peer_reads : ∀ t s, ring_wf size2 s → reader_step size2 s (peer (PipeEnv := pipe_env snd) t s).
Hypothesis reader_waits : ∀ w, ring_wf size1 (sh w) → live w = true →
  triple (__xen_shm_pipe_wait_reader (H := pipe_env rcv) fuel g) (wait_reader_post (H := pipe_env rcv) size1 w) w.
Hypothesis writer_waits : ∀ w, ring_wf size2 (sh w) → live w = true → buffer_size (priv w) = size2 →
  triple (__xen_shm_pipe_wait_writer (H := pipe_env snd) fuel g) (wait_writer_post (H := pipe_env snd) size2 w) w.
Hypothesis wr0_ready : ready xen_shm_pipe_mod_read size1 wr0.
Hypothesis ws0_ready : ready xen_shm_pipe_mod_write size2 ws0.
Hypothesis base_range : 0 ≤ base ∧ base + PING_PACKET_SIZE < 2 ^ 64.
Hypothesis noise_len : len noise = PING_PACKET_SIZE.

(** The two streams, as the handler found them and as it left them. *)
Definition streams (dr ds : list Z) (p : process) : Prop :=
  has_taken size1 rcv wr0 dr p ∧ has_given size2 snd ws0 ds p.

Lemma streams_asked c dr ds p : streams dr ds p → streams dr ds (asked c p).
Proof. done. Qed.

Lemma triple_read_packet b dr ds p :
  streams dr ds p → len b = PING_PACKET_SIZE →
  triple (read_all fuel g rcv base b PING_PACKET_SIZE) (λ x p', ∃ d, streams (dr ++ d) ds p' ∧
    x.2 = poke b 0 d ∧ len d ≤ PING_PACKET_SIZE ∧ all_answer (len d) x.1 ∧ uclock p' = uclock p) p.
Proof.
  intros [Ht Hg] Hb. eapply triple_mono.
  { by apply (triple_read_all_memory fuel g size1 rcv wr0 rcv_valid peer_writes reader_waits wr0_ready base b _ dr);
      [|apply base_range | | apply base_range]. }
  intros x p' (d & Ht' & Hx & Hd & Ha & Ho). exists d.
  split_and!; [split; [done|] | done | done | done | by eapply only_pipe_clock].
  by apply (only_pipe_given rcv _ _ _ _ p).
Qed.

Lemma triple_write_packet b dr ds p :
  streams dr ds p → len b = PING_PACKET_SIZE →
  triple (write_all fuel g snd base b PING_PACKET_SIZE) (λ x p', ∃ k, streams dr (ds ++ peek b 0 k) p' ∧
    x.2 = b ∧ 0 ≤ k ≤ PING_PACKET_SIZE ∧ all_answer k x.1 ∧ uclock p' = uclock p) p.
Proof.
  intros [Ht Hg] Hb. eapply triple_mono.
  { by apply (triple_write_all_memory fuel g size2 snd ws0 snd_valid peer_reads writer_waits ws0_ready base b _ ds);
      [|apply base_range | | apply base_range]. }
  intros x p' (k & Hg' & Hx & Hk & Ha & Ho). exists k.
  split_and!; [split; [|done] | done | lia | lia | done | by eapply only_pipe_clock].
  by apply (only_pipe_taken snd _ _ _ _ p).
Qed.

Lemma triple_flush_rcv dr ds p :
  streams dr ds p → triple (flush rcv) (λ _ p', streams dr ds p' ∧ uclock p' = uclock p) p.
Proof.
  intros [Ht Hg]. eapply triple_mono; [by apply (triple_flush_reader size1 rcv wr0 rcv_valid peer_writes wr0_ready dr)|].
  intros _ p' [Ht' Ho]. split; [|by eapply only_pipe_clock]. split; [done|]. by apply (only_pipe_given rcv _ _ _ _ p).
Qed.

Lemma triple_flush_snd dr ds p :
  streams dr ds p → triple (flush snd) (λ _ p', streams dr ds p' ∧ uclock p' = uclock p) p.
Proof.
  intros [Ht Hg]. eapply triple_mono; [by apply (triple_flush_writer size2 snd ws0 snd_valid peer_reads ws0_ready ds)|].
  intros _ p' [Hg' Ho]. split; [|by eapply only_pipe_clock]. split; [|done]. by apply (only_pipe_taken snd _ _ _ _ p).
Qed.

(** *** The server *)

Definition echoed (p : process) : Prop :=
  ∃ k dr ds b, streams dr ds p ∧ echoes noise k dr ds b.

Lemma triple_ping_answer k dr ds b p :
  streams dr ds p → echoes noise k dr ds b →
  triple (ping_answer fuel g data base b) (λ f p',
    match f with
    | Continue b' => (∃ k' dr' ds', streams dr' ds' p' ∧ echoes noise k' dr' ds' b') ∧
        (uclock p < uclock p')%nat ∧ u_ret (udp (uclock p) LoadStop) = 0
    | _ => echoed p'
    end) p.
Proof.
  intros Hs He. destruct (echoes_len noise noise_len _ _ _ _ He) as (Hb & _).
  apply triple_bind, triple_wp, wp_bind, wp_ask, wp_ret.
  destruct (Z.eqb_spec (u_ret (udp (uclock p) LoadStop)) 0) as [Hstop|Hstop].
  2: { apply triple_wp, wp_ret. by exists k, dr, ds, b. }
  apply triple_bind. eapply triple_mono; [by apply (triple_read_packet b dr ds)|].
  intros [r b'] p1 (d & Hs1 & Hb' & Hd & Ha & Hu1). simpl in Hb', Ha. subst b'.
  destruct (r <? 0) eqn:Hr.
  { apply triple_wp, wp_bind, wp_ask_, wp_ret. assert (len d = 0) as Hz.
    { apply Z.ltb_lt in Hr. destruct Ha as [->|[? _]]; [pose proof (len_nonneg d); lia | done]. }
    assert (d = []) as -> by (apply nil_length_inv; unfold len in Hz; lia).
    exists k, (dr ++ []), ds, b. split; [done | by rewrite app_nil_r]. }
  assert (len (poke b 0 d) = PING_PACKET_SIZE) as Hp.
  { pose proof (len_nonneg d). unfold PING_PACKET_SIZE in *. rewrite len_poke; lia. }
  apply triple_bind. eapply triple_mono; [by apply triple_flush_rcv|]. intros _ p2 [Hs2 Hu2].
  apply triple_bind. eapply triple_mono; [by apply (triple_write_packet (poke b 0 d) (dr ++ d) ds)|].
  intros [r' b'] p3 (n & Hs3 & Hb' & Hn & _ & Hu3). simpl in Hb'. subst b'.
  assert (echoes noise (S k) (dr ++ d) (ds ++ peek (poke b 0 d) 0 n) (poke b 0 d)) as He' by by constructor.
  destruct (r' <? 0).
  { apply triple_wp, wp_bind, wp_ask_, wp_ret. by exists (S k), (dr ++ d), (ds ++ peek (poke b 0 d) 0 n), (poke b 0 d). }
  apply triple_bind. eapply triple_mono; [by apply triple_flush_snd|]. intros _ p4 [Hs4 Hu4].
  apply triple_wp, wp_ret. split; [by eexists _, _, _|]. simpl in Hu1. split; [lia | done].
Qed.

Lemma triple_ping_server p :
  streams [] [] p → triple (xen_shm_handler_ping_server fuel g rounds data base noise) (λ r p', r = 0 ∧ echoed p') p.
Proof.
  intros Hs. apply triple_bind. eapply triple_mono.
  { apply (pipes_loop (rounds := rounds) _ _ (λ b p, ∃ k dr ds, streams dr ds p ∧ echoes noise k dr ds b) _ (λ _ p', echoed p')).
    - intros b p1 (k & dr & ds & Hs1 & He). eapply triple_mono; [by eapply triple_ping_answer|]. intros [b'|b'|[]] p' Hp; exact Hp.
    - exists 0%nat, [], []. split; [done | constructor]. }
  intros r p' Hp. apply triple_wp, wp_ret. by split.
Qed.

(** *** The client *)

Definition bounced (p : process) : Prop :=
  ∃ k ds dr b n, 0 ≤ n ≤ PING_PACKET_SIZE ∧ streams dr (ds ++ peek b 0 n) p ∧ bounces noise k ds dr b.
Definition bouncing (b : list Z) (p : process) : Prop :=
  ∃ k ds dr, streams dr ds p ∧ bounces noise k ds dr b.

Lemma bouncing_bounced b p : bouncing b p → bounced p.
Proof.
  intros (k & ds & dr & Hs & Hb). exists k, ds, dr, b, 0. unfold PING_PACKET_SIZE.
  rewrite peek_nil, app_nil_r. split_and!; [lia | lia | done | done].
Qed.

Lemma triple_ping_exchange i b p :
  0 ≤ i → bouncing b p →
  triple (ping_exchange fuel g data base (i, b)) (λ f p',
    match f with
    | Continue x => bouncing x.2 p' ∧ x.1 = i + 1 ∧ i < PING_SERIES_LENGTH ∧ uclock p' = uclock p
    | Break x => bouncing x.2 p' ∧ p' = p
    | Return _ => bounced p'
    end) p.
Proof.
  intros Hi (k & ds & dr & Hs & Hb). destruct (bounces_len noise noise_len _ _ _ _ Hb) as (Hl & _).
  unfold ping_exchange. destruct (Z.ltb_spec i PING_SERIES_LENGTH) as [Hlt|Hge]; simpl negb; cbv iota.
  2: { apply triple_wp, wp_ret. split; [by exists k, ds, dr | done]. }
  apply triple_bind. eapply triple_mono; [by apply (triple_write_packet b dr ds)|].
  intros [r b'] p1 (n & Hs1 & Hb' & Hn & Ha & Hu1). simpl in Hb'. subst b'.
  destruct (r <? 0).
  { apply triple_wp, wp_bind, wp_ask_, wp_ret. by exists k, ds, dr, b, n. }
  apply triple_bind. eapply triple_mono; [by apply triple_flush_rcv|]. intros _ p2 [Hs2 Hu2].
  apply triple_bind. eapply triple_mono; [by apply (triple_read_packet b dr (ds ++ peek b 0 n))|].
  intros [r' b'] p3 (d & Hs3 & Hb' & Hd & Ha' & Hu3). simpl in Hb', Ha'. subst b'.
  destruct (r' <? 0) eqn:Hr.
  { apply triple_wp, wp_bind, wp_ask_, wp_ret. assert (len d = 0) as Hz.
    { apply Z.ltb_lt in Hr. destruct Ha' as [->|[? _]]; [pose proof (len_nonneg d); lia | done]. }
    assert (d = []) as -> by (apply nil_length_inv; unfold len in Hz; lia). rewrite app_nil_r in Hs3.
    by exists k, ds, dr, b, n. }
  apply triple_bind. eapply triple_mono; [by apply triple_flush_rcv|]. intros _ p4 [Hs4 Hu4].
  apply triple_wp, wp_ret. split_and!; [| done | done | lia].
  exists (S k), (ds ++ peek b 0 n), (dr ++ d). split; [done | by constructor].
Qed.

Lemma triple_ping_series b p :
  bouncing b p →
  triple (ping_series fuel g data base b) (λ f p',
    match f with
    | Continue b' => bouncing b' p' ∧ (uclock p < uclock p')%nat ∧ u_ret (udp (uclock p) LoadStop) = 0
    | _ => bounced p'
    end) p.
Proof.
  intros Hb. apply triple_bind, triple_wp, wp_bind, wp_ask, wp_ret.
  destruct (Z.eqb_spec (u_ret (udp (uclock p) LoadStop)) 0) as [Hstop|Hstop].
  2: { apply triple_wp, wp_ret. by eapply bouncing_bounced. }
  apply triple_bind, triple_wp, wp_ask_. set (p1 := asked ClockGettime _).
  apply triple_bind. eapply triple_mono.
  { apply (triple_loop _ _ (λ x q, bouncing x.2 q ∧ 0 ≤ x.1 ≤ PING_SERIES_LENGTH ∧ uclock q = uclock p1)
      (λ x _, PING_SERIES_LENGTH - x.1) _
      (λ r q, match r with inl x => bouncing x.2 q ∧ uclock q = uclock p1 | inr _ => bounced q end)).
    - intros [i b'] q (Hq & Hi & Hu). simpl in Hi, Hq. eapply triple_mono; [apply triple_ping_exchange; [lia | done]|].
      intros [x|x|[]] q' Hx; [|by destruct Hx as [? ->] | done].
      destruct Hx as (Hx & Hxi & Hlt & Hu'). split; [split_and!; [done | lia | lia | by rewrite Hu', Hu] | rewrite Hxi; simpl in *; lia].
    - split_and!; [exact Hb | done | done | done].
    - simpl. unfold PING_SERIES_LENGTH. lia. }
  intros [[i b']|[]] q Hq; [|by apply triple_wp, wp_ret].
  destruct Hq as [Hq Hu]. apply triple_wp, wp_bind, wp_ask_, wp_bind, wp_ask_, wp_ret.
  split_and!; [exact Hq | | done]. cbn [uclock asked set_uclock set_utrace]. rewrite Hu. unfold p1. simpl. lia.
Qed.

Lemma triple_ping_client p :
  streams [] [] p → triple (xen_shm_handler_ping_client fuel g rounds data base noise) (λ r p', r = 0 ∧ bounced p') p.
Proof.
  intros Hs. apply triple_bind. eapply triple_mono.
  { apply (pipes_loop (rounds := rounds) _ _ bouncing _ (λ _ p', bounced p')).
    - intros b p1 Hb. eapply triple_mono; [by apply triple_ping_series|]. intros [b'|b'|[]] p' Hp; exact Hp.
    - exists 0%nat, [], []. split; [done | constructor]. }
  intros r p' Hp. apply triple_wp, wp_ret. by split.
Qed.
End Ping.

(** ** End of file, and equal times *)

Section EndOfFileTurns.
Context `{!UdpEnv} (fuel : nat) (g : Z).
Variables (data : handler_data) (size : Z) (trans_data : handler_transfert) (base : Z).
#[local] Abbreviation h := (hd_receive_fd data).
#[local] Abbreviation n := (buffer_len trans_data).
Hypothesis h_valid : h ≠ 0.
Hypothesis peer_writes : ∀ t s, ring_wf size s → writer_step size s (peer (PipeEnv := pipe_env h) t s).
Hypothesis closing : close_is_final (H := pipe_env h).
Hypothesis silent : print_info trans_data = 0.
Hypothesis n_pos : 0 < n.
Hypothesis base_range : 0 ≤ base ∧ base + n < 2 ^ 64.

(** The writer has closed and everything was read. *)
Definition at_eof (p : process) : Prop :=
  ∃ w, pipes p !! h = Some w ∧ ready xen_shm_pipe_mod_read size w ∧ drained (sh w).

Lemma wp_read_all_eof w :
  ready xen_shm_pipe_mod_read size w → drained (sh w) → user_range base n w →
  wp (xen_shm_pipe_read_all (H := pipe_env h) (S fuel) g base n)
    (λ r w', r = 0 ∧ usr w' = usr w ∧ ready xen_shm_pipe_mod_read size w' ∧ drained (sh w')) w.
Proof.
  intros Hr Hd Hu. apply wp_bind. cbn [loop]. apply wp_bind. unfold all_body at 1.
  rewrite (proj2 (Z.eqb_neq _ 0)) by lia. apply wp_bind.
  eapply wp_mono; [apply wp_and; [by apply (wp_read_eof (H := pipe_env h) size peer_writes closing)|]|].
  { intros r w' Hrun. refine (safe_done _ _ _ _ _ _ Hrun).
    apply (triple_read (H := pipe_env h) size peer_writes (Triple0 := partial)); [|done].
    intros. by apply safe_wait_reader. }
  intros r w' [(-> & Hus & Hd') (k & (d & _ & Hdel) & _)]. cbv beta. simpl (0 <=? 0). cbv iota.
  apply wp_ret, wp_ret, wp_ret. split_and!; [done | done | | done].
  destruct Hdel as (_ & Hg & Hwf & _). by eapply ready_geom.
Qed.

(** A read at the end of the stream answers 0, and leaves the buffer. *)
Lemma wp_read_memory_eof b p :
  at_eof p → len b = n →
  wp (read_all (S fuel) g h base b n) (λ x p', x = (0, b) ∧ at_eof p' ∧ uclock p' = uclock p) p.
Proof.
  intros (w & Hw & Hr & Hd) Hb. apply (wp_on_pipe _ _ _ w); [done|done|]. apply wp_bind, wp_modify, wp_bind.
  eapply wp_mono; [apply wp_read_all_eof|].
  - by apply lend_ready.
  - done.
  - unfold user_range. simpl. lia.
  - intros r w' (-> & Hu & Hr' & Hd'). unfold wp at 1. rewrite Hu. split; [done|]. split; [|done].
    exists w'. split_and!; [apply lookup_insert_eq | done | done].
Qed.

(** The transfer counts the whole buffer. *)
Definition counted_whole (l : transfer_locals) : transfer_locals :=
  TransferLocals (u64 (byte_counter l + n)) (print_threashold l) (last_print_s l) (in_stamp l).
Abbreviation turn := (transfer_turn (λ b, read_all (S fuel) g h base b n) trans_data).

Lemma wp_turn_eof b l p :
  at_eof p → len b = n →
  wp (turn (b, l)) (λ f p', at_eof p' ∧ uclock p' = S (uclock p) ∧
    f = if u_ret (udp (uclock p) LoadStop) =? 0 then Continue (b, counted_whole l) else Break (b, l)) p.
Proof.
  intros He Hb. apply wp_bind, wp_bind, wp_ask, wp_ret.
  destruct (u_ret (udp (uclock p) LoadStop) =? 0); simpl negb; cbv iota; [|by apply wp_ret].
  apply wp_bind. eapply wp_mono; [by apply wp_read_memory_eof|]. intros x p' (-> & He' & Hc).
  simpl (0 <? 0). cbv iota. rewrite silent. simpl negb. simpl andb. cbv iota. by apply wp_ret.
Qed.

(** The receiver runs its turns from the counter 0. *)
Lemma receiver_turns rounds mem p :
  at_eof p → (∀ t, u_ret (udp t (Malloc n)) = base) → base ≠ 0 →
  ∃ l q, at_eof q ∧ byte_counter l = 0 ∧ xen_shm_handler_receiver (S fuel) g rounds data trans_data mem p =
    (let* r := loop rounds turn (mem, l) in
     match r with inr _ => ret 0 | inl _ => ask_ (Free base) ;; ret 0 end) q.
Proof.
  intros He Hb Hb0. unfold xen_shm_handler_receiver, run_transfer, ask at 1, bind at 1.
  rewrite Hb, (proj2 (Z.eqb_neq _ _) Hb0). unfold xen_shm_handler_get_id, bind at 1.
  unfold transfer_start, to_uint64, gettimeofday.
  assert (uint64_of (double_mul (double_of 2000) (double_of 1000000)) = Some 2000000000) as -> by by vm_compute.
  do 2 eexists. split; [|split]; [| |reflexivity]; done.
Qed.

(** A receiver whose peer has closed keeps reading nothing. *)
Lemma receiver_spins rounds mem p :
  (∀ t, u_ret (udp t LoadStop) = 0) →
  at_eof p → len mem = n → (∀ t, u_ret (udp t (Malloc n)) = base) → base ≠ 0 →
  xen_shm_handler_receiver (S fuel) g rounds data trans_data mem p = NoFuel.
Proof.
  intros Hs He Hm Hb Hb0. destruct (receiver_turns rounds mem p He Hb Hb0) as (l & q & Hq & _ & ->).
  unfold bind at 1. erewrite (loop_never_ends (λ x q, at_eof q ∧ len x.1 = n)); [done | | by split].
  intros [b l'] q' [Hq' Hl]. eapply wp_mono; [by apply wp_turn_eof|]. intros f p' (He' & _ & ->).
  rewrite Hs. by eexists.
Qed.

(** Telling it to stop ends it. *)
Lemma wp_receiver_stopped rounds mem p T :
  (∀ t, (T ≤ t)%nat → u_ret (udp t LoadStop) ≠ 0) → (T < rounds)%nat →
  at_eof p → len mem = n → (∀ t, u_ret (udp t (Malloc n)) = base) → base ≠ 0 →
  wp (xen_shm_handler_receiver (S fuel) g rounds data trans_data mem) (λ r _, r = 0) p.
Proof.
  intros Hs HT He Hm Hb Hb0. destruct (receiver_turns rounds mem p He Hb Hb0) as (l & q & Hq & _ & E).
  unfold wp at 1. rewrite E. apply wp_bind.
  apply wp_mono with (λ _ _, True); [|by intros [?|?] ? _].
  apply (wp_loop (λ x q, at_eof q ∧ len x.1 = n) (λ _ p, Z.of_nat (T - uclock p))); [|done | lia].
  intros [b l'] q' [Hq' Hl]. eapply wp_mono; [by apply wp_turn_eof|]. intros f p' (He' & Hc & ->).
  destruct (Z.eqb_spec (u_ret (udp (uclock q') LoadStop)) 0) as [Hz|]; [|done]. split; [done|].
  assert (uclock q' < T)%nat; [|lia]. destruct (decide (uclock q' < T)%nat) as [|Hge]; [done|].
  by destruct (Hs (uclock q') ltac:(lia)).
Qed.
End EndOfFileTurns.

(** Two measures at the same instant divide by zero, and the conversion of the
    result to an integer is undefined. *)
Lemma double_div_zero x : uint64_of (double_div (double_mul (double_div x (double_of 0)) (double_of 1000000)) (double_of 4)) = None.
Proof. by destruct x as [[]|[]| |[] ? ?]. Qed.

Lemma same_instant_undefined `{!UdpEnv} l p :
  let t := udp (uclock p) GetTimeOfDay in
  in_stamp l = (u_ret t, u_out t) → transfer_print l p = Fault Undefined.
Proof.
  intros t Ht. unfold transfer_print, gettimeofday, bind, ask, ret. fold t. rewrite Ht. simpl fst. simpl snd.
  rewrite !Z.sub_diag. change (u64 (u64 0 * 1000000 + u64 0)) with 0.
  unfold to_uint64. by rewrite double_div_zero.
Qed.
