(* ===== verification/HandlerTheorems.v ===== *)
(** The properties of the handlers, with concrete pipes. *)
From stdpp Require Import gmap.
From S2P Require Import Prelude Abi Ring PipeDefs PipeFifo PipeSide PipeWait PipeApi PipeStream PipeLife PipeTheorems Udp Process ProcessSpecs UdpTheorems Handlers HandlerSpecs.
Open Scope Z_scope.
Open Scope c_scope.

(** The two pipes of a handler: the other end of the one writes, the other end of
    the other reads. *)
Record duplex `{!UdpEnv} (data : handler_data) (size1 size2 : Z) (wr ws : world) (p : process) : Prop := {
  dx_rcv : hd_receive_fd data ≠ 0;
  dx_snd : hd_send_fd data ≠ 0;
  dx_two : hd_receive_fd data ≠ hd_send_fd data;
  dx_writes t s : ring_wf size1 s → writer_step size1 s (peer (PipeEnv := pipe_env (hd_receive_fd data)) t s);
  dx_reads t s : ring_wf size2 s → reader_step size2 s (peer (PipeEnv := pipe_env (hd_send_fd data)) t s);
  dx_wr : pipes p !! hd_receive_fd data = Some wr;
  dx_wr_ready : ready xen_shm_pipe_mod_read size1 wr;
  dx_ws : pipes p !! hd_send_fd data = Some ws;
  dx_ws_ready : ready xen_shm_pipe_mod_write size2 ws;
}.

Lemma duplex_streams `{!UdpEnv} data size1 size2 wr ws p :
  duplex data size1 size2 wr ws p → streams data size1 size2 wr ws [] [] p.
Proof.
  intros Hd. split.
  - exists wr. split; [apply Hd | apply took_nil, (dx_wr_ready _ _ _ _ _ _ Hd)].
  - exists ws. split; [apply Hd | apply gave_nil, (dx_ws_ready _ _ _ _ _ _ Hd)].
Qed.

(** The buffer of a handler lies in the address space. *)
Definition stack_range (base : Z) : Prop := 0 ≤ base ∧ base + PING_PACKET_SIZE < 2 ^ 64.

(** C13. The ping server sends back what it received: whatever the other ends do,
    it accesses nothing out of bounds, each packet it writes is the buffer its last
    read went to, and if no transfer was short the stream it wrote is the stream it
    read. It ends when it is told to stop, if the client keeps writing and reading. *)
Theorem ping_server_echoes `{!UdpEnv} data size1 size2 wr ws base noise fuel g rounds p :
  duplex data size1 size2 wr ws p → stack_range base → len noise = PING_PACKET_SIZE →
  let post := λ r p', r = 0 ∧ ∃ k dr ds b,
    has_taken size1 (hd_receive_fd data) wr dr p' ∧ has_given size2 (hd_send_fd data) ws ds p' ∧
    echoes noise k dr ds b ∧ (len dr = 10 * Z.of_nat k → len ds = 10 * Z.of_nat k → ds = dr) in
  safe (xen_shm_handler_ping_server fuel g rounds data base noise) post p ∧
  (∀ T T1 T2, (∀ t, (T ≤ t)%nat → u_ret (udp t LoadStop) ≠ 0) → (T < rounds)%nat →
     filled_from (H := pipe_env (hd_receive_fd data)) size1 T1 →
     room_from (H := pipe_env (hd_send_fd data)) size2 T2 → (T1 < fuel)%nat → (T2 < fuel)%nat →
     wp (xen_shm_handler_ping_server fuel g rounds data base noise) post p).
Proof.
  intros Hd Hb Hn post. pose proof (duplex_streams _ _ _ _ _ _ Hd) as Hs. destruct Hd as [D1 D2 D3 D4 D5 D6 D7 D8 D9].
  assert (∀ r p', r = 0 ∧ echoed data size1 size2 wr ws noise p' → post r p') as Hpost.
  { intros r p' [Hr (k & dr & ds & b & [Ht Hg] & He)]. split; [done|]. exists k, dr, ds, b.
    split_and!; [done | done | done | by apply (echoes_full noise Hn k dr ds b)]. }
  pose proof D9 as ((_ & _ & _ & Hsz & _) & _). split.
  - eapply safe_mono; [|exact Hpost].
    apply (triple_ping_server (Pipes0 := partial_pipes rounds) fuel g data size1 size2 wr ws base noise); try done.
    + intros. by apply safe_wait_reader.
    + intros. by apply safe_wait_writer.
  - intros T T1 T2 Hstop HT Hf1 Hf2 H1 H2. eapply wp_mono; [|exact Hpost].
    apply (triple_ping_server (Pipes0 := total_pipes rounds T Hstop HT) fuel g data size1 size2 wr ws base noise); try done.
    + intros. by eapply wp_wait_reader_filled.
    + intros. by eapply wp_wait_writer_room.
Qed.

(** A handler on pipe 200, whose writer keeps writing, and pipe 210, whose reader
    keeps reading; it is told to stop at time 3. *)
Definition ping_system : UdpEnv := {|
  udp := λ t c, UAnswer (match c with LoadStop => if (3 <=? t)%nat then 1 else 0 | _ => 0 end) 0 [] 0 0 0;
  pipe_env := λ h, if h =? 200 then feeding_env else draining_env;
  new_pipe := λ _, (0, demo_fresh);
|}.
Definition ping_data : handler_data := HandlerData 200 210 0 0.
Definition ping_process : process :=
  Process (<[200 := demo_world xen_shm_pipe_mod_read demo_ring]> {[210 := demo_world xen_shm_pipe_mod_write demo_ring]})
    ∅ ∅ (InternalData 1 0 0 0 0) 0 0 [].

Lemma ping_duplex :
  duplex (H := ping_system) ping_data 16 16 (demo_world xen_shm_pipe_mod_read demo_ring)
    (demo_world xen_shm_pipe_mod_write demo_ring) ping_process.
Proof.
  constructor; try done.
  - intros t s. apply writer_step_feed. lia.
  - intros t s. apply reader_step_drain. lia.
Qed.

Lemma ping_server_echoes_witness :
  let noise := seqZ 0 10 in
  wp (xen_shm_handler_ping_server (H := ping_system) 1 0 4 ping_data 4096 noise) (λ r p', r = 0 ∧ ∃ k dr ds b,
    has_taken 16 200 (demo_world xen_shm_pipe_mod_read demo_ring) dr p' ∧
    has_given 16 210 (demo_world xen_shm_pipe_mod_write demo_ring) ds p' ∧
    echoes noise k dr ds b ∧ (len dr = 10 * Z.of_nat k → len ds = 10 * Z.of_nat k → ds = dr)) ping_process.
Proof.
  intros noise. apply (ping_server_echoes (H := ping_system) ping_data 16 16
    (demo_world xen_shm_pipe_mod_read demo_ring) (demo_world xen_shm_pipe_mod_write demo_ring) 4096 noise 1 0 4
    ping_process ping_duplex) with (T := 3%nat) (T1 := 0%nat) (T2 := 0%nat).
  - unfold stack_range, PING_PACKET_SIZE. lia.
  - reflexivity.
  - intros t Ht. destruct t as [|[|[|t]]]; [lia..|done].
  - lia.
  - apply filled_by_feed. lia.
  - apply room_by_drain. lia.
  - lia.
  - lia.
Defined.

(** The ping client sends its own noise and then the packets it received, and ends
    when it is told to stop, if the server keeps answering. *)
Theorem ping_client_bounces `{!UdpEnv} data size1 size2 wr ws base noise fuel g rounds p :
  duplex data size1 size2 wr ws p → stack_range base → len noise = PING_PACKET_SIZE →
  let post := λ r p', r = 0 ∧ bounced data size1 size2 wr ws noise p' in
  safe (xen_shm_handler_ping_client fuel g rounds data base noise) post p ∧
  (∀ T T1 T2, (∀ t, (T ≤ t)%nat → u_ret (udp t LoadStop) ≠ 0) → (T < rounds)%nat →
     filled_from (H := pipe_env (hd_receive_fd data)) size1 T1 →
     room_from (H := pipe_env (hd_send_fd data)) size2 T2 → (T1 < fuel)%nat → (T2 < fuel)%nat →
     wp (xen_shm_handler_ping_client fuel g rounds data base noise) post p).
Proof.
  intros Hd Hb Hn post. pose proof (duplex_streams _ _ _ _ _ _ Hd) as Hs. destruct Hd as [D1 D2 D3 D4 D5 D6 D7 D8 D9].
  pose proof D9 as ((_ & _ & _ & Hsz & _) & _). split.
  - apply (triple_ping_client (Pipes0 := partial_pipes rounds) fuel g data size1 size2 wr ws base noise); try done.
    + intros. by apply safe_wait_reader.
    + intros. by apply safe_wait_writer.
  - intros T T1 T2 Hstop HT Hf1 Hf2 H1 H2.
    apply (triple_ping_client (Pipes0 := total_pipes rounds T Hstop HT) fuel g data size1 size2 wr ws base noise); try done.
    + intros. by eapply wp_wait_reader_filled.
    + intros. by eapply wp_wait_writer_room.
Qed.

(** C14. A receiver that prints nothing and whose sender has closed its pipe, once
    everything was read: each read answers 0 and leaves the buffer as it was; the turn
    of the loop counts it as a transfer of the whole buffer and goes on; so the
    receiver never ends as long as it is not told to stop, and it ends with 0 once it
    is. *)
Theorem receiver_never_ends_at_eof `{!UdpEnv} fuel g data size trans_data base mem p :
  let h := hd_receive_fd data in let n := buffer_len trans_data in
  h ≠ 0 → (∀ t s, ring_wf size s → writer_step size s (peer (PipeEnv := pipe_env h) t s)) →
  close_is_final (H := pipe_env h) → print_info trans_data = 0 →
  0 < n → 0 < base → base + n < 2 ^ 64 → len mem = n → (∀ t, u_ret (udp t (Malloc n)) = base) →
  at_eof data size p →
  (∀ b q, at_eof data size q → len b = n →
     wp (read_all (S fuel) g h base b n) (λ x q', x = (0, b) ∧ at_eof data size q' ∧ uclock q' = uclock q) q) ∧
  (∀ b l q, at_eof data size q → len b = n → u_ret (udp (uclock q) LoadStop) = 0 →
     wp (transfer_turn (λ b, read_all (S fuel) g h base b n) trans_data (b, l)) (λ f q', at_eof data size q' ∧
       f = Continue (b, TransferLocals (u64 (byte_counter l + n)) (print_threashold l) (last_print_s l) (in_stamp l))) q) ∧
  ((∀ t, u_ret (udp t LoadStop) = 0) → ∀ rounds,
     xen_shm_handler_receiver (S fuel) g rounds data trans_data mem p = NoFuel) ∧
  (∀ T rounds, (∀ t, (T ≤ t)%nat → u_ret (udp t LoadStop) ≠ 0) → (T < rounds)%nat →
     wp (xen_shm_handler_receiver (S fuel) g rounds data trans_data mem) (λ r _, r = 0) p).
Proof.
  intros h n Hh Hw Hc Hp Hn Hb Hb64 Hm Hbase He. split_and!.
  - intros b q Hq Hl. apply (wp_read_memory_eof fuel g data size trans_data base); try done; lia.
  - intros b l q Hq Hl Hs. eapply wp_mono; [apply (wp_turn_eof fuel g data size trans_data base); try done; lia|].
    intros f q' (Hq' & _ & ->). by rewrite Hs.
  - intros Hs rounds. apply (receiver_spins fuel g data size trans_data base); try done; lia.
  - intros T rounds Hs HT. apply (wp_receiver_stopped fuel g data size trans_data base) with T; try done; lia.
Qed.

(** The sender of pipe 200 has closed it, and memory is at 8192; [stop t] is what
    the receiver's flag holds at time [t]. *)
Definition eof_system (stop : nat → Z) : UdpEnv := {|
  udp := λ t c, UAnswer (match c with Malloc _ => 8192 | LoadStop => stop t | _ => 0 end) 0 [] 0 0 0;
  pipe_env := λ _, idle_env;
  new_pipe := λ _, (0, demo_fresh);
|}.
Definition eof_process : process :=
  Process {[200 := demo_world xen_shm_pipe_mod_read (set_writer_flags XSHMP_CLOSED demo_empty)]}
    ∅ ∅ (InternalData 1 0 0 0 0) 0 0 [].
Definition stop_at_3 (t : nat) : Z := if (3 <=? t)%nat then 1 else 0.

Lemma eof_process_at_eof : at_eof ping_data 16 eof_process.
Proof. eexists. split_and!; [reflexivity | | done]. by apply demo_ready; split_and!. Qed.

Lemma receiver_never_ends_at_eof_witness :
  xen_shm_handler_receiver (H := eof_system (λ _, 0)) 1 0 5 ping_data (HandlerTransfert 20 0) (seqZ 1 20) eof_process = NoFuel ∧
  wp (xen_shm_handler_receiver (H := eof_system stop_at_3) 1 0 4 ping_data (HandlerTransfert 20 0) (seqZ 1 20))
    (λ r _, r = 0) eof_process.
Proof.
  split.
  - refine (proj1 (proj2 (proj2 (receiver_never_ends_at_eof (H := eof_system (λ _, 0)) 0 0 ping_data 16
      (HandlerTransfert 20 0) 8192 (seqZ 1 20) eof_process _ _ _ _ _ _ _ _ _ _))) _ 5%nat);
      [done | intros t s; apply writer_step_refl | done | done | done | done | done | done | done |
       apply eof_process_at_eof | done].
  - refine (proj2 (proj2 (proj2 (receiver_never_ends_at_eof (H := eof_system stop_at_3) 0 0 ping_data 16
      (HandlerTransfert 20 0) 8192 (seqZ 1 20) eof_process _ _ _ _ _ _ _ _ _ _))) 3%nat 4%nat _ _);
      [done | intros t s; apply writer_step_refl | done | done | done | done | done | done | done |
       apply eof_process_at_eof | by intros [|[|[|t]]] Ht; [lia..|] | lia].
Defined.
