(* ===== verification/KDefs.v ===== *)
(** The state of the module (xen_shm.c): instances, header pages, the delayed
    free queue; the calls it makes to the kernel and the hypervisor; and its
    accesses to the header page, which the other domain may change at any time. *)
From S2P Require Import Prelude Abi.
From stdpp Require Import gmap.
Open Scope Z_scope.
Open Scope c_scope.

(** ** Constants *)

Definition XEN_SHM_META_PAGE_STATE_NONE : Z := 1.
Definition XEN_SHM_META_PAGE_STATE_OPENED : Z := 2.
Definition XEN_SHM_META_PAGE_STATE_CLOSED : Z := 3.

Definition DOMID_SELF : Z := 0x7ff0.
Definition EVTCHNSTAT_unbound : Z := 1.
Definition GNTMAP_host_map : Z := 2.
Definition GNTMAP_application_map : Z := 8.
Definition GNTMAP_contains_pte : Z := 16.
Definition VM_WRITE : Z := 0x2.
Definition VM_SHARED : Z := 0x8.
Definition VM_DONTCOPY : Z := 0x20000.
Definition VM_DONTEXPAND : Z := 0x40000.
Definition VM_RESERVED : Z := 0x80000.
Definition PAGE_SHIFT : Z := 12.
Definition PAGE_SIZE : Z := 4096.
Definition USHRT_MAX : Z := 65535.
Definition XEN_SHM_DEV_COUNT : Z := 1.
(** A [grant_handle_t] holding -1. *)
Definition NO_HANDLE : Z := u32 (-1).

(** ** Data *)

Inductive xen_shm_state_t :=
| XEN_SHM_STATE_OPENED
| XEN_SHM_STATE_OFFERER
| XEN_SHM_STATE_RECEIVER
| XEN_SHM_STATE_RECEIVER_MAPPED.

#[export] Instance state_eq_dec : EqDecision xen_shm_state_t.
Proof. solve_decision. Defined.

(** [struct gnttab_map_grant_ref], [struct gnttab_unmap_grant_ref]: what the
    module passes to [gnttab_set_map_op] and [gnttab_set_unmap_op], and what the
    hypervisor answers. *)
Record map_op := MapOp {
  map_addr : Z;
  map_flags : Z;
  map_ref : Z;
  map_dom : Z;
  map_status : Z;
  map_handle : Z;
}.
Record unmap_op := UnmapOp {
  unmap_addr : Z;
  unmap_flags : Z;
  unmap_handle : Z;
}.

(** [struct vm_area_struct], the fields the module uses. *)
Record vm_area := VmArea {
  vm_start : Z;
  vm_end : Z;
  vm_flags : Z;
}.

(** [struct xen_shm_instance_data]. Pointers are addresses, 0 for NULL; the wait
    queue is that of the instance's address. *)
Record instance := Instance {
  state : xen_shm_state_t;
  use_ptemod : bool;
  pages_count : Z;
  shared_memory : Z;
  local_domid : Z;
  distant_domid : Z;
  local_ec_port : Z;
  dist_ec_port : Z;
  next_delayed : Z;
  ec_irq : Z;
  initial_signal : bool;
  user_signal : bool;
  latent_user_signal : bool;
  first_page_grant : Z;
  offerer_alloc_order : Z;
  unmapped_area : Z;
  user_mem : option vm_area;
  user_pages : list Z;
  grant_map_handle0 : Z;
  map_ops : list map_op;
  unmap_ops : list unmap_op;
  kmap_ops : list map_op;
  mm : Z;
}.

(** [struct xen_shm_meta_page_data] *)
Record meta_page := MetaPage {
  offerer_state : Z;
  receiver_state : Z;
  meta_pages_count : Z;
  offerer_ec_port : Z;
  ec_mutex_count : Z;
  grant_refs : list Z;
}.

(** The calls to the kernel and the hypervisor. Arguments of type [Z] are the
    code's; an instance is named by its address. *)
Inductive kcall :=
| Kmalloc
| Kfree (d : Z)
| XenPvDomain
| GetTaskMm
| MmuNotifierRegister (d m : Z)
| MmuNotifierUnregister (d m : Z)
| Mmput (m : Z)
| EvtchnAllocUnbound (dom remote_dom : Z)
| EvtchnBindInterdomain (remote_dom remote_port : Z)
| EvtchnStatus (dom port : Z)
| EvtchnClose (port : Z)
| BindEvtchnToIrqhandler (port d : Z)
| UnbindFromIrqhandler (irq d : Z)
| NotifyRemoteViaEvtchn (port : Z)
| WakeUpInterruptible (d : Z)
| GetFreePages (order : Z)
| FreePages (addr order : Z)
| AllocVmArea
| FreeVmArea (area : Z)
| GrantForeignAccess (dom page : Z)
| EndForeignAccessRef (ref : Z)
| MapGrantRef (addr ref dom : Z)
| UnmapGrantRef (addr handle : Z)
| GnttabMapRefs (ops : list map_op) (kops : option (list map_op)) (count : Z)
| GnttabUnmapRefs (op : unmap_op) (kop : option map_op) (page : Z)
| AllocXenballoonedPages (count : Z)
| FreeXenballoonedPages (count : Z) (pages : list Z)
| ApplyToPageRange (start size : Z)
| VmInsertPage (addr page : Z)
| RemapPfnRange (start addr size : Z)
| AccessOk
| CopyFromUser
| CopyToUser
| RegisterChrdevRegion (major minor : Z)
| AllocChrdevRegion (minor : Z)
| UnregisterChrdevRegion
| CdevAdd
| CdevDel.

(** The result of a call and what it writes through its arguments. *)
Record kanswer := KAnswer {
  k_ret : Z;
  k_out1 : Z;
  k_out2 : Z;
  k_outs : list (Z * Z);
}.
Abbreviation k_ok r := (k_ret r =? 0).

(** [ktrace] lists the calls made and their answers, most recent first. *)
Record kernel := Kernel {
  heap : gmap Z instance;
  private_data : gmap Z Z;
  pages : gmap Z meta_page;
  xen_shm_delayed_free_queue : Z;
  xen_shm_domid : Z;
  xen_shm_major_number : Z;
  device_major : Z;
  kclock : nat;
  ktrace : list (kcall * kanswer);
}.

(** Code outside the module. [respond t c] answers the call made at time [t];
    [other_domain t] is what the other domain did to the header page before the
    access made then; [page_at t] is the content of the page a call made then
    gives access to; [wait t cond jiffies] sleeps until [cond] or for [jiffies]
    (0 for ever) and answers what [wait_event_interruptible] does, with the
    instance and the page as they are then; [kaddr_of_page] and [kpte_maddr] give the addresses
    under which the hypervisor knows a page and its entry in the page table. [HZ] is
    the kernel's number of jiffies in a second. *)
Class KernelEnv := {
  respond : nat → kcall → kanswer;
  other_domain : nat → meta_page → meta_page;
  page_at : nat → meta_page;
  wait : nat → (instance → meta_page → bool) → Z → instance → meta_page → Z * instance * meta_page;
  kaddr_of_page : Z → Z;
  kpte_maddr : Z → Z;
  HZ : Z;
}.

(** ** Field updates *)

Definition instance_eta (d : instance) : instance :=
  Instance (state d) (use_ptemod d) (pages_count d) (shared_memory d) (local_domid d)
    (distant_domid d) (local_ec_port d) (dist_ec_port d) (next_delayed d) (ec_irq d)
    (initial_signal d) (user_signal d) (latent_user_signal d) (first_page_grant d)
    (offerer_alloc_order d) (unmapped_area d) (user_mem d) (user_pages d) (grant_map_handle0 d)
    (map_ops d) (unmap_ops d) (kmap_ops d) (mm d).

Definition set_state : xen_shm_state_t → instance → instance := ltac:(field_setter instance_eta state).
Definition set_use_ptemod : bool → instance → instance := ltac:(field_setter instance_eta use_ptemod).
Definition set_pages_count : Z → instance → instance := ltac:(field_setter instance_eta pages_count).
Definition set_shared_memory : Z → instance → instance := ltac:(field_setter instance_eta shared_memory).
Definition set_distant_domid : Z → instance → instance := ltac:(field_setter instance_eta distant_domid).
Definition set_local_ec_port : Z → instance → instance := ltac:(field_setter instance_eta local_ec_port).
Definition set_dist_ec_port : Z → instance → instance := ltac:(field_setter instance_eta dist_ec_port).
Definition set_next_delayed : Z → instance → instance := ltac:(field_setter instance_eta next_delayed).
Definition set_ec_irq : Z → instance → instance := ltac:(field_setter instance_eta ec_irq).
Definition set_initial_signal : bool → instance → instance := ltac:(field_setter instance_eta initial_signal).
Definition set_user_signal : bool → instance → instance := ltac:(field_setter instance_eta user_signal).
Definition set_latent_user_signal : bool → instance → instance :=
  ltac:(field_setter instance_eta latent_user_signal).
Definition set_first_page_grant : Z → instance → instance := ltac:(field_setter instance_eta first_page_grant).
Definition set_offerer_alloc_order : Z → instance → instance :=
  ltac:(field_setter instance_eta offerer_alloc_order).
Definition set_unmapped_area : Z → instance → instance := ltac:(field_setter instance_eta unmapped_area).
Definition set_user_mem : option vm_area → instance → instance := ltac:(field_setter instance_eta user_mem).
Definition set_user_pages : list Z → instance → instance := ltac:(field_setter instance_eta user_pages).
Definition set_grant_map_handle0 : Z → instance → instance :=
  ltac:(field_setter instance_eta grant_map_handle0).
Definition set_map_ops : list map_op → instance → instance := ltac:(field_setter instance_eta map_ops).
Definition set_unmap_ops : list unmap_op → instance → instance := ltac:(field_setter instance_eta unmap_ops).
Definition set_kmap_ops : list map_op → instance → instance := ltac:(field_setter instance_eta kmap_ops).
Definition set_mm : Z → instance → instance := ltac:(field_setter instance_eta mm).

Definition meta_eta (d : meta_page) : meta_page :=
  MetaPage (offerer_state d) (receiver_state d) (meta_pages_count d) (offerer_ec_port d)
    (ec_mutex_count d) (grant_refs d).
Definition set_offerer_state : Z → meta_page → meta_page := ltac:(field_setter meta_eta offerer_state).
Definition set_receiver_state : Z → meta_page → meta_page := ltac:(field_setter meta_eta receiver_state).
Definition set_meta_pages_count : Z → meta_page → meta_page := ltac:(field_setter meta_eta meta_pages_count).
Definition set_offerer_ec_port : Z → meta_page → meta_page := ltac:(field_setter meta_eta offerer_ec_port).
Definition set_ec_mutex_count : Z → meta_page → meta_page := ltac:(field_setter meta_eta ec_mutex_count).
Definition set_grant_refs : list Z → meta_page → meta_page := ltac:(field_setter meta_eta grant_refs).

Definition kernel_eta (d : kernel) : kernel :=
  Kernel (heap d) (private_data d) (pages d) (xen_shm_delayed_free_queue d) (xen_shm_domid d)
    (xen_shm_major_number d) (device_major d) (kclock d) (ktrace d).
Definition set_heap : gmap Z instance → kernel → kernel := ltac:(field_setter kernel_eta heap).
Definition set_private_data : gmap Z Z → kernel → kernel := ltac:(field_setter kernel_eta private_data).
Definition set_pages : gmap Z meta_page → kernel → kernel := ltac:(field_setter kernel_eta pages).
Definition set_delayed_free_queue : Z → kernel → kernel :=
  ltac:(field_setter kernel_eta xen_shm_delayed_free_queue).
Definition set_domid : Z → kernel → kernel := ltac:(field_setter kernel_eta xen_shm_domid).
Definition set_major_number : Z → kernel → kernel := ltac:(field_setter kernel_eta xen_shm_major_number).
Definition set_device_major : Z → kernel → kernel := ltac:(field_setter kernel_eta device_major).
Definition set_kclock : nat → kernel → kernel := ltac:(field_setter kernel_eta kclock).
Definition set_ktrace : list (kcall * kanswer) → kernel → kernel := ltac:(field_setter kernel_eta ktrace).

(** ** Accesses *)

Section KAccess.
Context `{!KernelEnv}.

Definition call (c : kcall) : M kernel kanswer := λ k,
  let r := respond (kclock k) c in
  Done r (set_kclock (S (kclock k)) (set_ktrace ((c, r) :: ktrace k) k)).
(** A call whose answer is not used. *)
Definition call_ (c : kcall) : M kernel unit := let* _ := call c in ret tt.

(** The instance at address [d]. *)
Definition get_inst (d : Z) : M kernel instance := λ k,
  if d =? 0 then Fault NullDeref else
  match heap k !! d with
  | Some i => Done i k
  | None => Fault UseAfterFree
  end.
Definition put_inst (d : Z) (f : instance → instance) : M kernel unit :=
  let* i := get_inst d in
  modify (λ k, set_heap (<[d := f i]> (heap k)) k).

(** The header page at address [a], once the other domain has run. *)
Definition get_page (a : Z) : M kernel meta_page := λ k,
  match pages k !! a with
  | Some m =>
      let m := other_domain (kclock k) m in
      Done m (set_kclock (S (kclock k)) (set_pages (<[a := m]> (pages k)) k))
  | None => Fault NullDeref
  end.
Definition load_page {A} (a : Z) (f : meta_page → A) : M kernel A :=
  let* m := get_page a in ret (f m).
Definition store_page (a : Z) (f : meta_page → meta_page) : M kernel unit :=
  let* m := get_page a in
  modify (λ k, set_pages (<[a := f m]> (pages k)) k).

(** An element of an array. *)
Definition nth_of {A} (l : list A) (i : Z) : M kernel A :=
  if i <? 0 then throw OutOfBounds else
  match l !! Z.to_nat i with
  | Some x => ret x
  | None => throw OutOfBounds
  end.
Definition set_nth {A} (l : list A) (i : Z) (x : A) : M kernel (list A) :=
  let* _ := nth_of l i in ret (<[Z.to_nat i := x]> l).

Definition load_grant_ref (a page : Z) : M kernel Z :=
  let* l := load_page a grant_refs in nth_of l page.
Definition store_grant_ref (a page ref : Z) : M kernel unit :=
  let* m := get_page a in
  let* l := set_nth (grant_refs m) page ref in
  modify (λ k, set_pages (<[a := set_grant_refs l m]> (pages k)) k).
End KAccess.
