(* ===== verification/KEvent.v ===== *)
(** The event channel of an instance (xen_shm.c, "Event Channel"). *)
From S2P Require Import Prelude Abi KDefs.
From stdpp Require Import gmap.
Open Scope Z_scope.
Open Scope c_scope.

Section Event.
Context `{!KernelEnv}.

(** The handler answers IRQ_HANDLED in all cases. *)
Definition xen_shm_event_handler (d : Z) : M kernel unit :=
  let* data := get_inst d in
  (if negb (initial_signal data) then
     when (bool_decide (state data = XEN_SHM_STATE_OFFERER))
       (call_ (NotifyRemoteViaEvtchn (local_ec_port data))) ;;
     put_inst d (set_initial_signal true)
   else
     put_inst d (set_user_signal true) ;;
     put_inst d (set_latent_user_signal true)) ;;
  call_ (WakeUpInterruptible d).

(** The part common to both cases, once the port is known. *)
Definition bind_handler (d : Z) : M kernel Z :=
  let* data := get_inst d in
  let* retval := call (BindEvtchnToIrqhandler (local_ec_port data) d) in
  if k_ret retval <=? 0 then
    call_ (EvtchnClose (local_ec_port data)) ;;
    ret (- EIO)
  else
    put_inst d (set_ec_irq (k_ret retval)) ;;
    ret 0.

Definition __xen_shm_open_ec (d : Z) (offerer : bool) : M kernel Z :=
  let* data := get_inst d in
  if offerer then
    let* r := call (EvtchnAllocUnbound DOMID_SELF
      (if distant_domid data =? local_domid data then DOMID_SELF else distant_domid data)) in
    if negb (k_ok r) then ret (- EIO) else
    put_inst d (set_local_ec_port (k_out1 r)) ;;
    bind_handler d
  else
    let* r := call (EvtchnBindInterdomain (distant_domid data) (dist_ec_port data)) in
    if negb (k_ok r) then ret (- EIO) else
    put_inst d (set_local_ec_port (k_out1 r)) ;;
    bind_handler d.

Definition __xen_shm_open_ec_offerer (d : Z) : M kernel Z := __xen_shm_open_ec d true.

Definition __xen_shm_open_ec_receiver (d : Z) : M kernel Z :=
  let* data := get_inst d in
  let* port := load_page (shared_memory data) offerer_ec_port in
  put_inst d (set_dist_ec_port port) ;;
  __xen_shm_open_ec d false.

Definition __xen_shm_close_ec (d : Z) : M kernel Z :=
  let* data := get_inst d in
  call_ (UnbindFromIrqhandler (ec_irq data) d) ;;
  ret 0.
Definition __xen_shm_close_ec_receiver (d : Z) : M kernel Z := __xen_shm_close_ec d.
Definition __xen_shm_close_ec_offerer (d : Z) : M kernel Z := __xen_shm_close_ec d.
End Event.
