(* ===== verification/KMemory.v ===== *)
(** Memory of an instance (xen_shm.c, "User mapped memory helpers", "Memory
    management" and "mmu_notifier operations"): allocating and freeing the shared
    pages, undoing grants and mappings, the delayed free queue. *)
From S2P Require Import Prelude Abi KDefs KEvent.
From stdpp Require Import gmap.
Open Scope Z_scope.
Open Scope c_scope.

Section Memory.
Context `{!KernelEnv}.

(** ** User mapped memory helpers *)

(** The call back of [apply_to_page_range]: [pte] is the machine address of the
    page table entry of [addr]. *)
Definition __xen_shm_contruct_receiver_k_ops (pte addr d : Z) : M kernel Z :=
  let* data := get_inst d in
  match user_mem data with
  | None => throw NullDeref
  | Some vma =>
      let offset := u32 (Z.shiftr (u64 (addr - vm_start vma)) PAGE_SHIFT) in
      let flags := Z.lor GNTMAP_host_map (Z.lor GNTMAP_application_map GNTMAP_contains_pte) in
      let* ref := load_grant_ref (shared_memory data) (offset + 1) in
      let* old := nth_of (map_ops data) offset in
      let* ops := set_nth (map_ops data) offset
        (MapOp pte flags ref (distant_domid data) (map_status old) (map_handle old)) in
      put_inst d (set_map_ops ops) ;;
      let* ops := set_nth (unmap_ops data) offset (UnmapOp pte flags NO_HANDLE) in
      put_inst d (set_unmap_ops ops) ;;
      ret 0
  end.

Definition unmap_body (d : Z) (x : Z * Z) : M kernel (flow (Z * Z) unit) :=
  let '(offset, nb) := x in
  if negb (0 <? nb) then ret (Break x) else
  let* data := get_inst d in
  let* op := nth_of (unmap_ops data) offset in
  let* nb := (if negb (unmap_handle op =? NO_HANDLE) then
      let* kop := nth_of (kmap_ops data) offset in
      let* page := nth_of (user_pages data) offset in
      call_ (GnttabUnmapRefs op (if use_ptemod data then Some kop else None) page) ;;
      let* ops := set_nth (unmap_ops data) offset (UnmapOp (unmap_addr op) (unmap_flags op) NO_HANDLE) in
      put_inst d (set_unmap_ops ops) ;;
      ret (nb - 1)
    else ret nb) in
  let offset := offset + 1 in
  if pages_count data - 1 <=? offset then ret (Return tt)
  else ret (Continue (offset, nb)).

Definition __xen_shm_unmap_receiver_grant_pages (d offset nb : Z) : M kernel unit :=
  let* _ := loop (S (Z.to_nat XEN_SHM_ALLOC_ALIGNED_PAGES)) (unmap_body d) (offset, nb) in
  ret tt.

(** ** Memory management *)

(** The order of the allocation: the loop on [tmp_page_count] (32 bits), then
    the correction for powers of two. *)
Definition alloc_order (pages : Z) : M kernel Z :=
  let* x := while 33 (λ x, negb (x.2 =? 0)) (λ x, ret (u32 (x.1 + 1), Z.shiftr x.2 1)) (0, pages) in
  let '(order, tmp_page_count) := x in
  ret (if tmp_page_count =? Z.shiftl 1 (order - 1) then order - 1 else order).

Definition __xen_shm_allocate_shared_memory_offerer (d : Z) : M kernel Z :=
  let* data := get_inst d in
  let* order := alloc_order (pages_count data) in
  let* alloc := call (GetFreePages order) in
  if k_ok alloc then ret (- ENOMEM) else
  modify (λ k, set_pages (<[k_ret alloc := page_at (kclock k)]> (pages k)) k) ;;
  put_inst d (set_offerer_alloc_order order) ;;
  put_inst d (set_shared_memory (k_ret alloc)) ;;
  ret 0.

Definition __xen_shm_free_shared_memory_offerer (d : Z) : M kernel unit :=
  let* data := get_inst d in
  when (negb (shared_memory data =? 0))
    (call_ (FreePages (shared_memory data) (offerer_alloc_order data)) ;;
     modify (λ k, set_pages (delete (shared_memory data) (pages k)) k)).

Definition __xen_shm_free_shared_memory_receiver (d : Z) : M kernel unit :=
  let* data := get_inst d in
  when (negb (unmapped_area data =? 0)) (call_ (FreeVmArea (unmapped_area data))).

Definition __xen_shm_add_delayed_free (d : Z) : M kernel unit :=
  let* q := (λ k, Done (xen_shm_delayed_free_queue k) k) in
  put_inst d (set_next_delayed q) ;;
  let* data := get_inst d in
  modify (set_delayed_free_queue (next_delayed data)).

(** Mapping and unmapping one page of the other domain by hypercall. *)
Definition unmap_first_page (d : Z) : M kernel Z :=
  let* data := get_inst d in
  let* r := call (UnmapGrantRef (shared_memory data) (grant_map_handle0 data)) in
  when (k_out1 r =? 0) (modify (λ k, set_pages (delete (shared_memory data) (pages k)) k)) ;;
  ret (k_out1 r).

(** "Try to free data pages first": one round of the loop. *)
Definition end_grants_body (d : Z) (x : unit) : M kernel (flow unit Z) :=
  let* data := get_inst d in
  if pages_count data =? 0 then ret (Break x) else
  let* ref := load_grant_ref (shared_memory data) (pages_count data - 1) in
  let* r := call (EndForeignAccessRef ref) in
  if negb (k_ok r) then
    put_inst d (set_pages_count (u8 (pages_count data - 1))) ;;
    ret (Continue x)
  else ret (Return (-1)).

(** [RECEIVER_MAPPED] continues with [RECEIVER]. *)
Definition prepare_free_receiver (d : Z) : M kernel Z :=
  let* status := unmap_first_page d in
  if status =? 0 then
    put_inst d (λ i, set_pages_count (u8 (pages_count i - 1)) i) ;;
    let* _ := __xen_shm_close_ec_receiver d in
    __xen_shm_free_shared_memory_receiver d ;;
    ret 0
  else ret (-1).

Definition __xen_shm_prepare_free (d : Z) (first : bool) : M kernel Z :=
  let* data := get_inst d in
  match state data with
  | XEN_SHM_STATE_OPENED => ret 0
  | XEN_SHM_STATE_OFFERER =>
      let* r := loop 257 (end_grants_body d) tt in
      match r with
      | inl _ =>
          let* _ := __xen_shm_close_ec_offerer d in
          __xen_shm_free_shared_memory_offerer d ;;
          ret 0
      | inr v => ret v
      end
  | XEN_SHM_STATE_RECEIVER_MAPPED =>
      when (negb (use_ptemod data))
        (__xen_shm_unmap_receiver_grant_pages d 0 (pages_count data - 1)) ;;
      prepare_free_receiver d
  | XEN_SHM_STATE_RECEIVER => prepare_free_receiver d
  end.

(** One round on [(previous, current_i)]. *)
Definition free_delayed_body (x : Z * Z) : M kernel (flow (Z * Z) unit) :=
  let '(previous, current_i) := x in
  if current_i =? 0 then ret (Break x) else
  let* r := __xen_shm_prepare_free current_i false in
  if r =? 0 then
    let* data := get_inst current_i in
    (if previous =? 0 then modify (set_delayed_free_queue (next_delayed data))
     else put_inst previous (set_next_delayed (next_delayed data))) ;;
    call_ (Kfree current_i) ;;
    modify (λ k, set_heap (delete current_i (heap k)) k) ;;
    ret (Continue (previous, next_delayed data))
  else
    let* data := get_inst current_i in
    ret (Continue (current_i, next_delayed data)).

Definition __xen_shm_free_delayed_queue : M kernel unit := λ k,
  (let* _ := loop (S (S (size (heap k)))) free_delayed_body (0, xen_shm_delayed_free_queue k) in
   ret tt) k.

(** ** mmu_notifier operations *)

Definition __xen_shm_mn_invl_range_start (d start end_ : Z) : M kernel unit :=
  let* data := get_inst d in
  match user_mem data with
  | None => ret tt
  | Some vma =>
      if (vm_end vma <=? start) || (end_ <=? vm_start vma) then ret tt else
      let mstart := Z.max start (vm_start vma) in
      let mend := Z.min end_ (vm_end vma) in
      __xen_shm_unmap_receiver_grant_pages d
        (s32 (Z.shiftr (mstart - vm_start vma) PAGE_SHIFT)) (s32 (Z.shiftr (mend - mstart) PAGE_SHIFT))
  end.

Definition __xen_shm_mn_invl_page (d address : Z) : M kernel unit :=
  __xen_shm_mn_invl_range_start d address (u64 (address + PAGE_SIZE)).

Definition __xen_shm_mn_release (d : Z) : M kernel unit :=
  let* data := get_inst d in
  match user_mem data with
  | None => ret tt
  | Some _ => __xen_shm_unmap_receiver_grant_pages d 0 (pages_count data - 1)
  end.
End Memory.
