(* ===== verification/KIoctl.v ===== *)
(** The commands of the module (xen_shm.c, "IOCTLs helpers" and the dispatch). *)
From S2P Require Import Prelude Abi KDefs KEvent KMemory.
From stdpp Require Import gmap.
Open Scope Z_scope.
Open Scope c_scope.

(** [__xen_shm_is_broken_pipe] on a page as it is at one moment. *)
Definition closed_page (m : meta_page) : bool :=
  (offerer_state m =? XEN_SHM_META_PAGE_STATE_CLOSED)
  || (receiver_state m =? XEN_SHM_META_PAGE_STATE_CLOSED).

(** What a sleeping process waits for. *)
Definition await_cond (user init latent : bool) (i : instance) (m : meta_page) : bool :=
  (user && user_signal i) || (init && initial_signal i)
  || (latent && latent_user_signal i) || closed_page m.

(** The argument the user passes, and what is copied back to it. *)
Inductive ioctl_arg :=
| ArgNone
| ArgOfferer (a : ioctlarg_offerer)
| ArgReceiver (a : ioctlarg_receiver)
| ArgAwait (a : ioctlarg_await)
| ArgDomid (domid : Z).

Section Ioctl.
Context `{!KernelEnv}.

(** ** INIT_OFFERER *)

(** One page of "Grant mapping and fill header page"; the error, and the page
    it happened at, leave the loop. [grant_ref_t] is unsigned. *)
Definition grant_body (d : Z) (x : Z * Z) : M kernel (flow (Z * Z) (Z * Z)) :=
  let '(page, page_pointer) := x in
  let* data := get_inst d in
  if negb (page <? pages_count data) then ret (Break x) else
  let* r := call (GrantForeignAccess (distant_domid data) page_pointer) in
  store_grant_ref (shared_memory data) page (u32 (k_ret r)) ;;
  let* ref := load_grant_ref (shared_memory data) page in
  if ref <? 0 then ret (Return (s32 ref, page))
  else ret (Continue (page + 1, u64 (page_pointer + PAGE_SIZE))).

(** [undo_grant], from page [page - 1] down. *)
Definition undo_grant (d error page : Z) : M kernel Z :=
  let* data := get_inst d in
  let* _ := while (S (Z.to_nat page)) (λ page, 0 <=? page) (λ page,
    let* ref := load_grant_ref (shared_memory data) page in
    call_ (EndForeignAccessRef ref) ;;
    ret (page - 1)) (page - 1) in
  __xen_shm_free_shared_memory_offerer d ;;
  ret error.

Definition init_header (d : Z) : M kernel unit :=
  let* data := get_inst d in
  store_page (shared_memory data) (set_offerer_state XEN_SHM_META_PAGE_STATE_NONE) ;;
  store_page (shared_memory data) (set_receiver_state XEN_SHM_META_PAGE_STATE_NONE) ;;
  store_page (shared_memory data) (set_ec_mutex_count 1) ;;
  store_page (shared_memory data) (set_meta_pages_count (pages_count data)).

Definition __xen_shm_ioctl_init_offerer (d : Z) (arg : ioctlarg_offerer) :
    M kernel (Z * ioctlarg_offerer) :=
  let* data := get_inst d in
  if negb (bool_decide (state data = XEN_SHM_STATE_OPENED)) then ret (- ENOTTY, arg) else
  if (off_pages_count arg =? 0) || (XEN_SHM_MAX_SHARED_PAGES <? off_pages_count arg)
  then ret (- EINVAL, arg) else
  put_inst d (set_distant_domid (if off_dist_domid arg =? DOMID_SELF then local_domid data
                                 else off_dist_domid arg)) ;;
  put_inst d (set_pages_count (u8 (off_pages_count arg + 1))) ;;
  let* error := __xen_shm_allocate_shared_memory_offerer d in
  if error <? 0 then ret (error, arg) else
  init_header d ;;
  let* data := get_inst d in
  let* r := loop 257 (grant_body d) (0, shared_memory data) in
  match r with
  | inr (error, page) => let* e := undo_grant d error page in ret (e, arg)
  | inl (page, _) =>
      let* ref0 := load_grant_ref (shared_memory data) 0 in
      let arg := IoctlargOfferer (off_pages_count arg) (off_dist_domid arg) ref0 (local_domid data) in
      let* ref0 := load_grant_ref (shared_memory data) 0 in
      put_inst d (set_first_page_grant ref0) ;;
      let* error := __xen_shm_open_ec_offerer d in
      if negb (error =? 0) then let* e := undo_grant d error page in ret (e, arg) else
      let* data := get_inst d in
      store_page (shared_memory data) (set_offerer_ec_port (local_ec_port data)) ;;
      put_inst d (set_state XEN_SHM_STATE_OFFERER) ;;
      store_page (shared_memory data) (set_offerer_state XEN_SHM_META_PAGE_STATE_OPENED) ;;
      ret (0, arg)
  end.

(** ** INIT_RECEIVER *)

Definition undo_alloc (d error : Z) : M kernel Z :=
  __xen_shm_free_shared_memory_receiver d ;;
  ret error.
Definition undo_map (d error : Z) : M kernel Z :=
  let* _ := unmap_first_page d in
  undo_alloc d error.

Definition __xen_shm_ioctl_init_receiver (d : Z) (arg : ioctlarg_receiver) : M kernel Z :=
  let* data := get_inst d in
  if negb (bool_decide (state data = XEN_SHM_STATE_OPENED)) then ret (- ENOTTY) else
  if (rcv_pages_count arg =? 0) || (XEN_SHM_MAX_SHARED_PAGES <? rcv_pages_count arg)
  then ret (- EINVAL) else
  put_inst d (set_distant_domid (if rcv_dist_domid arg =? DOMID_SELF then local_domid data
                                 else rcv_dist_domid arg)) ;;
  put_inst d (set_first_page_grant (rcv_grant arg)) ;;
  put_inst d (set_pages_count (u8 (rcv_pages_count arg + 1))) ;;
  let* area := call AllocVmArea in
  put_inst d (set_unmapped_area (k_ret area)) ;;
  if k_ok area then ret (- ENOMEM) else
  put_inst d (set_shared_memory (k_out1 area)) ;;
  let* data := get_inst d in
  let* r := call (MapGrantRef (shared_memory data) (first_page_grant data) (distant_domid data)) in
  if negb (k_ok r) then undo_alloc d (- EFAULT) else
  if k_out1 r <? 0 then undo_alloc d (- EINVAL) else
  modify (λ k, set_pages (<[shared_memory data := page_at (kclock k)]> (pages k)) k) ;;
  put_inst d (set_grant_map_handle0 (k_out2 r)) ;;
  let* count := load_page (shared_memory data) meta_pages_count in
  if negb (pages_count data =? count) then undo_map d (- EINVAL) else
  let* error := __xen_shm_open_ec_receiver d in
  if negb (error =? 0) then undo_map d error else
  put_inst d (set_state XEN_SHM_STATE_RECEIVER) ;;
  store_page (shared_memory data) (set_receiver_state XEN_SHM_META_PAGE_STATE_OPENED) ;;
  let* data := get_inst d in
  call_ (NotifyRemoteViaEvtchn (local_ec_port data)) ;;
  ret 0.

(** ** WAIT and AWAIT *)

Definition __xen_shm_is_broken_pipe (page : Z) : M kernel bool :=
  let* o := load_page page offerer_state in
  if o =? XEN_SHM_META_PAGE_STATE_CLOSED then ret true else
  let* r := load_page page receiver_state in
  ret (r =? XEN_SHM_META_PAGE_STATE_CLOSED).

(** Sleeping on the instance's wait queue; 0 jiffies is for ever. *)
Definition wait_event (d page : Z) (cond : instance → meta_page → bool) (jiffies : Z) : M kernel Z :=
  let* data := get_inst d in
  let* m := get_page page in
  λ k, let '(r, i, m) := wait (kclock k) cond jiffies data m in
    Done r (set_kclock (S (kclock k)) (set_heap (<[d := i]> (heap k))
      (set_pages (<[page := m]> (pages k)) k))).

Definition mutex_release (page : Z) (mutex_flag : bool) : M kernel unit :=
  when mutex_flag (store_page page (λ m, set_ec_mutex_count (s32 (ec_mutex_count m + 1)) m)).

(** What a wait that lasted [retval] jiffies less than [jiffies] leaves. *)
Definition await_remaining (timeout retval jiffies : Z) : Z :=
  if u64 retval =? jiffies then timeout else u64 (Z.quot (s32 (retval * 1000)) HZ).
Definition await_jiffies (timeout : Z) : Z :=
  let j := u64 (timeout * HZ) / 1000 in if j =? 0 then 1 else j.

(** After a wait that was not interrupted. *)
Definition await_done (d page : Z) (mutex_flag clears : bool) (arg : ioctlarg_await) :
    M kernel (Z * ioctlarg_await) :=
  when clears (put_inst d (set_latent_user_signal false)) ;;
  let* b := __xen_shm_is_broken_pipe page in
  mutex_release page mutex_flag ;;
  ret (if b then - EPIPE else 0, arg).

Definition __xen_shm_ioctl_await (d : Z) (arg : ioctlarg_await) : M kernel (Z * ioctlarg_await) :=
  let user_flag := has (request_flags arg) XEN_SHM_IOCTL_AWAIT_USER in
  let user_latent_flag := has (request_flags arg) XEN_SHM_IOCTL_AWAIT_LATENT_USER in
  let init_flag := has (request_flags arg) XEN_SHM_IOCTL_AWAIT_INIT in
  let mutex_flag := has (request_flags arg) XEN_SHM_IOCTL_AWAIT_MUTEX in
  let* data := get_inst d in
  if bool_decide (state data = XEN_SHM_STATE_OPENED) then ret (- ENOTTY, arg) else
  let page := shared_memory data in
  let* b := __xen_shm_is_broken_pipe page in
  if b then ret (- EPIPE, arg) else
  let* locked := (if mutex_flag then
      let* m := get_page page in
      let c := s32 (ec_mutex_count m - 1) in
      modify (λ k, set_pages (<[page := set_ec_mutex_count c m]> (pages k)) k) ;;
      ret (c =? 0)
    else ret true) in
  if negb locked then mutex_release page true ;; ret (- EDEADLK, arg) else
  put_inst d (set_user_signal false) ;;
  let cond := await_cond user_flag init_flag user_latent_flag in
  if timeout_ms arg =? 0 then
    let* retval := wait_event d page cond 0 in
    if retval <? 0 then mutex_release page mutex_flag ;; ret (retval, arg)
    else await_done d page mutex_flag (user_flag || user_latent_flag) arg
  else
    let jiffies := await_jiffies (timeout_ms arg) in
    let* r := wait_event d page cond jiffies in
    let retval := s32 r in
    if retval <? 0 then mutex_release page mutex_flag ;; ret (retval, arg) else
    let arg := IoctlargAwait (request_flags arg) (timeout_ms arg)
                 (await_remaining (timeout_ms arg) retval jiffies) in
    await_done d page mutex_flag (user_flag || user_latent_flag) arg.

(** ** SSIG *)

Definition __xen_shm_ioctl_ssig (d : Z) : M kernel Z :=
  let* data := get_inst d in
  if bool_decide (state data = XEN_SHM_STATE_OPENED) then ret (- ENOTTY) else
  let* b := __xen_shm_is_broken_pipe (shared_memory data) in
  if b then ret (- EPIPE) else
  call_ (NotifyRemoteViaEvtchn (local_ec_port data)) ;;
  ret 0.

(** ** The dispatch *)

Definition file_data (filp : Z) : M kernel Z := λ k,
  match private_data k !! filp with Some d => Done d k | None => Fault NullDeref end.

(** Copies between the user's argument and the kernel's: [k] on success. *)
Definition copy {A} (c : kcall) (a : A) (k : M kernel (Z * A)) : M kernel (Z * A) :=
  let* r := call c in
  if negb (k_ok r) then ret (- EFAULT, a) else k.

(** [arg] is the user's; the result is with what it holds afterwards. [garbage]
    is what the stack held where [await_karg.timeout_ms] is. *)
Definition xen_shm_ioctl (filp : Z) (cmd : ioctl_command) (arg : ioctl_arg) (garbage : Z) :
    M kernel (Z * ioctl_arg) :=
  let* d := file_data filp in
  if negb (ioc_type cmd =? XEN_SHM_MAGIC_NUMBER) then ret (- ENOTTY, arg) else
  let* err := (if ioc_reads cmd || ioc_writes cmd then
      let* r := call AccessOk in ret (k_ok r) else ret false) in
  if err then ret (- EFAULT, arg) else
  match cmd, arg with
  | XEN_SHM_IOCTL_INIT_OFFERER, ArgOfferer a =>
      copy CopyFromUser arg (
        let* r := __xen_shm_ioctl_init_offerer d a in
        if negb (r.1 =? 0) then ret (r.1, arg) else
        copy CopyToUser arg (ret (0, ArgOfferer r.2)))
  | XEN_SHM_IOCTL_INIT_RECEIVER, ArgReceiver a =>
      copy CopyFromUser arg (
        let* r := __xen_shm_ioctl_init_receiver d a in
        if negb (r =? 0) then ret (r, arg) else
        copy CopyToUser arg (ret (0, ArgReceiver a)))
  | XEN_SHM_IOCTL_WAIT, _ =>
      let* r := __xen_shm_ioctl_await d (IoctlargAwait
        (Z.lor XEN_SHM_IOCTL_AWAIT_INIT XEN_SHM_IOCTL_AWAIT_USER) garbage 0) in
      ret (r.1, arg)
  | XEN_SHM_IOCTL_AWAIT, ArgAwait a =>
      copy CopyFromUser arg (
        let* r := __xen_shm_ioctl_await d a in
        if negb (r.1 =? 0) then ret (r.1, arg) else
        copy CopyToUser arg (ret (0, ArgAwait r.2)))
  | XEN_SHM_IOCTL_SSIG, _ =>
      let* r := __xen_shm_ioctl_ssig d in ret (r, arg)
  | XEN_SHM_IOCTL_GET_DOMID, _ =>
      let* data := get_inst d in
      copy CopyToUser arg (ret (0, ArgDomid (local_domid data)))
  | OtherCommand _ _ _, _ => ret (- ENOTTY, arg)
  | _, _ => ret (- EFAULT, arg)
  end.
End Ioctl.
