(* ===== verification/KFile.v ===== *)
(** The file operations and the module's own life (xen_shm.c, "file operations",
    "Module helper", "Module Level"): open, mmap, release; init and cleanup. *)
From S2P Require Import Prelude Abi KDefs KEvent KMemory KIoctl.
From stdpp Require Import gmap.
Open Scope Z_scope.
Open Scope c_scope.

Section File.
Context `{!KernelEnv}.

Definition insert_inst (d : Z) (i : instance) : M kernel unit :=
  modify (λ k, set_heap (<[d := i]> (heap k)) k).
Definition kfree (d : Z) : M kernel unit :=
  call_ (Kfree d) ;;
  modify (λ k, set_heap (delete d (heap k)) k).

(** The fields [xen_shm_open] writes; the others keep what [mem] held. *)
Definition open_fields (domid : Z) (ptemod : bool) (mem : instance) : instance :=
  set_use_ptemod ptemod (set_latent_user_signal false (set_user_signal false
    (set_initial_signal false (set_user_mem None (set_unmapped_area 0 (set_next_delayed 0
      (set_shared_memory 0 (Instance XEN_SHM_STATE_OPENED (use_ptemod mem) (pages_count mem)
        (shared_memory mem) domid (distant_domid mem) (local_ec_port mem) (dist_ec_port mem)
        (next_delayed mem) (ec_irq mem) (initial_signal mem) (user_signal mem)
        (latent_user_signal mem) (first_page_grant mem) (offerer_alloc_order mem)
        (unmapped_area mem) (user_mem mem) (user_pages mem) (grant_map_handle0 mem)
        (map_ops mem) (unmap_ops mem) (kmap_ops mem) (mm mem))))))))).

Definition open_clean (d : Z) : M kernel Z :=
  kfree d ;;
  ret (- ENOMEM).

(** The end of [xen_shm_open], once the instance is complete. *)
Definition open_done (filp d : Z) : M kernel Z :=
  modify (λ k, set_private_data (<[filp := d]> (private_data k)) k) ;;
  __xen_shm_free_delayed_queue ;;
  ret 0.

(** [mem] is what the allocated memory held. *)
Definition xen_shm_open (filp : Z) (mem : instance) : M kernel Z :=
  let* r := call Kmalloc in
  let d := k_ret r in
  if d =? 0 then ret (- ENOMEM) else
  let* domid := (λ k, Done (xen_shm_domid k) k) in
  let* pv := call XenPvDomain in
  insert_inst d (open_fields domid (negb (k_ok pv)) mem) ;;
  if negb (k_ok pv) then
    let* m := call GetTaskMm in
    put_inst d (set_mm (k_ret m)) ;;
    if k_ok m then open_clean d else
    let* r := call (MmuNotifierRegister d (k_ret m)) in
    if negb (k_ok r) then open_clean d else
    call_ (Mmput (k_ret m)) ;;
    open_done filp d
  else open_done filp d.

(** ** mmap *)

(** [apply_to_page_range] calls back for each page in turn, with the entries it
    answers in [k_outs], and stops at the first error. *)
Definition apply_body (d start : Z) (x : Z * list (Z * Z)) : M kernel (flow (Z * list (Z * Z)) Z) :=
  match x.2 with
  | [] => ret (Break x)
  | (pte, _) :: rest =>
      let* err := __xen_shm_contruct_receiver_k_ops pte (start + x.1 * PAGE_SIZE) d in
      if negb (err =? 0) then ret (Return err) else ret (Continue (x.1 + 1, rest))
  end.
Definition apply_to_page_range (d start size : Z) : M kernel Z :=
  let* r := call (ApplyToPageRange start size) in
  let* x := loop (S (length (k_outs r))) (apply_body d start) (0, k_outs r) in
  match x with
  | inl _ => ret (k_ret r)
  | inr err => ret err
  end.

(** The two loops that fill the operations of the data pages. *)
Definition kmap_body (d : Z) (offset : Z) : M kernel Z :=
  let* data := get_inst d in
  let* page := nth_of (user_pages data) offset in
  let* ref := load_grant_ref (shared_memory data) (offset + 1) in
  let* old := nth_of (kmap_ops data) offset in
  let* ops := set_nth (kmap_ops data) offset
    (MapOp (kpte_maddr (kaddr_of_page page)) (Z.lor GNTMAP_host_map GNTMAP_contains_pte) ref
      (distant_domid data) (map_status old) (map_handle old)) in
  put_inst d (set_kmap_ops ops) ;;
  ret (offset + 1).

(** [gnttab_set_unmap_op(op, GNTMAP_host_map, grant_ref, -1)]: the arguments are
    in the source's order, one place off those of the function. *)
Definition map_body (d : Z) (offset : Z) : M kernel Z :=
  let* data := get_inst d in
  let* page := nth_of (user_pages data) offset in
  let* ref := load_grant_ref (shared_memory data) (offset + 1) in
  let* old := nth_of (map_ops data) offset in
  let* ops := set_nth (map_ops data) offset
    (MapOp (kaddr_of_page page) GNTMAP_host_map ref (distant_domid data) (map_status old)
      (map_handle old)) in
  put_inst d (set_map_ops ops) ;;
  let* ref := load_grant_ref (shared_memory data) (offset + 1) in
  let* ops := set_nth (unmap_ops data) offset (UnmapOp GNTMAP_host_map ref NO_HANDLE) in
  put_inst d (set_unmap_ops ops) ;;
  ret (offset + 1).

(** [for(offset = 0; offset < data->pages_count - 1; ++offset)] *)
Definition for_pages (n : Z) (body : Z → M kernel Z) : M kernel unit :=
  let* _ := while 257 (λ offset, offset <? n) body 0 in ret tt.

(** What the hypervisor answers in the operations. *)
Fixpoint answer_ops (ops : list map_op) (outs : list (Z * Z)) : list map_op :=
  match ops, outs with
  | op :: ops, (status, handle) :: outs =>
      MapOp (map_addr op) (map_flags op) (map_ref op) (map_dom op) status handle :: answer_ops ops outs
  | _, _ => ops
  end.
Definition gnttab_map_refs (d : Z) : M kernel Z :=
  let* data := get_inst d in
  let* r := call (GnttabMapRefs (map_ops data)
    (if use_ptemod data then Some (kmap_ops data) else None) (pages_count data - 1)) in
  put_inst d (set_map_ops (answer_ops (map_ops data) (k_outs r))) ;;
  ret (k_ret r).

(** The check of each status: the error, and the next page. *)
Definition check_body (d : Z) (x : Z * Z) : M kernel (Z * Z) :=
  let '(offset, err) := x in
  let* data := get_inst d in
  let* op := nth_of (map_ops data) offset in
  if negb (map_status op =? 0) then ret (offset + 1, - EINVAL) else
  let* uop := nth_of (unmap_ops data) offset in
  let* ops := set_nth (unmap_ops data) offset
    (UnmapOp (unmap_addr uop) (unmap_flags uop) (map_handle op)) in
  put_inst d (set_unmap_ops ops) ;;
  ret (offset + 1, err).

Definition insert_body (d start : Z) (offset : Z) : M kernel (flow Z Z) :=
  let* data := get_inst d in
  if negb (offset <? pages_count data - 1) then ret (Break offset) else
  let* page := nth_of (user_pages data) offset in
  let* r := call (VmInsertPage (start + offset * PAGE_SIZE) page) in
  if negb (k_ok r) then ret (Return (k_ret r)) else ret (Continue (offset + 1)).

(** The two error paths. *)
Definition clean_body (d : Z) (offset : Z) : M kernel Z :=
  let* data := get_inst d in
  let* op := nth_of (unmap_ops data) offset in
  when (negb (unmap_handle op =? NO_HANDLE))
    (let* kop := nth_of (kmap_ops data) offset in
     let* page := nth_of (user_pages data) offset in
     call_ (GnttabUnmapRefs op (if use_ptemod data then Some kop else None) page) ;;
     let* ops := set_nth (unmap_ops data) offset (UnmapOp (unmap_addr op) (unmap_flags op) NO_HANDLE) in
     put_inst d (set_unmap_ops ops)) ;;
  ret (offset + 1).
Definition mmap_clean_pages (d : Z) : M kernel Z :=
  put_inst d (set_user_mem None) ;;
  let* data := get_inst d in
  call_ (FreeXenballoonedPages (pages_count data - 1) (user_pages data)) ;;
  ret (- EFAULT).
Definition mmap_clean (d : Z) : M kernel Z :=
  let* data := get_inst d in
  for_pages (pages_count data - 1) (clean_body d) ;;
  mmap_clean_pages d.

(** "Map everything !" and what follows. *)
Definition mmap_map (d : Z) (vma : vm_area) : M kernel Z :=
  let* data := get_inst d in
  let* err := gnttab_map_refs d in
  if negb (err =? 0) then mmap_clean d else
  let* x := while 257 (λ x, x.1 <? pages_count data - 1) (check_body d) (0, 0) in
  if negb (x.2 =? 0) then mmap_clean d else
  let* x := (if negb (use_ptemod data) then loop 257 (insert_body d (vm_start vma)) 0
             else ret (inl 0)) in
  match x with
  | inr _ => mmap_clean d
  | inl _ => put_inst d (set_state XEN_SHM_STATE_RECEIVER_MAPPED) ;; ret 0
  end.

Definition mmap_receiver (d : Z) (vma : vm_area) : M kernel Z :=
  let* data := get_inst d in
  if negb (Z.shiftr (u64 (vm_end vma - vm_start vma)) PAGE_SHIFT =? pages_count data - 1)
  then ret (- EINVAL) else
  let flags := Z.lor (vm_flags vma) (Z.lor VM_RESERVED VM_DONTEXPAND) in
  let flags := if use_ptemod data then Z.lor flags VM_DONTCOPY else flags in
  let vma := VmArea (vm_start vma) (vm_end vma) flags in
  let* r := call (AllocXenballoonedPages (pages_count data - 1)) in
  put_inst d (set_user_pages (if k_ok r then fst <$> k_outs r else user_pages data)) ;;
  if negb (k_ok r) then mmap_clean_pages d else
  put_inst d (set_user_mem (Some vma)) ;;
  if use_ptemod data then
    let* err := apply_to_page_range d (vm_start vma) (u64 (vm_end vma - vm_start vma)) in
    if negb (err =? 0) then mmap_clean_pages d else
    for_pages (pages_count data - 1) (kmap_body d) ;;
    mmap_map d vma
  else
    for_pages (pages_count data - 1) (map_body d) ;;
    mmap_map d vma.

Definition xen_shm_mmap (filp : Z) (vma : vm_area) : M kernel Z :=
  if has (vm_flags vma) VM_WRITE && negb (has (vm_flags vma) VM_SHARED) then ret (- EINVAL) else
  let* d := file_data filp in
  let* data := get_inst d in
  match state data with
  | XEN_SHM_STATE_OPENED => ret (- ENODATA)
  | XEN_SHM_STATE_OFFERER =>
      if negb (u64 (vm_end vma - vm_start vma) =? (pages_count data - 1) * PAGE_SIZE)
      then ret (- EINVAL)
      else
        let* r := call (RemapPfnRange (vm_start vma) (shared_memory data + PAGE_SIZE)
          (u64 (vm_end vma - vm_start vma))) in
        ret (k_ret r)
  | XEN_SHM_STATE_RECEIVER_MAPPED => ret (- EPIPE)
  | XEN_SHM_STATE_RECEIVER => mmap_receiver d vma
  end.

(** ** release *)

(** Telling the other domain, and the local sleepers, that this side closes. *)
Definition announce_close (d : Z) (set_my_state : Z → meta_page → meta_page) : M kernel unit :=
  let* data := get_inst d in
  store_page (shared_memory data) (set_my_state XEN_SHM_META_PAGE_STATE_CLOSED) ;;
  call_ (NotifyRemoteViaEvtchn (local_ec_port data)) ;;
  call_ (WakeUpInterruptible d).

Definition xen_shm_release (filp : Z) : M kernel Z :=
  __xen_shm_free_delayed_queue ;;
  let* d := file_data filp in
  let* data := get_inst d in
  match state data with
  | XEN_SHM_STATE_OPENED => ret tt
  | XEN_SHM_STATE_OFFERER => announce_close d set_offerer_state
  | XEN_SHM_STATE_RECEIVER | XEN_SHM_STATE_RECEIVER_MAPPED => announce_close d set_receiver_state
  end ;;
  let* r := __xen_shm_prepare_free d true in
  if negb (r =? 0) then __xen_shm_add_delayed_free d ;; ret 0 else
  kfree d ;;
  let* data := get_inst d in
  when (use_ptemod data) (call_ (MmuNotifierUnregister d (mm data))) ;;
  ret 0.

(** ** The module *)

Definition __xen_shm_get_domid_hack : M kernel Z :=
  let* r := call (EvtchnAllocUnbound DOMID_SELF DOMID_SELF) in
  if negb (k_ok r) then ret (- EIO) else
  let* s := call (EvtchnStatus DOMID_SELF (k_out1 r)) in
  call_ (EvtchnClose (k_out1 r)) ;;
  if negb (k_ok s) then ret (- EIO)
  else if negb (k_out1 s =? EVTCHNSTAT_unbound) then ret (- EAGAIN)
  else ret (u16 (k_out2 s)).

(** [sizeof(struct xen_shm_meta_page_data)]: three bytes, padding, the port, the
    counter and the grants. *)
Definition sizeof_meta_page : Z := 4 + 4 + 4 + 4 * XEN_SHM_ALLOC_ALIGNED_PAGES.

(** The registration of the device. *)
Definition register_device : M kernel Z := λ k,
  (if negb (xen_shm_major_number k =? 0) then
     modify (set_device_major (xen_shm_major_number k)) ;;
     let* r := call (RegisterChrdevRegion (xen_shm_major_number k) 0) in
     ret (k_ret r)
   else
     let* r := call (AllocChrdevRegion 0) in
     modify (set_device_major (k_out1 r)) ;;
     modify (set_major_number (k_out1 r)) ;;
     ret (k_ret r)) k.

Definition init_device : M kernel Z :=
  let* res := register_device in
  if res <? 0 then ret res else
  let* r := call CdevAdd in
  if k_ret r <? 0 then call_ UnregisterChrdevRegion ;; ret (k_ret r)
  else ret 0.

Definition xen_shm_init : M kernel Z := λ k,
  (if PAGE_SIZE <? sizeof_meta_page then ret (- EFBIG) else
   if xen_shm_domid k =? 0 then
     let* res := __xen_shm_get_domid_hack in
     if res <? 0 then ret res
     else if USHRT_MAX <? u32 res then ret res
     else modify (set_domid (u16 res)) ;; init_device
   else init_device) k.

Definition xen_shm_cleanup : M kernel unit :=
  __xen_shm_free_delayed_queue ;;
  call_ CdevDel ;;
  call_ UnregisterChrdevRegion.
End File.
