(* ===== verification/KRules.v ===== *)
(** Rules for the module's accesses, and relations kept by whole operations: what
    holds of each access holds of every sequence, branch and loop of them. *)
From S2P Require Import Prelude Abi KDefs KEvent KMemory KIoctl KFile.
From stdpp Require Import gmap.
Open Scope Z_scope.
Open Scope c_scope.

(** ** Total correctness of the accesses *)

Section KWp.
Context `{!KernelEnv}.

Lemma wp_get_inst d i Q k : d ≠ 0 → heap k !! d = Some i → Q i k → wp (get_inst d) Q k.
Proof. intros Hd Hi HQ. unfold wp, get_inst. rewrite (proj2 (Z.eqb_neq _ _) Hd). by rewrite Hi. Qed.

Lemma wp_put_inst d f i Q k :
  d ≠ 0 → heap k !! d = Some i → Q tt (set_heap (<[d := f i]> (heap k)) k) → wp (put_inst d f) Q k.
Proof. intros Hd Hi HQ. apply wp_bind. by eapply wp_get_inst. Qed.

Lemma wp_get_page a m Q k :
  pages k !! a = Some m →
  Q (other_domain (kclock k) m)
    (set_kclock (S (kclock k)) (set_pages (<[a := other_domain (kclock k) m]> (pages k)) k)) →
  wp (get_page a) Q k.
Proof. intros Hm HQ. unfold wp, get_page. by rewrite Hm. Qed.

Lemma wp_load_page {A} a (f : meta_page → A) m Q k :
  pages k !! a = Some m →
  Q (f (other_domain (kclock k) m))
    (set_kclock (S (kclock k)) (set_pages (<[a := other_domain (kclock k) m]> (pages k)) k)) →
  wp (load_page a f) Q k.
Proof. intros Hm HQ. apply wp_bind. by eapply wp_get_page. Qed.

Lemma wp_call c Q k :
  (let r := respond (kclock k) c in
   Q r (set_kclock (S (kclock k)) (set_ktrace ((c, r) :: ktrace k) k))) →
  wp (call c) Q k.
Proof. exact id. Qed.

Lemma wp_nth_of {A} (l : list A) i x Q (k : kernel) :
  0 ≤ i → l !! Z.to_nat i = Some x → Q x k → wp (nth_of l i) Q k.
Proof. intros Hi Hx HQ. unfold nth_of. rewrite (proj2 (Z.ltb_ge _ _) Hi), Hx. by apply wp_ret. Qed.

Lemma wp_set_nth {A} (l : list A) i x Q (k : kernel) :
  0 ≤ i < Z.of_nat (length l) → Q (<[Z.to_nat i := x]> l) k → wp (set_nth l i x) Q k.
Proof.
  intros Hi HQ. destruct (lookup_lt_is_Some_2 l (Z.to_nat i)) as [y Hy]; [lia|].
  apply wp_bind. eapply wp_nth_of; [lia | done |]. by apply wp_ret.
Qed.
End KWp.

(** ** Relations kept *)

(** A relation between kernel states that calls and header page accesses respect. *)
Class KeptRel (R : kernel → kernel → Prop) := {
  kept_refl k : R k k;
  kept_trans k1 k2 k3 : R k1 k2 → R k2 k3 → R k1 k3;
  kept_other k k' : heap k' = heap k →
    xen_shm_delayed_free_queue k' = xen_shm_delayed_free_queue k → R k k';
}.

(** An update of an instance that the relation allows in any state. *)
Definition harmless (R : kernel → kernel → Prop) (f : instance → instance) : Prop :=
  ∀ k d i, heap k !! d = Some i → R k (set_heap (<[d := f i]> (heap k)) k).

Section KeepsKernel.
Context `{!KernelEnv} (R : kernel → kernel → Prop) `{!KeptRel R}.

Lemma kkeeps_ret {A} (a : A) : keeps R (ret a).
Proof. apply keeps_ret, kept_refl. Qed.
Lemma kkeeps_bind {A B} (m : M kernel A) (f : A → M kernel B) :
  keeps R m → (∀ a, keeps R (f a)) → keeps R (bind m f).
Proof. apply keeps_bind, kept_trans. Qed.
Lemma kkeeps_when b m : keeps R m → keeps R (when b m).
Proof. apply keeps_when, kept_refl. Qed.
Lemma kkeeps_while {X} fuel c (body : X → M kernel X) x : (∀ x, keeps R (body x)) → keeps R (while fuel c body x).
Proof. apply keeps_while; [apply kept_refl | apply kept_trans]. Qed.
Lemma kkeeps_loop {X Y} fuel (body : X → M kernel (flow X Y)) x : (∀ x, keeps R (body x)) → keeps R (loop fuel body x).
Proof. apply keeps_loop; [apply kept_refl | apply kept_trans]. Qed.
Lemma keeps_call c : keeps R (call c).
Proof. intros k ? ? [= <- <-]. by apply kept_other. Qed.
Lemma keeps_call_ c : keeps R (call_ c).
Proof. apply kkeeps_bind; [apply keeps_call | intros; apply kkeeps_ret]. Qed.
Lemma keeps_get_inst d : keeps R (get_inst d).
Proof. intros k ? ?. unfold get_inst. repeat case_match; intros [= <- <-]; apply kept_refl. Qed.
Lemma keeps_put_inst d f : harmless R f → keeps R (put_inst d f).
Proof.
  intros Hf k ? k' (i & k1 & E1 & E2)%bind_done. unfold get_inst in E1.
  repeat case_match; simplify_eq. injection E2 as <- <-. by apply Hf.
Qed.
Lemma keeps_get_page a : keeps R (get_page a).
Proof. intros k ? ?. unfold get_page. case_match; intros [= <- <-]. by apply kept_other. Qed.
Lemma keeps_modify f :
  (∀ k, heap (f k) = heap k) →
  (∀ k, xen_shm_delayed_free_queue (f k) = xen_shm_delayed_free_queue k) → keeps R (modify f).
Proof. intros H1 H2 k ? ? [= <- <-]. by apply kept_other. Qed.
Lemma keeps_load_page {A} a (f : meta_page → A) : keeps R (load_page a f).
Proof. apply kkeeps_bind; [apply keeps_get_page | intros; apply kkeeps_ret]. Qed.
Lemma keeps_store_page a f : keeps R (store_page a f).
Proof. apply kkeeps_bind; [apply keeps_get_page | intros; by apply keeps_modify]. Qed.
Lemma keeps_nth_of {A} (l : list A) i : keeps R (nth_of l i).
Proof. unfold nth_of. repeat case_match; [apply keeps_throw | apply kkeeps_ret | apply keeps_throw]. Qed.
Lemma keeps_set_nth {A} (l : list A) i x : keeps R (set_nth l i x).
Proof. apply kkeeps_bind; [apply keeps_nth_of | intros; apply kkeeps_ret]. Qed.
Lemma keeps_load_grant_ref a p : keeps R (load_grant_ref a p).
Proof. apply kkeeps_bind; [apply keeps_load_page | intros; apply keeps_nth_of]. Qed.
Lemma keeps_store_grant_ref a p v : keeps R (store_grant_ref a p v).
Proof.
  apply kkeeps_bind; [apply keeps_get_page | intros].
  apply kkeeps_bind; [apply keeps_set_nth | intros; by apply keeps_modify].
Qed.
Lemma keeps_file_data f : keeps R (file_data f).
Proof. intros k ? ?. unfold file_data. case_match; intros [= <- <-]. apply kept_refl. Qed.
Lemma keeps_reads {A} (f : kernel → M kernel A) : (∀ k, keeps R (f k)) → keeps R (λ k, f k k).
Proof. intros Hf k a k' E. by eapply Hf. Qed.
End KeepsKernel.

#[export] Hint Resolve kkeeps_ret keeps_throw keeps_if kkeeps_when kkeeps_while kkeeps_loop keeps_call
  keeps_call_ keeps_get_inst keeps_put_inst keeps_get_page keeps_load_page keeps_store_page
  keeps_nth_of keeps_set_nth keeps_load_grant_ref keeps_store_grant_ref keeps_file_data : keeps.
#[export] Hint Extern 1 (keeps _ (modify _)) => apply keeps_modify; [exact _ | intros; reflexivity..] : keeps.
#[export] Hint Extern 2 (keeps _ (bind _ _)) => apply kkeeps_bind; [exact _| |intros ?] : keeps.
#[export] Hint Extern 0 (KeptRel _) => exact _ : keeps.
#[export] Hint Extern 0 (keeps _ _) => progress cbv beta zeta : keeps.
#[export] Hint Extern 3 (keeps _ (match ?x with _ => _ end)) => destruct x : keeps.
