(* ===== verification/KKeeps.v ===== *)
(** What every entry point of the module keeps: the delayed free queue stays
    empty once it is, and the state of an instance moves only along the
    transitions the module allows. *)
From S2P Require Import Prelude Abi KDefs KEvent KMemory KIoctl KFile KRules.
From stdpp Require Import gmap.
Open Scope Z_scope.
Open Scope c_scope.

(** ** Relations *)

(** The instances left are old ones, with the same [g]. *)
Definition inst_kept {A} (g : instance → A) (k k' : kernel) : Prop :=
  ∀ d i', heap k' !! d = Some i' → ∃ i, heap k !! d = Some i ∧ g i' = g i.

(** An empty queue stays empty. *)
Definition queue_kept (k k' : kernel) : Prop :=
  xen_shm_delayed_free_queue k = 0 → xen_shm_delayed_free_queue k' = 0.

#[export] Instance inst_kept_rel {A} (g : instance → A) : KeptRel (inst_kept g).
Proof.
  split.
  - intros k d i' Hi. by exists i'.
  - intros k1 k2 k3 H12 H23 d i' Hi. destruct (H23 _ _ Hi) as (i2 & Hi2 & E2).
    destruct (H12 _ _ Hi2) as (i1 & Hi1 & E1). exists i1. split; [done | congruence].
  - intros k k' Hh _ d i' Hi. rewrite Hh in Hi. by exists i'.
Qed.

#[export] Instance queue_kept_rel : KeptRel queue_kept.
Proof. split; unfold queue_kept; [done | auto | by intros k k' _ ->]. Qed.

Lemma harmless_inst {A} (g : instance → A) f : (∀ i, g (f i) = g i) → harmless (inst_kept g) f.
Proof.
  intros Hf k d i Hi d' i'. simpl. rewrite lookup_insert_Some.
  intros [[<- <-]|[_ Hi']]; [by exists i | by exists i'].
Qed.

Lemma harmless_queue f : harmless queue_kept f.
Proof. intros k d i _ Hq. exact Hq. Qed.

Lemma inst_kept_delete {A} (g : instance → A) d k : inst_kept g k (set_heap (delete d (heap k)) k).
Proof. intros d' i'. simpl. rewrite lookup_delete_Some. intros [_ ?]. by exists i'. Qed.

#[export] Hint Resolve harmless_queue : keeps.
#[export] Hint Extern 1 (harmless (inst_kept _) _) => apply harmless_inst; intros; reflexivity : keeps.

(** ** Operations that keep both *)

Section Both.
Context `{!KernelEnv} (R : kernel → kernel → Prop) `{!KeptRel R}.
(** Every update but that of [state] is harmless. *)
Hypothesis harmless_but_state : ∀ f, (∀ i, state (f i) = state i) → (∀ i, local_domid (f i) = local_domid i) → harmless R f.
#[local] Hint Extern 1 (harmless R _) => apply harmless_but_state; intros; reflexivity : keeps.

Lemma keeps_event_handler d : keeps R (xen_shm_event_handler d).
Proof. unfold xen_shm_event_handler. auto 60 with keeps. Qed.
Lemma keeps_open_ec d b : keeps R (__xen_shm_open_ec d b).
Proof. unfold __xen_shm_open_ec, bind_handler. auto 60 with keeps. Qed.
#[local] Hint Resolve keeps_open_ec : keeps.
Lemma keeps_open_ec_receiver d : keeps R (__xen_shm_open_ec_receiver d).
Proof. unfold __xen_shm_open_ec_receiver. auto 60 with keeps. Qed.
Lemma keeps_close_ec d : keeps R (__xen_shm_close_ec d).
Proof. unfold __xen_shm_close_ec. auto with keeps. Qed.

Lemma keeps_unmap_pages d o n : keeps R (__xen_shm_unmap_receiver_grant_pages d o n).
Proof. unfold __xen_shm_unmap_receiver_grant_pages, unmap_body. auto 60 with keeps. Qed.
Lemma keeps_invl_range d s e : keeps R (__xen_shm_mn_invl_range_start d s e).
Proof. pose proof (keeps_unmap_pages d). unfold __xen_shm_mn_invl_range_start. auto 60 with keeps. Qed.
Lemma keeps_mn_release d : keeps R (__xen_shm_mn_release d).
Proof. pose proof (keeps_unmap_pages d). unfold __xen_shm_mn_release. auto 60 with keeps. Qed.

Lemma keeps_contruct p a d : keeps R (__xen_shm_contruct_receiver_k_ops p a d).
Proof. unfold __xen_shm_contruct_receiver_k_ops. auto 60 with keeps. Qed.
Lemma keeps_allocate d : keeps R (__xen_shm_allocate_shared_memory_offerer d).
Proof. unfold __xen_shm_allocate_shared_memory_offerer, alloc_order. auto 60 with keeps. Qed.
Lemma keeps_free_offerer d : keeps R (__xen_shm_free_shared_memory_offerer d).
Proof. unfold __xen_shm_free_shared_memory_offerer. auto 60 with keeps. Qed.
Lemma keeps_free_receiver d : keeps R (__xen_shm_free_shared_memory_receiver d).
Proof. unfold __xen_shm_free_shared_memory_receiver. auto 60 with keeps. Qed.
Lemma keeps_unmap_first d : keeps R (unmap_first_page d).
Proof. unfold unmap_first_page. auto 60 with keeps. Qed.
#[local] Hint Resolve keeps_unmap_pages keeps_contruct keeps_allocate keeps_free_offerer
  keeps_free_receiver keeps_unmap_first keeps_open_ec_receiver keeps_close_ec : keeps.
Lemma keeps_prepare_receiver d : keeps R (prepare_free_receiver d).
Proof. unfold prepare_free_receiver, __xen_shm_close_ec_receiver. auto 60 with keeps. Qed.
#[local] Hint Resolve keeps_prepare_receiver : keeps.
Lemma keeps_prepare_free d b : keeps R (__xen_shm_prepare_free d b).
Proof. unfold __xen_shm_prepare_free, end_grants_body, __xen_shm_close_ec_offerer. auto 60 with keeps. Qed.
#[local] Hint Resolve keeps_prepare_free : keeps.

(** ** The commands that do not change the state *)

Lemma keeps_broken a : keeps R (__xen_shm_is_broken_pipe a).
Proof. unfold __xen_shm_is_broken_pipe. auto 60 with keeps. Qed.
Lemma keeps_ssig d : keeps R (__xen_shm_ioctl_ssig d).
Proof. pose proof keeps_broken. unfold __xen_shm_ioctl_ssig. auto 60 with keeps. Qed.
Lemma keeps_undo_grant d e p : keeps R (undo_grant d e p).
Proof. unfold undo_grant. auto 60 with keeps. Qed.
Lemma keeps_undo_alloc d e : keeps R (undo_alloc d e).
Proof. unfold undo_alloc. auto 60 with keeps. Qed.
Lemma keeps_undo_map d e : keeps R (undo_map d e).
Proof. pose proof keeps_undo_alloc. unfold undo_map. auto 60 with keeps. Qed.
Lemma keeps_init_header d : keeps R (init_header d).
Proof. unfold init_header. auto 60 with keeps. Qed.
Lemma keeps_grant_body d x : keeps R (grant_body d x).
Proof. unfold grant_body. auto 60 with keeps. Qed.

Lemma keeps_apply d s n : keeps R (apply_to_page_range d s n).
Proof. unfold apply_to_page_range, apply_body. auto 60 with keeps. Qed.
Lemma keeps_for_pages n body : (∀ x, keeps R (body x)) → keeps R (for_pages n body).
Proof. intros. unfold for_pages. auto 60 with keeps. Qed.
Lemma keeps_kmap_body d o : keeps R (kmap_body d o).
Proof. unfold kmap_body. auto 60 with keeps. Qed.
Lemma keeps_map_body d o : keeps R (map_body d o).
Proof. unfold map_body. auto 60 with keeps. Qed.
Lemma keeps_map_refs d : keeps R (gnttab_map_refs d).
Proof. unfold gnttab_map_refs. auto 60 with keeps. Qed.
Lemma keeps_check_body d x : keeps R (check_body d x).
Proof. unfold check_body. auto 60 with keeps. Qed.
Lemma keeps_insert_body d s o : keeps R (insert_body d s o).
Proof. unfold insert_body. auto 60 with keeps. Qed.
Lemma keeps_clean_body d o : keeps R (clean_body d o).
Proof. unfold clean_body. auto 60 with keeps. Qed.
Lemma keeps_clean_pages d : keeps R (mmap_clean_pages d).
Proof. unfold mmap_clean_pages. auto 60 with keeps. Qed.
#[local] Hint Resolve keeps_for_pages keeps_clean_body keeps_clean_pages : keeps.
Lemma keeps_mmap_clean d : keeps R (mmap_clean d).
Proof. unfold mmap_clean. auto 60 with keeps. Qed.
Lemma keeps_announce d f : keeps R (announce_close d f).
Proof. unfold announce_close. auto 60 with keeps. Qed.
End Both.

(** ** Waiting *)

(** What [wait_event_interruptible] and [wait_event_interruptible_timeout] are
    documented to do. While the process sleeps only the handler runs on the
    instance. Without a timeout, 0 is answered when the condition holds and
    -ERESTARTSYS when a signal interrupts; with one, 0 when it elapsed with the
    condition false, else the jiffies left, at least 1, at most the timeout. *)
Definition signals_only (i i' : instance) : Prop :=
  ∃ a b c, i' = set_latent_user_signal c (set_user_signal b (set_initial_signal a i)).
Definition wait_lawful `{!KernelEnv} : Prop := ∀ t cond j i m,
  let '(r, i', m') := wait t cond j i m in
  signals_only i i' ∧
  (r = - ERESTARTSYS
   ∨ (j = 0 ∧ r = 0 ∧ cond i' m' = true)
   ∨ (0 < j ∧ r = 0 ∧ cond i' m' = false)
   ∨ (0 < r ≤ j ∧ cond i' m' = true)).

Section Await.
Context `{!KernelEnv} (R : kernel → kernel → Prop) `{!KeptRel R}.
Hypothesis harmless_but_state : ∀ f, (∀ i, state (f i) = state i) → (∀ i, local_domid (f i) = local_domid i) → harmless R f.
Hypothesis wait_kept : ∀ d page cond j, keeps R (wait_event d page cond j).
#[local] Hint Extern 1 (harmless R _) => apply harmless_but_state; intros; reflexivity : keeps.
#[local] Hint Resolve keeps_broken : keeps.

Lemma keeps_mutex_release p b : keeps R (mutex_release p b).
Proof. unfold mutex_release. auto 60 with keeps. Qed.
#[local] Hint Resolve keeps_mutex_release : keeps.
Lemma keeps_await_done d p b c a : keeps R (await_done d p b c a).
Proof. unfold await_done. auto 60 with keeps. Qed.
#[local] Hint Resolve keeps_await_done : keeps.
Lemma keeps_await d a : keeps R (__xen_shm_ioctl_await d a).
Proof. unfold __xen_shm_ioctl_await. auto 60 with keeps. Qed.
End Await.

(** ** The delayed free queue *)

Section Queue.
Context `{!KernelEnv}.
#[local] Abbreviation K := (keeps queue_kept).

Lemma queue_harmless f :
  (∀ i, state (f i) = state i) → (∀ i, local_domid (f i) = local_domid i) → harmless queue_kept f.
Proof. intros _ _. apply harmless_queue. Qed.

(** Changes of anything but the queue. *)
Lemma queue_modify f :
  (∀ k, xen_shm_delayed_free_queue (f k) = xen_shm_delayed_free_queue k) → K (modify f).
Proof. intros Hf k ? ? [= <- <-] Hq. by rewrite Hf. Qed.
Lemma queue_read {A} (f : kernel → A) : K (λ k, Done (f k) k).
Proof. intros k ? ? [= <- <-] Hq. exact Hq. Qed.
#[local] Hint Extern 1 (keeps queue_kept (modify _)) => apply queue_modify; intros; reflexivity : keeps.
#[local] Hint Extern 1 (keeps queue_kept (λ k, Done _ k)) => apply queue_read : keeps.
#[local] Hint Resolve keeps_event_handler keeps_open_ec keeps_open_ec_receiver keeps_close_ec keeps_unmap_pages
  keeps_invl_range keeps_mn_release keeps_allocate keeps_prepare_free keeps_ssig keeps_undo_grant
  keeps_undo_alloc keeps_undo_map keeps_init_header keeps_grant_body keeps_apply keeps_for_pages
  keeps_kmap_body keeps_map_body keeps_map_refs keeps_check_body keeps_insert_body
  keeps_mmap_clean keeps_clean_pages keeps_announce queue_harmless : keeps.

Lemma queue_wait d page cond j : K (wait_event d page cond j).
Proof.
  unfold wait_event. do 2 (apply kkeeps_bind; [exact _ | auto with keeps | intros ?]).
  intros k r k'. case_match. case_match. intros [= <- <-] Hq. exact Hq.
Qed.

Lemma queue_add_delayed d : K (__xen_shm_add_delayed_free d).
Proof.
  unfold __xen_shm_add_delayed_free. intros k ? k' E Hq. apply bind_done in E as (q & k1 & Eq & E). cbv beta in Eq. injection Eq as <- <-.
  rewrite Hq in E. apply bind_done in E as (? & k2 & E1 & E).
  apply bind_done in E1 as (i & k3 & Ei & E1). injection E1 as _ <-.
  unfold get_inst in Ei. case_match; [done|]. case_match eqn:Hd; [|done]. injection Ei as <- <-.
  apply bind_done in E as (i' & k4 & Ei & E). injection E as _ <-.
  unfold get_inst in Ei. case_match; [done|]. simpl in Ei. rewrite lookup_insert_eq in Ei.
  by injection Ei as <- <-.
Qed.

(** An empty queue ends the traversal at once. *)
Lemma free_delayed_empty k :
  xen_shm_delayed_free_queue k = 0 → __xen_shm_free_delayed_queue k = Done tt k.
Proof. intros Hq. unfold __xen_shm_free_delayed_queue. by rewrite Hq. Qed.

Lemma queue_free_delayed : K __xen_shm_free_delayed_queue.
Proof. intros k ? k' E Hq. rewrite free_delayed_empty in E by done. by injection E as _ <-. Qed.
#[local] Hint Resolve queue_wait queue_add_delayed queue_free_delayed : keeps.

Lemma queue_init_offerer d a : K (__xen_shm_ioctl_init_offerer d a).
Proof. unfold __xen_shm_ioctl_init_offerer, __xen_shm_open_ec_offerer. auto 100 with keeps. Qed.
Lemma queue_init_receiver d a : K (__xen_shm_ioctl_init_receiver d a).
Proof. unfold __xen_shm_ioctl_init_receiver. auto 100 with keeps. Qed.
Lemma queue_await d a : K (__xen_shm_ioctl_await d a).
Proof. apply keeps_await; auto with keeps. Qed.
#[local] Hint Resolve queue_init_offerer queue_init_receiver queue_await : keeps.

Lemma queue_ioctl f c a g : K (xen_shm_ioctl f c a g).
Proof. unfold xen_shm_ioctl, copy. auto 100 with keeps. Qed.
Lemma queue_mmap f v : K (xen_shm_mmap f v).
Proof. unfold xen_shm_mmap, mmap_receiver, mmap_map. auto 100 with keeps. Qed.
Lemma queue_open f m : K (xen_shm_open f m).
Proof. unfold xen_shm_open, open_done, open_clean, insert_inst, kfree. auto 100 with keeps. Qed.
Lemma queue_release f : K (xen_shm_release f).
Proof. unfold xen_shm_release, kfree. auto 100 with keeps. Qed.
Lemma queue_init : K xen_shm_init.
Proof.
  unfold xen_shm_init, init_device, register_device, __xen_shm_get_domid_hack.
  apply keeps_reads. intros k0. apply keeps_if; [auto with keeps|].
  assert (K (let* res := (λ k, (if negb (xen_shm_major_number k =? 0)
      then modify (set_device_major (xen_shm_major_number k)) ;;
           let* r := call (RegisterChrdevRegion (xen_shm_major_number k) 0) in ret (k_ret r)
      else let* r := call (AllocChrdevRegion 0) in
           modify (set_device_major (k_out1 r)) ;; modify (set_major_number (k_out1 r)) ;;
           ret (k_ret r)) k) in
    if res <? 0 then ret res else
    let* r := call CdevAdd in
    if k_ret r <? 0 then call_ UnregisterChrdevRegion ;; ret (k_ret r) else ret 0)).
  { apply kkeeps_bind; [exact _ | apply keeps_reads; intros k1; auto 60 with keeps | intros; auto 60 with keeps]. }
  auto 60 with keeps.
Qed.
Lemma queue_cleanup : K xen_shm_cleanup.
Proof. unfold xen_shm_cleanup. auto with keeps. Qed.
End Queue.
