(* ===== verification/KState.v ===== *)
(** The state machine of an instance: OPENED becomes OFFERER or RECEIVER, and
    RECEIVER becomes RECEIVER_MAPPED; nothing else ever changes a state. *)
From S2P Require Import Prelude Abi KDefs KEvent KMemory KIoctl KFile KRules KKeeps.
From stdpp Require Import gmap.
Open Scope Z_scope.
Open Scope c_scope.

Inductive transition : xen_shm_state_t → xen_shm_state_t → Prop :=
| stays s : transition s s
| becomes_offerer : transition XEN_SHM_STATE_OPENED XEN_SHM_STATE_OFFERER
| becomes_receiver : transition XEN_SHM_STATE_OPENED XEN_SHM_STATE_RECEIVER
| becomes_mapped : transition XEN_SHM_STATE_RECEIVER XEN_SHM_STATE_RECEIVER_MAPPED.

(** The fields no operation on an existing instance changes but a transition. *)
Definition identity (i : instance) : xen_shm_state_t * Z := (state i, local_domid i).
Abbreviation still := (inst_kept identity).

(** The instances left are old ones that made at most one transition. *)
Definition evolved (k k' : kernel) : Prop :=
  ∀ d i', heap k' !! d = Some i' → ∃ i, heap k !! d = Some i ∧
    transition (state i) (state i') ∧ local_domid i' = local_domid i.

Lemma still_evolved k k' : still k k' → evolved k k'.
Proof.
  intros Hs d i' Hi. destruct (Hs _ _ Hi) as (i & ? & [= Es El]). exists i.
  split_and!; [done | rewrite Es; constructor | done].
Qed.

Section State.
Context `{!KernelEnv}.

Lemma still_harmless f :
  (∀ i, state (f i) = state i) → (∀ i, local_domid (f i) = local_domid i) → harmless still f.
Proof. intros H1 H2. apply harmless_inst. intros i. unfold identity. by rewrite H1, H2. Qed.

(** Instance [d] is in state [s], and [m] at most moves it to [s']. *)
Definition from (d : Z) (s : xen_shm_state_t) (k : kernel) : Prop :=
  ∀ i, heap k !! d = Some i → state i = s.
Definition moves (d : Z) (s s' : xen_shm_state_t) {A} (m : M kernel A) : Prop :=
  ∀ k a k', from d s k → m k = Done a k' → evolved k k'.

Lemma from_still d s k k' : from d s k → still k k' → from d s k'.
Proof. intros Hf Hs i' Hi. destruct (Hs _ _ Hi) as (i & Hi0 & [= -> _]). by apply Hf. Qed.

Lemma still_then k1 k2 k3 : still k1 k2 → evolved k2 k3 → evolved k1 k3.
Proof.
  intros H12 H23 d i3 Hi3. destruct (H23 _ _ Hi3) as (i2 & Hi2 & Ht & El).
  destruct (H12 _ _ Hi2) as (i1 & Hi1 & [= E E']). exists i1. rewrite <-E, <-E'. by split.
Qed.
Lemma then_still k1 k2 k3 : evolved k1 k2 → still k2 k3 → evolved k1 k3.
Proof.
  intros H12 H23 d i3 Hi3. destruct (H23 _ _ Hi3) as (i2 & Hi2 & [= E E']).
  destruct (H12 _ _ Hi2) as (i1 & Hi1 & Ht & El). exists i1. rewrite E, E'. by split.
Qed.

Lemma moves_still d s s' {A} (m : M kernel A) : keeps still m → moves d s s' m.
Proof. intros Hm k a k' _ E. eapply still_evolved, Hm, E. Qed.

Lemma moves_bind d s s' {A B} (m : M kernel A) (f : A → M kernel B) :
  keeps still m → (∀ a, moves d s s' (f a)) → moves d s s' (bind m f).
Proof.
  intros Hm Hf k b k' Hk E. apply bind_done in E as (a & k1 & E1 & E2).
  eapply still_then; [by eapply Hm|]. eapply Hf, E2. eapply from_still, Hm, E1. done.
Qed.

Lemma moves_set d s s' {A} (f : unit → M kernel A) :
  transition s s' → (∀ a, keeps still (f a)) → moves d s s' (bind (put_inst d (set_state s')) f).
Proof.
  intros Ht Hf k b k' Hk E. apply bind_done in E as (u & k1 & E1 & E2).
  eapply then_still; [|by eapply Hf]. apply bind_done in E1 as (i & k2 & Ei & E1). injection E1 as _ <-.
  unfold get_inst in Ei. case_match; [done|]. case_match eqn:Hd; [|done]. injection Ei as <- <-.
  intros d' i'. simpl. rewrite lookup_insert_Some. intros [[<- <-]|[_ Hi]].
  - exists i0. split_and!; [done | simpl; by rewrite (Hk _ Hd) | done].
  - exists i'. split_and!; [done | constructor | done].
Qed.

#[local] Hint Extern 1 (harmless still _) => apply still_harmless; intros; reflexivity : keeps.
#[local] Hint Resolve still_harmless keeps_event_handler keeps_open_ec keeps_open_ec_receiver keeps_close_ec keeps_unmap_pages
  keeps_invl_range keeps_mn_release keeps_allocate keeps_prepare_free keeps_ssig keeps_undo_grant
  keeps_undo_alloc keeps_undo_map keeps_init_header keeps_grant_body keeps_apply keeps_for_pages
  keeps_kmap_body keeps_map_body keeps_map_refs keeps_check_body keeps_insert_body
  keeps_mmap_clean keeps_clean_body keeps_clean_pages keeps_announce : keeps.

Ltac moves :=
  repeat first
    [ progress cbv beta zeta
    | apply moves_set; [constructor | intros; auto 60 with keeps; fail]
    | apply moves_bind; [auto 60 with keeps; fail | intros ?]
    | match goal with |- moves _ _ _ (match ?x with _ => _ end) => destruct x end
    | apply moves_still; auto 60 with keeps; fail ].

(** An operation that looks at the state first. *)
Lemma checked d {A} (f : instance → M kernel A) k a k' s s' :
  (let* data := get_inst d in f data) k = Done a k' →
  (∀ data, state data ≠ s → keeps still (f data)) →
  (∀ data, state data = s → moves d s s' (f data)) →
  evolved k k'.
Proof.
  intros E Hno Hyes. apply bind_done in E as (data & k1 & Ei & E).
  unfold get_inst in Ei. case_match; [done|]. case_match eqn:Hd; [|done]. injection Ei as <- <-.
  destruct (decide (state i = s)) as [Es|Es].
  - eapply Hyes; [done | | done]. intros i'. rewrite Hd. by intros [= <-].
  - apply still_evolved. by eapply (Hno i).
Qed.

Lemma evolved_init_offerer d arg k a k' :
  __xen_shm_ioctl_init_offerer d arg k = Done a k' → evolved k k'.
Proof.
  intros E. eapply (checked d _ _ _ _ XEN_SHM_STATE_OPENED XEN_SHM_STATE_OFFERER); [exact E | |].
  - intros data Hs. cbv beta. rewrite (bool_decide_eq_false_2 _ Hs). apply kkeeps_ret, _.
  - intros data _. unfold __xen_shm_open_ec_offerer. moves.
Qed.

Lemma evolved_init_receiver d arg k a k' :
  __xen_shm_ioctl_init_receiver d arg k = Done a k' → evolved k k'.
Proof.
  intros E. eapply (checked d _ _ _ _ XEN_SHM_STATE_OPENED XEN_SHM_STATE_RECEIVER); [exact E | |].
  - intros data Hs. cbv beta. rewrite (bool_decide_eq_false_2 _ Hs). apply kkeeps_ret, _.
  - intros data _. moves.
Qed.

Lemma moves_mmap_receiver d vma :
  moves d XEN_SHM_STATE_RECEIVER XEN_SHM_STATE_RECEIVER_MAPPED (mmap_receiver d vma).
Proof. unfold mmap_receiver, mmap_map. cbv zeta. moves. Qed.

Lemma evolved_mmap filp vma k a k' : xen_shm_mmap filp vma k = Done a k' → evolved k k'.
Proof.
  unfold xen_shm_mmap. case_match; [intros [= <- <-]; by apply still_evolved, kept_refl|].
  intros E. apply bind_done in E as (d & k1 & E1 & E).
  unfold file_data in E1. destruct (private_data k !! filp) as [d'|]; [|done]. injection E1 as <- <-.
  eapply (checked _ _ _ _ _ XEN_SHM_STATE_RECEIVER XEN_SHM_STATE_RECEIVER_MAPPED); [exact E | |].
  - intros data Hs. cbv beta. destruct (state data); [auto 60 with keeps.. | done | auto with keeps].
  - intros data Hs. cbv beta. rewrite Hs. apply moves_mmap_receiver.
Qed.

(** ** Waiting only changes the signals *)

Hypothesis waits : wait_lawful.

Lemma still_wait d page cond j : keeps still (wait_event d page cond j).
Proof.
  unfold wait_event. intros k r k' E. apply bind_done in E as (i & k1 & Ei & E).
  unfold get_inst in Ei. case_match; [done|]. case_match eqn:Hd; [|done]. injection Ei as <- <-.
  apply bind_done in E as (m & k2 & Em & E). unfold get_page in Em.
  destruct (pages k !! page) as [m0|]; [|done].
  injection Em as <- <-. simpl in E.
  match goal with H : context [wait ?t ?c ?j ?i ?m] |- _ =>
    pose proof (waits t c j i m) as Hw; destruct (wait t c j i m) as [[r' i'] m'] end.
  injection E as <- <-. destruct Hw as [(a & b & c & ->) _].
  intros d' i''. simpl. rewrite lookup_insert_Some. intros [[<- <-]|[_ ?]]; [by eexists | by exists i''].
Qed.

Lemma still_await d a : keeps still (__xen_shm_ioctl_await d a).
Proof. apply keeps_await; auto with keeps. intros. apply still_wait. Qed.
#[local] Hint Resolve still_await : keeps.

(** The rest of a command keeps the states; and past the copy of the argument. *)
Ltac still_step :=
  match goal with E : ?m ?k1 = Done _ _ |- still ?k1 _ =>
    let Hk := fresh in
    assert (keeps still m) as Hk by auto 60 with keeps; exact (Hk _ _ _ E) end.
Ltac still_rest := apply still_evolved; still_step.
Ltac after_copy :=
  match goal with E : bind (call CopyFromUser) _ ?k1 = Done _ _ |- _ =>
    let H12 := fresh in let E2 := fresh in
    apply bind_done in E as (r & k2 & E2 & E);
    pose proof (keeps_call still _ _ _ _ E2) as H12; apply (still_then _ _ _ H12);
    destruct (negb _); [injection E as <- <-; apply still_evolved, kept_refl|];
    apply bind_done in E as (v & k3 & E3 & E) end.

Lemma evolved_ioctl filp cmd arg g k a k' : xen_shm_ioctl filp cmd arg g k = Done a k' → evolved k k'.
Proof.
  intros E. unfold xen_shm_ioctl in E. apply bind_done in E as (d & k1 & E1 & E).
  unfold file_data in E1. destruct (private_data k !! filp) as [d'|]; [|done]. injection E1 as <- <-.
  destruct (negb _); [injection E as <- <-; apply still_evolved, kept_refl|].
  apply bind_done in E as (err & k1 & E1 & E). apply still_then with k1.
  { assert (keeps still (if ioc_reads cmd || ioc_writes cmd
      then let* r := call AccessOk in ret (k_ok r) else ret false)) as Hk by auto with keeps.
    exact (Hk _ _ _ E1). }
  destruct err; [injection E as <- <-; apply still_evolved, kept_refl|].
  destruct cmd, arg; unfold copy in E; try still_rest.
  - after_copy. apply then_still with k3; [by eapply evolved_init_offerer | still_step].
  - after_copy. apply then_still with k3; [by eapply evolved_init_receiver | still_step].
Qed.

(** ** Closing *)

Lemma still_modify f : (∀ k, heap (f k) = heap k) → keeps still (modify f).
Proof. intros Hf k ? ? [= <- <-] d i Hi. rewrite Hf in Hi. by exists i. Qed.
Lemma still_delete d : keeps still (modify (λ k, set_heap (delete d (heap k)) k)).
Proof. intros k ? ? [= <- <-]. apply inst_kept_delete. Qed.
Lemma still_read {A} (f : kernel → A) : keeps still (λ k, Done (f k) k).
Proof. intros k ? ? [= <- <-]. apply kept_refl. Qed.
#[local] Hint Extern 1 (keeps (inst_kept _) (modify _)) => apply still_delete : keeps.
#[local] Hint Extern 1 (keeps (inst_kept _) (modify _)) => apply still_modify; intros; reflexivity : keeps.
#[local] Hint Extern 1 (keeps (inst_kept _) (λ k, Done _ k)) => apply still_read : keeps.

Lemma still_free_delayed : keeps still __xen_shm_free_delayed_queue.
Proof.
  intros k a k' E. unfold __xen_shm_free_delayed_queue, free_delayed_body in E. still_step.
Qed.
Lemma still_add_delayed d : keeps still (__xen_shm_add_delayed_free d).
Proof. unfold __xen_shm_add_delayed_free. auto 60 with keeps. Qed.
#[local] Hint Resolve still_free_delayed still_add_delayed : keeps.

Lemma still_release filp : keeps still (xen_shm_release filp).
Proof. unfold xen_shm_release, kfree. auto 60 with keeps. Qed.

(** Opening a file leaves the old instances, and at most one that is new, OPENED,
    with the domain known then. *)
Definition evolved_or_opened (k k' : kernel) : Prop :=
  ∀ d i', heap k' !! d = Some i' →
    (∃ i, heap k !! d = Some i ∧ transition (state i) (state i') ∧ local_domid i' = local_domid i)
    ∨ state i' = XEN_SHM_STATE_OPENED ∧ local_domid i' = xen_shm_domid k.

Lemma opened_inserted d i k k1 k2 :
  heap k1 = <[d := i]> (heap k) → state i = XEN_SHM_STATE_OPENED → local_domid i = xen_shm_domid k →
  still k1 k2 → evolved_or_opened k k2.
Proof.
  intros Hh Ho Hl Hk d' i2 Hi2. destruct (Hk _ _ Hi2) as (i1 & Hi1 & [= E E']). rewrite E, E'.
  rewrite Hh in Hi1. apply lookup_insert_Some in Hi1 as [[_ <-]|[_ Hi1]]; [by right | left].
  exists i1. split_and!; [done | constructor | done].
Qed.

Lemma open_evolved filp mem k r k' : xen_shm_open filp mem k = Done r k' → evolved_or_opened k k'.
Proof.
  unfold xen_shm_open. intros E. apply bind_done in E as (a & k1 & [= <- <-] & E).
  case_match; [injection E as <- <-; intros d i Hi; left; exists i; split_and!; [done | constructor | done]|].
  apply bind_done in E as (v & k2 & [= <- <-] & E). apply bind_done in E as (pv & k3 & [= <- <-] & E).
  apply bind_done in E as (u & k4 & [= _ <-] & E).
  match type of E with ?m _ = _ =>
    assert (keeps still m) as Hk by (unfold open_clean, open_done, kfree; auto 60 with keeps) end.
  eapply opened_inserted; [| | | exact (Hk _ _ _ E)]; reflexivity.
Qed.

Lemma still_handler d : keeps still (xen_shm_event_handler d).
Proof. auto with keeps. Qed.
Lemma still_invalidate d s e : keeps still (__xen_shm_mn_invl_range_start d s e).
Proof. auto with keeps. Qed.
Lemma still_mn_release d : keeps still (__xen_shm_mn_release d).
Proof. auto with keeps. Qed.
End State.
