(* ===== verification/KSpecs.v ===== *)
(** What the commands and the handlers do, operation by operation. *)
From S2P Require Import Prelude Abi KDefs KEvent KMemory KIoctl KFile KRules KKeeps.
From stdpp Require Import gmap.
Open Scope Z_scope.
Open Scope c_scope.

Section Specs.
Context `{!KernelEnv}.

(** ** Broken pipes *)

(** A side that closed stays closed. *)
Definition closing_is_final : Prop := ∀ t m,
  (offerer_state m = XEN_SHM_META_PAGE_STATE_CLOSED →
   offerer_state (other_domain t m) = XEN_SHM_META_PAGE_STATE_CLOSED) ∧
  (receiver_state m = XEN_SHM_META_PAGE_STATE_CLOSED →
   receiver_state (other_domain t m) = XEN_SHM_META_PAGE_STATE_CLOSED).

(** The other domain leaves the mutex of the header page alone. *)
Definition mutex_untouched : Prop :=
  (∀ t m, ec_mutex_count (other_domain t m) = ec_mutex_count m) ∧
  (∀ t cond j i m, ec_mutex_count (wait t cond j i m).2 = ec_mutex_count m).

(** The header page at [a] is marked CLOSED by one side; its mutex holds [c]. *)
Definition page_closed (a : Z) (k : kernel) : Prop := ∃ m, pages k !! a = Some m ∧ closed_page m = true.
Definition counted (a c : Z) (k : kernel) : Prop :=
  ∃ m, pages k !! a = Some m ∧ (mutex_untouched → ec_mutex_count m = c).

(** The header page at [a] was accessed, and its mutex updated with [f]; the
    instances are as they were. *)
Definition touched (f : Z → Z) (a : Z) (k k' : kernel) : Prop :=
  heap k' = heap k ∧ ktrace k' = ktrace k ∧ (∀ c, counted a c k → counted a (f c) k') ∧
  (closing_is_final → page_closed a k → page_closed a k').
Abbreviation looked := (touched (λ c : Z, c)).

Lemma touched_trans f g a k1 k2 k3 : touched f a k1 k2 → touched g a k2 k3 → touched (λ c, g (f c)) a k1 k3.
Proof. intros (? & ? & ? & ?) (? & ? & ? & ?). split_and!; [congruence..|auto|auto]. Qed.

Lemma counted_some a k : is_Some (pages k !! a) ↔ ∃ c, counted a c k.
Proof. split; [intros [m Hm]; by exists (ec_mutex_count m), m | intros (c & m & Hm & _); by eexists]. Qed.

Lemma touched_some f a k k' : is_Some (pages k !! a) → touched f a k k' → is_Some (pages k' !! a).
Proof. rewrite !counted_some. intros [c Hc] (_ & _ & Hf & _). eauto. Qed.

(** What one access does to the page. *)
Lemma touched_insert a m f g k k' :
  pages k !! a = Some m → heap k' = heap k → ktrace k' = ktrace k →
  pages k' = <[a := f (other_domain (kclock k) m)]> (pages k) →
  (∀ m, ec_mutex_count (f m) = g (ec_mutex_count m)) → (∀ m, closed_page (f m) = closed_page m) →
  touched g a k k'.
Proof.
  intros Hm Hh Ht Hp Hg Hc. unfold touched, counted, page_closed. rewrite Hp, lookup_insert_eq. split_and!; [done..| |].
  - intros c (m' & Hm' & Hcount). rewrite Hm in Hm'. injection Hm' as <-. eexists. split; [done|].
    intros Hu. by rewrite Hg, (proj1 Hu), (Hcount Hu).
  - intros Hfin (m' & Hm' & Hcl). rewrite Hm in Hm'. injection Hm' as <-. eexists. split; [done|].
    rewrite Hc. revert Hcl. unfold closed_page. rewrite !orb_true_iff, !Z.eqb_eq.
    pose proof (Hfin (kclock k) m). tauto.
Qed.

Lemma wp_load_looked {A} a (f : meta_page → A) Q k :
  is_Some (pages k !! a) →
  (∀ m k', pages k !! a = Some m → looked a k k' → pages k' !! a = Some (other_domain (kclock k) m) →
     Q (f (other_domain (kclock k) m)) k') →
  wp (load_page a f) Q k.
Proof.
  intros [m Hm] HQ. eapply wp_load_page; [done|]. apply HQ; [done| |apply lookup_insert_eq].
  by eapply (touched_insert _ _ (λ m, m)).
Qed.

Lemma wp_store_touched a f g Q k :
  is_Some (pages k !! a) →
  (∀ m, ec_mutex_count (f m) = g (ec_mutex_count m)) → (∀ m, closed_page (f m) = closed_page m) →
  (∀ k', touched g a k k' → Q tt k') → wp (store_page a f) Q k.
Proof.
  intros [m Hm] Hg Hc HQ. apply wp_bind. eapply wp_get_page; [done|]. apply HQ.
  eapply touched_insert; [done..| | done | done]. simpl. by rewrite insert_insert_eq.
Qed.

(** The test answers what it saw: true of a memory closed by then, and of one that
    was closed before. *)
Lemma wp_broken a Q k :
  is_Some (pages k !! a) →
  (∀ b k', looked a k k' → (closing_is_final → b = true → page_closed a k') →
     (closing_is_final → page_closed a k → b = true) → Q b k') →
  wp (__xen_shm_is_broken_pipe a) Q k.
Proof.
  intros Hm HQ. apply wp_bind, wp_load_looked; [done|]. intros m0 k1 Hm0 H1 Hm1.
  apply wp_if; intros Ho.
  { apply wp_ret, HQ; [done | | done]. intros _ _. eexists. split; [done|]. unfold closed_page. by rewrite Ho. }
  apply wp_bind, wp_load_looked; [by eapply touched_some|]. intros m1 k2 Hm1' H2 Hm2.
  rewrite Hm1 in Hm1'. injection Hm1' as <-.
  apply wp_ret, HQ; [by apply (touched_trans (λ c, c) (λ c, c) _ _ k1) | |].
  - intros _ Hr. eexists. split; [done|]. unfold closed_page. by rewrite Hr, orb_true_r.
  - intros Hfin (m' & Hm' & Hc). rewrite Hm0 in Hm'. injection Hm' as <-. bool_hyps.
    unfold closed_page in Hc. apply orb_true_iff in Hc as [Hc|Hc]; bool_hyps.
    + by apply (Hfin (kclock k)) in Hc.
    + apply Z.eqb_eq. by apply Hfin, Hfin.
Qed.

Lemma wp_broken_closed a m Q k :
  closing_is_final → pages k !! a = Some m → closed_page m = true →
  (∀ k', looked a k k' → Q true k') → wp (__xen_shm_is_broken_pipe a) Q k.
Proof.
  intros Hfin Hm Hc HQ. apply wp_broken; [by eexists|]. intros b k' Hk _ ->; [by apply HQ | done | by exists m].
Qed.

(** ** Signals *)

Lemma wp_ssig d i Q k :
  d ≠ 0 → heap k !! d = Some i → state i ≠ XEN_SHM_STATE_OPENED → is_Some (pages k !! shared_memory i) →
  (∀ k', heap k' = heap k → ktrace k' = ktrace k → Q (- EPIPE) k') →
  (∀ k' a, heap k' = heap k → ktrace k' = (NotifyRemoteViaEvtchn (local_ec_port i), a) :: ktrace k → Q 0 k') →
  wp (__xen_shm_ioctl_ssig d) Q k.
Proof.
  intros Hd Hi Hs Hp HE H0. apply wp_bind. eapply wp_get_inst; [done..|].
  rewrite bool_decide_eq_false_2 by done.
  apply wp_bind, wp_broken; [done|]. intros b k1 (Hh & Ht & _) _ _.
  apply wp_if; intros _; apply wp_ret; [by apply HE|]. eapply H0; [done|]. simpl. by rewrite Ht.
Qed.

(** ** Waiting *)

Section Await.
Hypothesis waits : wait_lawful.

(** A sleep of at most [j] jiffies that the instance [i] enters and leaves as [iw],
    with the page [mw], and the answer [r]. *)
Definition slept (cond : instance → meta_page → bool) (j : Z) (i : instance) (r : Z) (iw : instance) (mw : meta_page) : Prop :=
  ∃ t m, wait t cond j i m = (r, iw, mw).

Lemma slept_cases cond j i r iw mw :
  slept cond j i r iw mw →
  r = - ERESTARTSYS ∨ (j = 0 ∧ r = 0 ∧ cond iw mw = true)
  ∨ (0 < j ∧ r = 0 ∧ cond iw mw = false) ∨ (0 < r ≤ j ∧ cond iw mw = true).
Proof. intros (t & m & Hw). pose proof (waits t cond j i m) as Hl. rewrite Hw in Hl. apply Hl. Qed.

Lemma wp_wait_event d i page cond j Q k :
  d ≠ 0 → heap k !! d = Some i → is_Some (pages k !! page) →
  (∀ r iw mw k', slept cond j i r iw mw → heap k' = <[d := iw]> (heap k) → pages k' !! page = Some mw →
     (∀ c, counted page c k → counted page c k') → Q r k') →
  wp (wait_event d page cond j) Q k.
Proof.
  intros Hd Hi [m Hm] HQ. apply wp_bind. eapply wp_get_inst; [done..|].
  apply wp_bind. eapply wp_get_page; [done|]. unfold wp. simpl.
  match goal with |- context [wait ?t ?c ?j ?i ?m] =>
    pose proof (λ u : mutex_untouched, proj2 u t c j i m) as Hu;
    destruct (wait t c j i m) as [[r iw] mw] eqn:Hw end.
  simpl in Hu. apply (HQ r iw mw); [by do 2 eexists | done | simpl; by rewrite lookup_insert_eq |].
  intros c (m' & Hm' & Hc). rewrite Hm in Hm'. injection Hm' as <-. exists mw. simpl. rewrite lookup_insert_eq.
  split; [done|]. intros u. rewrite (Hu u), (proj1 u). by apply Hc.
Qed.

Lemma wp_mutex_release page (b : bool) Q k :
  is_Some (pages k !! page) →
  (∀ k', touched (λ c : Z, if b then s32 (c + 1) else c) page k k' → Q tt k') → wp (mutex_release page b) Q k.
Proof.
  intros Hp HQ. apply wp_when; intros ->; [|by apply HQ].
  by apply (wp_store_touched _ _ (λ c, s32 (c + 1))).
Qed.

(** The end of a wait that was not interrupted: the latent signal is consumed, the
    mutex released, and -EPIPE answered of a memory that is closed. *)
Lemma wp_await_done d i page (b clears : bool) arg Q k :
  d ≠ 0 → heap k !! d = Some i → is_Some (pages k !! page) →
  (∀ r k', r = - EPIPE ∧ (closing_is_final → page_closed page k')
           ∨ r = 0 ∧ (closing_is_final → ¬ page_closed page k) →
     heap k' = <[d := if clears then set_latent_user_signal false i else i]> (heap k) →
     (∀ c, counted page c k → counted page (if b then s32 (c + 1) else c) k') → Q (r, arg) k') →
  wp (await_done d page b clears arg) Q k.
Proof.
  intros Hd Hi Hp HQ. apply wp_bind.
  set (i' := if clears then set_latent_user_signal false i else i) in *.
  assert (wp (when clears (put_inst d (set_latent_user_signal false)))
    (λ (_ : unit) k', heap k' = <[d := i']> (heap k) ∧ pages k' = pages k) k) as Hw.
  { apply wp_when; intros ->; [by eapply wp_put_inst|]. subst i'. by rewrite insert_id. }
  eapply wp_mono; [exact Hw|]. intros _ k1 [Hi1 Hp1].
  assert (is_Some (pages k1 !! page)) as Hpg by (by rewrite Hp1).
  apply wp_bind, wp_broken; [done|]. intros br k2 H2 Htrue Hfalse.
  apply wp_bind, wp_mutex_release; [apply (touched_some _ _ _ _ Hpg H2)|]. intros k3 H3.
  pose proof (touched_trans _ _ _ _ _ _ H2 H3) as (Hh & _ & Hc & _). apply wp_ret, HQ.
  - destruct br; [left|right]; (split; [done|]).
    + intros Hfin. apply H3; [done|]. by apply Htrue.
    + intros Hfin Hcl. enough (false = true) by done. apply Hfalse; [done|].
      unfold page_closed. by rewrite Hp1.
  - by rewrite Hh.
  - intros c. unfold counted at 1. rewrite <-Hp1. apply Hc.
Qed.

(** What AWAIT answers in an initialised instance [i], whose header page is [m]:
    refused, as the memory is closed; refused, as another sleeps; or what came of
    the sleep that left the instance [iw] and the page [mw]. *)
Definition refused_closed (i : instance) (arg : ioctlarg_await) (k : kernel) (r : Z * ioctlarg_await) (k' : kernel) : Prop :=
  r = (- EPIPE, arg) ∧ heap k' = heap k ∧ ktrace k' = ktrace k ∧
  (closing_is_final → page_closed (shared_memory i) k').
Definition refused_deadlock (arg : ioctlarg_await) (m : meta_page) (k : kernel) (r : Z * ioctlarg_await) (k' : kernel) : Prop :=
  r = (- EDEADLK, arg) ∧ has (request_flags arg) XEN_SHM_IOCTL_AWAIT_MUTEX = true ∧ heap k' = heap k ∧
  (mutex_untouched → ec_mutex_count m ≠ 1).
Definition woken (d : Z) (i : instance) (arg : ioctlarg_await) (k : kernel) (r : Z * ioctlarg_await) (k' : kernel) : Prop :=
  let flag := has (request_flags arg) in
  let user := flag XEN_SHM_IOCTL_AWAIT_USER in
  let latent := flag XEN_SHM_IOCTL_AWAIT_LATENT_USER in
  let cond := await_cond user (flag XEN_SHM_IOCTL_AWAIT_INIT) latent in
  let j := if timeout_ms arg =? 0 then 0 else await_jiffies (timeout_ms arg) in
  ∃ left iw mw, slept cond j (set_user_signal false i) left iw mw ∧
    (r = (- ERESTARTSYS, arg) ∧ left = - ERESTARTSYS ∧ heap k' = <[d := iw]> (heap k)
     ∨ heap k' = <[d := if user || latent then set_latent_user_signal false iw else iw]> (heap k) ∧
       (r.1 = - EPIPE ∧ (closing_is_final → page_closed (shared_memory i) k')
        ∨ r.1 = 0 ∧ (closing_is_final → closed_page mw = false)) ∧
       (timeout_ms arg = 0 ∧ cond iw mw = true ∧ r.2 = arg
        ∨ timeout_ms arg ≠ 0 ∧ 0 ≤ left ≤ j ∧ (0 < left ↔ cond iw mw = true) ∧
          r.2 = IoctlargAwait (request_flags arg) (timeout_ms arg) (await_remaining (timeout_ms arg) left j))).

(** A memory already closed refuses; whatever the answer, the mutex is given back,
    and only its one holder sleeps. *)
Definition await_post (d : Z) (i : instance) (m : meta_page) (arg : ioctlarg_await) (k : kernel)
    (r : Z * ioctlarg_await) (k' : kernel) : Prop :=
  let page := shared_memory i in
  let mutex := has (request_flags arg) XEN_SHM_IOCTL_AWAIT_MUTEX in
  (refused_closed i arg k r k' ∨ refused_deadlock arg m k r k' ∨
   (mutex = true → mutex_untouched → - 2 ^ 31 ≤ ec_mutex_count m < 2 ^ 31 → ec_mutex_count m = 1) ∧ woken d i arg k r k') ∧
  (closing_is_final → closed_page m = true → refused_closed i arg k r k') ∧
  (- 2 ^ 31 ≤ ec_mutex_count m < 2 ^ 31 → counted page (ec_mutex_count m) k').

Lemma await_jiffies_pos t : 0 < await_jiffies t.
Proof.
  unfold await_jiffies. pose proof (wrap_range 64 (t * HZ) ltac:(lia)) as Hw.
  fold u64 in Hw. destruct (Z.eqb_spec (u64 (t * HZ) / 1000) 0); [lia|].
  assert (0 ≤ u64 (t * HZ) / 1000) by (apply Z.div_pos; lia). lia.
Qed.

Lemma s32_released c : - 2 ^ 31 ≤ c < 2 ^ 31 → s32 (s32 (c - 1) + 1) = c.
Proof.
  intros Hc. unfold s32, signed. destruct (decide (c = - 2 ^ 31)) as [->|]; [reflexivity|].
  unfold wrap. change (2 ^ 32) with 4294967296. change (2 ^ (32 - 1)) with 2147483648. change (2 ^ 31) with 2147483648 in *.
  repeat case_decide; Z.div_mod_to_equations; lia.
Qed.

Lemma s32_one c : - 2 ^ 31 ≤ c < 2 ^ 31 → s32 (c - 1) = 0 → c = 1.
Proof.
  intros Hc H0. apply s32_released in Hc as E. rewrite H0 in E. by rewrite <-E.
Qed.

Lemma woken_heap d i arg k1 k2 r k' :
  (∀ x, <[d := x]> (heap k1) = <[d := x]> (heap k2)) → woken d i arg k1 r k' → woken d i arg k2 r k'.
Proof. intros Hx (left & iw & mw & Hw). rewrite !Hx in Hw. by exists left, iw, mw. Qed.

(** The two sleeps. *)
Lemma wp_await_sleep d i (mutex : bool) arg c Q k :
  let user := has (request_flags arg) XEN_SHM_IOCTL_AWAIT_USER in
  let latent := has (request_flags arg) XEN_SHM_IOCTL_AWAIT_LATENT_USER in
  let cond := await_cond user (has (request_flags arg) XEN_SHM_IOCTL_AWAIT_INIT) latent in
  let page := shared_memory i in
  d ≠ 0 → heap k !! d = Some (set_user_signal false i) → counted page c k →
  await_jiffies (timeout_ms arg) < 2 ^ 31 →
  (∀ r k', woken d i arg k r k' → counted page (if mutex then s32 (c + 1) else c) k' → Q r k') →
  wp (if timeout_ms arg =? 0 then
        let* retval := wait_event d page cond 0 in
        if retval <? 0 then mutex_release page mutex ;; ret (retval, arg)
        else await_done d page mutex (user || latent) arg
      else
        let jiffies := await_jiffies (timeout_ms arg) in
        let* r := wait_event d page cond jiffies in
        let retval := s32 r in
        if retval <? 0 then mutex_release page mutex ;; ret (retval, arg) else
        let arg := IoctlargAwait (request_flags arg) (timeout_ms arg)
                     (await_remaining (timeout_ms arg) retval jiffies) in
        await_done d page mutex (user || latent) arg) Q k.
Proof.
  intros user latent cond page Hd Hi Hp Hj HQ. pose proof (await_jiffies_pos (timeout_ms arg)) as Hpos.
  assert (is_Some (pages k !! page)) as Hsome by (apply counted_some; by eexists).
  set (j := if timeout_ms arg =? 0 then 0 else await_jiffies (timeout_ms arg)).
  assert (∀ left iw mw k1, slept cond j (set_user_signal false i) left iw mw →
    heap k1 = <[d := iw]> (heap k) → pages k1 !! page = Some mw →
    (∀ c, counted page c k → counted page c k1) →
    wp (if left <? 0 then mutex_release page mutex ;; ret (left, arg)
        else await_done d page mutex (user || latent)
          (if timeout_ms arg =? 0 then arg else IoctlargAwait (request_flags arg) (timeout_ms arg)
             (await_remaining (timeout_ms arg) left j))) Q k1) as Hrest.
  { intros left iw mw k1 Hs Hh1 Hp1 Hc1. pose proof (slept_cases _ _ _ _ _ _ Hs) as Hl.
    apply wp_if; intros Hneg; bool_hyps.
    - assert (left = - ERESTARTSYS) as -> by (destruct Hl as [?|[[_ [-> _]]|[(_ & -> & _)|[? _]]]]; [done|lia..]).
      apply wp_bind, wp_mutex_release; [by eexists|]. intros k2 (Hh2 & _ & Hc2 & _). apply wp_ret, HQ; [|by apply Hc2, Hc1].
      do 3 eexists. split; [exact Hs|]. left. by rewrite Hh2, Hh1.
    - eapply wp_await_done; [done | by rewrite Hh1, lookup_insert_eq | by eexists |].
      intros r k2 Hr Hh2 Hc2. apply HQ; [|by apply Hc2, Hc1].
      do 3 eexists. split; [exact Hs|]. right. rewrite Hh2, Hh1, insert_insert_eq. split; [done|]. split.
      { destruct Hr as [?|[? Ho]]; [by left | right]. split; [done|]. intros Hfin.
        apply not_true_is_false. intros Hcl. apply (Ho Hfin). by exists mw. }
      subst j. destruct (Z.eqb_spec (timeout_ms arg) 0) as [Ht|Ht].
      + left. destruct Hl as [->|[(_ & -> & Hc)|[[? _]|[? _]]]]; [done | done | lia..].
      + right. split; [done|]. destruct Hl as [->|[[? _]|[(_ & -> & Hc)|[? Hc]]]]; [done | lia | |];
          (split; [lia|split; [|done]]); [|split; [by intros _ | lia]].
        split; [lia|]. intros Hx. exfalso. revert Hx. by fold user latent cond in Hc |- *; rewrite Hc. }
  destruct (Z.eqb_spec (timeout_ms arg) 0) as [Ht|Ht].
  - apply wp_bind. eapply wp_wait_event; [done..|]. intros left iw mw k1. by apply Hrest.
  - cbv zeta. apply wp_bind. eapply wp_wait_event; [done..|]. intros left iw mw k1 Hs.
    assert (s32 left = left) as ->; [|by apply Hrest].
    pose proof (slept_cases _ _ _ _ _ _ Hs) as Hl. unfold s32, signed, wrap.
    destruct Hl as [->|[(? & _)|[(_ & -> & _)|[? _]]]]; [done | subst j; lia | done |].
    rewrite Z.mod_small by (subst j; lia). case_decide; subst j; lia.
Qed.

Lemma wp_await d i m arg k :
  d ≠ 0 → heap k !! d = Some i → state i ≠ XEN_SHM_STATE_OPENED →
  pages k !! shared_memory i = Some m → await_jiffies (timeout_ms arg) < 2 ^ 31 →
  wp (__xen_shm_ioctl_await d arg) (await_post d i m arg k) k.
Proof.
  intros Hd Hi Hs Hm Hj. unfold __xen_shm_ioctl_await. cbv zeta.
  assert (counted (shared_memory i) (ec_mutex_count m) k) as Hc by (by exists m).
  apply wp_bind. eapply wp_get_inst; [done..|]. rewrite bool_decide_eq_false_2 by done.
  apply wp_bind, wp_broken; [by eexists|]. intros b k1 (Hh1 & Ht1 & Hc1 & _) Htrue Hfalse. apply Hc1 in Hc.
  apply wp_if; intros ->.
  { apply wp_ret. unfold await_post, refused_closed. split_and!; auto 10. }
  assert (closing_is_final → closed_page m = true → False) as Hopen.
  { intros Hfin Hcl. enough (false = true) by done. apply Hfalse; [done | by exists m]. }
  set (mutex := has (request_flags arg) XEN_SHM_IOCTL_AWAIT_MUTEX).
  apply wp_bind. apply wp_mono with (λ locked k2, heap k2 = heap k ∧
    counted (shared_memory i) (if mutex then s32 (ec_mutex_count m - 1) else ec_mutex_count m) k2 ∧
    if mutex then mutex_untouched → locked = (s32 (ec_mutex_count m - 1) =? 0) else locked = true).
  { apply wp_if; intros Hmx; rewrite Hmx; [|by apply wp_ret].
    destruct Hc as (m1 & Hm1 & Hc). apply wp_bind. eapply wp_get_page; [done|].
    apply wp_bind, wp_modify, wp_ret. simpl. split; [done|]. split; [|intros u; by rewrite (proj1 u), (Hc u)].
    eexists. simpl. rewrite lookup_insert_eq. split; [done|]. intros u. simpl. by rewrite (proj1 u), (Hc u). }
  intros locked k2 (Hh2 & Hc2 & Hl). apply wp_if; intros Hlk; bool_hyps.
  - subst locked. destruct mutex eqn:Hmx; [|done].
    apply wp_bind, wp_mutex_release; [apply counted_some; by eexists|]. intros k3 (Hh3 & _ & Hc3 & _). apply wp_ret.
    split_and!; [|by intros Hfin Hcl; destruct (Hopen Hfin Hcl) |].
    + right. left. split_and!; [done | done | by rewrite Hh3 |]. intros u Hone. rewrite Hone in Hl. by specialize (Hl u).
    + intros Hr. apply Hc3 in Hc2. by rewrite s32_released in Hc2.
  - apply wp_bind. eapply wp_put_inst; [done | by rewrite Hh2 |].
    apply (wp_await_sleep d i _ arg (if mutex then s32 (ec_mutex_count m - 1) else ec_mutex_count m));
      [done | simpl; by rewrite lookup_insert_eq | done | done |].
    intros r k3 Hw Hc3. split_and!; [|by intros Hfin Hcl; destruct (Hopen Hfin Hcl) |].
    + right. right. split.
      * intros Hmx u Hr. fold mutex in Hmx. rewrite Hmx in Hl. specialize (Hl u). rewrite Hlk in Hl.
        by apply s32_one, Z.eqb_eq.
      * revert Hw. apply woken_heap. intros x. simpl. by rewrite insert_insert_eq, Hh2.
    + intros Hr. fold mutex in Hc3. destruct mutex; [by rewrite s32_released in Hc3 | done].
Qed.
End Await.
End Specs.
