(* ===== verification/KMemSpecs.v ===== *)
(** What allocating, granting, ending grants and unmapping do: the order of an
    allocation, the release of an offerer's pages, the unmapping of a receiver's. *)
From S2P Require Import Prelude Abi KDefs KEvent KMemory KIoctl KFile KRules KSpecs.
From stdpp Require Import gmap.
Open Scope Z_scope.
Open Scope c_scope.

(** ** The order of an allocation *)

Lemma shiftr_zero p o : 0 < p → 0 ≤ o → Z.shiftr p o = 0 ↔ Z.log2 p < o.
Proof.
  intros Hp Ho. rewrite Z.shiftr_div_pow2 by done.
  pose proof (Z.log2_spec p Hp) as [Hl Hu].
  split; intros H.
  - apply Z.div_small_iff in H as [H|H]; [|lia | pose proof (Z.pow_pos_nonneg 2 o); lia].
    destruct (Z.lt_ge_cases (Z.log2 p) o) as [?|Hge]; [done|].
    pose proof (Z.pow_le_mono_r 2 o (Z.log2 p)). lia.
  - apply Z.div_small. split; [lia|].
    pose proof (Z.pow_le_mono_r 2 (Z.succ (Z.log2 p)) o). lia.
Qed.

(** The loop leaves [tmp_page_count] at 0, so that the correction never applies:
    the order is that of the next power of two, strictly. *)
Lemma alloc_order_is `{!KernelEnv} p k :
  0 < p < 2 ^ 32 → alloc_order p k = Done (Z.log2 p + 1) k.
Proof.
  intros Hp.
  assert (wp (while 33 (λ x, negb (x.2 =? 0)) (λ x, ret (u32 (x.1 + 1), Z.shiftr x.2 1)) (0, p))
    (λ x k', x = (Z.log2 p + 1, 0) ∧ k' = k) k) as Hw.
  { assert (Z.log2 p < 32) by (apply Z.log2_lt_pow2; lia). pose proof (Z.log2_nonneg p).
    apply (wp_while (λ x k', k' = k ∧ 0 ≤ x.1 ≤ Z.log2 p + 1 ∧ x.2 = Z.shiftr p x.1)
      (λ x, Z.log2 p + 1 - x.1)).
    - intros [o t] k' (-> & Ho & Ht) Hc. simpl in *. subst t. bool_hyps. rewrite shiftr_zero in Hc by lia.
      assert (u32 (o + 1) = o + 1) as Hu by (apply wrap_small; lia).
      apply wp_ret. simpl. rewrite Hu, Z.shiftr_shiftr by lia. split_and!; [done | lia..| done | lia | lia].
    - intros [o t] k' (-> & Ho & Ht) Hc. simpl in *. subst t. bool_hyps. split; [|done].
      pose proof Hc as Hc'. rewrite shiftr_zero in Hc' by lia. rewrite Hc. f_equal. lia.
    - simpl. split_and!; [done | lia | lia | by rewrite Z.shiftr_0_r].
    - simpl. lia. }
  unfold alloc_order. apply wp_done in Hw as (x & k' & E & -> & ->).
  unfold bind. rewrite E. rewrite (proj2 (Z.eqb_neq 0 _)); [done|].
  rewrite Z.shiftl_1_l. pose proof (Z.log2_nonneg p).
  pose proof (Z.pow_pos_nonneg 2 (Z.log2 p + 1 - 1)). lia.
Qed.

Section MemSpecs.
Context `{!KernelEnv}.

Abbreviation log := (list (kcall * kanswer)).

(** ** Ending the offerer's grants *)

(** The calls of [tr], most recent first, ended the grants [refs], last first. *)
Definition ended (refs : list Z) (tr : log) : Prop :=
  Forall2 (λ ref p, p.1 = EndForeignAccessRef ref ∧ k_ret p.2 ≠ 0) refs tr.

(** The other domain leaves the grants in the header page alone. *)
Definition grants_kept : Prop := ∀ t m, grant_refs (other_domain t m) = grant_refs m.

Lemma wp_load_grant_ref a p m ref Q k :
  grants_kept → pages k !! a = Some m → 0 ≤ p → grant_refs m !! Z.to_nat p = Some ref →
  (∀ k', heap k' = heap k → ktrace k' = ktrace k →
     (∃ m', pages k' !! a = Some m' ∧ grant_refs m' = grant_refs m) → Q ref k') →
  wp (load_grant_ref a p) Q k.
Proof.
  intros Hg Hm Hp Hr HQ. apply wp_bind. eapply wp_load_page; [done|].
  eapply wp_nth_of; [done | by rewrite Hg |]. apply HQ; [done..|].
  simpl. rewrite lookup_insert_eq. eexists. split; [done | apply Hg].
Qed.

(** The state of the loop after the grants from [n'] on were ended. *)
Definition ending (d : Z) (i : instance) (refs : list Z) (k0 : kernel) (n' : Z) (tr : log)
    (k : kernel) : Prop :=
  0 ≤ n' ≤ pages_count i ∧ heap k = <[d := set_pages_count n' i]> (heap k0) ∧
  ktrace k = tr ++ ktrace k0 ∧ ended (drop (Z.to_nat n') (take (Z.to_nat (pages_count i)) refs)) tr ∧
  ∃ m, pages k !! shared_memory i = Some m ∧ grant_refs m = refs.

Lemma wp_end_grants_body d i refs k0 n' tr k u :
  grants_kept → d ≠ 0 → pages_count i ≤ Z.of_nat (length refs) → pages_count i < 256 →
  ending d i refs k0 n' tr k →
  wp (end_grants_body d u) (λ f k',
    match f with
    | Continue _ => 0 < n' ∧ ∃ tr', ending d i refs k0 (n' - 1) tr' k'
    | Break _ => n' = 0 ∧ k' = k
    | Return r => r = -1 ∧ 0 < n' ∧ ∃ ref a, refs !! Z.to_nat (n' - 1) = Some ref ∧ k_ret a = 0 ∧
        heap k' = heap k ∧ ktrace k' = (EndForeignAccessRef ref, a) :: ktrace k ∧
        is_Some (pages k' !! shared_memory i)
    end) k.
Proof.
  intros Hg Hd Hlen H256 (Hn & Hh & Ht & He & m & Hm & Href).
  apply wp_bind. eapply wp_get_inst; [done | by rewrite Hh, lookup_insert_eq |]. simpl.
  apply wp_if; intros Hz; bool_hyps; [by apply wp_ret|].
  destruct (lookup_lt_is_Some_2 refs (Z.to_nat (n' - 1))) as [ref Hr]; [lia|].
  apply wp_bind. eapply wp_load_grant_ref; [done | done | lia | by rewrite Href |].
  intros k1 Hh1 Ht1 (m1 & Hm1 & Hr1). apply wp_bind, wp_call. cbv zeta. simpl.
  set (a := respond (kclock k1) (EndForeignAccessRef ref)).
  apply wp_if; intros Ha; bool_hyps.
  - apply wp_bind. eapply wp_put_inst; [done | simpl; by rewrite Hh1, Hh, lookup_insert_eq |].
    apply wp_ret. split; [lia|]. exists ((EndForeignAccessRef ref, a) :: tr).
    assert (u8 (n' - 1) = n' - 1) as Hu by (apply wrap_small; lia).
    split_and!; try lia.
    + simpl. rewrite Hh1, Hh, insert_insert_eq, Hu. done.
    + simpl. by rewrite Ht1, Ht.
    + rewrite (drop_S _ ref).
      * constructor; [done|]. replace (S (Z.to_nat (n' - 1))) with (Z.to_nat n') by lia. done.
      * rewrite lookup_take_lt by lia. done.
    + exists m1. simpl. split; [done | congruence].
  - apply wp_ret. split_and!; [done | lia |]. exists ref, a. simpl.
    split_and!; [done | done | congruence | congruence | by eexists].
Qed.

(** Releasing an offerer: either every grant was ended, and only then the
    channel is closed and the pages freed; or a grant is still in use, nothing
    is freed, and what was ended is not ended again. *)
Definition prepare_offerer_post (d : Z) (i : instance) (refs : list Z) (k0 : kernel) (r : Z)
    (k : kernel) : Prop :=
  let n := Z.to_nat (pages_count i) in
  (r = 0 ∧ ∃ tr a1 a2, ended (take n refs) tr ∧
     ktrace k = (FreePages (shared_memory i) (offerer_alloc_order i), a1) ::
                (UnbindFromIrqhandler (ec_irq i) d, a2) :: tr ++ ktrace k0 ∧
     pages k !! shared_memory i = None ∧ heap k = <[d := set_pages_count 0 i]> (heap k0))
  ∨ (r = -1 ∧ ∃ n' ref tr a, 0 < n' ≤ pages_count i ∧ refs !! Z.to_nat (n' - 1) = Some ref ∧
     k_ret a = 0 ∧ ended (drop (Z.to_nat n') (take n refs)) tr ∧
     ktrace k = (EndForeignAccessRef ref, a) :: tr ++ ktrace k0 ∧
     is_Some (pages k !! shared_memory i) ∧ heap k = <[d := set_pages_count n' i]> (heap k0)).

Lemma wp_end_grants d i refs k :
  grants_kept → d ≠ 0 → 0 ≤ pages_count i ≤ Z.of_nat (length refs) → pages_count i < 256 →
  heap k !! d = Some i → (∃ m, pages k !! shared_memory i = Some m ∧ grant_refs m = refs) →
  wp (loop 257 (end_grants_body d) tt) (λ x k',
    match x with
    | inl _ => ∃ tr, ending d i refs k 0 tr k'
    | inr r => prepare_offerer_post d i refs k r k' ∧ r = -1
    end) k.
Proof.
  intros Hg Hd Hlen H256 Hi Hm.
  assert (ending d i refs k (pages_count i) [] k) as H0.
  { split; [lia|]. split; [rewrite insert_id; [done | rewrite Hi; by destruct i]|].
    split; [done|]. split; [|done]. rewrite drop_ge; [constructor|]. rewrite length_take. lia. }
  apply (wp_loop (λ _ k', ∃ n' tr, ending d i refs k n' tr k' ∧ True)
    (λ _ k', match heap k' !! d with Some j => pages_count j | None => 0 end)).
  - intros u k1 (n' & tr & He & _). eapply wp_mono; [apply (wp_end_grants_body d i refs k n' tr); [done | done | lia | done | done]|].
    assert (heap k1 !! d = Some (set_pages_count n' i)) as Hk1.
    { destruct He as (_ & -> & _). by rewrite lookup_insert_eq. }
    intros [u'|u'|r] k2 Hf.
    + destruct Hf as [Hpos (tr' & He')]. split; [by exists (n' - 1), tr'|].
      destruct He' as (? & -> & _). rewrite Hk1, lookup_insert_eq. simpl. lia.
    + destruct Hf as [-> ->]. by exists tr.
    + destruct Hf as (-> & Hpos & ref & a & Hr & Ha & Hh & Ht & Hp). split; [|done].
      destruct He as (Hrange & Hh1 & Ht1 & Hend & _). right. split; [done|].
      exists n', ref, tr, a. split_and!; try done; [lia.. | congruence | congruence].
  - by exists (pages_count i), [].
  - rewrite Hi. lia.
Qed.

Lemma wp_prepare_free_offerer d i refs first k :
  grants_kept → d ≠ 0 → 0 ≤ pages_count i ≤ Z.of_nat (length refs) → pages_count i < 256 →
  heap k !! d = Some i → state i = XEN_SHM_STATE_OFFERER → shared_memory i ≠ 0 →
  (∃ m, pages k !! shared_memory i = Some m ∧ grant_refs m = refs) →
  wp (__xen_shm_prepare_free d first) (prepare_offerer_post d i refs k) k.
Proof.
  intros Hg Hd Hlen H256 Hi Hst Hsh Hm.
  apply wp_bind. eapply wp_get_inst; [done..|]. rewrite Hst.
  apply wp_bind. eapply wp_mono; [by apply wp_end_grants|].
  intros [u|r] k1 Hx; [|by apply wp_ret; destruct Hx].
  destruct Hx as (tr & _ & Hh & Ht & He & m & Hm1 & _).
  apply wp_bind, wp_bind. eapply wp_get_inst; [done | by rewrite Hh, lookup_insert_eq |].
  apply wp_bind, wp_bind, wp_call. apply wp_ret, wp_ret.
  apply wp_bind, wp_bind. eapply wp_get_inst; [done | simpl; by rewrite Hh, lookup_insert_eq |].
  simpl. rewrite (proj2 (Z.eqb_neq _ _) Hsh). simpl.
  apply wp_bind, wp_bind, wp_call. apply wp_ret, wp_modify, wp_ret.
  left. split; [done|]. eexists tr, _, _. split; [exact He|]. simpl.
  split_and!; [by rewrite Ht | by rewrite lookup_delete_eq | done].
Qed.

(** ** Unmapping the receiver's pages *)

Definition is_mapped (op : unmap_op) : bool := negb (unmap_handle op =? NO_HANDLE).
Definition unmapped (op : unmap_op) : unmap_op := UnmapOp (unmap_addr op) (unmap_flags op) NO_HANDLE.

(** The reference: the first [nb] mapped pages lose their handles. *)
Fixpoint unmap_ref (nb : nat) (ops : list unmap_op) : list unmap_op :=
  match nb, ops with
  | S n, op :: ops => if is_mapped op then unmapped op :: unmap_ref n ops else op :: unmap_ref nb ops
  | _, _ => ops
  end.
(** Those pages. *)
Fixpoint first_mapped (nb : nat) (ops : list unmap_op) : list unmap_op :=
  match nb, ops with
  | S n, op :: ops => if is_mapped op then op :: first_mapped n ops else first_mapped nb ops
  | _, _ => []
  end.

Lemma unmap_ref_0 ops : unmap_ref 0 ops = ops.
Proof. by destruct ops. Qed.
Lemma first_mapped_0 ops : first_mapped 0 ops = [].
Proof. by destruct ops. Qed.

(** The unmapping calls of a log, oldest first. *)
Definition unmap_calls (tr : log) : list unmap_op :=
  omap (λ p, match p.1 with GnttabUnmapRefs op _ _ => Some op | _ => None end) (rev tr).

(** The operations from page [o] on, up to the last data page. *)
Definition data_ops (i : instance) (ops : list unmap_op) (o : Z) : list unmap_op :=
  take (Z.to_nat (pages_count i - 1 - o)) (drop (Z.to_nat o) ops).

(** Arrays long enough for the data pages. *)
Definition arrays_wf (i : instance) : Prop :=
  pages_count i - 1 ≤ Z.of_nat (length (unmap_ops i)) ∧
  pages_count i - 1 ≤ Z.of_nat (length (kmap_ops i)) ∧
  pages_count i - 1 ≤ Z.of_nat (length (user_pages i)).

Definition unmapping (d : Z) (i : instance) (k0 : kernel) (target : list unmap_op)
    (calls : list unmap_op) (x : Z * Z) (k : kernel) : Prop :=
  ∃ pre tr, let ops := pre ++ drop (Z.to_nat x.1) (unmap_ops i) in
    0 ≤ x.1 ∧ Z.of_nat (length pre) = x.1 ∧
    heap k = <[d := set_unmap_ops ops i]> (heap k0) ∧ ktrace k = tr ++ ktrace k0 ∧
    target = pre ++ unmap_ref (Z.to_nat x.2) (data_ops i (unmap_ops i) x.1) ++
             drop (Z.to_nat (pages_count i - 1)) (unmap_ops i) ∧
    calls = unmap_calls tr ++ first_mapped (Z.to_nat x.2) (data_ops i (unmap_ops i) x.1).

Definition unmapping_done (d : Z) (i : instance) (k0 : kernel) (target calls : list unmap_op)
    (k : kernel) : Prop :=
  heap k = <[d := set_unmap_ops target i]> (heap k0) ∧
  ∃ tr, ktrace k = tr ++ ktrace k0 ∧ unmap_calls tr = calls.

Lemma data_ops_cons i o op :
  0 ≤ o < pages_count i - 1 → unmap_ops i !! Z.to_nat o = Some op →
  data_ops i (unmap_ops i) o = op :: data_ops i (unmap_ops i) (o + 1).
Proof.
  intros Ho Hop. unfold data_ops. rewrite (drop_S _ op) by done.
  replace (Z.to_nat (pages_count i - 1 - o)) with (S (Z.to_nat (pages_count i - 1 - (o + 1)))) by lia.
  simpl. by replace (Z.to_nat (o + 1)) with (S (Z.to_nat o)) by lia.
Qed.

Lemma data_ops_end i o : pages_count i - 1 ≤ o → data_ops i (unmap_ops i) o = [].
Proof. intros. unfold data_ops. by replace (Z.to_nat (pages_count i - 1 - o)) with 0%nat by lia. Qed.

Lemma data_ops_rest i o :
  0 ≤ o ≤ pages_count i - 1 →
  data_ops i (unmap_ops i) o ++ drop (Z.to_nat (pages_count i - 1)) (unmap_ops i) =
  drop (Z.to_nat o) (unmap_ops i).
Proof.
  intros Ho. unfold data_ops.
  rewrite <-(take_drop (Z.to_nat (pages_count i - 1 - o)) (drop (Z.to_nat o) (unmap_ops i))) at 2.
  rewrite drop_drop. do 2 f_equal. lia.
Qed.

Lemma unmap_calls_cons c a tr :
  unmap_calls ((c, a) :: tr) =
  unmap_calls tr ++ match c with GnttabUnmapRefs op _ _ => [op] | _ => [] end.
Proof. unfold unmap_calls. simpl. rewrite omap_app. f_equal. by destruct c. Qed.

Lemma insert_next (pre : list unmap_op) o op op' ops :
  0 ≤ o → Z.of_nat (length pre) = o → ops !! Z.to_nat o = Some op →
  <[Z.to_nat o := op']> (pre ++ drop (Z.to_nat o) ops) = (pre ++ [op']) ++ drop (Z.to_nat (o + 1)) ops.
Proof.
  intros Ho Hpre Hop. rewrite insert_app_r_alt by lia. rewrite (drop_S _ op) by done.
  replace (Z.to_nat o - length pre)%nat with 0%nat by lia. simpl.
  rewrite <-app_assoc. simpl. do 3 f_equal. lia.
Qed.

(** One page: unmapped if it is mapped; the rest of the work is that of the
    reference on the pages after it. *)
Lemma wp_unmap_page d i op o nb k :
  d ≠ 0 → arrays_wf i → 0 ≤ o < pages_count i - 1 → 0 < nb →
  heap k !! d = Some i → unmap_ops i !! Z.to_nat o = Some op →
  wp (unmap_body d (o, nb)) (λ f k',
    let op' := if is_mapped op then unmapped op else op in
    let nb' := if is_mapped op then nb - 1 else nb in
    (f = if pages_count i - 1 <=? o + 1 then Return tt else Continue (o + 1, nb')) ∧
    heap k' = <[d := set_unmap_ops (<[Z.to_nat o := op']> (unmap_ops i)) i]> (heap k) ∧
    ∃ tr, ktrace k' = tr ++ ktrace k ∧ unmap_calls tr = if is_mapped op then [op] else []) k.
Proof.
  intros Hd (Hu & Hk & Hup) Ho Hnb Hi Hop. unfold unmap_body.
  rewrite (proj2 (Z.ltb_lt 0 nb) Hnb). apply wp_bind. eapply wp_get_inst; [done..|].
  apply wp_bind. eapply wp_nth_of; [lia | done |]. apply wp_bind.
  fold (is_mapped op). destruct (is_mapped op) eqn:Hm.
  - destruct (lookup_lt_is_Some_2 (kmap_ops i) (Z.to_nat o)) as [kop Hkop]; [lia|].
    destruct (lookup_lt_is_Some_2 (user_pages i) (Z.to_nat o)) as [pg Hpg]; [lia|].
    apply wp_bind. eapply wp_nth_of; [lia | done |].
    apply wp_bind. eapply wp_nth_of; [lia | done |].
    apply wp_bind, wp_bind, wp_call, wp_ret, wp_bind.
    apply wp_set_nth; [lia|]. apply wp_bind. eapply wp_put_inst; [done..|]. apply wp_ret.
    apply wp_if; intros E; apply wp_ret; simpl; rewrite E; split_and!; try done;
      eexists [_]; by split.
  - apply wp_ret. rewrite list_insert_id by done.
    apply wp_if; intros E; apply wp_ret; simpl; rewrite E;
      (split; [done|]; split; [rewrite insert_id; [done|rewrite Hi; by destruct i] | by exists []]).
Qed.

(** Past the last data page, or with no page left to unmap, the work is done. *)
Lemma unmapping_ends d i k0 target calls o nb k :
  unmapping d i k0 target calls (o, nb) k → (o = pages_count i - 1 ∨ nb ≤ 0 ∧ o ≤ pages_count i - 1) →
  unmapping_done d i k0 target calls k.
Proof.
  intros (pre & tr & Ho & Hpre & Hh & Ht & Htg & Hc) Hend. simpl in *.
  assert (target = pre ++ drop (Z.to_nat o) (unmap_ops i) ∧ calls = unmap_calls tr) as [-> ->].
  { destruct Hend as [->|[Hnb Hle]].
    - rewrite data_ops_end in Htg, Hc by lia. by destruct (Z.to_nat nb); simpl in *; rewrite app_nil_r in Hc.
    - replace (Z.to_nat nb) with 0%nat in * by lia.
      rewrite unmap_ref_0, data_ops_rest in Htg by lia. by rewrite first_mapped_0, app_nil_r in Hc. }
  split; [done|]. by exists tr.
Qed.

(** One page further. *)
Lemma wp_unmapping d i target calls o nb k0 k :
  d ≠ 0 → arrays_wf i → 0 ≤ o < pages_count i - 1 → 0 < nb → unmapping d i k0 target calls (o, nb) k →
  wp (unmap_body d (o, nb)) (λ f k', ∃ nb',
    (f = if pages_count i - 1 <=? o + 1 then Return tt else Continue (o + 1, nb')) ∧
    unmapping d i k0 target calls (o + 1, nb') k') k.
Proof.
  intros Hd Hwf Ho Hnb (pre & tr & _ & Hpre & Hh & Ht & Htg & Hc). cbn [fst snd] in *.
  destruct (lookup_lt_is_Some_2 (unmap_ops i) (Z.to_nat o)) as [op Hop]; [destruct Hwf; lia|].
  pose proof (data_ops_cons i o op Ho Hop) as Hcons. set (ops := pre ++ drop (Z.to_nat o) (unmap_ops i)) in *.
  assert (ops !! Z.to_nat o = Some op) as Hop'.
  { subst ops. rewrite lookup_app_r by lia. rewrite lookup_drop, <-Hop. f_equal. lia. }
  assert (Z.of_nat (length ops) = Z.of_nat (length (unmap_ops i))) as Hlen.
  { subst ops. rewrite length_app, length_drop. destruct Hwf. lia. }
  eapply wp_mono; [apply (wp_unmap_page d (set_unmap_ops ops i) op); [done | | done | done | | done]|].
  { destruct Hwf as (? & ? & ?). unfold arrays_wf. simpl. lia. }
  { by rewrite Hh, lookup_insert_eq. }
  intros f k2 (Hf & Hh2 & tr2 & Ht2 & Hc2). simpl in *. eexists. split; [exact Hf|].
  exists (pre ++ [if is_mapped op then unmapped op else op]), (tr2 ++ tr). simpl.
  split; [lia|]. split; [rewrite length_app; simpl; lia|]. split.
  { rewrite Hh2, Hh, insert_insert_eq. by rewrite <-(insert_next pre o op) by (lia || done). }
  split; [by rewrite Ht2, Ht, app_assoc|].
  assert (Z.to_nat nb = S (Z.to_nat (nb - 1))) as Hs by lia.
  rewrite Hcons, Hs in Htg, Hc. simpl in Htg, Hc. split.
  - rewrite Htg, <-app_assoc. by destruct (is_mapped op); rewrite ?Hs.
  - rewrite Hc. unfold unmap_calls in *. rewrite rev_app_distr, omap_app, Hc2, <-app_assoc.
    by destruct (is_mapped op); rewrite ?Hs.
Qed.

Lemma wp_unmap_pages d i o nb k :
  d ≠ 0 → arrays_wf i → pages_count i ≤ 128 → 0 ≤ o < pages_count i - 1 →
  heap k !! d = Some i →
  let seg := data_ops i (unmap_ops i) o in
  let n := Z.to_nat nb in
  wp (__xen_shm_unmap_receiver_grant_pages d o nb) (λ _,
    unmapping_done d i k
      (take (Z.to_nat o) (unmap_ops i) ++ unmap_ref n seg ++
       drop (Z.to_nat (pages_count i - 1)) (unmap_ops i))
      (first_mapped n seg)) k.
Proof.
  intros Hd Hwf H128 Ho Hi seg n. set (target := _ ++ _). set (calls := first_mapped n seg).
  apply wp_bind. eapply wp_mono.
  { apply (wp_loop (λ x k', unmapping d i k target calls x k' ∧ x.1 < pages_count i - 1)
      (λ x _, pages_count i - 1 - x.1) _ (λ _, unmapping_done d i k target calls)).
    - intros [o' nb'] k1 [HI Hlt]. cbn [fst snd] in *. pose proof HI as (_ & _ & Ho' & _).
      destruct (Z.ltb_spec 0 nb') as [Hnb|Hnb].
      + eapply wp_mono; [by eapply wp_unmapping|]. intros f k2 (nb2 & -> & HI2).
        destruct (Z.leb_spec (pages_count i - 1) (o' + 1)); [|split; [by split|simpl; lia]].
        eapply unmapping_ends; [done|]. left. lia.
      + unfold unmap_body. rewrite (proj2 (Z.ltb_ge 0 nb') Hnb). apply wp_ret.
        eapply unmapping_ends; [done|]. right. lia.
    - split; [|simpl; lia]. exists (take (Z.to_nat o) (unmap_ops i)), []. simpl.
      split; [lia|]. split; [rewrite length_take; destruct Hwf; lia|]. split; [|done].
      rewrite take_drop. rewrite insert_id; [done|]. rewrite Hi. by destruct i.
    - simpl. unfold XEN_SHM_ALLOC_ALIGNED_PAGES. lia. }
  intros x k1 Hx. by apply wp_ret.
Qed.
End MemSpecs.
