(* ===== verification/KOffer.v ===== *)
(** Becoming an offerer: what INIT_OFFERER leaves in the instance, in the header
    page and with the hypervisor, on success and on every failure. *)
From S2P Require Import Prelude Abi KDefs KEvent KMemory KIoctl KFile KRules KSpecs KMemSpecs.
From stdpp Require Import gmap.
Open Scope Z_scope.
Open Scope c_scope.

Section Offer.
Context `{!KernelEnv}.

(** Nobody else reaches the page before its grant is known; a page handed out
    by the kernel has room for all the grants and does not end the address
    space. *)
Definition page_private : Prop := ∀ t m, other_domain t m = m.
Definition pages_sound : Prop :=
  (∀ t, Z.of_nat (length (grant_refs (page_at t))) = XEN_SHM_ALLOC_ALIGNED_PAGES) ∧
  (∀ t order, 0 ≤ k_ret (respond t (GetFreePages order)) < 2 ^ 64 - 2 ^ 20).

(** The calls of [tr], most recent first, granted consecutive pages from [addr]
    to [dom], with the references [refs]. *)
Inductive granted (dom addr : Z) : list Z → list (kcall * kanswer) → Prop :=
| granted_nil : granted dom addr [] []
| granted_next refs tr a :
    granted dom addr refs tr →
    granted dom addr (refs ++ [u32 (k_ret a)])
      ((GrantForeignAccess dom (addr + Z.of_nat (length refs) * PAGE_SIZE), a) :: tr).

(** The header while the grants are being made. *)
Definition granting (d : Z) (i : instance) (m : meta_page) (k0 : kernel) (refs : list Z)
    (x : Z * Z) (k : kernel) : Prop :=
  x.1 = Z.of_nat (length refs) ∧ x.2 = shared_memory i + x.1 * PAGE_SIZE ∧
  heap k = heap k0 ∧
  (∃ m', pages k !! shared_memory i = Some m' ∧
     offerer_state m' = offerer_state m ∧ receiver_state m' = receiver_state m ∧
     meta_pages_count m' = meta_pages_count m ∧
     Z.of_nat (length (grant_refs m')) = XEN_SHM_ALLOC_ALIGNED_PAGES ∧
     take (length refs) (grant_refs m') = refs) ∧
  ∃ tr, ktrace k = tr ++ ktrace k0 ∧ granted (distant_domid i) (shared_memory i) refs tr.

Hypothesis private : page_private.

Lemma wp_store_grant_ref a p v m Q k :
  pages k !! a = Some m → 0 ≤ p < Z.of_nat (length (grant_refs m)) →
  (∀ k', heap k' = heap k → ktrace k' = ktrace k →
     pages k' !! a = Some (set_grant_refs (<[Z.to_nat p := v]> (grant_refs m)) m) → Q tt k') →
  wp (store_grant_ref a p v) Q k.
Proof.
  intros Hm Hp HQ. apply wp_bind. eapply wp_get_page; [done|]. rewrite private.
  apply wp_bind, wp_set_nth; [done|]. apply wp_modify, HQ; [done | done |].
  simpl. by rewrite lookup_insert_eq.
Qed.

Lemma wp_load_page_private {A} a (f : meta_page → A) m Q k :
  pages k !! a = Some m →
  (∀ k', heap k' = heap k → ktrace k' = ktrace k → pages k' !! a = Some m → Q (f m) k') →
  wp (load_page a f) Q k.
Proof.
  intros Hm HQ. eapply wp_load_page; [done|]. rewrite private. apply HQ; [done..|].
  simpl. by rewrite lookup_insert_eq.
Qed.

Lemma wp_load_grant_private a p ref m Q k :
  pages k !! a = Some m → 0 ≤ p → grant_refs m !! Z.to_nat p = Some ref →
  (∀ k', heap k' = heap k → ktrace k' = ktrace k → pages k' !! a = Some m → Q ref k') →
  wp (load_grant_ref a p) Q k.
Proof.
  intros Hm Hp Hr HQ. apply wp_bind. eapply wp_load_page_private; [done|].
  intros k1 ? ? ?. eapply wp_nth_of; [done..|]. by apply HQ.
Qed.

(** One page is granted; an unsigned reference is never negative. *)
Lemma wp_grant_body d i m k0 refs x k :
  d ≠ 0 → heap k0 !! d = Some i → 0 ≤ shared_memory i < 2 ^ 64 - 2 ^ 20 →
  pages_count i ≤ XEN_SHM_ALLOC_ALIGNED_PAGES → granting d i m k0 refs x k →
  wp (grant_body d x) (λ f k',
    match f with
    | Continue x' => x.1 < pages_count i ∧ ∃ refs', granting d i m k0 refs' x' k' ∧
                     length refs' = S (length refs)
    | Break x' => x' = x ∧ k' = k ∧ pages_count i ≤ x.1
    | Return _ => False
    end) k.
Proof.
  destruct x as [p ptr]. unfold XEN_SHM_ALLOC_ALIGNED_PAGES.
  intros Hd Hi Hsh H128 (Hp & Hptr & Hh & (m' & Hm & Ho & Hr & Hc & Hlen & Htake) & tr & Ht & Hg).
  unfold XEN_SHM_ALLOC_ALIGNED_PAGES in Hlen. cbn [fst snd] in *.
  apply wp_bind. eapply wp_get_inst; [done | by rewrite Hh |].
  apply wp_if; intros Hlt; bool_hyps; [by apply wp_ret|].
  apply wp_bind, wp_call. cbv zeta. set (a := respond _ _).
  apply wp_bind. eapply wp_store_grant_ref; [done | lia |]. intros k1 Hh1 Ht1 Hm1.
  apply wp_bind. eapply wp_load_grant_private; [done | lia | |].
  { simpl. rewrite list_lookup_insert_eq by lia. done. }
  intros k2 Hh2 Ht2 Hm2. unfold u32 at 1. pose proof (wrap_range 32 (k_ret a) ltac:(lia)).
  rewrite (proj2 (Z.ltb_ge _ _)) by lia. apply wp_ret. split; [done|].
  exists (refs ++ [u32 (k_ret a)]). split; [|rewrite length_app; simpl; lia].
  split; [rewrite length_app; simpl; lia|]. split.
  { unfold PAGE_SIZE in *. simpl. unfold u64. rewrite wrap_small by lia. lia. }
  split; [simpl in *; congruence|]. split.
  - eexists. split; [by rewrite Hm2|]. simpl. rewrite length_insert. split_and!; try done.
    rewrite length_app. simpl. replace (Z.to_nat p) with (length refs) by lia.
    rewrite Nat.add_1_r, (take_S_r _ _ (u32 (k_ret a))).
    + by rewrite take_insert_ge, Htake.
    + rewrite list_lookup_insert_eq by lia. done.
  - exists ((GrantForeignAccess (distant_domid i) ptr, a) :: tr). split.
    + rewrite Ht2, Ht1. simpl. by rewrite Ht.
    + rewrite Hptr, Hp. by constructor.
Qed.

Lemma wp_grant_loop d i m k :
  d ≠ 0 → heap k !! d = Some i → 0 ≤ shared_memory i < 2 ^ 64 - 2 ^ 20 →
  0 ≤ pages_count i ≤ XEN_SHM_ALLOC_ALIGNED_PAGES →
  pages k !! shared_memory i = Some m →
  Z.of_nat (length (grant_refs m)) = XEN_SHM_ALLOC_ALIGNED_PAGES →
  wp (loop 257 (grant_body d) (0, shared_memory i)) (λ r k',
    ∃ x refs, r = inl x ∧ x.1 = pages_count i ∧ granting d i m k refs x k') k.
Proof.
  intros Hd Hi Hsh H128 Hm Hlen.
  apply (wp_loop (λ x k', x.1 ≤ pages_count i ∧ ∃ refs, granting d i m k refs x k')
    (λ x _, pages_count i - x.1)).
  - intros x k1 [Hle (refs & Hg)]. eapply wp_mono; [eapply wp_grant_body; try done; lia|].
    intros [x'|x'|r] k2 Hf.
    + destruct Hf as [Hlt (refs' & Hg' & Hl)]. pose proof Hg' as [Hx' _]. destruct Hg as [Hx _].
      split; [split; [lia | by exists refs'] | lia].
    + destruct Hf as (-> & -> & Hge). exists x, refs. split_and!; [done | lia | done].
    + done.
  - split; [simpl; lia|]. exists []. split; [done|]. split; [simpl; lia|]. split; [done|]. split.
    + by exists m.
    + exists []. split; [done | constructor].
  - simpl. unfold XEN_SHM_ALLOC_ALIGNED_PAGES in *. lia.
Qed.

(** The grants undone: every reference, the last one first. *)
Definition undone (refs : list Z) (tr : list (kcall * kanswer)) : Prop :=
  Forall2 (λ ref p, p.1 = EndForeignAccessRef ref) refs tr.

Lemma wp_undo_grant d i m refs error k :
  d ≠ 0 → heap k !! d = Some i → shared_memory i ≠ 0 → pages k !! shared_memory i = Some m →
  take (length refs) (grant_refs m) = refs →
  wp (undo_grant d error (Z.of_nat (length refs))) (λ r k', r = error ∧ heap k' = heap k ∧
    ∃ tr a, undone refs tr ∧
      ktrace k' = (FreePages (shared_memory i) (offerer_alloc_order i), a) :: tr ++ ktrace k) k.
Proof.
  intros Hd Hi Hsh Hm Htake. apply wp_bind. eapply wp_get_inst; [done..|].
  apply wp_bind. eapply wp_mono.
  { apply (wp_while (λ q k', -1 ≤ q < Z.of_nat (length refs) ∧ heap k' = heap k ∧
        pages k' !! shared_memory i = Some m ∧
        ∃ tr, undone (drop (Z.to_nat (q + 1)) refs) tr ∧ ktrace k' = tr ++ ktrace k) (λ q, q + 1)
      _ _ (λ _ k', heap k' = heap k ∧ ∃ tr, undone refs tr ∧ ktrace k' = tr ++ ktrace k)).
    - intros q k1 (Hq & Hh & Hm1 & tr & Hu & Ht) Hc. bool_hyps.
      destruct (lookup_lt_is_Some_2 refs (Z.to_nat q)) as [ref Hr]; [lia|].
      apply wp_bind. eapply wp_load_grant_private; [done | done | |].
      { rewrite <-Htake in Hr. apply lookup_take_Some in Hr as [Hr _]. exact Hr. }
      intros k2 Hh2 Ht2 Hm2. apply wp_bind, wp_bind, wp_call. apply wp_ret, wp_ret. simpl.
      split; [|lia]. split; [lia|]. split; [congruence|]. split; [done|].
      eexists (_ :: tr). split; [|by rewrite Ht2, Ht].
      replace (Z.to_nat (q - 1 + 1)) with (Z.to_nat q) by lia. rewrite (drop_S _ ref) by done.
      constructor; [done|]. by replace (S (Z.to_nat q)) with (Z.to_nat (q + 1)) by lia.
    - intros q k1 (Hq & Hh & Hm1 & tr & Hu & Ht) Hc. bool_hyps. split; [done|].
      exists tr. split; [|done]. by replace (Z.to_nat (q + 1)) with 0%nat in Hu by lia.
    - split; [lia|]. split; [done|]. split; [done|]. exists []. split; [|done].
      rewrite drop_ge by lia. constructor.
    - lia. }
  intros q k1 (Hh & tr & Hu & Ht). apply wp_bind, wp_bind.
  eapply wp_get_inst; [done | by rewrite Hh |]. rewrite (proj2 (Z.eqb_neq _ _) Hsh).
  apply wp_bind, wp_bind, wp_call. apply wp_ret, wp_modify, wp_ret. simpl.
  split; [done|]. split; [done|]. eexists tr, _. split; [done|]. by rewrite Ht.
Qed.

(** Opening the event channel: the calls, and the channel closed again when it
    cannot be bound. *)
Definition channel (d : Z) (i : instance) (r : Z) (i' : instance) (tr : list (kcall * kanswer)) : Prop :=
  let remote := if distant_domid i =? local_domid i then DOMID_SELF else distant_domid i in
  ∃ a, (k_ret a ≠ 0 ∧ r = - EIO ∧ i' = i ∧ tr = [(EvtchnAllocUnbound DOMID_SELF remote, a)])
  ∨ (k_ret a = 0 ∧ ∃ b,
      (k_ret b ≤ 0 ∧ r = - EIO ∧ i' = set_local_ec_port (k_out1 a) i ∧
       ∃ c, tr = [(EvtchnClose (k_out1 a), c); (BindEvtchnToIrqhandler (k_out1 a) d, b);
                  (EvtchnAllocUnbound DOMID_SELF remote, a)])
      ∨ (0 < k_ret b ∧ r = 0 ∧ i' = set_ec_irq (k_ret b) (set_local_ec_port (k_out1 a) i) ∧
         tr = [(BindEvtchnToIrqhandler (k_out1 a) d, b); (EvtchnAllocUnbound DOMID_SELF remote, a)])).

Lemma wp_open_ec_offerer d i k :
  d ≠ 0 → heap k !! d = Some i →
  wp (__xen_shm_open_ec_offerer d) (λ r k', ∃ i' tr, channel d i r i' tr ∧
    heap k' = <[d := i']> (heap k) ∧ pages k' = pages k ∧ ktrace k' = tr ++ ktrace k) k.
Proof.
  intros Hd Hi. apply wp_bind. eapply wp_get_inst; [done..|].
  apply wp_bind, wp_call. cbv zeta. set (a := respond _ _). apply wp_if; intros Ha; bool_hyps.
  { apply wp_ret. exists i. eexists. split; [exists a; left; by split_and!|].
    simpl. split; [by rewrite insert_id|]. by split. }
  apply wp_bind. eapply wp_put_inst; [done..|].
  apply wp_bind. eapply wp_get_inst; [done | simpl; by rewrite lookup_insert_eq |].
  apply wp_bind, wp_call. cbv zeta. set (b := respond _ _). apply wp_if; intros Hb; bool_hyps.
  - apply wp_bind, wp_bind, wp_call. apply wp_ret, wp_ret.
    eexists (set_local_ec_port (k_out1 a) i), _. split.
    { exists a. right. split; [done|]. exists b. left. split_and!; [done..|]. by eexists. }
    by simpl.
  - apply wp_bind. eapply wp_put_inst; [done | simpl; by rewrite lookup_insert_eq |]. apply wp_ret.
    eexists (set_ec_irq (k_ret b) (set_local_ec_port (k_out1 a) i)), _. split.
    { exists a. right. split; [done|]. exists b. right. by split_and!. }
    simpl. by rewrite insert_insert_eq.
Qed.

Lemma wp_store_page_private a f m Q k :
  pages k !! a = Some m →
  (∀ k', heap k' = heap k → ktrace k' = ktrace k → pages k' !! a = Some (f m) → Q tt k') →
  wp (store_page a f) Q k.
Proof.
  intros Hm HQ. apply wp_bind. eapply wp_get_page; [done|]. rewrite private.
  apply wp_modify, HQ; [done..|]. simpl. by rewrite lookup_insert_eq.
Qed.

Definition fresh_header (count : Z) (m : meta_page) : meta_page :=
  MetaPage XEN_SHM_META_PAGE_STATE_NONE XEN_SHM_META_PAGE_STATE_NONE count (offerer_ec_port m) 1
    (grant_refs m).

Lemma wp_init_header d i m Q k :
  d ≠ 0 → heap k !! d = Some i → pages k !! shared_memory i = Some m →
  (∀ k', heap k' = heap k → ktrace k' = ktrace k →
     pages k' !! shared_memory i = Some (fresh_header (pages_count i) m) → Q tt k') →
  wp (init_header d) Q k.
Proof.
  intros Hd Hi Hm HQ. apply wp_bind. eapply wp_get_inst; [done..|].
  apply wp_bind. eapply wp_store_page_private; [done|]. intros k1 Hh1 Ht1 Hm1.
  apply wp_bind. eapply wp_store_page_private; [done|]. intros k2 Hh2 Ht2 Hm2.
  apply wp_bind. eapply wp_store_page_private; [done|]. intros k3 Hh3 Ht3 Hm3.
  eapply wp_store_page_private; [done|]. intros k4 Hh4 Ht4 Hm4.
  apply HQ; [congruence | congruence | done].
Qed.

(** The instance once its domain, size and pages are set. *)
Definition offering (arg : ioctlarg_offerer) (order addr : Z) (i : instance) : instance :=
  set_shared_memory addr (set_offerer_alloc_order order (set_pages_count (u8 (off_pages_count arg + 1))
    (set_distant_domid (if off_dist_domid arg =? DOMID_SELF then local_domid i
                        else off_dist_domid arg) i))).

(** The outcomes of INIT_OFFERER on an opened instance [i], with [n] pages,
    header included. *)
Definition offer_post (d : Z) (i : instance) (arg : ioctlarg_offerer) (k0 : kernel)
    (r : Z * ioctlarg_offerer) (k : kernel) : Prop :=
  let n := off_pages_count arg + 1 in
  let order := Z.log2 n + 1 in
  ∃ alloc i', heap k = <[d := i']> (heap k0) ∧
    ( (* no memory: one call was made, and the instance can be used again *)
     (k_ret alloc = 0 ∧ r.1 = - ENOMEM ∧ state i' = XEN_SHM_STATE_OPENED ∧
      ktrace k = (GetFreePages order, alloc) :: ktrace k0)
     ∨ ∃ refs tr ie e ec,
         let ig := set_first_page_grant (hd 0 refs) (offering arg order (k_ret alloc) i) in
         Z.of_nat (length refs) = n ∧ granted (distant_domid ig) (k_ret alloc) refs tr ∧
         channel d ig e ie ec ∧
         ( (* every page is granted, the header says so, the channel is open *)
          (e = 0 ∧ r = (0, IoctlargOfferer (off_pages_count arg) (off_dist_domid arg) (hd 0 refs) (local_domid i)) ∧
           i' = set_state XEN_SHM_STATE_OFFERER ie ∧
           ktrace k = ec ++ tr ++ (GetFreePages order, alloc) :: ktrace k0 ∧
           ∃ m, pages k !! k_ret alloc = Some m ∧
             offerer_state m = XEN_SHM_META_PAGE_STATE_OPENED ∧
             receiver_state m = XEN_SHM_META_PAGE_STATE_NONE ∧ meta_pages_count m = n ∧
             offerer_ec_port m = local_ec_port i' ∧ take (length refs) (grant_refs m) = refs)
          (* no channel: every grant is ended and the pages are freed *)
          ∨ (e = - EIO ∧ r.1 = - EIO ∧ i' = ie ∧ state i' = XEN_SHM_STATE_OPENED ∧
             ∃ tr' a, undone refs tr' ∧
               ktrace k = (FreePages (k_ret alloc) order, a) :: tr' ++ ec ++ tr ++
                          (GetFreePages order, alloc) :: ktrace k0))).

Lemma channel_fields d i r i' tr :
  channel d i r i' tr →
  state i' = state i ∧ shared_memory i' = shared_memory i ∧ offerer_alloc_order i' = offerer_alloc_order i ∧
  (r = 0 ∨ r = - EIO).
Proof.
  intros [a [(_ & -> & -> & _)|(_ & b & [(_ & -> & -> & _)|(_ & -> & -> & _)])]]; auto.
Qed.

Lemma hd_lookup (refs l : list Z) :
  refs ≠ [] → take (length refs) l = refs → l !! 0%nat = Some (hd 0 refs).
Proof. destruct refs as [|r refs]; [done|]. intros _ Ht. by destruct l; simplify_eq/=. Qed.

(** From the grants on. *)
Lemma wp_offer_rest d i0 i arg alloc k0 k m :
  d ≠ 0 → 0 < off_pages_count arg < 128 →
  let n := off_pages_count arg + 1 in
  let order := Z.log2 n + 1 in
  i = offering arg order (k_ret alloc) i0 → state i0 = XEN_SHM_STATE_OPENED →
  heap k = <[d := i]> (heap k0) → ktrace k = (GetFreePages order, alloc) :: ktrace k0 →
  pages k !! k_ret alloc = Some (fresh_header n m) →
  Z.of_nat (length (grant_refs m)) = XEN_SHM_ALLOC_ALIGNED_PAGES →
  0 < k_ret alloc < 2 ^ 64 - 2 ^ 20 →
  wp (let* r := loop 257 (grant_body d) (0, shared_memory i) in
      match r with
      | inr (error, page) => let* e := undo_grant d error page in ret (e, arg)
      | inl (page, _) =>
          let* ref0 := load_grant_ref (shared_memory i) 0 in
          let arg := IoctlargOfferer (off_pages_count arg) (off_dist_domid arg) ref0 (local_domid i) in
          let* ref0 := load_grant_ref (shared_memory i) 0 in
          put_inst d (set_first_page_grant ref0) ;;
          let* error := __xen_shm_open_ec_offerer d in
          if negb (error =? 0) then let* e := undo_grant d error page in ret (e, arg) else
          let* data := get_inst d in
          store_page (shared_memory data) (set_offerer_ec_port (local_ec_port data)) ;;
          put_inst d (set_state XEN_SHM_STATE_OFFERER) ;;
          store_page (shared_memory data) (set_offerer_state XEN_SHM_META_PAGE_STATE_OPENED) ;;
          ret (0, arg)
      end) (offer_post d i0 arg k0) k.
Proof.
  intros Hd Hpc n order Hi Hst Hh Ht Hm Hlen Ha.
  assert (pages_count i = n) as Hn by (subst i; apply wrap_small; lia).
  assert (shared_memory i = k_ret alloc) as Hsh by (by subst i).
  assert (heap k !! d = Some i) as Hki by (by rewrite Hh, lookup_insert_eq).
  apply wp_bind. eapply wp_mono.
  { eapply wp_grant_loop; [done | done | lia | unfold XEN_SHM_ALLOC_ALIGNED_PAGES; lia | by rewrite Hsh | done]. }
  intros r k1 ([p ptr] & refs & -> & Hp & Hx & _ & Hh1 & (m1 & Hm1 & Ho1 & Hr1 & Hc1 & Hl1 & Htk) & tr & Ht1 & Hg).
  cbn [fst snd] in *. simpl in Ho1, Hr1, Hc1.
  assert (refs ≠ []) as Hne by (intros ->; simpl in *; lia).
  pose proof (hd_lookup _ _ Hne Htk) as H0.
  apply wp_bind. eapply wp_load_grant_private; [done | lia | exact H0 |]. intros k2 Hh2 Ht2 Hm2.
  cbv zeta. apply wp_bind. eapply wp_load_grant_private; [done | lia | exact H0 |]. intros k3 Hh3 Ht3 Hm3.
  apply wp_bind. eapply wp_put_inst; [done | by rewrite Hh3, Hh2, Hh1 |].
  set (ig := set_first_page_grant (hd 0 refs) i).
  apply wp_bind. eapply wp_mono; [apply (wp_open_ec_offerer d ig); [done | simpl; by rewrite lookup_insert_eq]|].
  intros e k4 (ie & ec & Hch & Hh4 & Hp4 & Ht4). simpl in Hh4, Hp4, Ht4.
  rewrite insert_insert_eq, Hh3, Hh2, Hh1, Hh, insert_insert_eq in Hh4.
  rewrite Ht3, Ht2, Ht1, Ht in Ht4.
  destruct (channel_fields _ _ _ _ _ Hch) as (Hste & Hshe & Hore & He).
  assert (heap k4 !! d = Some ie) as Hki4 by (by rewrite Hh4, lookup_insert_eq).
  assert (pages k4 !! shared_memory ie = Some m1) as Hm4 by (rewrite Hp4, Hshe; exact Hm3).
  apply wp_if; intros Hez; bool_hyps.
  - destruct He as [?|He]; [done|]. subst p. rewrite Hx. apply wp_bind.
    eapply wp_mono; [eapply (wp_undo_grant d ie m1 refs e); [done | done | | done | done]|].
    { rewrite Hshe. simpl. lia. }
    intros e' k5 (-> & Hh5 & tr' & a & Hu & Ht5). apply wp_ret.
    exists alloc, ie. split; [congruence|]. right. exists refs, tr, ie, e, ec. split; [lia|].
    split; [by subst i|]. split; [by subst ig i|]. right. simpl.
    split_and!; [done | done | done | rewrite Hste; subst ig i; done |].
    exists tr', a. split; [done|]. rewrite Ht5, Ht4, Hshe, Hore. by subst ig i.
  - subst e. apply wp_bind. eapply wp_get_inst; [done | done |].
    apply wp_bind. eapply wp_store_page_private; [done|]. intros k5 Hh5 Ht5 Hm5.
    apply wp_bind. eapply wp_put_inst; [done | by rewrite Hh5 |].
    apply wp_bind. eapply wp_store_page_private; [exact Hm5|]. intros k6 Hh6 Ht6 Hm6.
    apply wp_ret. simpl in Hh6, Ht6.
    exists alloc, (set_state XEN_SHM_STATE_OFFERER ie). split.
    { by rewrite Hh6, Hh5, Hh4, insert_insert_eq. }
    right. exists refs, tr, ie, 0, ec. split; [lia|]. split; [by subst i|]. split; [by subst ig i|]. left.
    split; [done|]. split; [by subst i|]. split; [done|]. split; [by rewrite Ht6, Ht5, Ht4|].
    eexists. split; [rewrite <-Hsh; change (shared_memory i) with (shared_memory ig); rewrite <-Hshe; exact Hm6|].
    simpl. split_and!; try done; lia.
Qed.

Hypothesis sound : pages_sound.

Lemma wp_init_offerer d i arg k :
  d ≠ 0 → heap k !! d = Some i → state i = XEN_SHM_STATE_OPENED → 0 < off_pages_count arg < 128 →
  wp (__xen_shm_ioctl_init_offerer d arg) (offer_post d i arg k) k.
Proof.
  intros Hd Hi Hst Hpc. apply wp_bind. eapply wp_get_inst; [done..|].
  rewrite bool_decide_eq_true_2 by done. simpl.
  unfold XEN_SHM_MAX_SHARED_PAGES, XEN_SHM_ALLOC_ALIGNED_PAGES.
  rewrite (proj2 (Z.eqb_neq _ _)), (proj2 (Z.ltb_ge _ _)) by lia. simpl.
  apply wp_bind. eapply wp_put_inst; [done..|].
  apply wp_bind. eapply wp_put_inst; [done | simpl; by rewrite lookup_insert_eq |]. simpl.
  rewrite insert_insert_eq. set (i1 := set_pages_count _ _).
  assert (pages_count i1 = off_pages_count arg + 1) as Hn by (apply wrap_small; lia).
  apply wp_bind, wp_bind. eapply wp_get_inst; [done | simpl; by rewrite lookup_insert_eq |].
  apply wp_bind. unfold wp at 1. rewrite alloc_order_is by lia. rewrite Hn.
  apply wp_bind, wp_call. cbv zeta. simpl. set (alloc := respond _ _).
  destruct sound as [Hlen Haddr]. specialize (Haddr (kclock k) (Z.log2 (off_pages_count arg + 1) + 1)).
  fold alloc in Haddr. apply wp_if; intros Ha; bool_hyps.
  { apply wp_ret, wp_ret. exists alloc, i1. split; [done|]. left. by split_and!. }
  apply wp_bind, wp_modify. simpl.
  apply wp_bind. eapply wp_put_inst; [done | simpl; by rewrite lookup_insert_eq |]. simpl.
  apply wp_bind. eapply wp_put_inst; [done | simpl; by rewrite lookup_insert_eq |]. simpl.
  rewrite !insert_insert_eq. apply wp_ret. simpl.
  set (i2 := set_shared_memory _ _). apply wp_bind.
  eapply (wp_init_header d i2); [done | simpl; by rewrite lookup_insert_eq | simpl; by rewrite lookup_insert_eq |].
  intros k1 Hh1 Ht1 Hm1. simpl in Hh1, Ht1.
  apply wp_bind. eapply wp_get_inst; [done | by rewrite Hh1, lookup_insert_eq |].
  change (pages_count i2) with (pages_count i1) in Hm1. rewrite Hn in Hm1.
  eapply wp_offer_rest; [done | lia | done | done | done | done | exact Hm1 | apply Hlen | lia].
Qed.
End Offer.
