(* ===== verification/KReceive.v ===== *)
(** Becoming a receiver: what INIT_RECEIVER leaves in the instance, in the header
    page and with the hypervisor, on success and on every failure. *)
From S2P Require Import Prelude Abi KDefs KEvent KMemory KIoctl KFile KRules KSpecs.
From stdpp Require Import gmap.
Open Scope Z_scope.
Open Scope c_scope.

Section Receive.
Context `{!KernelEnv}.

Abbreviation log := (list (kcall * kanswer)).

(** Binding the channel of [i] to the handler: done, or the channel is closed. *)
Definition bound (d : Z) (i : instance) (r : Z) (i' : instance) (tr : log) : Prop :=
  ∃ b, (k_ret b ≤ 0 ∧ r = - EIO ∧ i' = i ∧ ∃ c,
          tr = [(EvtchnClose (local_ec_port i), c); (BindEvtchnToIrqhandler (local_ec_port i) d, b)])
     ∨ (0 < k_ret b ∧ r = 0 ∧ i' = set_ec_irq (k_ret b) i ∧
        tr = [(BindEvtchnToIrqhandler (local_ec_port i) d, b)]).

Lemma wp_bind_handler d i k :
  d ≠ 0 → heap k !! d = Some i →
  wp (bind_handler d) (λ r k', ∃ i' tr, bound d i r i' tr ∧
    heap k' = <[d := i']> (heap k) ∧ pages k' = pages k ∧ ktrace k' = tr ++ ktrace k) k.
Proof.
  intros Hd Hi. apply wp_bind. eapply wp_get_inst; [done..|].
  apply wp_bind, wp_call. cbv zeta. set (b := respond _ _). apply wp_if; intros Hb; bool_hyps.
  - apply wp_bind, wp_bind, wp_call. apply wp_ret, wp_ret. exists i. eexists. split.
    { exists b. left. split_and!; [done..|]. by eexists. }
    simpl. split; [by rewrite insert_id|]. by split.
  - apply wp_bind. eapply wp_put_inst; [done..|]. apply wp_ret.
    exists (set_ec_irq (k_ret b) i). eexists. split; [exists b; right; by split_and! | done].
Qed.

(** Connecting to the offerer's channel, whose port was read in the header. *)
Definition connected (d : Z) (i : instance) (r : Z) (i' : instance) (tr : log) : Prop :=
  ∃ port a, let i1 := set_dist_ec_port port i in
    (k_ret a ≠ 0 ∧ r = - EIO ∧ i' = i1 ∧ tr = [(EvtchnBindInterdomain (distant_domid i) port, a)])
    ∨ (k_ret a = 0 ∧ ∃ tr', bound d (set_local_ec_port (k_out1 a) i1) r i' tr' ∧
       tr = tr' ++ [(EvtchnBindInterdomain (distant_domid i) port, a)]).

Lemma wp_open_ec_receiver d i k :
  d ≠ 0 → heap k !! d = Some i → is_Some (pages k !! shared_memory i) →
  wp (__xen_shm_open_ec_receiver d) (λ r k', ∃ i' tr, connected d i r i' tr ∧
    heap k' = <[d := i']> (heap k) ∧ is_Some (pages k' !! shared_memory i) ∧
    ktrace k' = tr ++ ktrace k) k.
Proof.
  intros Hd Hi Hp. apply wp_bind. eapply wp_get_inst; [done..|].
  apply wp_bind, wp_load_looked; [done|]. intros m0 k1 _ (Hh & Ht & _) Hp1. set (port := offerer_ec_port _).
  apply wp_bind. eapply wp_put_inst; [done | by rewrite Hh |].
  apply wp_bind. eapply wp_get_inst; [done | simpl; by rewrite lookup_insert_eq |].
  apply wp_bind, wp_call. cbv zeta. set (a := respond _ _). apply wp_if; intros Ha; bool_hyps.
  - apply wp_ret. exists (set_dist_ec_port port i). eexists. split.
    { exists port, a. left. by split_and!. }
    simpl. by rewrite Hh, Ht.
  - apply wp_bind. eapply wp_put_inst; [done | simpl; by rewrite lookup_insert_eq |].
    eapply wp_mono; [apply wp_bind_handler; [done | simpl; by rewrite lookup_insert_eq]|].
    intros r k2 (i' & tr & Hb & Hh2 & Hp2 & Ht2). simpl in *. eexists i', _. split.
    { exists port, a. right. split; [done|]. by exists tr. }
    rewrite Hh2, !insert_insert_eq, Hh, Hp2, Ht2, Ht, <-app_assoc. by split_and!.
Qed.

Lemma connected_fields d i r i' tr :
  connected d i r i' tr →
  state i' = state i ∧ shared_memory i' = shared_memory i ∧ unmapped_area i' = unmapped_area i ∧
  grant_map_handle0 i' = grant_map_handle0 i ∧ (r = 0 ∨ r = - EIO).
Proof.
  intros (port & a & Hc). cbv zeta in Hc. destruct Hc as [(_ & -> & -> & _)|(_ & tr' & Hb & _)]; [by auto 10|].
  destruct Hb as [b [(_ & -> & -> & _)|(_ & -> & -> & _)]]; auto 10.
Qed.

(** The instance once its domain, size and first page are set. *)
Definition receiving (arg : ioctlarg_receiver) (area : kanswer) (i : instance) : instance :=
  set_shared_memory (k_out1 area) (set_unmapped_area (k_ret area)
    (set_pages_count (u8 (rcv_pages_count arg + 1)) (set_first_page_grant (rcv_grant arg)
      (set_distant_domid (if rcv_dist_domid arg =? DOMID_SELF then local_domid i
                          else rcv_dist_domid arg) i)))).

(** The outcomes of INIT_RECEIVER on an opened instance [i], with [n] pages,
    header included; [seen] is the header when its page count was read. *)
Definition receive_post (d : Z) (i : instance) (arg : ioctlarg_receiver) (k0 : kernel) (r : Z)
    (k : kernel) : Prop :=
  let n := rcv_pages_count arg + 1 in
  let t := S (S (kclock k0)) in
  let seen := other_domain t (page_at t) in
  ∃ area i', heap k = <[d := i']> (heap k0) ∧
    ( (* no address space *)
     (k_ret area = 0 ∧ r = - ENOMEM ∧ state i' = XEN_SHM_STATE_OPENED ∧
      ktrace k = (AllocVmArea, area) :: ktrace k0)
     ∨ k_ret area ≠ 0 ∧ ∃ m,
         let ia := receiving arg area i in
         let maps := [(MapGrantRef (k_out1 area) (rcv_grant arg) (distant_domid ia), m);
                      (AllocVmArea, area)] in
         ( (* the grant cannot be mapped: the address space is freed *)
          (((k_ret m ≠ 0 ∧ r = - EFAULT) ∨ (k_ret m = 0 ∧ k_out1 m < 0 ∧ r = - EINVAL)) ∧
           state i' = XEN_SHM_STATE_OPENED ∧
           ∃ f, ktrace k = (FreeVmArea (k_ret area), f) :: maps ++ ktrace k0)
          ∨ (k_ret m = 0 ∧ 0 ≤ k_out1 m ∧ ∃ ec,
              let ih := set_grant_map_handle0 (k_out2 m) ia in
              ( (* the sizes differ, or no channel: the page is unmapped too *)
               (((n ≠ meta_pages_count seen ∧ r = - EINVAL ∧ ec = []) ∨
                 (n = meta_pages_count seen ∧ r = - EIO ∧ connected d ih r i' ec)) ∧
                state i' = XEN_SHM_STATE_OPENED ∧
                ∃ u f, ktrace k = (FreeVmArea (k_ret area), f) ::
                                  (UnmapGrantRef (k_out1 area) (k_out2 m), u) :: ec ++ maps ++ ktrace k0)
               (* the offerer is told *)
               ∨ (n = meta_pages_count seen ∧ r = 0 ∧
                  ∃ ie a, connected d ih 0 ie ec ∧ i' = set_state XEN_SHM_STATE_RECEIVER ie ∧
                    ktrace k = (NotifyRemoteViaEvtchn (local_ec_port i'), a) :: ec ++ maps ++ ktrace k0 ∧
                    ∃ h, pages k !! k_out1 area = Some h ∧
                      receiver_state h = XEN_SHM_META_PAGE_STATE_OPENED))))).

Lemma wp_undo_alloc d i e k :
  d ≠ 0 → heap k !! d = Some i → unmapped_area i ≠ 0 →
  wp (undo_alloc d e) (λ r k', r = e ∧ heap k' = heap k ∧
    ∃ f, ktrace k' = (FreeVmArea (unmapped_area i), f) :: ktrace k) k.
Proof.
  intros Hd Hi Ha. apply wp_bind, wp_bind. eapply wp_get_inst; [done..|].
  rewrite (proj2 (Z.eqb_neq _ _) Ha). apply wp_bind, wp_call. apply wp_ret, wp_ret.
  split_and!; [done..|]. by eexists.
Qed.

Lemma wp_undo_map d i e k :
  d ≠ 0 → heap k !! d = Some i → unmapped_area i ≠ 0 →
  wp (undo_map d e) (λ r k', r = e ∧ heap k' = heap k ∧
    ∃ u f, ktrace k' = (FreeVmArea (unmapped_area i), f) ::
      (UnmapGrantRef (shared_memory i) (grant_map_handle0 i), u) :: ktrace k) k.
Proof.
  intros Hd Hi Ha. apply wp_bind, wp_bind. eapply wp_get_inst; [done..|].
  apply wp_bind, wp_call. cbv zeta. apply wp_bind.
  assert (∀ u k1, heap k1 = heap k → ktrace k1 = (UnmapGrantRef (shared_memory i) (grant_map_handle0 i), u) :: ktrace k →
    wp (undo_alloc d e) (λ r k', r = e ∧ heap k' = heap k ∧
      ∃ u f, ktrace k' = (FreeVmArea (unmapped_area i), f) ::
        (UnmapGrantRef (shared_memory i) (grant_map_handle0 i), u) :: ktrace k) k1) as Hrest.
  { intros u k1 Hh Ht. eapply wp_mono; [apply (wp_undo_alloc d i); [done | by rewrite Hh | done]|].
    intros r k2 (-> & Hh2 & f & Ht2). split_and!; [done | congruence |]. exists u, f. congruence. }
  apply wp_when; intros _; [apply wp_modify|]; apply wp_ret; by eapply Hrest.
Qed.

(** From the page count on: [ih] is the instance, [tr] the calls so far, [seen]
    the header. *)
Lemma wp_receive_rest d ih k seen :
  d ≠ 0 → heap k !! d = Some ih → unmapped_area ih ≠ 0 → state ih = XEN_SHM_STATE_OPENED →
  pages k !! shared_memory ih = Some seen →
  let seen' := other_domain (kclock k) seen in
  wp (let* count := load_page (shared_memory ih) meta_pages_count in
      if negb (pages_count ih =? count) then undo_map d (- EINVAL) else
      let* error := __xen_shm_open_ec_receiver d in
      if negb (error =? 0) then undo_map d error else
      put_inst d (set_state XEN_SHM_STATE_RECEIVER) ;;
      store_page (shared_memory ih) (set_receiver_state XEN_SHM_META_PAGE_STATE_OPENED) ;;
      let* data := get_inst d in
      call_ (NotifyRemoteViaEvtchn (local_ec_port data)) ;;
      ret 0)
    (λ r k', ∃ i' ec, heap k' = <[d := i']> (heap k) ∧
      ((((pages_count ih ≠ meta_pages_count seen' ∧ r = - EINVAL ∧ ec = [] ∧ i' = ih) ∨
         (pages_count ih = meta_pages_count seen' ∧ r = - EIO ∧ connected d ih r i' ec)) ∧
        ∃ u f, ktrace k' = (FreeVmArea (unmapped_area ih), f) ::
                           (UnmapGrantRef (shared_memory ih) (grant_map_handle0 ih), u) :: ec ++ ktrace k)
       ∨ (pages_count ih = meta_pages_count seen' ∧ r = 0 ∧
          ∃ ie a, connected d ih 0 ie ec ∧ i' = set_state XEN_SHM_STATE_RECEIVER ie ∧
            ktrace k' = (NotifyRemoteViaEvtchn (local_ec_port i'), a) :: ec ++ ktrace k ∧
            ∃ h, pages k' !! shared_memory ih = Some h ∧
              receiver_state h = XEN_SHM_META_PAGE_STATE_OPENED))) k.
Proof.
  intros Hd Hi Ha Hs Hp seen'. apply wp_bind. eapply wp_load_page; [done|]. fold seen'.
  apply wp_if; intros Hc; bool_hyps.
  { eapply wp_mono; [apply (wp_undo_map d ih); done|]. intros r k1 (-> & Hh & Ht).
    exists ih, []. split; [rewrite Hh; simpl; by rewrite insert_id|]. left. split; [by left | exact Ht]. }
  apply wp_bind. eapply wp_mono.
  { apply (wp_open_ec_receiver d ih); [done | done |]. simpl. rewrite lookup_insert_eq. by eexists. }
  intros e k1 (ie & ec & Hcon & Hh & Hp1 & Ht). simpl in Hh, Ht.
  destruct (connected_fields _ _ _ _ _ Hcon) as (_ & Hsh & Har & Hgr & He).
  assert (heap k1 !! d = Some ie) as Hie by (by rewrite Hh, lookup_insert_eq).
  apply wp_if; intros Hez; bool_hyps.
  - destruct He as [?| ->]; [done|].
    eapply wp_mono; [apply (wp_undo_map d ie); [done | done | congruence]|].
    intros r k2 (-> & Hh2 & u & f & Ht2). exists ie, ec. split; [congruence|]. left.
    split; [by right|]. exists u, f. rewrite Ht2, Ht. congruence.
  - subst e. apply wp_bind. eapply wp_put_inst; [done..|].
    apply wp_bind. destruct Hp1 as [m1 Hm1]. apply wp_bind. eapply wp_get_page; [exact Hm1|].
    apply wp_modify. apply wp_bind. eapply wp_get_inst; [done | simpl; by rewrite lookup_insert_eq |].
    apply wp_bind, wp_bind, wp_call. apply wp_ret, wp_ret.
    eexists (set_state XEN_SHM_STATE_RECEIVER ie), ec. simpl. split; [by rewrite Hh, insert_insert_eq|].
    right. split_and!; [done..|]. exists ie. eexists. split; [done|]. split; [done|].
    split; [by rewrite Ht|]. rewrite lookup_insert_eq. by eexists.
Qed.

Lemma wp_init_receiver d i arg k :
  d ≠ 0 → heap k !! d = Some i → state i = XEN_SHM_STATE_OPENED → 0 < rcv_pages_count arg < 128 →
  wp (__xen_shm_ioctl_init_receiver d arg) (receive_post d i arg k) k.
Proof.
  intros Hd Hi Hst Hpc. apply wp_bind. eapply wp_get_inst; [done..|].
  rewrite bool_decide_eq_true_2 by done. simpl.
  unfold XEN_SHM_MAX_SHARED_PAGES, XEN_SHM_ALLOC_ALIGNED_PAGES.
  rewrite (proj2 (Z.eqb_neq _ _)), (proj2 (Z.ltb_ge _ _)) by lia. simpl.
  do 3 (apply wp_bind; eapply wp_put_inst; [done | simpl; rewrite ?lookup_insert_eq; done |]; simpl;
        rewrite ?insert_insert_eq).
  apply wp_bind, wp_call. cbv zeta. simpl. set (area := respond _ _).
  apply wp_bind. eapply wp_put_inst; [done | simpl; by rewrite lookup_insert_eq |]. simpl. rewrite insert_insert_eq.
  apply wp_if; intros Har; bool_hyps.
  { apply wp_ret. exists area. eexists. split; [reflexivity|]. left. by split_and!. }
  apply wp_bind. eapply wp_put_inst; [done | simpl; by rewrite lookup_insert_eq |]. simpl. rewrite insert_insert_eq.
  fold (receiving arg area i). set (ia := receiving arg area i).
  apply wp_bind. eapply wp_get_inst; [done | simpl; by rewrite lookup_insert_eq |].
  apply wp_bind, wp_call. cbv zeta. simpl. set (m := respond _ _).
  assert (∀ e k1, heap k1 = <[d := ia]> (heap k) →
    ktrace k1 = (MapGrantRef (k_out1 area) (rcv_grant arg) (distant_domid ia), m) :: (AllocVmArea, area) :: ktrace k →
    (k_ret m ≠ 0 ∧ e = - EFAULT) ∨ (k_ret m = 0 ∧ k_out1 m < 0 ∧ e = - EINVAL) →
    wp (undo_alloc d e) (receive_post d i arg k) k1) as Hundo.
  { intros e k1 Hh Ht Hm. eapply wp_mono; [apply (wp_undo_alloc d ia); [done | by rewrite Hh, lookup_insert_eq | done]|].
    intros r k2 (-> & Hh2 & f & Ht2). exists area, ia. split; [congruence|]. right. split; [done|].
    exists m. left. split; [done|]. split; [done|]. exists f. by rewrite Ht2, Ht. }
  apply wp_if; intros Hm0; bool_hyps; [apply Hundo; auto|].
  apply wp_if; intros Hm1; bool_hyps; [apply Hundo; auto|].
  apply wp_bind, wp_modify, wp_bind. simpl.
  eapply wp_put_inst; [done | simpl; by rewrite lookup_insert_eq |]. simpl. rewrite insert_insert_eq.
  eapply wp_mono.
  { eapply (wp_receive_rest d (set_grant_map_handle0 (k_out2 m) ia));
      [done | simpl; by rewrite lookup_insert_eq | done | done | simpl; by rewrite lookup_insert_eq]. }
  simpl. intros r k2 (i' & ec & Hh & Hcases). rewrite insert_insert_eq in Hh.
  assert (u8 (rcv_pages_count arg + 1) = rcv_pages_count arg + 1) as Hn by (apply wrap_small; lia).
  rewrite Hn in Hcases. exists area, i'. split; [done|]. right. split; [done|]. exists m. right.
  split; [done|]. split; [lia|]. exists ec.
  destruct Hcases as [[Hc Ht]|Hok]; [left | right; exact Hok].
  destruct Hc as [(? & ? & ? & ->)|(? & ? & Hcon)].
  - split; [left; by split_and!|]. split; [done | exact Ht].
  - split; [right; by split_and!|]. split; [|exact Ht].
    destruct (connected_fields _ _ _ _ _ Hcon) as (-> & _). done.
Qed.
End Receive.
