(* ===== verification/KMap.v ===== *)
(** Mapping the receiver's pages: what mmap does on success and on each failure,
    for paravirtualised guests and for the others. *)
From S2P Require Import Prelude Abi KDefs KEvent KMemory KIoctl KFile KRules KSpecs KMemSpecs.
From stdpp Require Import gmap.
Open Scope Z_scope.
Open Scope c_scope.

Section Map.
Context `{!KernelEnv}.

Abbreviation log := (list (kcall * kanswer)).

(** The header has a fixed size; the answers have one entry per page. *)
Definition headers_sized : Prop := ∀ t m, length (grant_refs (other_domain t m)) = length (grant_refs m).
Definition answers_sized : Prop :=
  (∀ t n, 0 ≤ n → let r := respond t (AllocXenballoonedPages n) in
     k_ret r = 0 → Z.of_nat (length (k_outs r)) = n) ∧
  (∀ t ops kops n, 0 ≤ n → Z.of_nat (length (k_outs (respond t (GnttabMapRefs ops kops n)))) = n) ∧
  (∀ t start size, 0 ≤ size → let r := respond t (ApplyToPageRange start size) in
     Z.of_nat (length (k_outs r)) ≤ size / PAGE_SIZE ∧
     (k_ret r = 0 → Z.of_nat (length (k_outs r)) = size / PAGE_SIZE)).

Hypothesis headers : headers_sized.
Hypothesis answers : answers_sized.

(** ** The instance while it is being mapped *)

(** The header at [a] has the references of [n] pages. *)
Definition header_of (n a : Z) (k : kernel) : Prop :=
  ∃ m, pages k !! a = Some m ∧ n ≤ Z.of_nat (length (grant_refs m)).

(** Only the operations of [i'] differ from those of [i]. *)
Definition ops_only (i i' : instance) : Prop :=
  i' = set_map_ops (map_ops i') (set_unmap_ops (unmap_ops i') (set_kmap_ops (kmap_ops i') i)) ∧
  length (map_ops i') = length (map_ops i) ∧ length (unmap_ops i') = length (unmap_ops i) ∧
  length (kmap_ops i') = length (kmap_ops i).

(** Room for the operations of the data pages. *)
Definition fits (i : instance) : Prop :=
  0 < pages_count i ≤ XEN_SHM_ALLOC_ALIGNED_PAGES ∧
  pages_count i - 1 ≤ Z.of_nat (length (map_ops i)) ∧
  pages_count i - 1 ≤ Z.of_nat (length (unmap_ops i)) ∧
  pages_count i - 1 ≤ Z.of_nat (length (kmap_ops i)) ∧
  pages_count i - 1 ≤ Z.of_nat (length (user_pages i)).

Definition at_work (d : Z) (i : instance) (k0 : kernel) (i' : instance) (tr : log) (k : kernel) : Prop :=
  heap k = <[d := i']> (heap k0) ∧ ops_only i i' ∧
  header_of (pages_count i) (shared_memory i) k ∧ ktrace k = tr ++ ktrace k0.

Lemma ops_only_refl i : ops_only i i.
Proof. split_and!; [by destruct i | done..]. Qed.

Lemma ops_only_fields i i' :
  ops_only i i' →
  pages_count i' = pages_count i ∧ shared_memory i' = shared_memory i ∧ user_pages i' = user_pages i ∧
  use_ptemod i' = use_ptemod i ∧ user_mem i' = user_mem i ∧ distant_domid i' = distant_domid i ∧
  state i' = state i.
Proof. intros [-> _]. by destruct i. Qed.

Lemma at_work_inst d i k0 i' tr k : at_work d i k0 i' tr k → heap k !! d = Some i'.
Proof. intros [-> _]. by rewrite lookup_insert_eq. Qed.

(** Storing operations keeps the instance at work. *)
Lemma at_work_put d i k0 i' tr k i2 :
  at_work d i k0 i' tr k → ops_only i' i2 → at_work d i k0 i2 tr (set_heap (<[d := i2]> (heap k)) k).
Proof.
  intros (Hh & (Ei & L1 & L2 & L3) & Hp & Ht) (Ei2 & M1 & M2 & M3).
  split; [simpl; by rewrite Hh, insert_insert_eq|]. split; [|by split].
  split; [rewrite Ei2, Ei; by destruct i | split_and!; congruence].
Qed.

Lemma ops_only_map i l : length l = length (map_ops i) → ops_only i (set_map_ops l i).
Proof. intros. split_and!; [by destruct i | done..]. Qed.
Lemma ops_only_unmap i l : length l = length (unmap_ops i) → ops_only i (set_unmap_ops l i).
Proof. intros. split_and!; [by destruct i | done..]. Qed.
Lemma ops_only_kmap i l : length l = length (kmap_ops i) → ops_only i (set_kmap_ops l i).
Proof. intros. split_and!; [by destruct i | done..]. Qed.

Lemma at_work_call d i k0 i' tr k c r :
  at_work d i k0 i' tr k →
  at_work d i k0 i' ((c, r) :: tr) (set_kclock (S (kclock k)) (set_ktrace ((c, r) :: ktrace k) k)).
Proof. intros (Hh & Ho & Hp & Ht). split; [done|]. split; [done|]. split; [done|]. simpl. by rewrite Ht. Qed.

(** Reading a reference in the header. *)
Lemma wp_load_ref d i k0 i' tr p Q k :
  at_work d i k0 i' tr k → 0 ≤ p < pages_count i →
  (∀ ref k', at_work d i k0 i' tr k' → Q ref k') →
  wp (load_grant_ref (shared_memory i) p) Q k.
Proof.
  intros (Hh & Ho & (m & Hm & Hlen) & Ht) Hp HQ. apply wp_bind. eapply wp_load_page; [done|].
  destruct (lookup_lt_is_Some_2 (grant_refs (other_domain (kclock k) m)) (Z.to_nat p)) as [ref Hr];
    [rewrite headers; lia|].
  eapply wp_nth_of; [lia | done |]. apply HQ. split; [done|]. split; [done|]. split; [|done].
  eexists. simpl. rewrite lookup_insert_eq. split; [done | by rewrite headers].
Qed.

(** ** Loops over the data pages *)

Lemma wp_for_pages n body (I : Z → kernel → Prop) Q k :
  (∀ q k, 0 ≤ q < n → I q k → wp (body q) (λ q' k', q' = q + 1 ∧ I q' k') k) →
  0 ≤ n ≤ XEN_SHM_ALLOC_ALIGNED_PAGES → I 0 k → (∀ k', I n k' → Q tt k') →
  wp (for_pages n body) Q k.
Proof.
  unfold XEN_SHM_ALLOC_ALIGNED_PAGES. intros Hb Hn H0 HQ. apply wp_bind. eapply wp_mono.
  { apply (wp_while (λ q k', 0 ≤ q ≤ n ∧ I q k') (λ q, n - q) _ _ (λ q k', q = n ∧ I n k')).
    - intros q k1 [Hq HI] Hc. bool_hyps. eapply wp_mono; [apply Hb; [lia | done]|].
      intros q' k2 [-> HI']. split; [split; [lia | done] | lia].
    - intros q k1 [Hq HI] Hc. bool_hyps. assert (q = n) as -> by lia. done.
    - split; [lia | done].
    - lia. }
  intros q k1 [-> HI]. by apply wp_ret, HQ.
Qed.

(** The operations of the first [q] pages satisfy [P]. *)
Definition each (P : nat → map_op → unmap_op → Prop) (q : Z) (i : instance) : Prop :=
  ∀ p, Z.of_nat p < q → ∃ m u, map_ops i !! p = Some m ∧ unmap_ops i !! p = Some u ∧ P p m u.

Lemma each_nil P i : each P 0 i.
Proof. intros p Hp. lia. Qed.

Lemma each_next P q m u i i' :
  0 ≤ q → each P q i → P (Z.to_nat q) m u →
  map_ops i' !! Z.to_nat q = Some m → unmap_ops i' !! Z.to_nat q = Some u →
  (∀ p, Z.of_nat p < q → map_ops i' !! p = map_ops i !! p ∧ unmap_ops i' !! p = unmap_ops i !! p) →
  each P (q + 1) i'.
Proof.
  intros Hq He HP Hm Hu Hold p Hp. destruct (decide (p = Z.to_nat q)) as [->|]; [by exists m, u|].
  destruct (Hold p) as [-> ->]; [lia|]. apply He. lia.
Qed.

Lemma each_mono (P P' : nat → map_op → unmap_op → Prop) q i :
  (∀ p m u, P p m u → P' p m u) → each P q i → each P' q i.
Proof. intros HP He p Hp. destruct (He p Hp) as (m & u & ? & ? & ?). exists m, u. auto. Qed.

(** Where the operations of page [p] say the page is: with page table entries,
    both say the same; without, the second holds the flags instead. *)
Definition addressed (i : instance) (p : nat) (m : map_op) (u : unmap_op) : Prop :=
  if use_ptemod i then unmap_addr u = map_addr m
  else unmap_addr u = GNTMAP_host_map ∧
       ∃ pg, user_pages i !! p = Some pg ∧ map_addr m = kaddr_of_page pg.

Definition prepared (i : instance) (p : nat) (m : map_op) (u : unmap_op) : Prop :=
  addressed i p m u ∧ unmap_handle u = NO_HANDLE.

(** The loop for guests without page table entries. *)
Lemma wp_map_body d i k0 i' q k :
  d ≠ 0 → fits i → use_ptemod i = false → 0 ≤ q < pages_count i - 1 →
  at_work d i k0 i' [] k → each (prepared i) q i' →
  wp (map_body d q) (λ q' k', q' = q + 1 ∧ ∃ i2, at_work d i k0 i2 [] k' ∧ each (prepared i) q' i2) k.
Proof.
  intros Hd (Hn & L1 & L2 & _ & L4) Hpt Hq Hw He.
  pose proof Hw as (_ & Ho & _ & _). pose proof (ops_only_fields _ _ Ho) as (_ & Esh & Epg & _).
  destruct Ho as (_ & M1 & M2 & _).
  destruct (lookup_lt_is_Some_2 (user_pages i) (Z.to_nat q)) as [pg Hpg]; [lia|].
  destruct (lookup_lt_is_Some_2 (map_ops i') (Z.to_nat q)) as [old Hold]; [lia|].
  apply wp_bind. eapply wp_get_inst; [done | by eapply at_work_inst |]. rewrite Esh, Epg.
  apply wp_bind. eapply wp_nth_of; [lia | done |].
  apply wp_bind. eapply wp_load_ref; [done | lia |]. intros ref k1 Hw1.
  apply wp_bind. eapply wp_nth_of; [lia | done |].
  apply wp_bind, wp_set_nth; [lia|].
  apply wp_bind. eapply wp_put_inst; [done | by eapply at_work_inst |].
  eapply at_work_put in Hw1; [|apply ops_only_map; apply length_insert].
  apply wp_bind. eapply wp_load_ref; [done | lia |]. intros ref' k2 Hw2.
  apply wp_bind, wp_set_nth; [lia|].
  apply wp_bind. eapply wp_put_inst; [done | by eapply at_work_inst |].
  eapply at_work_put in Hw2; [|apply ops_only_unmap; apply length_insert].
  apply wp_ret. split; [done|]. eexists. split; [exact Hw2|].
  eapply each_next; [lia | done | | simpl; by rewrite list_lookup_insert_eq by lia.. |].
  - unfold prepared, addressed. rewrite Hpt. split; [|done]. split; [done|]. by exists pg.
  - intros p Hp. simpl. by rewrite !list_lookup_insert_ne by lia.
Qed.

(** With page table entries: the call back of [apply_to_page_range]. *)
Lemma wp_construct d i vma k0 i' q pte k :
  d ≠ 0 → fits i → use_ptemod i = true → user_mem i = Some vma → 0 ≤ vm_start vma →
  0 ≤ q < pages_count i - 1 → at_work d i k0 i' [] k → each (prepared i) q i' →
  wp (__xen_shm_contruct_receiver_k_ops pte (vm_start vma + q * PAGE_SIZE) d)
    (λ r k', r = 0 ∧ ∃ i2, at_work d i k0 i2 [] k' ∧ each (prepared i) (q + 1) i2) k.
Proof.
  intros Hd (Hn & L1 & L2 & _) Hpt Hum Hvs Hq Hw He. unfold XEN_SHM_ALLOC_ALIGNED_PAGES in Hn.
  pose proof Hw as (_ & Ho & _ & _). pose proof (ops_only_fields _ _ Ho) as (_ & Esh & _ & _ & Eum & _).
  destruct Ho as (_ & M1 & M2 & _).
  destruct (lookup_lt_is_Some_2 (map_ops i') (Z.to_nat q)) as [old Hold]; [lia|].
  assert (u32 (Z.shiftr (u64 (vm_start vma + q * PAGE_SIZE - vm_start vma)) PAGE_SHIFT) = q) as Hoff.
  { rewrite Z.shiftr_div_pow2 by done. unfold u64, u32, PAGE_SIZE, PAGE_SHIFT.
    rewrite (wrap_small 64) by lia. change (2 ^ 12) with 4096.
    replace (vm_start vma + q * 4096 - vm_start vma) with (q * 4096) by lia.
    rewrite Z.div_mul by lia. apply wrap_small. lia. }
  apply wp_bind. eapply wp_get_inst; [done | by eapply at_work_inst |]. rewrite Eum, Hum, Hoff, Esh. cbv zeta.
  apply wp_bind. eapply wp_load_ref; [done | lia |]. intros ref k1 Hw1.
  apply wp_bind. eapply wp_nth_of; [lia | done |].
  apply wp_bind, wp_set_nth; [lia|].
  apply wp_bind. eapply wp_put_inst; [done | by eapply at_work_inst |].
  eapply at_work_put in Hw1; [|apply ops_only_map; apply length_insert].
  apply wp_bind, wp_set_nth; [lia|].
  apply wp_bind. eapply wp_put_inst; [done | by eapply at_work_inst |].
  eapply at_work_put in Hw1; [|apply ops_only_unmap; apply length_insert].
  apply wp_ret. split; [done|]. eexists. split; [exact Hw1|].
  eapply each_next; [lia | done | | simpl; by rewrite list_lookup_insert_eq by lia.. |].
  - unfold prepared, addressed. by rewrite Hpt.
  - intros p Hp. simpl. by rewrite !list_lookup_insert_ne by lia.
Qed.

(** The whole walk: an error leaves at most a part of the operations written. *)
Lemma wp_apply d i vma size k0 k :
  d ≠ 0 → fits i → use_ptemod i = true → user_mem i = Some vma → 0 ≤ vm_start vma →
  0 ≤ size → size / PAGE_SIZE = pages_count i - 1 → at_work d i k0 i [] k →
  wp (apply_to_page_range d (vm_start vma) size)
    (λ r k', ∃ a i2, at_work d i (set_ktrace ((ApplyToPageRange (vm_start vma) size, a) :: ktrace k0) k0) i2 [] k' ∧
       (r = 0 → each (prepared i) (pages_count i - 1) i2)) k.
Proof.
  intros Hd Hf Hpt Hum Hvs Hsize Hsz Hw. apply wp_bind, wp_call. cbv zeta. set (a := respond _ _).
  set (k0' := set_ktrace ((ApplyToPageRange (vm_start vma) size, a) :: ktrace k0) k0).
  assert (Z.of_nat (length (k_outs a)) ≤ pages_count i - 1 ∧
    (k_ret a = 0 → Z.of_nat (length (k_outs a)) = pages_count i - 1)) as [Hle Heq].
  { rewrite <-Hsz. by apply answers. }
  apply wp_bind. eapply wp_mono.
  { apply (wp_loop (λ x k', 0 ≤ x.1 ∧ x.1 + Z.of_nat (length x.2) = Z.of_nat (length (k_outs a)) ∧
        ∃ i2, at_work d i k0' i2 [] k' ∧ each (prepared i) x.1 i2)
      (λ x _, Z.of_nat (length x.2)) _
      (λ r k', ∃ x i2, r = inl x ∧ at_work d i k0' i2 [] k' ∧
         each (prepared i) (Z.of_nat (length (k_outs a))) i2)).
    - intros [q rest] k1 (Hq & Hlen & i2 & Hw2 & He2). cbn [fst snd] in *. unfold apply_body. simpl.
      destruct rest as [|[pte x] rest].
      + apply wp_ret. exists (q, []), i2. split; [done|]. split; [done|]. simpl in Hlen.
        by replace (Z.of_nat (length (k_outs a))) with q by lia.
      + simpl in Hlen. apply wp_bind. eapply wp_mono; [eapply wp_construct; try done; lia|].
        intros r k2 (-> & i3 & Hw3 & He3). simpl. apply wp_ret. simpl.
        split; [|lia]. split; [lia|]. split; [lia|]. by exists i3.
    - split; [done|]. split; [done|]. exists i. split; [|apply each_nil].
      destruct Hw as (Hh & Ho & Hp & Ht). split; [exact Hh|]. split; [exact Ho|]. split; [exact Hp|].
      simpl. by rewrite Ht.
    - simpl. lia. }
  intros r k2 (x & i2 & -> & Hw2 & He2). apply wp_ret. exists a, i2. split; [done|].
  intros Hr. by rewrite Heq in He2.
Qed.

Lemma wp_kmap_body d i k0 i' q k n :
  d ≠ 0 → fits i → 0 ≤ q < pages_count i - 1 → at_work d i k0 i' [] k → each (prepared i) n i' →
  wp (kmap_body d q) (λ q' k', q' = q + 1 ∧ ∃ i2, at_work d i k0 i2 [] k' ∧ each (prepared i) n i2) k.
Proof.
  intros Hd (Hn & L1 & L2 & L3 & L4) Hq Hw He.
  pose proof Hw as (_ & Ho & _ & _). pose proof (ops_only_fields _ _ Ho) as (_ & Esh & Epg & _).
  destruct Ho as (_ & _ & _ & M3).
  destruct (lookup_lt_is_Some_2 (user_pages i) (Z.to_nat q)) as [pg Hpg]; [lia|].
  destruct (lookup_lt_is_Some_2 (kmap_ops i') (Z.to_nat q)) as [old Hold]; [lia|].
  apply wp_bind. eapply wp_get_inst; [done | by eapply at_work_inst |]. rewrite Esh, Epg.
  apply wp_bind. eapply wp_nth_of; [lia | done |].
  apply wp_bind. eapply wp_load_ref; [done | lia |]. intros ref k1 Hw1.
  apply wp_bind. eapply wp_nth_of; [lia | done |].
  apply wp_bind, wp_set_nth; [lia|].
  apply wp_bind. eapply wp_put_inst; [done | by eapply at_work_inst |].
  eapply at_work_put in Hw1; [|apply ops_only_kmap; apply length_insert].
  apply wp_ret. split; [done|]. eexists. split; [exact Hw1|]. exact He.
Qed.

(** ** The hypervisor's answers *)

Lemma length_answer_ops ops outs : length (answer_ops ops outs) = length ops.
Proof.
  revert outs. induction ops as [|op ops IH]; intros [|[st h] outs]; simpl; [done..|]. by rewrite IH.
Qed.

Lemma lookup_answer_ops ops outs p op st h :
  ops !! p = Some op → outs !! p = Some (st, h) →
  answer_ops ops outs !! p = Some (MapOp (map_addr op) (map_flags op) (map_ref op) (map_dom op) st h).
Proof.
  revert outs p. induction ops as [|op' ops IH]; intros [|[st' h'] outs] [|p] H1 H2; simplify_eq/=; auto.
Qed.

(** What the hypervisor answers about a page of [i]. *)
Definition answered (outs : list (Z * Z)) (p : nat) (m : map_op) : Prop :=
  outs !! p = Some (map_status m, map_handle m).

Lemma wp_gnttab_map_refs d i k0 i' k :
  d ≠ 0 → fits i → at_work d i k0 i' [] k → each (prepared i) (pages_count i - 1) i' →
  wp (gnttab_map_refs d) (λ r k', ∃ mo ko a i2, r = k_ret a ∧
    Z.of_nat (length (k_outs a)) = pages_count i - 1 ∧
    at_work d i k0 i2 [(GnttabMapRefs mo ko (pages_count i - 1), a)] k' ∧
    each (λ p m u, prepared i p m u ∧ answered (k_outs a) p m) (pages_count i - 1) i2) k.
Proof.
  intros Hd Hf Hw He. apply wp_bind. eapply wp_get_inst; [done | by eapply at_work_inst |].
  pose proof Hw as (_ & Ho & _ & _). pose proof (ops_only_fields _ _ Ho) as (Ec & _ & _ & Ept & _).
  rewrite Ec, Ept.
  apply wp_bind, wp_call. cbv zeta. set (mo := map_ops i'). set (ko := if use_ptemod i then _ else _).
  set (a := respond _ _). assert (Z.of_nat (length (k_outs a)) = pages_count i - 1) as Hlen by (apply answers; destruct Hf; lia).
  eapply (at_work_call _ _ _ _ _ _ (GnttabMapRefs mo ko (pages_count i - 1)) a) in Hw.
  apply wp_bind. eapply wp_put_inst; [done | by eapply at_work_inst |].
  eapply at_work_put in Hw; [|apply ops_only_map; apply (length_answer_ops _ (k_outs a))].
  apply wp_ret. exists mo, ko, a. eexists. split; [done|]. split; [done|]. split; [exact Hw|].
  intros p Hp. destruct (He p Hp) as (m & u & Hm & Hu & Had & Hh).
  destruct (lookup_lt_is_Some_2 (k_outs a) p) as [[st h] Hout]; [lia|].
  eexists _, u. simpl. split; [by eapply lookup_answer_ops|]. split; [done|]. split; [|done]. split; [|done].
  unfold addressed in *. by destruct (use_ptemod i).
Qed.

(** After the first [q] answers were looked at. *)
Definition marked (i : instance) (outs : list (Z * Z)) (q : Z) (p : nat) (m : map_op) (u : unmap_op) : Prop :=
  addressed i p m u ∧ answered outs p m ∧
  unmap_handle u = if (Z.of_nat p <? q) && (map_status m =? 0) then map_handle m else NO_HANDLE.

Definition check_result (outs : list (Z * Z)) (q err : Z) : Prop :=
  (err = 0 ∧ ∀ p st h, Z.of_nat p < q → outs !! p = Some (st, h) → st = 0)
  ∨ (err = - EINVAL ∧ ∃ p st h, Z.of_nat p < q ∧ outs !! p = Some (st, h) ∧ st ≠ 0).

Lemma check_result_next outs q err st h :
  0 ≤ q → check_result outs q err → outs !! Z.to_nat q = Some (st, h) →
  check_result outs (q + 1) (if st =? 0 then err else - EINVAL).
Proof.
  intros Hq Hc Ho. destruct (Z.eqb_spec st 0) as [->|Hst].
  - destruct Hc as [[-> Hall]|[-> (p & st & h' & Hp & ? & ?)]]; [left|right].
    + split; [done|]. intros p st' h' Hp Hp'. destruct (decide (p = Z.to_nat q)) as [->|]; [congruence|].
      apply (Hall p st' h'); [lia | done].
    + split; [done|]. exists p, st, h'. split; [lia | done].
  - right. split; [done|]. exists (Z.to_nat q), st, h. split; [lia | done].
Qed.

Lemma wp_check_body d i k0 i' tr outs q err k :
  d ≠ 0 → fits i → 0 ≤ q < pages_count i - 1 → at_work d i k0 i' tr k →
  each (marked i outs q) (pages_count i - 1) i' → check_result outs q err →
  wp (check_body d (q, err)) (λ x k', x.1 = q + 1 ∧ check_result outs x.1 x.2 ∧
    ∃ i2, at_work d i k0 i2 tr k' ∧ each (marked i outs x.1) (pages_count i - 1) i2) k.
Proof.
  intros Hd Hf Hq Hw He Hc. pose proof Hw as (_ & (_ & M1 & M2 & _) & _). destruct Hf as (Hn & L1 & L2 & _).
  destruct (He (Z.to_nat q)) as (m & u & Hm & Hu & Had & Han & Hh); [lia|].
  pose proof (check_result_next _ _ _ _ _ (proj1 Hq) Hc Han) as Hc'.
  apply wp_bind. eapply wp_get_inst; [done | by eapply at_work_inst |].
  apply wp_bind. eapply wp_nth_of; [lia | done |].
  assert (∀ p m' u', p ≠ Z.to_nat q → marked i outs q p m' u' → marked i outs (q + 1) p m' u') as Hother.
  { intros p m' u' Hp (A & B & C). split; [done|]. split; [done|]. rewrite C.
    replace (Z.of_nat p <? q + 1) with (Z.of_nat p <? q); [done|]. apply Bool.eq_iff_eq_true.
    rewrite !Z.ltb_lt. lia. }
  apply wp_if; intros Hs; bool_hyps.
  - apply wp_ret. simpl. rewrite (proj2 (Z.eqb_neq _ _) Hs) in Hc'. split_and!; [done..|].
    exists i'. split; [done|]. intros p Hp. destruct (He p Hp) as (m' & u' & ? & ? & HM).
    exists m', u'. split_and!; [done..|]. destruct (decide (p = Z.to_nat q)) as [->|]; [|by apply Hother].
    destruct HM as (A & B & C). simplify_eq. split; [done|]. split; [done|]. rewrite Hh.
    rewrite (proj2 (Z.eqb_neq _ _) Hs). by rewrite !andb_false_r.
  - apply wp_bind. eapply wp_nth_of; [lia | done |].
    apply wp_bind, wp_set_nth; [lia|].
    apply wp_bind. eapply wp_put_inst; [done | by eapply at_work_inst |].
    eapply at_work_put in Hw; [|apply ops_only_unmap; apply length_insert].
    apply wp_ret. simpl. rewrite Hs in Hc'. split; [done|]. split; [exact Hc'|].
    eexists. split; [exact Hw|]. simpl. intros p Hp. simpl. destruct (decide (p = Z.to_nat q)) as [->|Hne].
    + exists m. eexists. split; [done|]. rewrite list_lookup_insert_eq by lia. split; [done|].
      split; [unfold addressed in *; by destruct (use_ptemod i)|]. split; [done|]. simpl.
      rewrite Hs. by rewrite (proj2 (Z.ltb_lt _ _)) by lia.
    + destruct (He p Hp) as (m' & u' & ? & ? & HM). exists m', u'.
      rewrite list_lookup_insert_ne by done. split_and!; [done..|]. by apply Hother.
Qed.

Lemma wp_check d i k0 i' tr outs k :
  d ≠ 0 → fits i → at_work d i k0 i' tr k →
  each (λ p m u, prepared i p m u ∧ answered outs p m) (pages_count i - 1) i' →
  let n := pages_count i - 1 in
  wp (while 257 (λ x, x.1 <? n) (check_body d) (0, 0)) (λ x k',
    check_result outs n x.2 ∧ ∃ i2, at_work d i k0 i2 tr k' ∧ each (marked i outs n) n i2) k.
Proof.
  intros Hd Hf Hw He n. pose proof Hf as (Hn & _). unfold XEN_SHM_ALLOC_ALIGNED_PAGES in Hn.
  apply (wp_while (λ x k', 0 ≤ x.1 ≤ n ∧ check_result outs x.1 x.2 ∧
      ∃ i2, at_work d i k0 i2 tr k' ∧ each (marked i outs x.1) n i2) (λ x, n - x.1)).
  - intros [q err] k1 (Hq & Hc & i2 & Hw2 & He2) Hlt. cbn [fst snd] in *. bool_hyps.
    eapply wp_mono; [eapply wp_check_body; try done; lia|].
    intros [q' err'] k2 (Hq' & Hc' & Hi). simpl in *. subst q'. split; [|lia]. split; [lia|]. by split.
  - intros [q err] k1 (Hq & Hc & Hi) Hge. cbn [fst snd] in *. bool_hyps. assert (q = n) as -> by lia. by split.
  - simpl. split; [lia|]. split; [left; split; [done | lia]|]. exists i'. split; [done|].
    eapply each_mono; [|exact He]. intros p m u [[A B] C]. split_and!; [done..|].
    rewrite (proj2 (Z.ltb_ge _ _)) by lia. exact B.
  - simpl. lia.
Qed.

(** Inserting the pages in the user's area changes nothing in the instance. *)
Lemma wp_insert d i start k0 i' tr k :
  d ≠ 0 → fits i → at_work d i k0 i' tr k →
  wp (loop 257 (insert_body d start) 0) (λ r k', ∃ tr', unmap_calls tr' = [] ∧
    at_work d i k0 i' (tr' ++ tr) k') k.
Proof.
  intros Hd Hf Hw. pose proof Hf as (Hn & _ & _ & _ & L4). unfold XEN_SHM_ALLOC_ALIGNED_PAGES in Hn.
  apply (wp_loop (λ q k', 0 ≤ q ≤ pages_count i - 1 ∧ ∃ tr', unmap_calls tr' = [] ∧ at_work d i k0 i' (tr' ++ tr) k')
    (λ q _, pages_count i - 1 - q)).
  - intros q k1 (Hq & tr' & Htr & Hw1). pose proof Hw1 as (_ & Ho & _).
    pose proof (ops_only_fields _ _ Ho) as (Ec & _ & Epg & _).
    apply wp_bind. eapply wp_get_inst; [done | by eapply at_work_inst |]. rewrite Ec, Epg.
    apply wp_if; intros Hc; bool_hyps; [by apply wp_ret; exists tr'|].
    destruct (lookup_lt_is_Some_2 (user_pages i) (Z.to_nat q)) as [pg Hpg]; [lia|].
    apply wp_bind. eapply wp_nth_of; [lia | done |].
    apply wp_bind, wp_call. cbv zeta. set (r := respond _ _).
    eapply (at_work_call _ _ _ _ _ _ (VmInsertPage (start + q * PAGE_SIZE) pg) r) in Hw1.
    assert (unmap_calls ((VmInsertPage (start + q * PAGE_SIZE) pg, r) :: tr') = []) as Hun.
    { rewrite unmap_calls_cons, Htr. done. }
    apply wp_if; intros _; apply wp_ret; [eexists; split; [exact Hun | exact Hw1]|].
    split; [|lia]. split; [lia|]. eexists. split; [exact Hun | exact Hw1].
  - split; [lia|]. by exists [].
  - lia.
Qed.

(** ** Cleaning up *)

Abbreviation is_set := (λ u, is_mapped u = true).

(** The first [q] pages of [ops] were unmapped. *)
Definition cleaned (ops : list unmap_op) (q : Z) (i : instance) (tr : log) : Prop :=
  unmap_ops i = (unmapped <$> take (Z.to_nat q) ops) ++ drop (Z.to_nat q) ops ∧
  unmap_calls tr = filter is_set (take (Z.to_nat q) ops).

Lemma unmapped_id u : is_mapped u = false → unmapped u = u.
Proof.
  unfold is_mapped, unmapped. intros Hu. bool_hyps. destruct u. simpl in *. by subst.
Qed.

Lemma cleaned_next ops q i i' u tr tr' :
  0 ≤ q → ops !! Z.to_nat q = Some u → cleaned ops q i tr →
  unmap_ops i' = <[Z.to_nat q := unmapped u]> (unmap_ops i) →
  unmap_calls tr' = unmap_calls tr ++ (if is_mapped u then [u] else []) →
  cleaned ops (q + 1) i' tr'.
Proof.
  intros Hq Hu [Ho Hc] Ho' Hc'. unfold cleaned. replace (Z.to_nat (q + 1)) with (S (Z.to_nat q)) by lia.
  rewrite (take_S_r _ _ _ Hu), fmap_app, filter_app. split.
  - rewrite Ho', Ho, (drop_S _ _ _ Hu). rewrite <-app_assoc. simpl.
    apply lookup_lt_Some in Hu.
    rewrite insert_app_r_alt by (rewrite length_fmap, length_take; lia).
    rewrite length_fmap, length_take. by replace (_ - _)%nat with 0%nat by lia.
  - rewrite Hc', Hc. f_equal. destruct (is_mapped u) eqn:E.
    + by rewrite filter_cons_True.
    + rewrite filter_cons_False; [done | congruence].
Qed.

Lemma wp_clean_body d i k0 i' tr0 tr ops q k :
  d ≠ 0 → fits i → length ops = length (unmap_ops i) → 0 ≤ q < pages_count i - 1 →
  at_work d i k0 i' (tr ++ tr0) k → cleaned ops q i' tr →
  wp (clean_body d q) (λ q' k', q' = q + 1 ∧ ∃ i2 tr', at_work d i k0 i2 (tr' ++ tr0) k' ∧ cleaned ops q' i2 tr') k.
Proof.
  intros Hd (Hn & L1 & L2 & L3 & L4) Hl Hq Hw Hcl. pose proof Hw as (_ & Ho & _).
  pose proof (ops_only_fields _ _ Ho) as (_ & _ & Epg & _). destruct Ho as (_ & _ & M2 & M3).
  destruct (lookup_lt_is_Some_2 ops (Z.to_nat q)) as [u Hu]; [lia|].
  assert (unmap_ops i' !! Z.to_nat q = Some u) as Hu'.
  { rewrite (proj1 Hcl), lookup_app_r by (rewrite length_fmap, length_take; lia).
    rewrite length_fmap, length_take, lookup_drop, <-Hu. f_equal. lia. }
  destruct (lookup_lt_is_Some_2 (kmap_ops i') (Z.to_nat q)) as [kop Hkop]; [lia|].
  destruct (lookup_lt_is_Some_2 (user_pages i) (Z.to_nat q)) as [pg Hpg]; [lia|].
  apply wp_bind. eapply wp_get_inst; [done | by eapply at_work_inst |]. rewrite Epg.
  apply wp_bind. eapply wp_nth_of; [lia | done |]. fold (is_mapped u).
  apply wp_bind, wp_when; intros Hm.
  - apply wp_bind. eapply wp_nth_of; [lia | done |]. apply wp_bind. eapply wp_nth_of; [lia | done |].
    apply wp_bind, wp_bind, wp_call. cbv zeta. set (c := GnttabUnmapRefs _ _ _). set (r := respond _ _).
    apply wp_ret. eapply (at_work_call _ _ _ _ _ _ c r) in Hw.
    apply wp_bind, wp_set_nth; [lia|]. eapply wp_put_inst; [done | by eapply at_work_inst |].
    eapply at_work_put in Hw; [|apply ops_only_unmap; apply length_insert].
    apply wp_ret. split; [done|]. eexists _, ((c, r) :: tr). split; [exact Hw|].
    eapply cleaned_next; [lia | done | done | done |]. by rewrite unmap_calls_cons, Hm.
  - apply wp_ret. split; [done|]. exists i', tr. split; [done|].
    eapply cleaned_next; [lia | done | done | |].
    + rewrite unmapped_id by done. by rewrite list_insert_id.
    + by rewrite Hm, app_nil_r.
Qed.

Lemma wp_mmap_clean_pages d k0 i' tr k :
  d ≠ 0 → heap k = <[d := i']> (heap k0) → ktrace k = tr ++ ktrace k0 →
  wp (mmap_clean_pages d) (λ r k', r = - EFAULT ∧ heap k' = <[d := set_user_mem None i']> (heap k0) ∧
    ∃ a, ktrace k' = (FreeXenballoonedPages (pages_count i' - 1) (user_pages i'), a) :: tr ++ ktrace k0) k.
Proof.
  intros Hd Hh Ht. apply wp_bind. eapply wp_put_inst; [done | by rewrite Hh, lookup_insert_eq |].
  apply wp_bind. eapply wp_get_inst; [done | simpl; by rewrite lookup_insert_eq |].
  apply wp_bind, wp_bind, wp_call. apply wp_ret, wp_ret. split; [done|]. simpl.
  split; [by rewrite Hh, insert_insert_eq|]. eexists. by rewrite Ht.
Qed.

Lemma wp_mmap_clean d i k0 i' tr0 k :
  d ≠ 0 → fits i → at_work d i k0 i' tr0 k →
  wp (mmap_clean d) (λ r k', r = - EFAULT ∧ ∃ i2 tr a,
    heap k' = <[d := set_user_mem None i2]> (heap k0) ∧ ops_only i i2 ∧
    cleaned (unmap_ops i') (pages_count i - 1) i2 tr ∧
    ktrace k' = (FreeXenballoonedPages (pages_count i - 1) (user_pages i), a) :: tr ++ tr0 ++ ktrace k0) k.
Proof.
  intros Hd Hf Hw. pose proof Hf as (Hn & _). pose proof Hw as (_ & Ho & _).
  pose proof (ops_only_fields _ _ Ho) as (Ec & _). destruct Ho as (_ & _ & M2 & _).
  apply wp_bind. eapply wp_get_inst; [done | by eapply at_work_inst |]. rewrite Ec. apply wp_bind.
  apply (wp_for_pages _ _ (λ q k', ∃ i2 tr, at_work d i k0 i2 (tr ++ tr0) k' ∧ cleaned (unmap_ops i') q i2 tr)).
  - intros q k1 Hq (i2 & tr & Hw2 & Hc2). by eapply wp_clean_body.
  - lia.
  - exists i', []. split; [done|]. by split.
  - intros k1 (i2 & tr & Hw2 & Hc2). pose proof Hw2 as (Hh & Ho2 & _ & Ht).
    pose proof (ops_only_fields _ _ Ho2) as (Ec2 & _ & Epg & _).
    eapply wp_mono; [eapply wp_mmap_clean_pages; done|].
    intros r k2 (-> & Hh2 & a & Ht2). split; [done|]. exists i2, tr, a. split_and!; [done..|].
    by rewrite Ht2, Ec2, Epg, <-app_assoc.
Qed.

(** ** Mapping everything *)

Definition mapped (i : instance) (outs : list (Z * Z)) (p : nat) (m : map_op) (u : unmap_op) : Prop :=
  addressed i p m u ∧ outs !! p = Some (0, map_handle m) ∧ unmap_handle u = map_handle m.

(** All the pages; or none keeps a handle, and one call was made to unmap each page
    the hypervisor had answered to be mapped, in order, none if the mapping itself
    failed. Nothing is said of what these calls do. *)
Definition map_post (d : Z) (i : instance) (k0 : kernel) (r : Z) (k : kernel) : Prop :=
  let n := pages_count i - 1 in
  ∃ mo ko a i2 tr, ops_only i i2 ∧ ktrace k = tr ++ (GnttabMapRefs mo ko n, a) :: ktrace k0 ∧
    ((r = 0 ∧ k_ret a = 0 ∧ heap k = <[d := set_state XEN_SHM_STATE_RECEIVER_MAPPED i2]> (heap k0) ∧
      each (mapped i (k_outs a)) n i2 ∧ unmap_calls tr = [])
     ∨ (r = - EFAULT ∧ heap k = <[d := set_user_mem None i2]> (heap k0) ∧
        each (λ _ _ u, unmap_handle u = NO_HANDLE) n i2 ∧
        (k_ret a ≠ 0 → unmap_calls tr = []) ∧
        (k_ret a = 0 → ∀ p h, k_outs a !! p = Some (0, h) → h ≠ NO_HANDLE →
           ∃ u, u ∈ unmap_calls tr ∧ unmap_handle u = h) ∧
        (k_ret a = 0 → ∃ i1, each (marked i (k_outs a) n) n i1 ∧
           unmap_calls tr = filter is_set (take (Z.to_nat n) (unmap_ops i1))))).

Lemma wp_clean_after d i k0 mo ko a i' tr0 k :
  d ≠ 0 → fits i → unmap_calls tr0 = [] → k_ret a = 0 →
  Z.of_nat (length (k_outs a)) = pages_count i - 1 →
  at_work d i k0 i' (tr0 ++ [(GnttabMapRefs mo ko (pages_count i - 1), a)]) k →
  each (marked i (k_outs a) (pages_count i - 1)) (pages_count i - 1) i' →
  wp (mmap_clean d) (map_post d i k0) k.
Proof.
  intros Hd Hf Htr Ha Hlen Hw He. pose proof Hf as (Hn & L1 & L2 & _).
  eapply wp_mono; [by eapply wp_mmap_clean|].
  intros r k1 (-> & i2 & tr & x & Hh & Ho & [Hun Hcalls] & Ht).
  pose proof Hw as (_ & Ho' & _). destruct Ho' as (_ & _ & M2 & _). pose proof Ho as (_ & N1 & N2 & _).
  set (n := pages_count i - 1) in *.
  exists mo, ko, a, i2, ((FreeXenballoonedPages n (user_pages i), x) :: tr ++ tr0).
  assert (unmap_calls ((FreeXenballoonedPages n (user_pages i), x) :: tr ++ tr0) =
    filter is_set (take (Z.to_nat n) (unmap_ops i'))) as Hall.
  { rewrite unmap_calls_cons, app_nil_r. unfold unmap_calls in *. by rewrite rev_app_distr, omap_app, Htr, Hcalls. }
  split; [done|]. split; [rewrite Ht; simpl; by rewrite <-!app_assoc|]. right. split_and!; [done..| | done | | by exists i'].
  - intros p Hp. destruct (He p Hp) as (m & u & Hm & Hu & _).
    destruct (lookup_lt_is_Some_2 (map_ops i2) p) as [m2 Hm2]; [lia|].
    exists m2, (unmapped u). split; [done|]. split; [|done].
    rewrite Hun, lookup_app_l by (rewrite length_fmap, length_take; lia).
    rewrite list_lookup_fmap, lookup_take_lt by lia. by rewrite Hu.
  - intros _ p h Hp Hne. pose proof (lookup_lt_Some _ _ _ Hp).
    destruct (He p) as (m & u & Hm & Hu & _ & Han & Hmark); [lia|]. rewrite Han in Hp. injection Hp as Hs Hhd.
    rewrite Hs, Hhd, (proj2 (Z.ltb_lt _ _)) in Hmark by lia. exists u. split; [|done].
    rewrite Hall. apply list_elem_of_filter. split; [unfold is_mapped; rewrite Hmark; by apply negb_true_iff, Z.eqb_neq|].
    apply list_elem_of_lookup. exists p. rewrite lookup_take_lt by lia. done.
Qed.

(** Nothing was mapped: nothing is unmapped. *)
Lemma wp_clean_unmapped d i k0 mo ko a i' k :
  d ≠ 0 → fits i → k_ret a ≠ 0 →
  at_work d i k0 i' [(GnttabMapRefs mo ko (pages_count i - 1), a)] k →
  each (λ _ _ u, unmap_handle u = NO_HANDLE) (pages_count i - 1) i' →
  wp (mmap_clean d) (map_post d i k0) k.
Proof.
  intros Hd Hf Ha Hw He. pose proof Hf as (Hn & L1 & L2 & _).
  eapply wp_mono; [by eapply wp_mmap_clean|].
  intros r k1 (-> & i2 & tr & x & Hh & Ho & [Hun Hcalls] & Ht).
  pose proof Hw as (_ & Ho' & _). destruct Ho' as (_ & _ & M2 & _). pose proof Ho as (_ & N1 & N2 & _).
  set (n := pages_count i - 1) in *.
  exists mo, ko, a, i2, ((FreeXenballoonedPages n (user_pages i), x) :: tr).
  split; [done|]. split; [by rewrite Ht|]. right. split_and!; [done..| | | done | done].
  - intros p Hp. destruct (He p Hp) as (m & u & Hm & Hu & _).
    destruct (lookup_lt_is_Some_2 (map_ops i2) p) as [m2 Hm2]; [lia|].
    exists m2, (unmapped u). split; [done|]. split; [|done].
    rewrite Hun, lookup_app_l by (rewrite length_fmap, length_take; lia).
    rewrite list_lookup_fmap, lookup_take_lt by lia. by rewrite Hu.
  - intros _. rewrite unmap_calls_cons, app_nil_r, Hcalls.
    assert (Forall (λ u, ¬ is_mapped u = true) (take (Z.to_nat n) (unmap_ops i'))) as Hall.
    { apply Forall_lookup_2. intros p u Hp. apply lookup_take_Some in Hp as [Hp ?].
      destruct (He p) as (m & u' & _ & Hu & Hno); [lia|]. simplify_eq. unfold is_mapped. by rewrite Hno. }
    clear -Hall. induction Hall as [|u us Hu _ IH]; [done|]. by rewrite filter_cons_False.
Qed.

Lemma wp_mmap_map d i vma k0 i' k :
  d ≠ 0 → fits i → at_work d i k0 i' [] k → each (prepared i) (pages_count i - 1) i' →
  wp (mmap_map d vma) (map_post d i k0) k.
Proof.
  intros Hd Hf Hw He. pose proof Hw as (_ & Ho & _).
  pose proof (ops_only_fields _ _ Ho) as (Ec & _ & _ & Ept & _).
  apply wp_bind. eapply wp_get_inst; [done | by eapply at_work_inst |]. rewrite Ec, Ept.
  apply wp_bind. eapply wp_mono; [by eapply wp_gnttab_map_refs|].
  intros err k1 (mo & ko & a & i1 & -> & Hlen & Hw1 & He1).
  apply wp_if; intros Ha; bool_hyps.
  { eapply wp_clean_unmapped; [done | done | exact Ha | exact Hw1 |].
    eapply each_mono; [|exact He1]. by intros p m u [[_ ?] _]. }
  apply wp_bind. eapply wp_mono; [by eapply wp_check|].
  intros [q err] k2 (Hc & i2 & Hw2 & He2). cbn [fst snd] in *.
  apply wp_if; intros Herr; bool_hyps.
  { eapply (wp_clean_after d i k0 mo ko a i2 []); done. }
  destruct Hc as [[_ Hall]|[Hbad _]]; [|by subst].
  apply wp_bind.
  assert (wp (if negb (use_ptemod i) then loop 257 (insert_body d (vm_start vma)) 0 else ret (inl 0))
    (λ r k', ∃ tr', unmap_calls tr' = [] ∧
      at_work d i k0 i2 (tr' ++ [(GnttabMapRefs mo ko (pages_count i - 1), a)]) k') k2) as Hins.
  { apply wp_if; intros _; [by apply wp_insert|]. apply wp_ret. by exists []. }
  eapply wp_mono; [exact Hins|]. intros [q'|err'] k3 (tr' & Htr & Hw3).
  - apply wp_bind. eapply wp_put_inst; [done | by eapply at_work_inst |]. apply wp_ret.
    destruct Hw3 as (Hh & Ho3 & _ & Ht). exists mo, ko, a, i2, tr'. split; [done|].
    split; [simpl; by rewrite Ht, <-app_assoc|]. left. split_and!; [done | done | | | done].
    + simpl. by rewrite Hh, insert_insert_eq.
    + intros p Hp. destruct (He2 p Hp) as (m & u & Hm & Hu & Had & Han & Hmk).
      pose proof (Hall _ _ _ Hp Han) as Hs. exists m, u. split_and!; [done..|]. split; [done|].
      rewrite Hs, (proj2 (Z.ltb_lt _ _)) in Hmk by lia. split; [|done]. by rewrite <-Hs.
  - by eapply (wp_clean_after d i k0 mo ko a i2 tr').
Qed.

(** ** mmap on a receiver *)

(** The instance with its pages and its area. *)
Definition mmapping (vma : vm_area) (pgs : list Z) (i : instance) : instance :=
  let flags := Z.lor (vm_flags vma) (Z.lor VM_RESERVED VM_DONTEXPAND) in
  set_user_mem (Some (VmArea (vm_start vma) (vm_end vma)
    (if use_ptemod i then Z.lor flags VM_DONTCOPY else flags))) (set_user_pages pgs i).

(** The outcomes of mmap on a receiver [i]. *)
Definition mmap_post (d : Z) (i : instance) (vma : vm_area) (k0 : kernel) (r : Z) (k : kernel) : Prop :=
  let n := pages_count i - 1 in
  ( (* not the size of the shared memory *)
   Z.shiftr (u64 (vm_end vma - vm_start vma)) PAGE_SHIFT ≠ n ∧ r = - EINVAL ∧ k = k0)
  ∨ Z.shiftr (u64 (vm_end vma - vm_start vma)) PAGE_SHIFT = n ∧ ∃ b,
    ( (* no page to map at *)
     (k_ret b ≠ 0 ∧ r = - EFAULT ∧ heap k = <[d := set_user_mem None i]> (heap k0) ∧
      ∃ c, ktrace k = [(FreeXenballoonedPages n (user_pages i), c); (AllocXenballoonedPages n, b)] ++ ktrace k0)
     ∨ k_ret b = 0 ∧
       let im := mmapping vma (fst <$> k_outs b) i in
       ( (* the page tables cannot be prepared *)
        (r = - EFAULT ∧ use_ptemod i = true ∧ ∃ i2 tr, ops_only im i2 ∧
          heap k = <[d := set_user_mem None i2]> (heap k0) ∧
          ktrace k = tr ++ (AllocXenballoonedPages n, b) :: ktrace k0 ∧
          Forall (λ p, match p.1 with GnttabMapRefs _ _ _ => False | _ => True end) tr)
        ∨ ∃ k1 tr, heap k1 = <[d := im]> (heap k0) ∧
            ktrace k1 = tr ++ (AllocXenballoonedPages n, b) :: ktrace k0 ∧ map_post d im k1 r k)).

(** From the pages on. *)
Lemma wp_mmap_rest d im vma tr k0 k :
  d ≠ 0 → fits im → user_mem im = Some vma → 0 ≤ vm_start vma →
  Z.shiftr (u64 (vm_end vma - vm_start vma)) PAGE_SHIFT = pages_count im - 1 →
  heap k = <[d := im]> (heap k0) → ktrace k = tr ++ ktrace k0 →
  header_of (pages_count im) (shared_memory im) k →
  wp (if use_ptemod im then
        let* err := apply_to_page_range d (vm_start vma) (u64 (vm_end vma - vm_start vma)) in
        if negb (err =? 0) then mmap_clean_pages d else
        for_pages (pages_count im - 1) (kmap_body d) ;;
        mmap_map d vma
      else
        for_pages (pages_count im - 1) (map_body d) ;;
        mmap_map d vma)
    (λ r k', (r = - EFAULT ∧ use_ptemod im = true ∧ ∃ i2 a c, ops_only im i2 ∧
        heap k' = <[d := set_user_mem None i2]> (heap k0) ∧
        ktrace k' = [(FreeXenballoonedPages (pages_count im - 1) (user_pages im), c);
                     (ApplyToPageRange (vm_start vma) (u64 (vm_end vma - vm_start vma)), a)] ++ tr ++ ktrace k0)
      ∨ ∃ k1 tr1, heap k1 = <[d := im]> (heap k0) ∧ ktrace k1 = tr1 ++ tr ++ ktrace k0 ∧ map_post d im k1 r k') k.
Proof.
  intros Hd Hf Hum Hvs Hsz Hh Ht Hp. pose proof Hf as (Hn & _).
  assert (∀ k1, heap k1 = heap k → at_work d im k1 im [] k1 ↔ header_of (pages_count im) (shared_memory im) k1) as Hat.
  { intros k1 Hk1. split; [by intros (_ & _ & ? & _)|]. intros ?. split; [|split; [apply ops_only_refl | by split]].
    by rewrite insert_id by (by rewrite Hk1, Hh, lookup_insert_eq). }
  pose proof (proj2 (Hat k eq_refl) Hp) as Hw.
  apply wp_if; intros Hpt.
  - apply wp_bind. eapply wp_mono; [eapply wp_apply; try done; try by apply wrap_range|].
    { rewrite <-Hsz, Z.shiftr_div_pow2 by done. done. }
    intros err k1 (a & i2 & Hw1 & He1). set (k0' := set_ktrace _ k) in *.
    apply wp_if; intros Herr; bool_hyps.
    + destruct Hw1 as (Hh1 & Ho1 & _ & Ht1). pose proof (ops_only_fields _ _ Ho1) as (Ec & _ & Epg & _).
      eapply wp_mono; [by eapply wp_mmap_clean_pages|].
      intros r k2 (-> & Hh2 & c & Ht2). left. split; [done|]. split; [done|]. exists i2, a, c. split; [done|].
      split; [by rewrite Hh2; simpl; rewrite Hh, insert_insert_eq|].
      rewrite Ht2. simpl. by rewrite Ht, Ec, Epg.
    + apply wp_bind. apply (wp_for_pages _ _ (λ q k', ∃ i3, at_work d im k0' i3 [] k' ∧
        each (prepared im) (pages_count im - 1) i3)).
      * intros q k2 Hq (i3 & Hw3 & He3). by eapply wp_kmap_body.
      * lia.
      * exists i2. auto.
      * intros k2 (i3 & Hw3 & He3). eapply wp_mono; [by eapply wp_mmap_map|].
        intros r k3 Hpost. right. exists k0', [(ApplyToPageRange (vm_start vma) (u64 (vm_end vma - vm_start vma)), a)].
        split; [done|]. split; [simpl; by rewrite Ht | done].
  - apply wp_bind. apply (wp_for_pages _ _ (λ q k', ∃ i3, at_work d im k i3 [] k' ∧ each (prepared im) q i3)).
    + intros q k2 Hq (i3 & Hw3 & He3). by eapply wp_map_body.
    + lia.
    + exists im. split; [done | apply each_nil].
    + intros k2 (i3 & Hw3 & He3). eapply wp_mono; [by eapply wp_mmap_map|].
      intros r k3 Hpost. right. by exists k, [].
Qed.

Lemma wp_mmap_receiver d i vma k :
  d ≠ 0 → heap k !! d = Some i → fits i → 0 ≤ vm_start vma →
  header_of (pages_count i) (shared_memory i) k →
  wp (mmap_receiver d vma) (mmap_post d i vma k) k.
Proof.
  intros Hd Hi Hf Hvs Hp. pose proof Hf as (Hn & L1 & L2 & L3 & _).
  apply wp_bind. eapply wp_get_inst; [done..|].
  apply wp_if; intros Hsz; bool_hyps; [apply wp_ret; by left|].
  cbv zeta. apply wp_bind, wp_call. cbv zeta. set (b := respond _ _).
  assert (k_ret b = 0 → Z.of_nat (length (k_outs b)) = pages_count i - 1) as Hlen by (apply answers; lia).
  apply wp_bind. eapply wp_put_inst; [done..|]. apply wp_if; intros Hb; bool_hyps.
  - rewrite (proj2 (Z.eqb_neq _ _) Hb).
    eapply wp_mono; [apply (wp_mmap_clean_pages d k (set_user_pages (user_pages i) i) [(AllocXenballoonedPages (pages_count i - 1), b)]); done|].
    intros r k1 (-> & Hh & c & Ht). right. split; [done|]. exists b. left. split; [done|]. split; [done|].
    split; [rewrite Hh; by destruct i | by exists c].
  - rewrite Hb. simpl. apply wp_bind. eapply wp_put_inst; [done | simpl; by rewrite lookup_insert_eq |].
    simpl. rewrite insert_insert_eq.
    eapply wp_mono.
    { apply (wp_mmap_rest d (mmapping vma (fst <$> k_outs b) i) (VmArea (vm_start vma) (vm_end vma) _)
        [(AllocXenballoonedPages (pages_count i - 1), b)] k); try done.
      split; [done|]. split; [done|]. split; [done|]. split; [done|]. simpl. rewrite length_fmap. by rewrite Hlen. }
    intros r k1 Hcases. right. split; [done|]. exists b. right. split; [done|]. cbv zeta.
    destruct Hcases as [(-> & Hpt & i2 & a & c & Ho & Hh & Ht)|(k2 & tr & Hh & Ht & Hpost)]; [left|right].
    + split; [done|]. split; [done|]. exists i2. eexists [_; _]. split; [done|]. split; [done|].
      split; [exact Ht|]. by repeat constructor.
    + by exists k2, tr.
Qed.
End Map.
