(* ===== verification/KRuns.v ===== *)
(** Runs of the module: any sequence of its entry points, which are the file
    operations, the event handler, the notifier's operations, and loading and
    unloading. *)
From S2P Require Import Prelude Abi KDefs KEvent KMemory KIoctl KFile KRules KKeeps KState.
From stdpp Require Import gmap relations.
Open Scope Z_scope.
Open Scope c_scope.

(** [xen_shm_file_ops], [xen_shm_mmu_ops], the interrupt handler, [module_init]
    and [module_exit]. *)
Inductive entry :=
| OpenFile (filp : Z) (mem : instance)
| IoctlFile (filp : Z) (cmd : ioctl_command) (arg : ioctl_arg) (garbage : Z)
| MmapFile (filp : Z) (vma : vm_area)
| ReleaseFile (filp : Z)
| Interrupt (d : Z)
| InvalidateRange (d start end_ : Z)
| InvalidatePage (d address : Z)
| MmRelease (d : Z)
| LoadModule
| UnloadModule.

Section Runs.
Context `{!KernelEnv}.

Definition run_entry (e : entry) : M kernel Z :=
  match e with
  | OpenFile f m => xen_shm_open f m
  | IoctlFile f c a g => let* r := xen_shm_ioctl f c a g in ret r.1
  | MmapFile f v => xen_shm_mmap f v
  | ReleaseFile f => xen_shm_release f
  | Interrupt d => xen_shm_event_handler d ;; ret 0
  | InvalidateRange d s e => __xen_shm_mn_invl_range_start d s e ;; ret 0
  | InvalidatePage d a => __xen_shm_mn_invl_page d a ;; ret 0
  | MmRelease d => __xen_shm_mn_release d ;; ret 0
  | LoadModule => xen_shm_init
  | UnloadModule => xen_shm_cleanup ;; ret 0
  end.

Definition is_open (e : entry) : bool := match e with OpenFile _ _ => true | _ => false end.
Definition step (k k' : kernel) : Prop := ∃ e r, run_entry e k = Done r k'.
(** Without new instances, whose addresses may be those of freed ones. *)
Definition step_no_open (k k' : kernel) : Prop := ∃ e r, is_open e = false ∧ run_entry e k = Done r k'.

Lemma step_queue k k' : step k k' → queue_kept k k'.
Proof.
  intros (e & r & E). assert (keeps queue_kept (run_entry e)) as Hk; [|exact (Hk _ _ _ E)].
  assert (∀ A (m : M kernel A), keeps queue_kept m → keeps queue_kept (m ;; ret 0)) as Hret.
  { intros A m Hm. apply kkeeps_bind; [exact _ | done | intros _; apply kkeeps_ret, _]. }
  destruct e; simpl.
  - apply queue_open.
  - apply kkeeps_bind; [exact _ | apply queue_ioctl | intros; apply kkeeps_ret, _].
  - apply queue_mmap.
  - apply queue_release.
  - apply Hret, keeps_event_handler, queue_harmless. exact _.
  - apply Hret, keeps_invl_range, queue_harmless. exact _.
  - apply Hret, keeps_invl_range, queue_harmless. exact _.
  - apply Hret, keeps_mn_release, queue_harmless. exact _.
  - apply queue_init.
  - apply Hret, queue_cleanup.
Qed.

Lemma steps_queue k k' : rtc step k k' → queue_kept k k'.
Proof.
  induction 1 as [k|k1 k2 k3 Hs _ IH]; [by intros ?|].
  intros Hq. by apply IH, (step_queue _ _ Hs).
Qed.

Hypothesis waits : wait_lawful.

Lemma still_get_domid_hack : keeps still __xen_shm_get_domid_hack.
Proof. unfold __xen_shm_get_domid_hack. auto 60 with keeps. Qed.

#[local] Hint Extern 1 (keeps (inst_kept _) (modify _)) => apply still_modify; intros; reflexivity : keeps.

Lemma still_register_device : keeps still register_device.
Proof.
  intros k a k' E. unfold register_device in E.
  match type of E with ?m k = _ => assert (keeps still m) as Hk by auto 60 with keeps end.
  exact (Hk _ _ _ E).
Qed.

Lemma still_init_device : keeps still init_device.
Proof.
  apply kkeeps_bind; [exact _ | apply still_register_device | intros res; auto 60 with keeps].
Qed.

Lemma still_init : keeps still xen_shm_init.
Proof.
  intros k a k' E. unfold xen_shm_init in E. destruct (PAGE_SIZE <? sizeof_meta_page).
  { injection E as <- <-. apply kept_refl. }
  destruct (xen_shm_domid k =? 0); [|by eapply still_init_device].
  assert (∀ v, keeps still (modify (set_domid v) ;; init_device)) as Hd.
  { intros v. apply kkeeps_bind; [exact _ | by apply still_modify | intros _; apply still_init_device]. }
  match type of E with ?m k = _ => assert (keeps still m) as Hk end; [|exact (Hk _ _ _ E)].
  apply kkeeps_bind; [exact _ | apply still_get_domid_hack | intros res].
  auto 60 with keeps.
Qed.

Lemma step_evolved k k' : step_no_open k k' → evolved k k'.
Proof.
  intros (e & r & Ho & E).
  assert (∀ A (m : M kernel A), keeps still m → keeps still (m ;; ret 0)) as Hret.
  { intros A m Hm. apply kkeeps_bind; [exact _ | done | intros _; apply kkeeps_ret, _]. }
  assert (keeps still (run_entry e) → evolved k k') as Hs by (intros Hk; exact (still_evolved _ _ (Hk _ _ _ E))).
  destruct e; simpl in *; [done | | by eapply evolved_mmap | apply Hs..].
  - apply bind_done in E as (v & k1 & E & [= _ <-]). by eapply evolved_ioctl.
  - apply still_release.
  - apply Hret, still_handler.
  - apply Hret, still_invalidate.
  - apply Hret, still_invalidate.
  - apply Hret, still_mn_release.
  - apply still_init.
  - apply Hret. unfold xen_shm_cleanup.
    apply kkeeps_bind; [exact _ | apply still_free_delayed | intros _; auto with keeps].
Qed.

Lemma steps_evolved k k' d i' :
  rtc step_no_open k k' → heap k' !! d = Some i' →
  ∃ i, heap k !! d = Some i ∧ rtc transition (state i) (state i') ∧ local_domid i' = local_domid i.
Proof.
  intros Hsteps. revert i'. induction Hsteps as [k|k1 k2 k3 Hs _ IH]; intros i' Hi.
  - by exists i'.
  - destruct (IH _ Hi) as (i2 & Hi2 & Ht & El). destruct (step_evolved _ _ Hs _ _ Hi2) as (i1 & Hi1 & Ht1 & El1).
    exists i1. split_and!; [done | by eapply rtc_l | congruence].
Qed.

(** Instance [d] comes from an opening during the run from [k] to [k']. *)
Definition opened_during (k k' : kernel) (d : Z) (i' : instance) : Prop :=
  ∃ filp mem r k1 k2 i, rtc step k k1 ∧ xen_shm_open filp mem k1 = Done r k2 ∧ rtc step k2 k' ∧
    heap k2 !! d = Some i ∧ state i = XEN_SHM_STATE_OPENED ∧ local_domid i = xen_shm_domid k1 ∧
    rtc transition (state i) (state i') ∧ local_domid i' = local_domid i.

Lemma steps_evolved_or_opened k k' d i' :
  rtc step k k' → heap k' !! d = Some i' →
  (∃ i, heap k !! d = Some i ∧ rtc transition (state i) (state i') ∧ local_domid i' = local_domid i)
  ∨ opened_during k k' d i'.
Proof.
  intros Hsteps. revert i'. induction Hsteps as [k|k1 k2 k3 Hs Hrest IH]; intros i' Hi.
  - left. by exists i'.
  - destruct (IH _ Hi) as [(i2 & Hi2 & Ht & El)|(f & mem & r & ka & kb & i & Hka & Hopened)].
    + pose proof Hs as (e & r & E). destruct (is_open e) eqn:Ho.
      * destruct e as [filp mem| | | | | | | | |]; try done.
        destruct (open_evolved _ _ _ _ _ E _ _ Hi2) as [(i1 & Hi1 & Ht1 & El1)|[Hst Hdom]].
        -- left. exists i1. split_and!; [done | by eapply rtc_l | congruence].
        -- right. exists filp, mem, r, k1, k2, i2. by split_and!.
      * assert (step_no_open k1 k2) as Hs' by (by exists e, r).
        destruct (step_evolved _ _ Hs' _ _ Hi2) as (i1 & Hi1 & Ht1 & El1).
        left. exists i1. split_and!; [done | by eapply rtc_l | congruence].
    + right. exists f, mem, r, ka, kb, i. split; [by eapply rtc_l | done].
Qed.
End Runs.
