(* ===== verification/KTheorems.v ===== *)
(** The properties of the module (xen_shm.c), with instances that meet their
    hypotheses. *)
From S2P Require Import Prelude Abi KDefs KEvent KMemory KIoctl KFile KRules KKeeps KState KSpecs KMemSpecs KOffer KRuns.
From stdpp Require Import gmap relations.
Open Scope Z_scope.
Open Scope c_scope.

(** ** A concrete kernel, hypervisor and other domain *)

Definition demo_respond (t : nat) (c : kcall) : kanswer :=
  match c with
  | GetFreePages _ => KAnswer 65536 0 0 []
  | GrantForeignAccess _ page => KAnswer (100 + page / PAGE_SIZE) 0 0 []
  | EndForeignAccessRef _ => KAnswer 1 0 0 []
  | EvtchnAllocUnbound _ _ => KAnswer 0 7 0 []
  | EvtchnStatus _ _ => KAnswer 0 EVTCHNSTAT_unbound 3 []
  | BindEvtchnToIrqhandler _ _ => KAnswer 40 0 0 []
  | AccessOk => KAnswer 1 0 0 []
  | Kmalloc => KAnswer 99 0 0 []
  | _ => KAnswer 0 0 0 []
  end.
(** Nothing happens during a wait: it ends at once if the condition holds, else
    it lasts its timeout, or a signal interrupts it. *)
Definition demo_wait (t : nat) (cond : instance → meta_page → bool) (j : Z) (i : instance) (m : meta_page) :
    Z * instance * meta_page :=
  (if j <=? 0 then if (j =? 0) && cond i m then 0 else - ERESTARTSYS
   else if cond i m then j else 0, i, m).
Definition demo_kenv : KernelEnv := {|
  respond := demo_respond;
  other_domain := λ _ m, m;
  page_at := λ _, MetaPage 0 0 0 0 0 (replicate 128 0);
  wait := demo_wait;
  kaddr_of_page := λ p, p;
  kpte_maddr := λ a, a;
  HZ := 1000;
|}.

Definition demo_op : unmap_op := UnmapOp 0 0 NO_HANDLE.
Definition demo_map_op : map_op := MapOp 0 0 0 0 0 0.
Definition demo_instance : instance :=
  Instance XEN_SHM_STATE_OPENED false 0 0 3 0 0 0 0 0 false false false 0 0 0 None (replicate 128 0) 0
    (replicate 128 demo_map_op) (replicate 128 demo_op) (replicate 128 demo_map_op) 0.
Definition demo_kernel (i : instance) (ps : gmap Z meta_page) : kernel :=
  Kernel {[ 77 := i ]} {[ 5 := 77 ]} ps 0 3 0 0 0 [].

(** An offerer with two data pages, whose header is at address 65536. *)
Definition demo_offerer : instance :=
  set_state XEN_SHM_STATE_OFFERER (set_pages_count 3 (set_shared_memory 65536 demo_instance)).
Definition demo_header (offerer receiver : Z) : meta_page := MetaPage offerer receiver 3 7 1 (seqZ 100 128).
Definition demo_open : kernel := demo_kernel demo_instance ∅.
Definition demo_shared (m : meta_page) : kernel := demo_kernel demo_offerer {[ 65536 := m ]}.

Lemma demo_wait_lawful : wait_lawful (H := demo_kenv).
Proof.
  intros t cond j i m. simpl. unfold demo_wait.
  assert (signals_only i i) as Hs.
  { exists (initial_signal i), (user_signal i), (latent_user_signal i). by destruct i. }
  destruct (Z.leb_spec j 0) as [Hj|Hj].
  - destruct (Z.eqb_spec j 0) as [->|Hj0]; simpl; [|split; [done | by left]].
    destruct (cond i m) eqn:Hc; (split; [done|]); [by right; left | by left].
  - destruct (cond i m) eqn:Hc; (split; [done|]); [do 3 right; split; [lia | done] | by right; right; left].
Qed.

(** ** The life of an instance *)

(** C15. Whatever the sequence of the module's entry points, an instance only moves
    from OPENED to OFFERER, or from OPENED to RECEIVER and then to RECEIVER_MAPPED, and
    its local domain never changes: each instance at the end was there before, or comes
    from an opening in between, which made it OPENED, with the domain the module knew
    then. Without openings only the former is possible. *)
Theorem instance_state_machine `{E : KernelEnv} k k' d i' :
  wait_lawful → heap k' !! d = Some i' →
  let same := ∃ i, heap k !! d = Some i ∧ rtc transition (state i) (state i') ∧ local_domid i' = local_domid i in
  (rtc step k k' → same ∨ opened_during k k' d i') ∧ (rtc step_no_open k k' → same).
Proof.
  intros Hw Hi. split; intros Hs; [by apply steps_evolved_or_opened | by eapply steps_evolved].
Qed.

(** A file is opened and becomes an offerer. *)
Lemma instance_state_machine_witness :
  ∃ k' i', rtc (step (H := demo_kenv)) demo_open k' ∧ heap k' !! 99 = Some i' ∧
    state i' = XEN_SHM_STATE_OFFERER ∧
    ((∃ i, heap demo_open !! 99 = Some i ∧ rtc transition (state i) (state i') ∧ local_domid i' = local_domid i)
     ∨ opened_during (H := demo_kenv) demo_open k' 99 i').
Proof.
  assert (∃ k1 k', run_entry (H := demo_kenv) (OpenFile 6 demo_instance) demo_open = Done 0 k1 ∧
    run_entry (H := demo_kenv) (IoctlFile 6 XEN_SHM_IOCTL_INIT_OFFERER (ArgOfferer (IoctlargOfferer 2 4 0 0)) 0) k1 = Done 0 k' ∧
    (state <$> heap k' !! 99) = Some XEN_SHM_STATE_OFFERER) as (k1 & k' & Ho & Hinit & Hst).
  { eexists _, _. split; [vm_compute; reflexivity|]. split; [vm_compute; reflexivity|]. vm_compute. reflexivity. }
  destruct (heap k' !! 99) as [i'|] eqn:Hi; [|done]. injection Hst as Hst.
  assert (rtc (step (H := demo_kenv)) demo_open k') as Hrtc.
  { eapply rtc_l; [by eexists _, _|]. apply rtc_once. by eexists _, _. }
  exists k', i'. split; [done|]. split; [done|]. split; [done|].
  by apply (instance_state_machine (E := demo_kenv) demo_open k' 99 i' demo_wait_lawful Hi).
Defined.

(** C16. INIT_OFFERER on an opened instance with 1 to 127 pages has exactly these
    outcomes: no memory, and one failed allocation; no event channel, and every
    grant made is ended and the pages are freed, the instance still OPENED; or
    success, with every page granted to the other domain, the references, the
    page count, the port and the OPENED mark in the header page, and the first
    reference and the local domain answered. *)
Theorem init_offerer_outcomes `{E : KernelEnv} d i arg k :
  page_private → pages_sound →
  d ≠ 0 → heap k !! d = Some i → state i = XEN_SHM_STATE_OPENED → 0 < off_pages_count arg < 128 →
  wp (__xen_shm_ioctl_init_offerer d arg) (offer_post d i arg k) k.
Proof. intros. by apply wp_init_offerer. Qed.

Lemma init_offerer_outcomes_witness :
  wp (__xen_shm_ioctl_init_offerer (H := demo_kenv) 77 (IoctlargOfferer 2 4 0 0))
     (offer_post 77 demo_instance (IoctlargOfferer 2 4 0 0) demo_open) demo_open.
Proof.
  apply (init_offerer_outcomes (E := demo_kenv)); [done | | done | done | done | simpl; lia].
  split; [done|]. intros t order. simpl. lia.
Defined.

(** C17. Releasing an offerer ends the grants from the last page down. The event
    channel is closed and the pages are freed only when every grant was ended;
    when one is still in use, nothing is freed, -1 is answered, and the count kept
    is such that a later attempt resumes at that grant. *)
Theorem offerer_freed_when_unused `{E : KernelEnv} d i refs first k :
  grants_kept → d ≠ 0 → 0 ≤ pages_count i ≤ Z.of_nat (length refs) → pages_count i < 256 →
  heap k !! d = Some i → state i = XEN_SHM_STATE_OFFERER → shared_memory i ≠ 0 →
  (∃ m, pages k !! shared_memory i = Some m ∧ grant_refs m = refs) →
  wp (__xen_shm_prepare_free d first) (prepare_offerer_post d i refs k) k.
Proof. intros. by apply wp_prepare_free_offerer. Qed.

Lemma offerer_freed_when_unused_witness :
  wp (__xen_shm_prepare_free (H := demo_kenv) 77 true)
     (prepare_offerer_post 77 demo_offerer (seqZ 100 128) (demo_shared (demo_header 2 2)))
     (demo_shared (demo_header 2 2)).
Proof.
  apply (offerer_freed_when_unused (E := demo_kenv)).
  - by intros t m.
  - done.
  - rewrite length_seqZ. simpl. lia.
  - simpl. lia.
  - done.
  - done.
  - done.
  - by eexists.
Defined.

(** ** Waiting and signalling *)

(** C18. AWAIT on an initialised instance has exactly these outcomes. It refuses
    with -EPIPE, having changed nothing, and only a closed memory, and always one that
    was closed before; it refuses with -EDEADLK only when the mutex was asked for and
    is not free; or it sleeps once, with the user signal cleared. An interrupted sleep
    is the only one to answer -ERESTARTSYS; after another, the answer is -EPIPE only
    of a memory that is closed, and 0 only if it was open when the process woke. Such a
    sleep without a timeout ended with one of the requested events, or the closing; with
    one, the answer tells the jiffies left, none exactly when nothing happened; and a
    wait for user signals consumes the latent one. In every case the mutex is as it was
    before, and only who found it free sleeps with it. *)
Theorem await_outcomes `{E : KernelEnv} d i m arg k :
  wait_lawful → d ≠ 0 → heap k !! d = Some i → state i ≠ XEN_SHM_STATE_OPENED →
  pages k !! shared_memory i = Some m → await_jiffies (timeout_ms arg) < 2 ^ 31 →
  wp (__xen_shm_ioctl_await d arg) (await_post d i m arg k) k.
Proof. intros. by eapply wp_await. Qed.

Lemma await_outcomes_witness :
  wp (__xen_shm_ioctl_await (H := demo_kenv) 77 (IoctlargAwait XEN_SHM_IOCTL_AWAIT_INIT 20 0))
     (await_post (H := demo_kenv) 77 demo_offerer (demo_header 2 2)
       (IoctlargAwait XEN_SHM_IOCTL_AWAIT_INIT 20 0) (demo_shared (demo_header 2 2)))
     (demo_shared (demo_header 2 2)).
Proof. apply (await_outcomes (E := demo_kenv) 77 demo_offerer); [apply demo_wait_lawful | done..]. Defined.

(** C19. A closed side is reported: once the offerer or the receiver marked the
    header page CLOSED, SSIG and AWAIT answer -EPIPE; no signal is sent, nothing
    is waited for, and the instance is not changed. *)
Theorem closed_is_reported `{E : KernelEnv} d i m arg k :
  closing_is_final → d ≠ 0 → heap k !! d = Some i → state i ≠ XEN_SHM_STATE_OPENED →
  pages k !! shared_memory i = Some m → closed_page m = true →
  wp (__xen_shm_ioctl_ssig d) (λ r k', r = - EPIPE ∧ heap k' = heap k ∧ ktrace k' = ktrace k) k ∧
  wp (__xen_shm_ioctl_await d arg) (λ r k', r = (- EPIPE, arg) ∧ heap k' = heap k ∧ ktrace k' = ktrace k) k.
Proof.
  intros Hfin Hd Hi Hs Hm Hc. split; apply wp_bind; (eapply wp_get_inst; [done..|]);
    rewrite bool_decide_eq_false_2 by done; apply wp_bind; (eapply wp_broken_closed; [done..|]);
    intros k1 (Hh & Ht & _ & _); by apply wp_ret.
Qed.

Lemma closed_is_reported_witness :
  let k := demo_shared (demo_header XEN_SHM_META_PAGE_STATE_OPENED XEN_SHM_META_PAGE_STATE_CLOSED) in
  let arg := IoctlargAwait XEN_SHM_IOCTL_AWAIT_INIT 1 0 in
  wp (__xen_shm_ioctl_ssig (H := demo_kenv) 77)
    (λ r k', r = - EPIPE ∧ heap k' = heap k ∧ ktrace k' = ktrace k) k ∧
  wp (__xen_shm_ioctl_await (H := demo_kenv) 77 arg)
    (λ r k', r = (- EPIPE, arg) ∧ heap k' = heap k ∧ ktrace k' = ktrace k) k.
Proof. apply (closed_is_reported (E := demo_kenv) 77 demo_offerer (demo_header 2 3)); done. Defined.

(** C20. The remaining time AWAIT reports is 0 exactly when the timeout elapsed,
    as long as a thousand times the jiffies left fit an [int]; beyond, the product
    overflows: with 1000 jiffies a second and an hour and a quarter left of two,
    0 is reported although the event came. *)
Theorem remaining_zero_iff_elapsed `{E : KernelEnv} :
  (∀ timeout left j, 0 < HZ ≤ 1000 → 0 < timeout → 0 ≤ left ≤ j → 0 < j → left * 1000 < 2 ^ 31 →
     j < 2 ^ 31 → await_remaining timeout left j = 0 ↔ left = 0) ∧
  (HZ = 1000 → await_remaining 7200000 4294968 7200000 = 0).
Proof.
  split.
  - intros timeout left j Hz Ht Hl Hj Ho Hj31. unfold await_remaining, u64.
    rewrite wrap_small by lia. destruct (Z.eqb_spec left j) as [->|Hne]; [lia|].
    unfold s32, signed. rewrite (wrap_small 32) by lia. rewrite decide_True by lia.
    rewrite Z.quot_div_nonneg by lia.
    assert (0 ≤ left * 1000 / HZ < 2 ^ 64) as Hq.
    { split; [apply Z.div_pos; lia|]. apply Z.div_lt_upper_bound; nia. }
    rewrite wrap_small by done. split; [|by intros ->].
    intros H0. apply Z.div_small_iff in H0; lia.
  - intros Hz. unfold await_remaining. rewrite Hz. reflexivity.
Qed.

Lemma remaining_zero_iff_elapsed_witness :
  await_remaining (H := demo_kenv) 7200000 4294968 7200000 = 0 ∧
  (await_remaining (H := demo_kenv) 50 3 50 = 0 ↔ 3 = 0).
Proof.
  split.
  - apply (proj2 (remaining_zero_iff_elapsed (E := demo_kenv))). done.
  - apply (proj1 (remaining_zero_iff_elapsed (E := demo_kenv))); simpl; lia.
Defined.

(** The event handler: the first signal only marks the channel as
    initialised, and an offerer answers it once; every later signal is a user
    signal, kept also for those who were not yet waiting; the sleepers are woken
    each time. *)
Theorem event_handler_signals `{E : KernelEnv} d i k :
  d ≠ 0 → heap k !! d = Some i →
  wp (xen_shm_event_handler d) (λ _ k',
    heap k' = <[d := if initial_signal i then set_latent_user_signal true (set_user_signal true i)
                     else set_initial_signal true i]> (heap k) ∧
    fst <$> ktrace k' = WakeUpInterruptible d ::
      (if negb (initial_signal i) && bool_decide (state i = XEN_SHM_STATE_OFFERER)
       then [NotifyRemoteViaEvtchn (local_ec_port i)] else []) ++ (fst <$> ktrace k)) k.
Proof.
  intros Hd Hi. apply wp_bind. eapply wp_get_inst; [done..|]. apply wp_bind.
  apply wp_if; intros Hs; bool_hyps; rewrite Hs.
  - apply wp_bind, wp_when; intros Ho; rewrite Ho.
    + apply wp_bind, wp_call, wp_ret. eapply wp_put_inst; [done..|]. by apply wp_bind, wp_call, wp_ret.
    + eapply wp_put_inst; [done..|]. by apply wp_bind, wp_call, wp_ret.
  - apply wp_bind. eapply wp_put_inst; [done..|].
    eapply wp_put_inst; [done | simpl; by rewrite lookup_insert_eq |].
    apply wp_bind, wp_call, wp_ret. simpl. by rewrite insert_insert_eq.
Qed.

Lemma event_handler_signals_witness :
  let k := demo_shared (demo_header 2 2) in
  wp (xen_shm_event_handler (H := demo_kenv) 77) (λ _ k',
    heap k' = <[77 := set_initial_signal true demo_offerer]> (heap k) ∧
    fst <$> ktrace k' = [WakeUpInterruptible 77; NotifyRemoteViaEvtchn 0]) k.
Proof. apply (event_handler_signals (E := demo_kenv) 77 demo_offerer); done. Defined.

(** Commands in the wrong state change nothing: waiting, signalling and
    mapping need an initialised instance, initialising needs a fresh one, a
    receiver maps once, and page counts out of range are refused. *)
Theorem wrong_state_commands `{E : KernelEnv} d i filp vma k :
  d ≠ 0 → heap k !! d = Some i → private_data k !! filp = Some d → has (vm_flags vma) VM_WRITE = false →
  (state i = XEN_SHM_STATE_OPENED →
     (∀ arg, __xen_shm_ioctl_await d arg k = Done (- ENOTTY, arg) k) ∧
     __xen_shm_ioctl_ssig d k = Done (- ENOTTY) k ∧ xen_shm_mmap filp vma k = Done (- ENODATA) k) ∧
  (state i ≠ XEN_SHM_STATE_OPENED →
     (∀ arg, __xen_shm_ioctl_init_offerer d arg k = Done (- ENOTTY, arg) k) ∧
     (∀ arg, __xen_shm_ioctl_init_receiver d arg k = Done (- ENOTTY) k)) ∧
  (state i = XEN_SHM_STATE_RECEIVER_MAPPED → xen_shm_mmap filp vma k = Done (- EPIPE) k) ∧
  (∀ arg, state i = XEN_SHM_STATE_OPENED → off_pages_count arg = 0 ∨ 127 < off_pages_count arg →
     __xen_shm_ioctl_init_offerer d arg k = Done (- EINVAL, arg) k) ∧
  (∀ arg, state i = XEN_SHM_STATE_OPENED → rcv_pages_count arg = 0 ∨ 127 < rcv_pages_count arg →
     __xen_shm_ioctl_init_receiver d arg k = Done (- EINVAL) k).
Proof.
  intros Hd Hi Hf Hv.
  assert (get_inst d k = Done i k) as Hget.
  { unfold get_inst. by rewrite (proj2 (Z.eqb_neq _ _) Hd), Hi. }
  assert (∀ n, n = 0 ∨ 127 < n → (n =? 0) || (XEN_SHM_MAX_SHARED_PAGES <? n) = true) as Hcount.
  { intros n [->|Hn]; [done|]. apply orb_true_iff. right. apply Z.ltb_lt. exact Hn. }
  split_and!.
  - intros Hs. split_and!; [intros arg|..];
      unfold __xen_shm_ioctl_await, __xen_shm_ioctl_ssig, xen_shm_mmap, file_data, bind;
      rewrite ?Hv; cbn [andb]; rewrite ?Hf, Hget, Hs; done.
  - intros Hs. split; intros arg; unfold __xen_shm_ioctl_init_offerer, __xen_shm_ioctl_init_receiver, bind;
      rewrite Hget, bool_decide_eq_false_2 by done; done.
  - intros Hs. unfold xen_shm_mmap, file_data, bind. rewrite Hv; cbn [andb]. by rewrite Hf, Hget, Hs.
  - intros arg Hs Hn. unfold __xen_shm_ioctl_init_offerer, bind.
    by rewrite Hget, bool_decide_eq_true_2, Hcount.
  - intros arg Hs Hn. unfold __xen_shm_ioctl_init_receiver, bind.
    by rewrite Hget, bool_decide_eq_true_2, Hcount.
Qed.

Lemma wrong_state_commands_witness :
  __xen_shm_ioctl_ssig (H := demo_kenv) 77 demo_open = Done (- ENOTTY) demo_open.
Proof.
  exact (proj1 (proj2 (proj1 (wrong_state_commands (E := demo_kenv) 77 demo_instance 5 (VmArea 0 0 0) demo_open
    (λ H : 77 = 0, ltac:(lia)) eq_refl eq_refl eq_refl) eq_refl))).
Defined.
