(* ===== verification/KMapTheorems.v ===== *)
(** The properties of the module (xen_shm.c) that concern the receiver's memory,
    the delayed frees and the module's own life, with instances that meet their
    hypotheses. *)
From S2P Require Import Prelude Abi KDefs KEvent KMemory KIoctl KFile KRules KKeeps KState KSpecs KMemSpecs KReceive KMap KRuns.
From stdpp Require Import gmap relations.
Open Scope Z_scope.
Open Scope c_scope.

(** ** A concrete kernel, hypervisor and other domain *)

(** The header page and the pages to map at are at fixed addresses; every grant is
    mapped, with its page's number as the handle. *)
Definition recv_respond (t : nat) (c : kcall) : kanswer :=
  match c with
  | AllocVmArea => KAnswer 500 131072 0 []
  | MapGrantRef _ _ _ => KAnswer 0 0 9 []
  | BindEvtchnToIrqhandler _ _ => KAnswer 41 0 0 []
  | EvtchnBindInterdomain _ _ => KAnswer 0 8 0 []
  | AllocXenballoonedPages n => KAnswer 0 0 0 ((λ p, (p, 0)) <$> seqZ 900 n)
  | GnttabMapRefs _ _ n => KAnswer 0 0 0 ((λ p, (0, p)) <$> seqZ 0 n)
  | ApplyToPageRange _ size => KAnswer 0 0 0 ((λ p, (p, 0)) <$> seqZ 700 (size / PAGE_SIZE))
  | EvtchnAllocUnbound _ _ => KAnswer 0 6 0 []
  | EvtchnStatus _ _ => KAnswer 0 EVTCHNSTAT_unbound 4 []
  | AllocChrdevRegion _ => KAnswer 0 250 0 []
  | _ => KAnswer 0 0 0 []
  end.
Definition recv_kenv : KernelEnv := {|
  respond := recv_respond;
  other_domain := λ _ m, m;
  page_at := λ _, MetaPage XEN_SHM_META_PAGE_STATE_OPENED XEN_SHM_META_PAGE_STATE_NONE 3 7 1 (seqZ 100 128);
  wait := λ _ _ _ i m, (- ERESTARTSYS, i, m);
  kaddr_of_page := λ p, p * PAGE_SIZE;
  kpte_maddr := λ a, a;
  HZ := 1000;
|}.

Definition recv_fresh : instance :=
  Instance XEN_SHM_STATE_OPENED false 0 0 4 0 0 0 0 0 false false false 0 0 0 None (replicate 128 0) 0
    (replicate 128 (MapOp 0 0 0 0 0 0)) (replicate 128 (UnmapOp 0 0 0)) (replicate 128 (MapOp 0 0 0 0 0 0)) 0.
(** A receiver of two data pages, whose header is at address 131072. *)
Definition recv_instance : instance :=
  set_state XEN_SHM_STATE_RECEIVER (set_pages_count 3 (set_shared_memory 131072 recv_fresh)).
Definition recv_kernel (i : instance) : kernel :=
  Kernel {[ 88 := i ]} {[ 6 := 88 ]} {[ 131072 := page_at (KernelEnv := recv_kenv) 0 ]} 0 4 0 0 0 [].

(** ** Becoming a receiver and mapping the pages *)

(** C23. INIT_RECEIVER on an opened instance with 1 to 127 pages has exactly these
    outcomes: no address space; the grant cannot be mapped, and the address space
    is freed; the header tells another number of pages or no channel can be bound,
    and the header is unmapped and the address space freed too, the instance still
    OPENED; or success, with the header mapped, marked OPENED by the receiver, the
    channel bound to the port the header holds, and one signal to the offerer. *)
Theorem init_receiver_outcomes `{E : KernelEnv} d i arg k :
  d ≠ 0 → heap k !! d = Some i → state i = XEN_SHM_STATE_OPENED → 0 < rcv_pages_count arg < 128 →
  wp (__xen_shm_ioctl_init_receiver d arg) (receive_post d i arg k) k.
Proof. intros. by apply wp_init_receiver. Qed.

Lemma init_receiver_outcomes_witness :
  let arg := IoctlargReceiver 2 3 100 in
  let k := recv_kernel recv_fresh in
  wp (__xen_shm_ioctl_init_receiver (H := recv_kenv) 88 arg)
     (receive_post (H := recv_kenv) 88 recv_fresh arg k) k ∧
  match __xen_shm_ioctl_init_receiver (H := recv_kenv) 88 arg k with Done r _ => r = 0 | _ => False end.
Proof.
  split; [|by vm_compute].
  apply (init_receiver_outcomes (E := recv_kenv)); [done | done | done | simpl; lia].
Defined.

Lemma recv_sized : headers_sized (H := recv_kenv) ∧ answers_sized (H := recv_kenv).
Proof.
  split; [done|]. split_and!.
  - intros t n Hn. simpl. rewrite length_fmap, length_seqZ. lia.
  - intros t ops kops n Hn. simpl. rewrite length_fmap, length_seqZ. lia.
  - intros t start size Hs. simpl. rewrite length_fmap, length_seqZ.
    pose proof (Z.div_pos size PAGE_SIZE). unfold PAGE_SIZE in *. lia.
Qed.

(** C24. Mapping a receiver's memory, page tables or not: the area must have the
    size of the data pages; then either every page is mapped, each with the handle
    the hypervisor answered for it, and the instance becomes RECEIVER_MAPPED, or
    -EFAULT is answered, the instance is still a RECEIVER without area and no page
    keeps a handle. In the latter case one call to unmap was made for each page that
    the hypervisor answered to be mapped, in order, and no other, when the mapping
    call succeeded; none when it failed, whatever it answered for the pages. What the
    calls to unmap answer is not looked at; without page tables they are made with the
    flags where the address of the page should be, so that the theorem does not tell
    that the pages are unmapped. *)
Theorem mmap_outcomes `{E : KernelEnv} filp d i vma k :
  headers_sized → answers_sized → d ≠ 0 → private_data k !! filp = Some d → heap k !! d = Some i →
  state i = XEN_SHM_STATE_RECEIVER → fits i → 0 ≤ vm_start vma →
  has (vm_flags vma) VM_SHARED = true → header_of (pages_count i) (shared_memory i) k →
  wp (xen_shm_mmap filp vma) (mmap_post d i vma k) k.
Proof.
  intros Hh Ha Hd Hf Hi Hs Hfit Hv Hsh Hp. unfold xen_shm_mmap. rewrite Hsh, andb_false_r.
  apply wp_bind. unfold wp at 1, file_data. rewrite Hf.
  apply wp_bind. eapply wp_get_inst; [done..|]. rewrite Hs. by apply wp_mmap_receiver.
Qed.

Lemma mmap_outcomes_witness :
  let vma := VmArea 40960 49152 VM_SHARED in
  let k := recv_kernel recv_instance in
  wp (xen_shm_mmap (H := recv_kenv) 6 vma) (mmap_post (H := recv_kenv) 88 recv_instance vma k) k ∧
  match xen_shm_mmap (H := recv_kenv) 6 vma k with
  | Done r k' => r = 0 ∧ (state <$> heap k' !! 88) = Some XEN_SHM_STATE_RECEIVER_MAPPED
  | _ => False
  end.
Proof.
  split; [|by vm_compute].
  apply (mmap_outcomes (E := recv_kenv)); try done; try apply recv_sized.
  eexists. split; [reflexivity|]. simpl. lia.
Defined.

(** ** Unmapping *)

Lemma first_mapped_all nb ops :
  (length ops ≤ nb)%nat →
  first_mapped nb ops = filter (λ u, is_mapped u = true) ops ∧
  Forall (λ u, is_mapped u = false) (unmap_ref nb ops).
Proof.
  revert nb. induction ops as [|u ops IH]; intros nb Hnb; [by destruct nb|].
  destruct nb as [|nb]; simpl in Hnb; [lia|]. cbn [first_mapped unmap_ref].
  destruct (is_mapped u) eqn:Hu.
  - destruct (IH nb) as [IH1 IH2]; [lia|]. rewrite filter_cons_True, IH1 by done. split; [done|].
    constructor; [by vm_compute | done].
  - destruct (IH (S nb)) as [IH1 IH2]; [lia|]. rewrite filter_cons_False by congruence. split; [done|].
    by constructor.
Qed.

(** C25. Unmapping [nb] of the receiver's pages from page [o] on is the reference
    [unmap_ref]: the first [nb] pages still mapped, in order, are unmapped by one
    call each and lose their handles; the other pages are untouched. With [nb] at
    least the number of pages left, no page from [o] on is left mapped. *)
Theorem unmap_matches_reference `{E : KernelEnv} d i o nb k :
  d ≠ 0 → arrays_wf i → pages_count i ≤ 128 → 0 ≤ o < pages_count i - 1 → heap k !! d = Some i →
  let seg := data_ops i (unmap_ops i) o in
  let n := Z.to_nat nb in
  wp (__xen_shm_unmap_receiver_grant_pages d o nb) (λ _,
    unmapping_done d i k
      (take (Z.to_nat o) (unmap_ops i) ++ unmap_ref n seg ++
       drop (Z.to_nat (pages_count i - 1)) (unmap_ops i))
      (first_mapped n seg)) k ∧
  (pages_count i - 1 - o ≤ nb →
     first_mapped n seg = filter (λ u, is_mapped u = true) seg ∧
     Forall (λ u, is_mapped u = false) (unmap_ref n seg)).
Proof.
  intros Hd Hwf H128 Ho Hi seg n. split; [by apply wp_unmap_pages|].
  intros Hnb. apply first_mapped_all. unfold seg, data_ops. rewrite length_take. lia.
Qed.

(** A receiver whose second page only is mapped, in an area of two pages. *)
Definition recv_half : instance :=
  set_user_mem (Some (VmArea 40960 49152 VM_SHARED))
    (set_unmap_ops (UnmapOp 1 2 NO_HANDLE :: UnmapOp 3 4 17 :: replicate 126 (UnmapOp 0 0 NO_HANDLE))
      (set_state XEN_SHM_STATE_RECEIVER_MAPPED recv_instance)).

Lemma unmap_matches_reference_witness :
  first_mapped 2 (data_ops recv_half (unmap_ops recv_half) 0) = [UnmapOp 3 4 17].
Proof.
  transitivity (filter (λ u, is_mapped u = true) (data_ops recv_half (unmap_ops recv_half) 0)); [|by vm_compute].
  apply (unmap_matches_reference (E := recv_kenv) 88 recv_half 0 2 (recv_kernel recv_half)); by vm_compute.
Defined.

(** C26. Invalidating the range of one page that is no longer mapped unmaps the
    page after it, which is outside the range: the count of pages to unmap only
    goes down at mapped pages. *)
Theorem invalidate_overreaches `{E : KernelEnv} d i vma o u v k :
  d ≠ 0 → arrays_wf i → pages_count i ≤ 128 → heap k !! d = Some i → user_mem i = Some vma →
  0 ≤ vm_start vma → vm_end vma = vm_start vma + (pages_count i - 1) * PAGE_SIZE → vm_end vma < 2 ^ 64 →
  0 ≤ o → o + 1 < pages_count i - 1 →
  unmap_ops i !! Z.to_nat o = Some u → is_mapped u = false →
  unmap_ops i !! Z.to_nat (o + 1) = Some v → is_mapped v = true →
  wp (__xen_shm_mn_invl_page d (vm_start vma + o * PAGE_SIZE)) (λ _ k',
    heap k' = <[d := set_unmap_ops (<[Z.to_nat (o + 1) := unmapped v]> (unmap_ops i)) i]> (heap k) ∧
    ∃ tr, ktrace k' = tr ++ ktrace k ∧ unmap_calls tr = [v]) k.
Proof.
  intros Hd Hwf H128 Hi Hvma Hs He Hend Ho0 Ho Hu Hum Hv Hvm. unfold PAGE_SIZE in *.
  apply wp_bind. eapply wp_get_inst; [done..|]. rewrite Hvma. unfold u64. unfold PAGE_SIZE.
  rewrite wrap_small by lia.
  rewrite (proj2 (Z.leb_gt _ _)), (proj2 (Z.leb_gt _ _)) by lia. cbn [orb]. cbv zeta.
  rewrite Z.max_l, Z.min_l by lia.
  replace (vm_start vma + o * 4096 - vm_start vma) with (o * 4096) by lia.
  replace (vm_start vma + o * 4096 + 4096 - (vm_start vma + o * 4096)) with (1 * 4096) by lia.
  rewrite !Z.shiftr_div_pow2 by done. change (2 ^ PAGE_SHIFT) with 4096. rewrite !Z.div_mul by lia.
  assert (s32 o = o) as -> by (unfold s32, signed; rewrite wrap_small, decide_True by lia; done).
  change (s32 1) with 1.
  eapply wp_mono; [apply wp_unmap_pages; try done; lia|].
  intros _ k' [Hh (tr & Ht & Hc)]. rewrite (data_ops_cons i o u), (data_ops_cons i (o + 1) v) in Hh, Hc by (done || lia).
  change (Z.to_nat 1) with 1%nat in *. cbn [unmap_ref first_mapped] in Hh, Hc.
  rewrite Hum, Hvm in Hh, Hc. rewrite unmap_ref_0 in Hh. rewrite first_mapped_0 in Hc.
  split; [|by exists tr]. rewrite Hh, <-!app_comm_cons, (data_ops_rest i (o + 1 + 1)) by lia.
  rewrite (insert_take_drop _ _ (unmapped v)) by (apply lookup_lt_Some in Hv; lia).
  replace (take (Z.to_nat (o + 1)) (unmap_ops i)) with (take (Z.to_nat o) (unmap_ops i) ++ [u]).
  - rewrite <-app_assoc. simpl. by replace (Z.to_nat (o + 1 + 1)) with (S (Z.to_nat (o + 1))) by lia.
  - replace (Z.to_nat (o + 1)) with (S (Z.to_nat o)) by lia. by rewrite (take_S_r _ _ u).
Qed.

Lemma invalidate_overreaches_witness :
  let k := recv_kernel recv_half in
  wp (__xen_shm_mn_invl_page (H := recv_kenv) 88 (40960 + 0 * PAGE_SIZE)) (λ _ k',
    heap k' = <[88 := set_unmap_ops (<[1%nat := UnmapOp 3 4 NO_HANDLE]> (unmap_ops recv_half)) recv_half]> (heap k) ∧
    ∃ tr, ktrace k' = tr ++ ktrace k ∧ unmap_calls tr = [UnmapOp 3 4 17]) k.
Proof.
  apply (invalidate_overreaches (E := recv_kenv) 88 recv_half (VmArea 40960 49152 VM_SHARED) 0
    (UnmapOp 1 2 NO_HANDLE) (UnmapOp 3 4 17)); by vm_compute.
Defined.

(** ** Releasing and the delayed free queue *)

(** C27. The delayed free queue never holds an instance: whatever is done with the
    module, the queue is empty afterwards if it was before, so that the traversal
    of the queue has nothing to do. *)
Theorem delayed_queue_stays_empty `{E : KernelEnv} k k' :
  rtc step k k' → xen_shm_delayed_free_queue k = 0 →
  xen_shm_delayed_free_queue k' = 0 ∧ __xen_shm_free_delayed_queue k' = Done tt k'.
Proof.
  intros Hs Hq. assert (xen_shm_delayed_free_queue k' = 0) as Hq' by (by apply (steps_queue _ _ Hs)).
  split; [done | by apply free_delayed_empty].
Qed.

(** An offerer whose last grant is still in use, for [recv_kenv]. *)
Definition recv_offerer : kernel :=
  recv_kernel (set_state XEN_SHM_STATE_OFFERER recv_instance).

Lemma delayed_queue_stays_empty_witness :
  ∃ k', xen_shm_release (H := recv_kenv) 6 recv_offerer = Done 0 k' ∧
    xen_shm_delayed_free_queue k' = 0 ∧ __xen_shm_free_delayed_queue (H := recv_kenv) k' = Done tt k'.
Proof.
  assert (∃ k', xen_shm_release (H := recv_kenv) 6 recv_offerer = Done 0 k') as [k' Hk'].
  { eexists. vm_compute. reflexivity. }
  exists k'. split; [done|]. apply (delayed_queue_stays_empty (E := recv_kenv) recv_offerer k'); [|done].
  apply rtc_once. by exists (ReleaseFile 6), 0.
Defined.

(** What a release does before it tries to free its instance [i]. *)
Definition announce_release `{!KernelEnv} (d : Z) (i : instance) : M kernel unit :=
  match state i with
  | XEN_SHM_STATE_OPENED => ret tt
  | XEN_SHM_STATE_OFFERER => announce_close d set_offerer_state
  | XEN_SHM_STATE_RECEIVER | XEN_SHM_STATE_RECEIVER_MAPPED => announce_close d set_receiver_state
  end.

Lemma xen_shm_release_eq `{E : KernelEnv} filp d i k :
  xen_shm_delayed_free_queue k = 0 → d ≠ 0 → private_data k !! filp = Some d → heap k !! d = Some i →
  xen_shm_release filp k = bind (announce_release d i) (λ _,
    let* r := __xen_shm_prepare_free d true in
    if negb (r =? 0) then __xen_shm_add_delayed_free d ;; ret 0 else
    kfree d ;;
    let* data := get_inst d in
    when (use_ptemod data) (call_ (MmuNotifierUnregister d (mm data))) ;;
    ret 0) k.
Proof.
  intros Hq Hd Hf Hi. unfold xen_shm_release, bind at 1. rewrite free_delayed_empty by done.
  unfold bind at 1, file_data. rewrite Hf. unfold bind at 1, get_inst at 1.
  rewrite (proj2 (Z.eqb_neq _ _) Hd), Hi. reflexivity.
Qed.

(** Nothing is left at the address of a freed instance. *)
Lemma get_freed `{E : KernelEnv} d (f : instance → M kernel Z) k :
  d ≠ 0 → (kfree d ;; let* data := get_inst d in f data) k = Fault UseAfterFree.
Proof.
  intros Hd. unfold kfree, call_, call, bind, get_inst, modify. simpl.
  by rewrite (proj2 (Z.eqb_neq _ _) Hd), lookup_delete_eq.
Qed.

(** C28. A release never ends well with its instance freed. Whatever the state of the
    instance, once what it holds is given back it is freed, and is then read; an
    instance that is still OPENED has nothing to give back. A release that ends
    answered 0 and left the instance allocated, in no queue. *)
Theorem release_reads_freed_instance `{E : KernelEnv} filp d k :
  xen_shm_delayed_free_queue k = 0 → d ≠ 0 → private_data k !! filp = Some d →
  (∀ i k1 k2, heap k !! d = Some i → announce_release d i k = Done tt k1 →
     __xen_shm_prepare_free d true k1 = Done 0 k2 → xen_shm_release filp k = Fault UseAfterFree) ∧
  (∀ i, heap k !! d = Some i → state i = XEN_SHM_STATE_OPENED →
     xen_shm_release filp k = Fault UseAfterFree) ∧
  (∀ r k', xen_shm_release filp k = Done r k' →
     r = 0 ∧ is_Some (heap k' !! d) ∧ xen_shm_delayed_free_queue k' = 0).
Proof.
  intros Hq Hd Hf.
  assert (∀ i k1 k2, heap k !! d = Some i → announce_release d i k = Done tt k1 →
     __xen_shm_prepare_free d true k1 = Done 0 k2 → xen_shm_release filp k = Fault UseAfterFree) as Hfree.
  { intros i k1 k2 Hi Ha Hp. rewrite (xen_shm_release_eq _ _ _ _ Hq Hd Hf Hi).
    unfold bind at 1. rewrite Ha. unfold bind at 1. rewrite Hp. by apply get_freed. }
  split; [exact Hfree|]. split.
  - intros i Hi Hs. apply (Hfree i k k Hi); [unfold announce_release; by rewrite Hs|].
    unfold __xen_shm_prepare_free, bind, get_inst. by rewrite (proj2 (Z.eqb_neq _ _) Hd), Hi, Hs.
  - intros r k' Hr. pose proof (queue_release filp k r k' Hr Hq) as Hq'.
    destruct (heap k !! d) as [i|] eqn:Hi.
    2: { exfalso. revert Hr. unfold xen_shm_release, bind at 1. rewrite free_delayed_empty by done.
      unfold bind at 1, file_data. rewrite Hf. unfold bind at 1, get_inst at 1.
      by rewrite (proj2 (Z.eqb_neq _ _) Hd), Hi. }
    rewrite (xen_shm_release_eq _ _ _ _ Hq Hd Hf Hi) in Hr.
    apply bind_done in Hr as (u & k1 & E1 & Hr). apply bind_done in Hr as (v & k2 & E2 & Hr).
    destruct (negb (v =? 0)); [|by rewrite get_freed in Hr].
    apply bind_done in Hr as (u2 & k5 & E5 & Hr). injection Hr as <- <-. split; [done|]. split; [|done].
    unfold __xen_shm_add_delayed_free in E5.
    apply bind_done in E5 as (q & k6 & E6 & E5). apply bind_done in E5 as (u3 & k7 & E7 & E5).
    apply bind_done in E5 as (i' & k8 & E8 & E5). unfold get_inst in E8.
    rewrite (proj2 (Z.eqb_neq _ _) Hd) in E8. destruct (heap k7 !! d) eqn:E9; [|done].
    injection E8 as -> <-. injection E5 as _ <-. simpl. by rewrite E9.
Qed.

(** An opened instance, an offerer whose grants are no longer used and a mapped
    receiver are read once freed; the offerer of [recv_offerer] is kept. *)
Definition ended_kenv : KernelEnv := {|
  respond := λ t c, match c with EndForeignAccessRef _ => KAnswer 1 0 0 [] | _ => recv_respond t c end;
  other_domain := λ _ m, m;
  page_at := λ _, MetaPage XEN_SHM_META_PAGE_STATE_OPENED XEN_SHM_META_PAGE_STATE_NONE 3 7 1 (seqZ 100 128);
  wait := λ _ _ _ i m, (- ERESTARTSYS, i, m);
  kaddr_of_page := λ p, p * PAGE_SIZE;
  kpte_maddr := λ a, a;
  HZ := 1000;
|}.

Lemma release_reads_freed_instance_witness :
  xen_shm_release (H := recv_kenv) 6 (recv_kernel recv_fresh) = Fault UseAfterFree ∧
  xen_shm_release (H := ended_kenv) 6 recv_offerer = Fault UseAfterFree ∧
  xen_shm_release (H := recv_kenv) 6 (recv_kernel recv_half) = Fault UseAfterFree ∧
  ∃ r k', xen_shm_release (H := recv_kenv) 6 recv_offerer = Done r k' ∧ is_Some (heap k' !! 88).
Proof.
  assert (∃ k1, announce_release (H := ended_kenv) 88 (set_state XEN_SHM_STATE_OFFERER recv_instance) recv_offerer = Done tt k1 ∧
    ∃ k2, __xen_shm_prepare_free (H := ended_kenv) 88 true k1 = Done 0 k2) as (k1 & Ha & k2 & Hp).
  { eexists. split; [vm_compute; reflexivity|]. eexists. vm_compute. reflexivity. }
  assert (∃ k1, announce_release (H := recv_kenv) 88 recv_half (recv_kernel recv_half) = Done tt k1 ∧
    ∃ k2, __xen_shm_prepare_free (H := recv_kenv) 88 true k1 = Done 0 k2) as (k3 & Ha' & k4 & Hp').
  { eexists. split; [vm_compute; reflexivity|]. eexists. vm_compute. reflexivity. }
  split; [|split; [|split]].
  - apply (release_reads_freed_instance (E := recv_kenv) 6 88 (recv_kernel recv_fresh) eq_refl
      ltac:(lia) eq_refl) with recv_fresh; done.
  - by apply (proj1 (release_reads_freed_instance (E := ended_kenv) 6 88 recv_offerer eq_refl ltac:(lia) eq_refl) _ k1 k2 eq_refl).
  - by apply (proj1 (release_reads_freed_instance (E := recv_kenv) 6 88 (recv_kernel recv_half) eq_refl ltac:(lia) eq_refl) _ k3 k4 eq_refl).
  - assert (∃ k', xen_shm_release (H := recv_kenv) 6 recv_offerer = Done 0 k') as [k' Hk'].
    { eexists. vm_compute. reflexivity. }
    exists 0, k'. split; [done|].
    apply (release_reads_freed_instance (E := recv_kenv) 6 88 recv_offerer eq_refl ltac:(lia) eq_refl) in Hk'.
    apply Hk'.
Defined.

(** C29. The order the offerer's pages are allocated with is one more than the
    binary logarithm of their number: enough pages always, and never more than
    twice as many; but exactly twice as many for a power of two, which the
    correction was meant to avoid. *)
Theorem alloc_order_doubles_powers `{E : KernelEnv} p k :
  0 < p < 2 ^ 32 →
  ∃ order, alloc_order p k = Done order k ∧ p < 2 ^ order ≤ 2 * p ∧
    (∀ e, 0 ≤ e → p = 2 ^ e → 2 ^ order = 2 * p).
Proof.
  intros Hp. exists (Z.log2 p + 1). split; [by apply alloc_order_is|].
  pose proof (Z.log2_spec p ltac:(lia)) as [Hl Hu]. pose proof (Z.log2_nonneg p).
  rewrite Z.pow_succ_r in Hu by done. rewrite Z.pow_add_r by lia. split; [lia|].
  intros e He Hpe. rewrite Hpe, Z.log2_pow2 by done. lia.
Qed.

Lemma alloc_order_doubles_powers_witness :
  ∃ order, alloc_order 128 recv_offerer = Done order recv_offerer ∧ 128 < 2 ^ order ≤ 2 * 128 ∧
    (∀ e, 0 ≤ e → 128 = 2 ^ e → 2 ^ order = 2 * 128).
Proof. apply (alloc_order_doubles_powers (E := recv_kenv)). lia. Defined.

(** ** Loading the module *)

Section Loading.
Context `{E : KernelEnv}.

(** Learning the domain's number: the channel made for it is closed. *)
Definition domid_post (k0 : kernel) (r : Z) (k : kernel) : Prop :=
  ∃ a, let alloc := (EvtchnAllocUnbound DOMID_SELF DOMID_SELF, a) in
    (k_ret a ≠ 0 ∧ r = - EIO ∧ ktrace k = alloc :: ktrace k0)
    ∨ (k_ret a = 0 ∧ ∃ s c,
        ktrace k = [(EvtchnClose (k_out1 a), c); (EvtchnStatus DOMID_SELF (k_out1 a), s); alloc] ++ ktrace k0 ∧
        r = if negb (k_ret s =? 0) then - EIO
            else if negb (k_out1 s =? EVTCHNSTAT_unbound) then - EAGAIN else u16 (k_out2 s)).

Lemma wp_domid_hack k :
  wp __xen_shm_get_domid_hack (λ r k', domid_post k r k' ∧
    xen_shm_major_number k' = xen_shm_major_number k ∧ xen_shm_domid k' = xen_shm_domid k) k.
Proof.
  apply wp_bind, wp_call. cbv zeta. set (a := respond _ _). apply wp_if; intros Ha; bool_hyps.
  { apply wp_ret. split; [|done]. exists a. by left. }
  apply wp_bind, wp_call. cbv zeta. set (s := respond _ _).
  apply wp_bind, wp_bind, wp_call. cbv zeta. set (c := respond _ _). apply wp_ret.
  assert (∀ r k', ktrace k' = [(EvtchnClose (k_out1 a), c); (EvtchnStatus DOMID_SELF (k_out1 a), s);
    (EvtchnAllocUnbound DOMID_SELF DOMID_SELF, a)] ++ ktrace k →
    r = (if negb (k_ret s =? 0) then - EIO
         else if negb (k_out1 s =? EVTCHNSTAT_unbound) then - EAGAIN else u16 (k_out2 s)) →
    domid_post k r k') as Hpost.
  { intros r k' Ht ->. exists a. right. split; [done|]. by exists s, c. }
  apply wp_if; intros Hs; [|apply wp_if; intros Hu]; apply wp_ret; (split; [|done]); apply Hpost; try done;
    by rewrite Hs, ?Hu.
Qed.

Lemma domid_range k0 r k : domid_post k0 r k → r < 0 ∨ 0 ≤ r ≤ USHRT_MAX.
Proof.
  intros (a & [(_ & -> & _)|(_ & s & c & _ & ->)]); [by left|].
  unfold u16. pose proof (wrap_range 16 (k_out2 s) ltac:(lia)). unfold USHRT_MAX.
  destruct (negb (k_ret s =? 0)); [by left|]. destruct (negb _); [by left | right; lia].
Qed.

(** Registering the device: what was registered is undone on failure. *)
Definition device_post (k0 : kernel) (r : Z) (k : kernel) : Prop :=
  xen_shm_domid k = xen_shm_domid k0 ∧
  ∃ b, let reg := (if xen_shm_major_number k0 =? 0 then AllocChrdevRegion 0
                   else RegisterChrdevRegion (xen_shm_major_number k0) 0, b) in
    (k_ret b < 0 ∧ r = k_ret b ∧ ktrace k = reg :: ktrace k0)
    ∨ (0 ≤ k_ret b ∧ ∃ c,
        (k_ret c < 0 ∧ r = k_ret c ∧ ∃ u, ktrace k = [(UnregisterChrdevRegion, u); (CdevAdd, c); reg] ++ ktrace k0)
        ∨ (0 ≤ k_ret c ∧ r = 0 ∧ ktrace k = [(CdevAdd, c); reg] ++ ktrace k0 ∧
           device_major k = (if xen_shm_major_number k0 =? 0 then k_out1 b else xen_shm_major_number k0) ∧
           xen_shm_major_number k = device_major k)).

Lemma wp_register_device k :
  wp register_device (λ r k', xen_shm_domid k' = xen_shm_domid k ∧ ∃ b,
    r = k_ret b ∧
    ktrace k' = (if xen_shm_major_number k =? 0 then AllocChrdevRegion 0
                 else RegisterChrdevRegion (xen_shm_major_number k) 0, b) :: ktrace k ∧
    device_major k' = (if xen_shm_major_number k =? 0 then k_out1 b else xen_shm_major_number k) ∧
    xen_shm_major_number k' = device_major k') k.
Proof.
  unfold wp, register_device. destruct (Z.eqb_spec (xen_shm_major_number k) 0) as [Hz|Hz]; simpl;
    (split; [done|]; eexists; by split_and!).
Qed.

Lemma wp_init_device k : wp init_device (device_post k) k.
Proof.
  apply wp_bind. eapply wp_mono; [apply wp_register_device|].
  intros r k1 (Hdom & b & -> & Ht & Hdm & Hmn). set (reg := if xen_shm_major_number k =? 0 then _ else _) in *.
  apply wp_if; intros Hb; bool_hyps; [by apply wp_ret; split; [|exists b; left]|].
  apply wp_bind, wp_call. cbv zeta. set (c := respond _ _). apply wp_if; intros Hc; bool_hyps.
  - apply wp_bind, wp_bind, wp_call. apply wp_ret, wp_ret. split; [done|]. exists b. right. split; [done|].
    exists c. left. split; [done|]. split; [done|]. eexists. simpl. by rewrite Ht.
  - apply wp_ret. split; [done|]. exists b. right. split; [done|]. exists c. right. split; [done|]. split; [done|].
    simpl. by rewrite Ht.
Qed.
End Loading.

(** C30. Loading the module: when its domain's number is not given, one channel is
    made to learn it and closed again, the channel being in the expected state or
    not; any failure of this ends the loading before a device is registered and
    leaves the number unknown, and otherwise the number learnt is the domain's from
    then on. One that was given is kept. The device's number is then the one asked for, or the one the kernel chose; when
    the device cannot be added, its number is given back. *)
Theorem init_registers_or_undoes `{E : KernelEnv} k :
  wp xen_shm_init (λ r k',
    (xen_shm_domid k ≠ 0 ∧ xen_shm_domid k' = xen_shm_domid k ∧ device_post k r k')
    ∨ (xen_shm_domid k = 0 ∧ ∃ v k1, domid_post k v k1 ∧
        ((v < 0 ∧ r = v ∧ xen_shm_domid k' = 0 ∧ k' = k1)
         ∨ (0 ≤ v ≤ USHRT_MAX ∧ xen_shm_domid k' = v ∧ device_post (set_domid v k1) r k')))) k.
Proof.
  unfold wp, xen_shm_init. change (PAGE_SIZE <? sizeof_meta_page) with false. cbv iota.
  destruct (Z.eqb_spec (xen_shm_domid k) 0) as [Hz|Hz].
  - match goal with |- match ?m k with _ => _ end => change (wp m (λ r k', 
      (xen_shm_domid k ≠ 0 ∧ xen_shm_domid k' = xen_shm_domid k ∧ device_post k r k')
      ∨ (xen_shm_domid k = 0 ∧ ∃ v k1, domid_post k v k1 ∧
        ((v < 0 ∧ r = v ∧ xen_shm_domid k' = 0 ∧ k' = k1)
         ∨ (0 ≤ v ≤ USHRT_MAX ∧ xen_shm_domid k' = v ∧ device_post (set_domid v k1) r k')))) k) end.
    apply wp_bind. eapply wp_mono; [apply wp_domid_hack|]. intros v k1 (Hv & _ & Hd1). rewrite Hz in Hd1.
    pose proof (domid_range _ _ _ Hv) as Hr. unfold USHRT_MAX in *.
    apply wp_if; intros Hneg; bool_hyps; [apply wp_ret; right; split; [done|]; exists v, k1; auto 10|].
    unfold u32. rewrite wrap_small by lia. rewrite (proj2 (Z.ltb_ge _ _)) by lia.
    apply wp_bind, wp_modify. unfold u16. rewrite wrap_small by lia.
    eapply wp_mono; [apply wp_init_device|]. intros r k2 Hpost. right. split; [done|]. exists v, k1.
    split; [done|]. right. split; [lia|]. split; [apply Hpost | done].
  - pose proof (wp_init_device k) as Hw. unfold wp in Hw.
    destruct (init_device k); [left; split_and!; [done | apply Hw | done] | done | done].
Qed.
