(* ===== verification/Stack.v ===== *)
(** The pipe library above the module: what the module's commands answer to the
    calls of the library, and what that makes of a memory one side has closed and
    of a signal that comes before its sleeper. *)
From stdpp Require Import gmap relations.
From S2P Require Import Prelude Abi Ring PipeDefs PipeWait KDefs KEvent KMemory KIoctl KFile KRules KKeeps KSpecs KRuns.
Open Scope Z_scope.
Open Scope c_scope.

(** ** The calls of the library as commands *)

Definition ioctl_of (c : syscall) : option (ioctl_command * ioctl_arg) :=
  match c with
  | SysGetDomid _ => Some (XEN_SHM_IOCTL_GET_DOMID, ArgDomid 0)
  | SysInitOfferer _ n d => Some (XEN_SHM_IOCTL_INIT_OFFERER, ArgOfferer (IoctlargOfferer n d 0 0))
  | SysInitReceiver _ n d g => Some (XEN_SHM_IOCTL_INIT_RECEIVER, ArgReceiver (IoctlargReceiver n d g))
  | SysAwait _ a => Some (XEN_SHM_IOCTL_AWAIT, ArgAwait a)
  | SysSsig _ => Some (XEN_SHM_IOCTL_SSIG, ArgNone)
  | SysMalloc | SysFree | SysOpen | SysClose _ | SysMmap _ _ | SysMunmap _ _ => None
  end.

(** What the user's argument holds after the command. *)
Definition written (arg : ioctl_arg) (a : sysanswer) : Prop :=
  match arg with
  | ArgOfferer o => ans_out1 a = off_grant o ∧ ans_out2 a = off_local_domid o
  | ArgAwait w => ans_out1 a = remaining_ms w
  | ArgDomid d => ans_out1 a = d
  | ArgReceiver _ | ArgNone => True
  end.

(** [ioctl]: a negative result is an error, -1 with errno; an interrupted call may
    be made again instead. *)
Record reported (r : Z * ioctl_arg) (a : sysanswer) : Prop := {
  rep_error : r.1 < 0 → r.1 ≠ - ERESTARTSYS → ans_ret a = -1 ∧ ans_errno a = - r.1;
  rep_value : 0 ≤ r.1 → ans_ret a = r.1 ∧ written r.2 a;
}.

Section Stack.
Context `{!KernelEnv}.

(** The library's argument can be read and written by the module. *)
Definition arguments_mapped : Prop := ∀ t,
  k_ret (respond t AccessOk) ≠ 0 ∧ k_ret (respond t CopyFromUser) = 0 ∧ k_ret (respond t CopyToUser) = 0.

(** The interrupt handler runs for any instance, or an allowed command on this file. *)
Definition commands := ioctl_command → ioctl_arg → Z → Prop.
Definition any_command : commands := λ _ _ _, True.
Definition own_step (filp : Z) (allowed : commands) (k k' : kernel) : Prop :=
  ∃ e r, run_entry e k = Done r k' ∧
    match e with Interrupt _ => True | IoctlFile f cmd arg g => f = filp ∧ allowed cmd arg g | _ => False end.

(** The library runs above the module: [hist t] is the module's state when the call
    of time [t] is made, and the module answers it. *)
Record stacked `{!PipeEnv} (filp : Z) (hist : nat → kernel) : Prop := {
  st_answers t c cmd arg g r k' :
    ioctl_of c = Some (cmd, arg) → xen_shm_ioctl filp cmd arg g (hist t) = Done r k' → reported r (answer t c);
  st_between t : rtc (own_step filp any_command) (hist t) (hist (S t));
}.

(** ** An initialised instance *)

(** File [filp] has instance [d], which is initialised, and [P] holds of it and of
    its header page. *)
Definition holds (filp d : Z) (P : instance → meta_page → Prop) (k : kernel) : Prop :=
  ∃ i m, private_data k !! filp = Some d ∧ d ≠ 0 ∧ heap k !! d = Some i ∧
    state i ≠ XEN_SHM_STATE_OPENED ∧ pages k !! shared_memory i = Some m ∧ P i m.

(** Neither the other domain nor a signal makes [P] false. *)
Record lasting (P : instance → meta_page → Prop) : Prop := {
  last_page t i m : P i m → P i (other_domain t m);
  last_first i m : P i m → P (set_initial_signal true i) m;
  last_signal i m : P i m → P (set_latent_user_signal true (set_user_signal true i)) m;
  last_read i m : P i m → P (set_user_signal false i) m;
}.

(** States that differ in the time and the trace. *)
Definition alike (k k' : kernel) : Prop :=
  heap k' = heap k ∧ pages k' = pages k ∧ private_data k' = private_data k.

Lemma alike_holds filp d P k k' : alike k k' → holds filp d P k → holds filp d P k'.
Proof. unfold holds. by intros (-> & -> & ->). Qed.

Lemma wp_call_alike c Q k :
  (∀ k', alike k k' → Q (respond (kclock k) c) k') → wp (call c) Q k.
Proof. intros HQ. apply wp_call, HQ. by split_and!. Qed.
Lemma wp_call__alike c Q k : (∀ k', alike k k' → Q tt k') → wp (call_ c) Q k.
Proof. intros HQ. apply wp_bind, wp_call_alike. intros k' Hk. by apply HQ. Qed.

Lemma wp_ioctl_await filp d a g Q k :
  arguments_mapped → private_data k !! filp = Some d →
  (∀ k1, alike k k1 → wp (__xen_shm_ioctl_await d a) (λ r k2,
     ∀ k3, alike k2 k3 → Q (r.1, ArgAwait (if r.1 =? 0 then r.2 else a)) k3) k1) →
  wp (xen_shm_ioctl filp XEN_SHM_IOCTL_AWAIT (ArgAwait a) g) Q k.
Proof.
  intros Hm Hf HQ. apply wp_bind. unfold wp at 1, file_data. rewrite Hf.
  apply wp_bind, wp_bind, wp_call_alike. intros k1 H1. apply wp_ret.
  rewrite (proj2 (Z.eqb_neq _ _)) by apply Hm. apply wp_bind, wp_call_alike. intros k2 H2.
  rewrite (proj2 (Z.eqb_eq _ _)) by apply Hm. apply wp_bind.
  eapply wp_mono; [apply HQ|]. { destruct H1 as (? & ? & ?), H2 as (? & ? & ?). by split_and!; congruence. }
  intros r k3 Hr. simpl in Hr. apply wp_if; intros Hr0; [apply negb_true_iff in Hr0 | apply negb_false_iff in Hr0];
    rewrite Hr0 in Hr; [by apply wp_ret, Hr|].
  apply wp_bind, wp_call_alike. intros k4 H4. rewrite (proj2 (Z.eqb_eq _ _)) by apply Hm.
  apply wp_ret. apply Z.eqb_eq in Hr0. rewrite <-Hr0. by apply Hr.
Qed.

Section Holds.
Context (filp d : Z) (P : instance → meta_page → Prop) (Plast : lasting P).
Abbreviation holding := (holds filp d P).

(** The instance is there, and what is done with it may depend on it. *)
Lemma wp_holds_inst Q k :
  holding k →
  (∀ i m, heap k !! d = Some i → state i ≠ XEN_SHM_STATE_OPENED → pages k !! shared_memory i = Some m → P i m → Q i k) →
  wp (get_inst d) Q k.
Proof. intros (i & m & Hf & Hd & Hi & Hs & Hm & HP) HQ. eapply wp_get_inst; [done..|]. by eapply HQ. Qed.

(** Looking at the header page. *)
Lemma wp_holds_page {A} i (f : meta_page → A) Q k :
  holding k → heap k !! d = Some i →
  (∀ m k', holding k' → heap k' = heap k → pages k' !! shared_memory i = Some m → P i m → Q (f m) k') →
  wp (load_page (shared_memory i) f) Q k.
Proof.
  intros (i' & m & Hf & Hd & Hi & Hs & Hm & HP) Hi' HQ. rewrite Hi in Hi'. injection Hi' as <-.
  eapply wp_load_page; [done|]. pose proof (last_page _ Plast (kclock k) _ _ HP) as HP'.
  apply HQ; [|done|apply lookup_insert_eq|done]. eexists _, _. split_and!; [done..| apply lookup_insert_eq |done].
Qed.

Lemma wp_holds_broken i Q k :
  holding k → heap k !! d = Some i →
  (∀ b k', holding k' → heap k' = heap k →
     ((∀ i m, P i m → closed_page m = true) → closing_is_final → b = true) →
     (b = true → page_closed (shared_memory i) k') → Q b k') →
  wp (__xen_shm_is_broken_pipe (shared_memory i)) Q k.
Proof.
  intros Hh Hi HQ. apply wp_bind, wp_holds_page; [done..|]. intros m k1 Hh1 Hk1 Hm1 HP1.
  apply wp_if; intros Ho.
  { apply wp_ret, HQ; [done..|]. intros _. exists m. unfold closed_page. by rewrite Ho. }
  bool_hyps.
  apply wp_bind. pose proof Hh1 as (i1 & m1 & Hf & Hd & Hi1 & Hs & Hm & HP).
  rewrite Hk1, Hi in Hi1. injection Hi1 as <-. rewrite Hm1 in Hm. injection Hm as <-.
  eapply wp_load_page; [done|]. pose proof (last_page _ Plast (kclock k1) _ _ HP) as HP'.
  apply wp_ret, HQ; [|done| |].
  - eexists _, _. split_and!; [done.. | by rewrite <-Hi, <-Hk1 | done | apply lookup_insert_eq | done].
  - intros Hc Hfin. pose proof (Hc _ _ HP1) as H1. unfold closed_page in H1.
    apply orb_true_iff in H1 as [H1|H1]; bool_hyps; [done|].
    apply Z.eqb_eq. by apply (Hfin (kclock k1)).
  - intros Hr. eexists. split; [apply lookup_insert_eq|]. unfold closed_page. by rewrite Hr, orb_true_r.
Qed.

Lemma wp_holds_ssig Q k :
  holding k →
  (∀ r k', holding k' → ((∀ i m, P i m → closed_page m = true) → closing_is_final → r = - EPIPE) → Q r k') →
  wp (__xen_shm_ioctl_ssig d) Q k.
Proof.
  intros Hh HQ. apply wp_bind, wp_holds_inst; [done|]. intros i m Hi Hs _ _.
  rewrite bool_decide_eq_false_2 by done. apply wp_bind, wp_holds_broken; [done..|].
  intros b k1 Hh1 _ Hb _. apply wp_if; intros ->; [by apply wp_ret, HQ|].
  apply wp_bind, wp_call__alike. intros k2 H2. apply wp_ret, HQ; [by eapply alike_holds|].
  intros Hc Hfin. discriminate (Hb Hc Hfin).
Qed.

(** What a signal does. *)
Lemma handler_done d' r k k' :
  xen_shm_event_handler d' k = Done r k' → ∃ j, heap k !! d' = Some j ∧ pages k' = pages k ∧ private_data k' = private_data k ∧
    heap k' = <[d' := if initial_signal j then set_latent_user_signal true (set_user_signal true j)
                      else set_initial_signal true j]> (heap k).
Proof.
  unfold xen_shm_event_handler, put_inst, call_, call, when, bind, ret, modify, get_inst.
  destruct (Z.eqb_spec d' 0) as [->|Hd']; [done|]. destruct (heap k !! d') as [j|] eqn:Hj; [|done].
  intros E. exists j. split; [done|]. revert E. destruct (initial_signal j); simpl.
  - rewrite Hj. simpl. rewrite lookup_insert_eq. intros [= _ <-]. simpl. by rewrite insert_insert_eq.
  - case_bool_decide; simpl; rewrite Hj; by intros [= _ <-].
Qed.

Lemma holds_interrupt d' r k k' : holding k → xen_shm_event_handler d' k = Done r k' → holding k'.
Proof.
  intros (i & m & Hf & Hd & Hi & Hs & Hm & HP) (j & Hj & Hp & Hfd & Hh)%handler_done.
  unfold holds. rewrite Hp, Hfd, Hh. destruct (decide (d' = d)) as [->|Hne].
  - rewrite Hi in Hj. injection Hj as <-. rewrite lookup_insert_eq.
    destruct (initial_signal i); eexists _, m; split_and!; try done; by apply Plast.
  - rewrite lookup_insert_ne by done. by exists i, m.
Qed.
(** Commands. *)
Lemma wp_copy_kept {A} c (a : A) m k :
  (∀ k, holding k → wp m (λ _, holding) k) → holding k → wp (copy c a m) (λ _, holding) k.
Proof.
  intros Hm Hk. apply wp_bind, wp_call_alike. intros k' Ha.
  apply wp_if; intros _; [apply wp_ret | apply Hm]; by eapply alike_holds.
Qed.

(** The wait a command makes. *)
Definition awaits (cmd : ioctl_command) (arg : ioctl_arg) (garbage : Z) (a : ioctlarg_await) : Prop :=
  match cmd, arg with
  | XEN_SHM_IOCTL_WAIT, _ =>
      a = IoctlargAwait (Z.lor XEN_SHM_IOCTL_AWAIT_INIT XEN_SHM_IOCTL_AWAIT_USER) garbage 0
  | XEN_SHM_IOCTL_AWAIT, ArgAwait b => a = b
  | _, _ => False
  end.

Lemma wp_initialise_refused {A B} (x : A) (f : instance → M kernel A) (c : A → M kernel B) k :
  holding k → (∀ k, holding k → wp (c x) (λ _, holding) k) →
  wp (let* r := (let* data := get_inst d in
        if negb (bool_decide (state data = XEN_SHM_STATE_OPENED)) then ret x else f data) in c r) (λ _, holding) k.
Proof.
  intros Hk Hc. apply wp_bind, wp_bind, wp_holds_inst; [done|]. intros i m _ Hs _ _.
  rewrite bool_decide_eq_false_2 by done. apply wp_ret. by apply Hc.
Qed.

Lemma holds_ioctl cmd arg g k :
  (∀ a k, awaits cmd arg g a → holding k → wp (__xen_shm_ioctl_await d a) (λ _, holding) k) →
  holding k → wp (xen_shm_ioctl filp cmd arg g) (λ _, holding) k.
Proof.
  intros Haw Hh. apply wp_bind. pose proof Hh as (i & m & Hf & _). unfold wp at 1, file_data. rewrite Hf.
  apply wp_if; intros _; [by apply wp_ret|]. apply wp_bind. apply wp_mono with (λ _, holding).
  { apply wp_if; intros _; [|by apply wp_ret]. apply wp_bind, wp_call_alike. intros k1 H1.
    apply wp_ret. by eapply alike_holds. }
  intros err k1 Hh1. apply wp_if; intros _; [by apply wp_ret|].
  assert (∀ k x, holding k → wp (ret x : M kernel (Z * ioctl_arg)) (λ _, holding) k) as Hret by (by intros).
  destruct cmd; try (by destruct arg; apply wp_ret).
  - destruct arg; try (by apply wp_ret). apply wp_copy_kept; [|done]. intros k2 H2.
    apply wp_initialise_refused; [done|]. intros k3 H3. by apply wp_ret.
  - destruct arg; try (by apply wp_ret). apply wp_copy_kept; [|done]. intros k2 H2.
    apply wp_initialise_refused; [done|]. intros k3 H3. by apply wp_ret.
  - destruct arg; apply wp_bind; (eapply wp_mono; [by apply Haw | intros; by apply wp_ret]).
  - destruct arg; try (by apply wp_ret). apply wp_copy_kept; [|done]. intros k2 H2. apply wp_bind.
    eapply wp_mono; [by apply Haw|]. intros r k3 H3. apply wp_if; intros _; [by apply wp_ret|].
    by apply wp_copy_kept.
  - assert (∀ x : Z → Z * ioctl_arg, wp (let* r := __xen_shm_ioctl_ssig d in ret (x r)) (λ _, holding) k1) as Hx.
    { intros x. apply wp_bind, wp_holds_ssig; [done|]. intros. by apply wp_ret. }
    destruct arg; apply Hx.
  - destruct arg; (apply wp_bind, wp_holds_inst; [done|]; intros; by apply wp_copy_kept).
Qed.

(** The steps of the module between two calls, if the commands keep it. *)
Lemma holds_own_steps allowed k k' :
  (∀ cmd arg g k, allowed cmd arg g → holding k → wp (xen_shm_ioctl filp cmd arg g) (λ _, holding) k) →
  rtc (own_step filp allowed) k k' → holding k → holding k'.
Proof.
  intros Hc. induction 1 as [|k1 k2 k3 (e & r & E & He) _ IH]; [done|]. intros Hh. apply IH. destruct e; try done.
  - destruct He as [-> Ha]. apply bind_done in E as (x & k1' & E & [= _ <-]).
    pose proof (Hc cmd arg garbage _ Ha Hh) as Hw. unfold wp in Hw. by rewrite E in Hw.
  - apply bind_done in E as (x & k1' & E & [= _ <-]). by eapply holds_interrupt.
Qed.
End Holds.

(** ** A memory that one side has closed *)

Definition closed (i : instance) (m : meta_page) : Prop := closed_page m = true.
Hypothesis closing : closing_is_final.

Lemma closed_lasting : lasting closed.
Proof.
  split; try done. unfold closed, closed_page. intros t i m. rewrite !orb_true_iff, !Z.eqb_eq.
  pose proof (closing t m). tauto.
Qed.

Section Closed.
Context (filp d : Z).
Abbreviation closing_held := (holds filp d closed).

Lemma wp_closed_await arg Q k :
  closing_held k → (∀ k', closing_held k' → Q (- EPIPE, arg) k') → wp (__xen_shm_ioctl_await d arg) Q k.
Proof.
  intros Hh HQ. apply wp_bind, (wp_holds_inst filp d closed); [done|]. intros i m Hi Hs _ _.
  rewrite bool_decide_eq_false_2 by done.
  apply wp_bind, (wp_holds_broken filp d closed closed_lasting); [done..|].
  intros b k1 Hh1 _ Hb _. rewrite Hb; [|done..]. by apply wp_ret, HQ.
Qed.

Lemma wp_closed_ssig Q k :
  closing_held k → (∀ k', closing_held k' → Q (- EPIPE) k') → wp (__xen_shm_ioctl_ssig d) Q k.
Proof.
  intros Hh HQ. apply (wp_holds_ssig filp d closed closed_lasting); [done|]. intros r k' Hh' ->; [|done..].
  by apply HQ.
Qed.

Lemma closed_ioctl cmd arg g k : closing_held k → wp (xen_shm_ioctl filp cmd arg g) (λ _, closing_held) k.
Proof. apply (holds_ioctl _ _ _ closed_lasting). intros. by apply wp_closed_await. Qed.

(** A library above a closed memory is answered EPIPE. *)
Context `{!PipeEnv} (hist : nat → kernel).
Hypothesis mapped : arguments_mapped.
Hypothesis stack : stacked filp hist.
Hypothesis closed_first : closing_held (hist 0%nat).

Lemma closed_hist t : closing_held (hist t).
Proof.
  induction t as [|t IH]; [done|]. eapply (holds_own_steps _ _ _ closed_lasting any_command); [| apply (st_between _ _ stack) | done].
  intros cmd arg g k _ Hh. by apply closed_ioctl.
Qed.

Lemma closed_answers t fd arg :
  (ans_ret (answer t (SysAwait fd arg)) = -1 ∧ ans_errno (answer t (SysAwait fd arg)) = EPIPE) ∧
  ans_ret (answer t (SysSsig fd)) = -1 ∧ ans_errno (answer t (SysSsig fd)) = EPIPE.
Proof.
  pose proof (closed_hist t) as Hh. pose proof Hh as (i & m & Hf & _).
  assert (wp (xen_shm_ioctl filp XEN_SHM_IOCTL_AWAIT (ArgAwait arg) 0) (λ r _, r.1 = - EPIPE) (hist t)) as Ha.
  { apply (wp_ioctl_await filp d); [done..|]. intros k1 H1. apply wp_closed_await; [by eapply alike_holds|].
    by intros. }
  assert (wp (xen_shm_ioctl filp XEN_SHM_IOCTL_SSIG ArgNone 0) (λ r _, r.1 = - EPIPE) (hist t)) as Hs.
  { apply wp_bind. unfold wp at 1, file_data. rewrite Hf.
    change (wp (let* r := __xen_shm_ioctl_ssig d in ret (r, ArgNone)) (λ r _, r.1 = - EPIPE) (hist t)).
    apply wp_bind, wp_closed_ssig; [done|].
    intros k1 _. by apply wp_ret. }
  apply wp_done in Ha as (ra & ka & Ea & Hra), Hs as (rs & ks & Es & Hrs).
  pose proof (st_answers _ _ stack t (SysAwait fd arg) _ _ _ _ _ eq_refl Ea) as [Ra _].
  pose proof (st_answers _ _ stack t (SysSsig fd) _ _ _ _ _ eq_refl Es) as [Rs _].
  rewrite Hra in Ra. rewrite Hrs in Rs. unfold EPIPE, ERESTARTSYS in *. split; [apply Ra | apply Rs]; lia.
Qed.

Lemma closed_broken : broken.
Proof. intros t fd arg. apply closed_answers. Qed.
End Closed.

(** ** A signal that comes before its sleeper *)

Definition signalled_early (i : instance) (m : meta_page) : Prop :=
  initial_signal i = true ∧ latent_user_signal i = true.

Lemma early_lasting : lasting signalled_early.
Proof. split; unfold signalled_early; simpl; tauto. Qed.

(** A wait whose condition holds ends at once, with what is left of its timeout. *)
Definition at_once : Prop := ∀ t cond j i m, cond i m = true → wait t cond j i m = (j, i, m).

(** What the library does besides sleeping: it signals, and it asks whether the
    memory is closed. *)
Definition awake : commands := λ cmd arg g, ∀ a, awaits cmd arg g a →
  request_flags a = XEN_SHM_IOCTL_AWAIT_INIT ∧ await_jiffies (timeout_ms a) < 2 ^ 31.

Section Early.
Context (filp d : Z).
Abbreviation early := (holds filp d signalled_early).
Hypothesis prompt : at_once.

Lemma wp_wait_early i cond j Q k :
  early k → heap k !! d = Some i → (∀ i m, signalled_early i m → cond i m = true) →
  (∀ k', early k' → heap k' = heap k → Q j k') → wp (wait_event d (shared_memory i) cond j) Q k.
Proof.
  intros (i' & m & Hf & Hd & Hi & Hs & Hm & He) Hi' Hc HQ. rewrite Hi in Hi'. injection Hi' as <-.
  apply wp_bind. eapply wp_get_inst; [done..|]. apply wp_bind. eapply wp_get_page; [done|].
  unfold wp. simpl. rewrite prompt by by apply Hc. apply HQ; simpl; [|by rewrite insert_id].
  exists i', (other_domain (kclock k) m). simpl. rewrite !lookup_insert_eq. by split_and!.
Qed.

Lemma early_read i k :
  early k → heap k !! d = Some i → early (set_heap (<[d := set_user_signal false i]> (heap k)) k).
Proof.
  intros (i' & m & Hf & Hd & Hi & Hs & Hm & He) Hi'. rewrite Hi in Hi'. injection Hi' as <-.
  exists (set_user_signal false i'), m. simpl. rewrite lookup_insert_eq. by split_and!.
Qed.

Lemma wp_early_done i arg k :
  early k → heap k !! d = Some i →
  wp (await_done d (shared_memory i) false false arg) (λ r k', early k' ∧ (r.1 = 0 ∨ r.1 = - EPIPE)) k.
Proof.
  intros Hh Hi. apply wp_bind, wp_ret, wp_bind.
  apply (wp_holds_broken filp d signalled_early early_lasting); [done..|]. intros b k1 Hh1 _ _ _.
  apply wp_bind, wp_ret, wp_ret. split; [done|]. destruct b; auto.
Qed.

(** The memory of the instance is closed. *)
Definition closed_at (k : kernel) : Prop := ∃ i, heap k !! d = Some i ∧ page_closed (shared_memory i) k.

(** AWAIT as far as the wait, without the mutex. *)
Lemma wp_early_await arg Q k :
  has (request_flags arg) XEN_SHM_IOCTL_AWAIT_MUTEX = false →
  let user := has (request_flags arg) XEN_SHM_IOCTL_AWAIT_USER in
  let latent := has (request_flags arg) XEN_SHM_IOCTL_AWAIT_LATENT_USER in
  let cond := await_cond user (has (request_flags arg) XEN_SHM_IOCTL_AWAIT_INIT) latent in
  (∀ i m, signalled_early i m → cond i m = true) → await_jiffies (timeout_ms arg) < 2 ^ 31 → early k →
  (∀ k', early k' → closed_at k' → Q (- EPIPE, arg) k') →
  (∀ i arg' k', early k' → heap k' !! d = Some i → request_flags arg' = request_flags arg →
     wp (await_done d (shared_memory i) false (user || latent) arg') Q k') →
  wp (__xen_shm_ioctl_await d arg) Q k.
Proof.
  intros Hmut user latent cond Hc Hj Hh HE HQ. unfold __xen_shm_ioctl_await. cbv zeta.
  apply wp_bind, (wp_holds_inst filp d signalled_early); [done|]. intros i m Hi Hs _ _.
  rewrite bool_decide_eq_false_2 by done.
  apply wp_bind, (wp_holds_broken filp d signalled_early early_lasting); [done..|]. intros b k1 Hh1 Hk1 _ Hb.
  apply wp_if; intros Hbt.
  { apply wp_ret, HE; [done|]. exists i. rewrite Hk1. auto. }
  rewrite Hmut. apply wp_bind, wp_ret.
  rewrite <-Hk1 in Hi. apply wp_bind. eapply wp_put_inst; [by destruct Hh1 as (? & ? & ? & ? & ?) | done |].
  pose proof (early_read _ _ Hh1 Hi) as Hh2. pose proof (await_jiffies_pos (timeout_ms arg)) as Hp.
  set (k2 := set_heap _ k1) in *. change (shared_memory i) with (shared_memory (set_user_signal false i)).
  assert (heap k2 !! d = Some (set_user_signal false i)) as Hi2 by apply lookup_insert_eq.
  apply wp_if; intros _; apply wp_bind, wp_wait_early; [done..| | done | done | exact Hc |].
  - intros k3 Hh3 Hk3. simpl (0 <? 0). cbv iota. apply HQ; [done | by rewrite Hk3 | done].
  - intros k3 Hh3 Hk3.
    assert (s32 (await_jiffies (timeout_ms arg)) = await_jiffies (timeout_ms arg)) as ->.
    { unfold s32, signed, wrap. rewrite Z.mod_small by lia. case_decide; lia. }
    rewrite (proj2 (Z.ltb_ge _ _)) by lia. apply HQ; [done | by rewrite Hk3 | done].
Qed.

(** Asking whether the memory is closed does not consume the signal. *)
Lemma wp_early_probe arg k :
  request_flags arg = XEN_SHM_IOCTL_AWAIT_INIT → await_jiffies (timeout_ms arg) < 2 ^ 31 →
  early k → wp (__xen_shm_ioctl_await d arg) (λ _, early) k.
Proof.
  intros Hfl Hj Hh. apply wp_early_await; rewrite ?Hfl; [done | | done | done | done |].
  - intros i m [H1 _]. unfold await_cond. by rewrite H1.
  - intros i arg' k' Hh' Hi' _. eapply wp_mono; [by apply wp_early_done|]. by intros r k3 [H3 _].
Qed.

(** The sleep of the library ends at once and consumes it. *)
Lemma wp_early_sleep remaining k :
  early k → wp (__xen_shm_ioctl_await d (IoctlargAwait XEN_SHM_IOCTL_AWAIT_LATENT_USER 0 remaining)) (λ r k',
    r.1 = - EPIPE ∧ (closing_is_final → closed_at k') ∨
    r.1 = 0 ∧ latent_user_signal <$> heap k' !! d = Some false) k.
Proof.
  intros Hh. apply wp_early_await; [done | | done | done | by left |].
  - intros i m [_ H2]. simpl. unfold await_cond. by rewrite H2, orb_true_r.
  - intros i arg' k' Hh' Hi' _. pose proof Hh' as (i' & m & _ & Hd & Hi & _ & Hm & _).
    rewrite Hi in Hi'. injection Hi' as ->. eapply wp_await_done; [done | done | by eexists |].
    intros r k3 Hr Hi3 _. destruct Hr as [[-> Hc]|[-> _]]; [left | right]; (split; [done|]).
    + intros Hfin. eexists. rewrite Hi3, lookup_insert_eq. split; [done|]. by apply Hc.
    + by rewrite Hi3, lookup_insert_eq.
Qed.

(** A signal after the first one, and what the library does before it sleeps. *)
Lemma holds_early r k k' :
  holds filp d (λ i _, initial_signal i = true) k → xen_shm_event_handler d k = Done r k' → early k'.
Proof.
  intros (i & m & Hf & Hd & Hi & Hs & Hm & Hinit) (j & Hj & Hp & Hfd & Hh)%handler_done.
  rewrite Hi in Hj. injection Hj as <-. rewrite Hinit in Hh. unfold holds. rewrite Hp, Hfd, Hh, lookup_insert_eq.
  by eexists _, m.
Qed.

Lemma early_steps k k' : rtc (own_step filp awake) k k' → early k → early k'.
Proof.
  apply (holds_own_steps _ _ _ early_lasting). intros cmd arg g k1 Ha Hh.
  apply (holds_ioctl _ _ _ early_lasting); [|done]. intros a k2 [Hfl Hj]%Ha Hh2. by apply wp_early_probe.
Qed.
End Early.
End Stack.
