(* ===== verification/StackTheorems.v ===== *)
(** The properties of the library above the module, with concrete systems. *)
From stdpp Require Import gmap relations.
From S2P Require Import Prelude Abi Ring PipeDefs PipeFifo PipeSide PipeWait PipeApi PipeStream PipeTheorems KDefs KEvent KMemory KIoctl KFile KRules KKeeps KSpecs KOffer KRuns KTheorems Stack.
Open Scope Z_scope.
Open Scope c_scope.

(** C21. A signal is not lost: once the channel is initialised, a signal that comes
    while its receiver is awake, whatever other signals come and however often the
    receiver signals or asks whether the memory is closed, makes its next sleep, with
    the argument a pipe has from [xen_shm_pipe_init], end at once with 0, which
    consumes it, or with -EPIPE, and then the memory is closed. *)
Theorem signal_is_not_lost `{K : KernelEnv} filp d fd mod_ conv_ mem g k k1 k2 :
  at_once → arguments_mapped → holds filp d (λ i _, initial_signal i = true) k →
  xen_shm_event_handler d k = Done tt k1 → rtc (own_step filp awake) k1 k2 →
  wp (xen_shm_ioctl filp XEN_SHM_IOCTL_AWAIT (ArgAwait (await_op (init_priv fd mod_ conv_ mem))) g) (λ r k',
    r.1 = - EPIPE ∧ (closing_is_final → closed_at d k') ∨
    r.1 = 0 ∧ latent_user_signal <$> heap k' !! d = Some false) k2.
Proof.
  intros Ho Ha Hh E Hs. assert (holds filp d signalled_early k2) as H2.
  { eapply early_steps; [done..|]. by eapply holds_early. }
  apply (wp_ioctl_await filp d); [done | by destruct H2 as (i & m & Hf & _) |]. intros k3 H3.
  eapply wp_mono; [apply (wp_early_sleep filp d); [done | by eapply alike_holds]|].
  intros r k4 Hr k5 (Hk & Hp & _). unfold closed_at, page_closed in *. rewrite Hk, Hp. exact Hr.
Qed.

(** Nothing happens while a process sleeps for ever. *)
Definition prompt_kenv : KernelEnv := {|
  respond := demo_respond;
  other_domain := λ _ m, m;
  page_at := λ _, MetaPage 0 0 0 0 0 (replicate 128 0);
  wait := λ _ cond j i m, (if cond i m then j else - ERESTARTSYS, i, m);
  kaddr_of_page := λ p, p;
  kpte_maddr := λ a, a;
  HZ := 1000;
|}.
Definition prompt_kernel : kernel :=
  demo_kernel (set_initial_signal true demo_offerer) {[ 65536 := demo_header 2 2 ]}.

(** The interrupt handler runs, and the library asks whether the memory is closed. *)
Lemma signal_is_not_lost_witness :
  ∃ k1 k2, xen_shm_event_handler (H := prompt_kenv) 77 prompt_kernel = Done tt k1 ∧
    run_entry (H := prompt_kenv) (IoctlFile 5 XEN_SHM_IOCTL_AWAIT (ArgAwait (IoctlargAwait XEN_SHM_IOCTL_AWAIT_INIT 1 9)) 0) k1 =
      Done 0 k2 ∧
    wp (xen_shm_ioctl (H := prompt_kenv) 5 XEN_SHM_IOCTL_AWAIT (ArgAwait (await_op (demo_priv xen_shm_pipe_mod_read))) 0) (λ r k',
      r.1 = - EPIPE ∧ (closing_is_final (H := prompt_kenv) → closed_at 77 k') ∨
      r.1 = 0 ∧ latent_user_signal <$> heap k' !! 77 = Some false) k2.
Proof.
  eexists _, _. split; [vm_compute; reflexivity|]. split; [vm_compute; reflexivity|].
  eapply (signal_is_not_lost (K := prompt_kenv) 5 77 3 xen_shm_pipe_mod_read xen_shm_pipe_conv_writer_offers
    (demo_priv xen_shm_pipe_mod_read) 0 prompt_kernel).
  - intros t cond j i m Hc. simpl. by rewrite Hc.
  - by intros t.
  - by eexists _, _.
  - vm_compute. reflexivity.
  - apply rtc_once. eexists (IoctlFile 5 XEN_SHM_IOCTL_AWAIT (ArgAwait (IoctlargAwait XEN_SHM_IOCTL_AWAIT_INIT 1 9)) 0), 0.
    split; [vm_compute; reflexivity|]. split; [done|]. by intros a ->.
Defined.

(** C22. A memory that one side has closed ends every transfer: when the module finds
    the header page marked CLOSED, the waits of the library end within their limit.
    A read answers what it moved; when it moved nothing, 0 at the end of the stream, or
    -1 with EPIPE. A write answers what it moved; when it moved nothing, -1, with EPIPE
    when the module told it, or with [errno] as it was when it saw by itself that the
    reader closed its end. *)
Theorem closed_memory_ends_transfers `{K : KernelEnv} `{E : PipeEnv} filp d hist size fuel garbage buf m w :
  closing_is_final → arguments_mapped → stacked filp hist → holds filp d closed (hist 0%nat) →
  XEN_SHM_PIPE_WAIT_LOOP_LIMIT < Z.of_nat fuel →
  ((∀ t s, ring_wf size s → writer_step size s (peer t s)) → read_ok size buf m w →
   wp (xen_shm_pipe_read_all fuel garbage buf m) (transfer_all (λ n, read_moves size buf n w) (λ r w',
     r = 0 ∧ (close_is_final → has (reader_flags (sh w')) XSHMP_CLOSED = true ∨ writer_closed (sh w') ∧ content (sh w') = [])
     ∨ r = -1 ∧ errno w' = EPIPE) m) w) ∧
  ((∀ t s, ring_wf size s → reader_step size s (peer t s)) → write_ok size buf m w →
   wp (xen_shm_pipe_write_all fuel garbage buf m) (transfer_all (λ n, accepted size buf n w) (λ r w',
     r = -1 ∧ (errno w' = EPIPE ∨ (reader_close_is_final → reader_closed (sh w')))) m) w).
Proof.
  intros Hc Hm Hst Hh Hf. pose proof (closed_broken Hc filp d hist Hm Hst Hh) as Hb. split; intros Hpeer Hok.
  - eapply wp_mono; [apply (triple_read_all size Hpeer (Triple0 := total)); [|done]|].
    { intros. by apply wp_wait_reader_broken. }
    intros r w'. apply transfer_all_stop. intros r0 [?|[? He]]; [by left | right]. by split; [|apply He].
  - pose proof Hok as [((_ & _ & _ & Hsz & _) & _) _].
    eapply wp_mono; [apply (triple_write_all size Hpeer (Triple0 := total)); [|done]|].
    { intros. by apply wp_wait_writer_broken. }
    intros r w'. apply transfer_all_stop. intros r0 (? & _ & [?|He]); (split; [done|]); [by right | left; by apply He].
Qed.

(** The module of [demo_kenv] below a library whose other end does nothing. *)
Definition answer_of (r : Z * ioctl_arg) : sysanswer :=
  if r.1 <? 0 then SysAnswer (-1) (- r.1) 0 0 else
  match r.2 with
  | ArgOfferer o => SysAnswer r.1 0 (off_grant o) (off_local_domid o)
  | ArgAwait a => SysAnswer r.1 0 (remaining_ms a) 0
  | ArgDomid d => SysAnswer r.1 0 d 0
  | ArgReceiver _ | ArgNone => SysAnswer r.1 0 0 0
  end.
Definition closed_kernel : kernel :=
  demo_shared (demo_header XEN_SHM_META_PAGE_STATE_OPENED XEN_SHM_META_PAGE_STATE_CLOSED).
Definition above : PipeEnv := {|
  peer := λ _ s, s;
  answer := λ _ c,
    match ioctl_of c with
    | Some (cmd, arg) =>
        match xen_shm_ioctl (H := demo_kenv) 5 cmd arg 0 closed_kernel with
        | Done r _ => answer_of r
        | _ => SysAnswer 0 0 0 0
        end
    | None => SysAnswer 0 0 0 0
    end |}.

Lemma answer_of_reported r : reported r (answer_of r).
Proof.
  unfold answer_of. split.
  - intros Hr _. by rewrite (proj2 (Z.ltb_lt _ _) Hr).
  - intros Hr. rewrite (proj2 (Z.ltb_ge _ _) Hr). by destruct r as [? []].
Qed.

Lemma above_stacked : stacked (H := demo_kenv) (H0 := above) 5 (λ _, closed_kernel).
Proof.
  split; [|done]. intros t c cmd arg g r k' Hc Hr. cbn [answer above]. rewrite Hc.
  replace (xen_shm_ioctl (H := demo_kenv) 5 cmd arg 0 closed_kernel) with (Done r k'); [apply answer_of_reported|].
  rewrite <-Hr. destruct c; try done; injection Hc as <- <-; reflexivity.
Qed.

Lemma closed_memory_ends_transfers_witness :
  let w := demo_world xen_shm_pipe_mod_read demo_empty in
  wp (xen_shm_pipe_read_all (H := above) (Z.to_nat 10001) 0 8195 20) (transfer_all (λ n, read_moves 16 8195 n w) (λ r w',
     r = 0 ∧ (close_is_final (H := above) → has (reader_flags (sh w')) XSHMP_CLOSED = true ∨ writer_closed (sh w') ∧ content (sh w') = [])
     ∨ r = -1 ∧ errno w' = EPIPE) 20) w.
Proof.
  refine (proj1 (closed_memory_ends_transfers (K := demo_kenv) (E := above) 5 77 (λ _, closed_kernel) 16 (Z.to_nat 10001) 0 8195 20
    (demo_world xen_shm_pipe_mod_read demo_empty) _ _ above_stacked _ _) _ _).
  - by intros t m.
  - by intros t.
  - by eexists _, _.
  - by rewrite Z2Nat.id.
  - intros t s. apply writer_step_refl.
  - split; [apply demo_ready, demo_empty_wf | apply demo_range].
Defined.
